(* ===== verification/_CoqProject ===== *)
-Q . S2P
Prelude.v
Errors.v
Kdf.v
Standards.v
Rc4.v
Str.v
Cipher.v
Protocol.v
ProtocolSpec.v
ProtocolPackets.v
Net.v
Address.v
Float.v
FloatBounds.v
Panel.v
Profile.v
Config.v
PanelClient.v
Session.v
SessionSpec.v
Client.v
EndToEnd.v
Policy.v
Traffic.v
Conn.v
RateLimit.v
TtlMap.v
RelayAudit.v
Task.v
Listeners.v
TcpRelay.v
UdpRelay.v
Interleave.v
SessionTypes.v
TcpSpec.v
TcpHistory.v
TcpSafety.v
UdpSpec.v
TcpTheorems.v
TcpMeter.v
Supervisor.v
SupervisorSpec.v
SupervisorInv.v
SupervisorLog.v
SupervisorTheorems.v
TcpListener.v
Composition.v
Signals.v
Main.v
Tests.v
