(* ===== verification/Prelude.v ===== *)
(** * A verification library for sspanel-ssr-rust-backend

    The program is the backend of an SSPanel node that speaks ShadowsocksR
    ([auth_aes128_md5] over [rc4-md5] or [chacha20]): it polls a panel for
    the users of the node, runs one TCP and one UDP relay per port, and
    reports traffic, online addresses, status and audit hits back.  This
    library is a shallow embedding of it with its correctness theorems.

    ** The parts of the program and how they interact

    [BackendRuntime] (runtime/supervisor.rs) is the only task that talks to
    the panel.  At each poll it turns the rows into profiles and policies,
    publishes the user tables, and starts or stops the listener of each
    port.  A TCP listener (tcp.rs) accepts connections within its permits;
    each connection decodes the stream with a [ServerSession] (ssr/mod.rs:
    the stream cipher of ssr/cipher.rs under the protocol of
    ssr/protocol.rs), reads the address header (ssr/address.rs), consults
    the published tables and the policy, takes a device slot, connects and
    relays both ways.  A UDP listener (udp.rs) decodes datagrams and keeps
    an association per client peer and user.  Relays and supervisor share
    the traffic counters, the IP sets and the limiters (traffic.rs), the
    published tables (user_tables.rs) and the channel of audit events
    (audit.rs).

    ** Files

    Foundations:
    - [Prelude]: bytes, machine integers, slices with their panics, lists,
      the result monad; [Errors]: each [bail!] as a constructor;
      [Str], [Net], [Float]: the parts of Rust's [str], [IpAddr], [f64] and
      [Duration] that the program computes with; [FloatBounds]: bounds of
      rounded arithmetic;
    - [Standards]: MD5, HMAC, AES-128, base64 and ChaCha20 from their
      standards, with the standards' test vectors, and the proof that they
      are an instance of the cryptography the theorems are about;
    - [Task]: [async] code against an arbitrary environment.

    The wire protocol (src/src/ssr):
    - [Kdf] (kdf.rs), [Rc4] (rc4.rs), [Cipher] (cipher.rs), [Protocol]
      (protocol.rs), [Address] (address.rs), [Session] and [Profile]
      (mod.rs), [Client] (the reference client of the tests of mod.rs);
    - their specifications: [ProtocolSpec] (frames cut from a byte string),
      [ProtocolPackets] (packets sent are packets accepted, and only
      those), [SessionSpec], [Interleave], [EndToEnd]; [SessionTypes]: the
      invariant of a session's state.

    Configuration, panel and policy:
    - [Config] (config.rs, and the argument handling of main.rs), [Panel]
      (the methods and answers of panel.rs), [PanelClient] (its
      construction and its URLs), [Policy] (policy.rs).

    Accounting (traffic.rs, runtime/state.rs, audit.rs, user_tables.rs):
    - [Traffic] ([TrafficLedger]), [Conn] ([ConnLedger]), [RateLimit]
      ([RateLimiter], [SpeedLedger]), [TtlMap] ([BoundedTtlMap]),
      [RelayAudit] (the event channel, [ConnectionAuditor], [UserTables]).

    The tasks:
    - [TcpRelay] ([handle_stream] and below, tcp.rs) with [TcpSpec],
      [TcpHistory] (the log of a session against the shared objects),
      [TcpSafety] (no panic), [TcpTheorems] and [TcpMeter] (the rate
      limit); [TcpListener] ([run_listener] of tcp.rs);
    - [UdpRelay] (udp.rs) with [UdpSpec];
    - [Supervisor] (runtime/supervisor.rs) with [SupervisorSpec],
      [SupervisorInv], [SupervisorLog] (its exchanges with the panel) and
      [SupervisorTheorems]; [Listeners] (the handles it keeps);
    - [Composition]: what the tasks promise each other;
    - [Signals] ([shutdown_signal] and the loop that listens to it), [Main]
      (main.rs);
    - [Tests]: the unit tests of the repository, evaluated with the
      primitives of [Standards].

    ** How the code is modelled

    A [&mut self] method is a function that returns the new state; one that
    can fail returns a [result] whose outcomes are a value, an [Err] and a
    panic, so panic freedom is a theorem and not an assumption.  Objects
    behind an [Arc] live in a heap ([gmap] of locations), so that an
    aliased counter, IP set or limiter is one location with several
    holders.  Integers keep their width where the code's arithmetic wraps
    or saturates.

    An [async fn] is a computation of [Task]: every await is answered by
    the environment, which sees the log of the task and may change the
    shared objects meanwhile.  A theorem for all environments is a theorem
    for every network, panel, clock and scheduler; two tasks never run
    between two awaits of each other, so nothing finer than an await
    interleaves, except the lock-free counters, which the environment may
    add to at any await.  The relays and the supervisor are verified apart,
    each with the others as its environment, by rely and guarantee:
    [Composition] shows that what each does to the shared objects is within
    what the theorems about the others assume of their environment.

    The labels of a log are not taken at their word.  A label of a session
    that speaks of shared objects (a slot taken or given back, an addition
    to a counter, a round of a limiter with its verdict) is tied to the
    objects: [TcpHistory.accounts_for] replays the log, each such label as a
    step that the object of that moment allows.  The supervisor logs each
    request with its answer, and [SupervisorLog.exchanges_real] says that
    the environment gave it; whether the panel took a report is read off
    the answer ([Panel.taken]), what was reported off the request.  The
    accept loop's entries are tied to the events the environment gave
    ([TcpListener.answered]).

    ** What the theorems show

    - Framing: the receive path refines a specification without buffers
      ([ProtocolSpec.post_decrypt_refines]), so it never panics, and its
      output does not depend on how the stream was cut into chunks.
    - Authenticity: a header that is accepted carries valid MACs under the
      keys of its connection and of the user it names; a UID that no table
      knows is accepted under the port's own key, which is recorded as a
      finding.
    - Round trips: reference client to server and back, for streams
      ([EndToEnd.tcp_end_to_end]) and datagrams ([EndToEnd.udp_end_to_end]),
      for both ciphers and any cut; address header; UDP responses.
    - TCP sessions: bytes pass unchanged and in order, forbidden targets are
      never tried, the device slot brackets the connection and was admitted
      by the user's IP set, every byte is counted, and none is forwarded
      before the bucket of the user has granted it; against a scripted peer
      the session ends with one side read to its end and all it read
      delivered, and with both delivered whole if no end comes early.
    - TCP listeners: never more sessions than permits, no connection passed
      over, and a session sees the tables that were published when it was
      accepted.
    - UDP: what a datagram leads to on each branch; the associations and
      sockets of a listener; a reply opens for its client.
    - Composition: sessions and UDP listeners only add to counters, send
      events, run rounds of limiters and take and give back slots; the
      supervisor only allocates, sets rates and publishes; each side's assumptions follow from the other's
      guarantee.
    - Accounting: traffic is reported exactly once whatever the panel
      answers and the relays record, in the requests as they were sent; device counts are the live guards; a
      token bucket never panics nor asks for an endless sleep, whatever its
      rounding, and a pause refills it; the TTL map stays within its
      capacity.
    - Supervisor: the tables, listeners and ledgers after a poll as
      functions of the rows; a poll restarts exactly the listeners whose
      port has a row with another password, profile or mode (tick periods of
      zero, which the validation lets through, panic: a finding); the invariant of its state, including that the
      map of listeners is the set of those running; every turn ends once
      its awaits are answered; a report that the panel takes is not sent
      again, and one it refuses is kept.
    - Configuration, panel answers and policies: each function on every
      branch; where the requests of the panel client go.
    - The program: what it takes to start, what an error leaves behind, that
      it then does what the supervisor does with that configuration against
      that client, that it does not panic with positive tick periods and leaves no listener
      running ([Main.main_spec]); when a signal ends it ([Signals]).

    ** Bounds and fuel

    Loops over a buffer run with its length as fuel, and every round
    consumes at least one byte: the theorems are about the result and not
    about running out, and [SessionSpec.session_decrypt_refines] rules the
    remaining outcome out.  The loops of tasks ([relay],
    [run_listener], [tick_loop]) run for as many turns as the fuel says;
    partial-correctness theorems hold for every fuel, and the termination
    and liveness theorems ([TcpTheorems.session_delivers],
    [SupervisorTheorems.supervisor_turns_complete]) give the fuel that is
    enough.

    ** Third-party code

    Parameters with their documented behaviour: the primitives of the
    crypto crates ([Kdf.Crypto] with [Kdf.CryptoLaws]); the operating
    system's generator; the answers of the panel after HTTP and JSON
    ([Panel.Wire]); URLs and the HTTP client ([PanelClient.Http]); the regex
    engine ([RelayAudit.RegexEngine]); tokio's signal driver
    ([Signals.SignalDriver] with [Signals.SignalLaws]).  [Standards.standard_crypto] is the
    instance the program runs with, and every unit test of the repository
    passes under it ([Tests]); the small instance [Kdf.Toy] is not
    cryptography: with it the witnesses evaluate fast.

    ** Not modelled

    - The inside of HTTP, JSON and TOML: [reqwest], [url], [serde] and the
      parser behind [Config::load] are arguments.
    - The start of the tokio runtime and of the tracing subscriber in
      [main], and the wording of log lines.
    - tokio's scheduler beyond the environment of [Task]; the exact length
      of a sleep (a time-out may fire at any await that has one).
    - Capacity hints of collections.  The iteration order of a hash map is
      not fixed: it is an arbitrary permutation ([Traffic.HashOrder]).
    - The end of the ChaCha20 keystream, where the crate panics.
    - The installation script and the Python test clients. *)

From stdpp Require Export base gmap strings list fin_maps.
From coqutil Require Export Byte.
From coqutil Require Export Word.LittleEndianList.
From Stdlib Require Export Lia ZArith.
From Stdlib Require String.
From Stdlib Require Ascii.
Export Stdlib.Strings.Ascii (ascii(..)).
Export (notations) Stdlib.Strings.Ascii.

#[global] Open Scope nat_scope.

(** ** Bytes

    A Rust [u8] is a [byte] (256 constructors, so a value is in range by
    construction), a [Vec<u8>] or [&[u8]] is a [bytes].  [u16], [u32],
    [u64], [u128] and [i64] values are [Z]; [usize] is [nat]. *)

Abbreviation byte := Init.Byte.byte (only parsing).
Abbreviation bytes := (list Init.Byte.byte).

#[export] Instance byte_eq_decision : EqDecision byte := Byte.byte_eq_dec.
#[export] Instance byte_inhabited : Inhabited byte := populate Byte.x00.

(** [u8 as usize]. *)
Definition u8_idx (b : byte) : nat := Z.to_nat (byte.unsigned b).

(** [u8::wrapping_add]. *)
Definition u8_wrapping_add (a b : byte) : byte :=
  byte.of_Z (byte.unsigned a + byte.unsigned b).

(** [usize as u8]. *)
Definition usize_as_u8 (n : nat) : byte := byte.of_Z (Z.of_nat n).

(** [^] on [u8]. *)
Definition u8_xor (a b : byte) : byte :=
  byte.of_Z (Z.lxor (byte.unsigned a) (byte.unsigned b)).

(** [u32::wrapping_add(1)]. *)
Definition u32_succ (n : Z) : Z := ((n + 1) mod 2 ^ 32)%Z.

(** [usize as u16]. *)
Definition usize_as_u16 (n : nat) : Z := (Z.of_nat n mod 2 ^ 16)%Z.

(** ** Results

    [res E A] is the outcome of a Rust expression: a value, an error value
    of type [E], or a panic (slice index out of range, failed [expect],
    length mismatch in [copy_from_slice], remainder by zero).  A loop that
    is modelled with fuel returns [OutOfFuel] when the fuel is used up; the
    theorems show that this does not happen with the fuel chosen. *)
Inductive res (E A : Type) : Type :=
  | Ok (a : A)
  | Err (e : E)
  | Panic
  | OutOfFuel.
Arguments Ok {E A} a.
Arguments Err {E A} e.
Arguments Panic {E A}.
Arguments OutOfFuel {E A}.

#[export] Instance res_ret {E} : MRet (res E) := fun A a => Ok a.
#[export] Instance res_bind {E} : MBind (res E) := fun A B f m =>
  match m with
  | Ok a => f a
  | Err e => Err e
  | Panic => Panic
  | OutOfFuel => OutOfFuel
  end.

(** A computation that either succeeds with a value satisfying [P] or
    returns an error value: no panic, no divergence. *)
Definition safe {E A} (P : A -> Prop) (r : res E A) : Prop :=
  match r with
  | Ok a => P a
  | Err _ => True
  | Panic | OutOfFuel => False
  end.

(** [bail!(e)] under a condition. *)
Definition bail_if {E} (b : bool) (e : E) : res E () :=
  if b then Err e else Ok ().

(** [opt.expect(..)]. *)
Definition expect {E A} (o : option A) : res E A :=
  match o with Some a => Ok a | None => Panic end.

(** ** State and error

    A [&mut self] method that returns a [Result]: the state survives an
    error, as it does in Rust. *)
Definition ST (S E A : Type) : Type := S -> res E A * S.

#[export] Instance ST_ret {S E} : MRet (ST S E) := fun A a s => (Ok a, s).
#[export] Instance ST_bind {S E} : MBind (ST S E) := fun A B f m s =>
  match m s with
  | (Ok a, s') => f a s'
  | (Err e, s') => (Err e, s')
  | (Panic, s') => (Panic, s')
  | (OutOfFuel, s') => (OutOfFuel, s')
  end.

Definition lift {S E A} (r : res E A) : ST S E A := fun s => (r, s).
Definition get {S E} : ST S E S := fun s => (Ok s, s).
Definition put {S E} (s' : S) : ST S E () := fun _ => (Ok (), s').
Definition modify {S E} (f : S -> S) : ST S E () := fun s => (Ok (), f s).

(** The outcome of a method, with the state kept when it succeeded. *)
Definition outcome {S E A} (m : ST S E A) (s : S) : res E (A * S) :=
  match m s with
  | (Ok a, s') => Ok (a, s')
  | (Err e, _) => Err e
  | (Panic, _) => Panic
  | (OutOfFuel, _) => OutOfFuel
  end.

(** ** Slices *)

(** [&buf[a..b]]: panics unless [a <= b <= buf.len()]. *)
Definition slice {E A} (buf : list A) (a b : nat) : res E (list A) :=
  if (a <=? b) && (b <=? length buf) then Ok (take (b - a) (drop a buf)) else Panic.

(** [buf[i]]. *)
Definition index {E A} (buf : list A) (i : nat) : res E A := expect (buf !! i).

(** [&buf[a..]]. *)
Definition slice_from {E A} (buf : list A) (a : nat) : res E (list A) :=
  slice buf a (length buf).

(** [buf.drain(..n)], the part that is kept. *)
Definition drain_front {E A} (n : nat) (buf : list A) : res E (list A) :=
  if n <=? length buf then Ok (drop n buf) else Panic.

(** [dst.copy_from_slice(src)] for a [dst] of [n] elements. *)
Definition copy_from_slice {E A} (n : nat) (src : list A) : res E (list A) :=
  if length src =? n then Ok src else Panic.

(** The bytes [buf[i], buf[i+1], .., buf[i+n-1]], each indexed on its own. *)
Fixpoint index_n {E A} (buf : list A) (i n : nat) : res E (list A) :=
  match n with
  | 0 => Ok []
  | S n => b ← index buf i; rest ← index_n buf (S i) n; Ok (b :: rest)
  end.

(** The total version of [slice], used by specifications. *)
Definition sub {A} (buf : list A) (a b : nat) : list A := take (b - a) (drop a buf).

(** ** Endianness *)

Definition u16_from_le (b : bytes) : Z := le_combine b.
Definition u32_from_le (b : bytes) : Z := le_combine b.
Definition u16_from_be (b : bytes) : Z := le_combine (reverse b).
Definition u16_to_le (n : Z) : bytes := le_split 2 n.
Definition u32_to_le (n : Z) : bytes := le_split 4 n.
Definition u16_to_be (n : Z) : bytes := reverse (le_split 2 n).

(** ** Automation *)

Create HintDb rust.
Create HintDb len.

(** Case analysis on the outermost match of the goal, keeping equations. *)
Ltac case_all := repeat (case_match; simplify_eq/=; try done).

(** Walk down a chain of guards that ended in a value. *)
Ltac split_guards H :=
  repeat match type of H with
    | (if ?b then _ else _) = _ => destruct b eqn:?; [try discriminate H | try discriminate H]
    end.

(** ** Lemmas on bytes *)

Lemma u8_unsigned_range b : (0 <= byte.unsigned b < 256)%Z.
Proof. pose proof (byte.unsigned_range b). lia. Qed.

Lemma u8_idx_lt b : u8_idx b < 256.
Proof. unfold u8_idx. pose proof (u8_unsigned_range b). lia. Qed.

Lemma lxor_u8_range a b :
  (0 <= a < 2 ^ 8)%Z -> (0 <= b < 2 ^ 8)%Z -> (Z.lxor a b mod 2 ^ 8 = Z.lxor a b)%Z.
Proof.
  intros Ha Hb. rewrite <- Z.land_ones by lia.
  apply Z.bits_inj'. intros n Hn.
  rewrite Z.land_spec, Z.lxor_spec.
  destruct (Z.lt_ge_cases n 8).
  - rewrite Z.ones_spec_low by lia. apply andb_true_r.
  - rewrite Z.ones_spec_high by lia. rewrite andb_false_r.
    rewrite <- (Z.mod_small a (2 ^ 8)), <- (Z.mod_small b (2 ^ 8)) by lia.
    by rewrite !Z.mod_pow2_bits_high by lia.
Qed.

Lemma u8_xor_unsigned a b :
  byte.unsigned (u8_xor a b) = Z.lxor (byte.unsigned a) (byte.unsigned b).
Proof.
  unfold u8_xor. rewrite byte.unsigned_of_Z.
  apply lxor_u8_range; apply byte.unsigned_range.
Qed.

Lemma u8_xor_cancel a k : u8_xor (u8_xor a k) k = a.
Proof.
  apply byte.unsigned_inj. rewrite !u8_xor_unsigned.
  by rewrite Z.lxor_assoc, Z.lxor_nilpotent, Z.lxor_0_r.
Qed.

(** ** Lemmas on results *)

Lemma bind_Ok {E A B} (a : A) (f : A -> res E B) : (Ok a ≫= f) = f a.
Proof. done. Qed.

Lemma bind_assoc {E A B C} (m : res E A) (f : A -> res E B) (g : B -> res E C) :
  ((m ≫= f) ≫= g) = (m ≫= (fun a => f a ≫= g)).
Proof. by destruct m. Qed.

Lemma bind_inv_Ok {E A B} (m : res E A) (f : A -> res E B) b :
  (m ≫= f) = Ok b -> exists a, m = Ok a /\ f a = Ok b.
Proof. destruct m; cbn; naive_solver. Qed.

Lemma safe_bind {E A B} (P : A -> Prop) (Q : B -> Prop) (m : res E A) (f : A -> res E B) :
  safe P m -> (forall a, P a -> safe Q (f a)) -> safe Q (m ≫= f).
Proof. destruct m; cbn; auto. Qed.

Lemma safe_mono {E A} (P Q : A -> Prop) (m : res E A) :
  safe P m -> (forall a, P a -> Q a) -> safe Q m.
Proof. destruct m; cbn; auto. Qed.

Lemma bail_if_false {E} (b : bool) (e : E) : b = false -> bail_if b e = Ok ().
Proof. by intros ->. Qed.

(** ** Lemmas on slices *)

Lemma slice_ok {E A} (buf : list A) a b :
  a <= b <= length buf -> slice (E:=E) buf a b = Ok (sub buf a b).
Proof.
  intros [??]. unfold slice.
  rewrite (proj2 (Nat.leb_le a b)), (proj2 (Nat.leb_le b _)) by lia. done.
Qed.

Lemma slice_from_ok {E A} (buf : list A) a :
  a <= length buf -> slice_from (E:=E) buf a = Ok (drop a buf).
Proof.
  intros ?. unfold slice_from. rewrite slice_ok by lia.
  unfold sub. rewrite take_ge; [done|]. rewrite length_drop. lia.
Qed.

Lemma drain_front_ok {E A} n (buf : list A) :
  n <= length buf -> drain_front (E:=E) n buf = Ok (drop n buf).
Proof. intros ?. unfold drain_front. by rewrite (proj2 (Nat.leb_le _ _)). Qed.

Lemma copy_from_slice_ok {E A} n (src : list A) :
  length src = n -> copy_from_slice (E:=E) n src = Ok src.
Proof. intros <-. unfold copy_from_slice. by rewrite Nat.eqb_refl. Qed.

Lemma length_sub {A} (buf : list A) a b :
  a <= b -> b <= length buf -> length (sub buf a b) = b - a.
Proof. intros. unfold sub. rewrite length_take, length_drop. lia. Qed.

Lemma index_n_ok {E A} (buf : list A) i n :
  i + n <= length buf -> index_n (E:=E) buf i n = Ok (sub buf i (i + n)).
Proof.
  revert i. induction n as [|n IH]; intros i Hi; cbn.
  - unfold sub. by rewrite Nat.add_0_r, Nat.sub_diag.
  - destruct (lookup_lt_is_Some_2 buf i) as [x Hx]; [lia|].
    unfold index. rewrite Hx. cbn. rewrite IH by lia. cbn. f_equal.
    unfold sub. rewrite (drop_S buf x i Hx).
    replace (i + S n - i) with (S n) by lia. simpl. do 2 f_equal. lia.
Qed.

Lemma sub_app_l {A} (buf ext : list A) a b :
  b <= length buf -> sub (buf ++ ext) a b = sub buf a b.
Proof.
  intros. unfold sub. destruct (decide (a <= b)) as [Hab|Hab].
  - rewrite drop_app_le by lia. rewrite take_app_le; [done|]. rewrite length_drop; lia.
  - replace (b - a) with 0 by lia. done.
Qed.

Lemma sub_app_r {A} (pre buf : list A) a b :
  length pre <= a -> sub (pre ++ buf) a b = sub buf (a - length pre) (b - length pre).
Proof.
  intros. unfold sub. rewrite drop_app_ge by lia. f_equal. lia.
Qed.

Lemma sub_all {A} (buf : list A) n : n = length buf -> sub buf 0 n = buf.
Proof. intros ->. unfold sub. by rewrite drop_0, Nat.sub_0_r, firstn_all. Qed.

Lemma sub_app_exact {A} (pre mid post : list A) a b :
  a = length pre -> b = a + length mid -> sub (pre ++ mid ++ post) a b = mid.
Proof.
  intros -> ->. rewrite sub_app_r by done.
  rewrite Nat.sub_diag, Nat.add_comm, Nat.add_sub.
  rewrite sub_app_l by done. by apply sub_all.
Qed.

Lemma sub_exact {A} (buf pre mid post : list A) a b :
  buf = pre ++ mid ++ post -> a = length pre -> b = a + length mid -> sub buf a b = mid.
Proof. intros ->. apply sub_app_exact. Qed.

Lemma sub_app_tail {A} (pre mid : list A) a b :
  a = length pre -> b = a + length mid -> sub (pre ++ mid) a b = mid.
Proof.
  intros. rewrite <- (app_nil_r (pre ++ mid)), <- app_assoc. by apply sub_app_exact.
Qed.

Lemma sub_app_head {A} (pre post : list A) b :
  b = length pre -> sub (pre ++ post) 0 b = pre.
Proof. intros. by apply (sub_app_exact []). Qed.

(** ** Lemmas on endianness *)

Lemma length_u16_to_le n : length (u16_to_le n) = 2.
Proof. done. Qed.

Lemma length_u32_to_le n : length (u32_to_le n) = 4.
Proof. done. Qed.

Lemma u16_from_to_le n : (0 <= n < 2 ^ 16)%Z -> u16_from_le (u16_to_le n) = n.
Proof.
  intros. unfold u16_from_le, u16_to_le.
  rewrite LittleEndianList.le_combine_split. by apply Z.mod_small.
Qed.

Lemma u32_from_to_le n : (0 <= n < 2 ^ 32)%Z -> u32_from_le (u32_to_le n) = n.
Proof.
  intros. unfold u32_from_le, u32_to_le.
  rewrite LittleEndianList.le_combine_split. by apply Z.mod_small.
Qed.

Lemma u16_from_to_be n : (0 <= n < 2 ^ 16)%Z -> u16_from_be (u16_to_be n) = n.
Proof.
  intros. unfold u16_from_be, u16_to_be. rewrite reverse_involutive.
  by apply u16_from_to_le.
Qed.

Lemma u16_from_le_range b : length b = 2 -> (0 <= u16_from_le b < 2 ^ 16)%Z.
Proof.
  intros Hb. pose proof (LittleEndianList.le_combine_bound b) as H.
  rewrite Hb in H. exact H.
Qed.

Lemma u32_from_le_range b : length b = 4 -> (0 <= u32_from_le b < 2 ^ 32)%Z.
Proof.
  intros Hb. pose proof (LittleEndianList.le_combine_bound b) as H.
  rewrite Hb in H. exact H.
Qed.

#[export] Hint Rewrite length_u16_to_le length_u32_to_le @length_app @length_take
  @length_drop @length_cons @length_nil : len.
Ltac len := autorewrite with len in *; simpl in *; try lia.
