(* ===== verification/Errors.v ===== *)
(** * Error values

    Every [bail!] and [anyhow!] of the program as a constructor, with the
    data its message shows.  The source text of the message is the comment
    of the constructor's line in the code. *)

From S2P Require Import Prelude.

Inductive error : Type :=
  (** cipher.rs, ssr/mod.rs *)
  | UnsupportedMethod (method : string)
  | UnsupportedProfile (method protocol obfs : string)
  | UdpShorterThanIv (iv_len : nat)
  | RandomFailure
  | EncryptBeforeHandshake
  (** protocol.rs, TCP *)
  | CheckHeadMismatch
  | AuthHmacMismatch
  | BadAuthLength (length : nat)
  | AuthChecksumMismatch
  | RndLenOverrun (rnd_len : nat)
  | LengthHmacMismatch
  | BadDataLength (length : nat)
  | DataChecksumMismatch
  | PaddingOverrun
  (** protocol.rs, UDP *)
  | UdpTooShort (length : nat)
  | UdpHmacMismatch
  (** address.rs *)
  | NonUtf8Domain
  | UnsupportedAtyp (atyp : byte)
  (** config.rs *)
  | BaseUrlRequired
  | KeyRequired
  | WorkersZero
  | ServerPortZero
  | TimeoutZero
  | LimitsZero
  | ConfigUnreadable
  | ConfigNotToml
  (** tcp.rs, udp.rs *)
  | HandshakeTooLong
  | HandshakeIdleTimeout
  | ReadFailed
  | NoTrafficCounter (user_id : Z)
  | NoConnectionCounter (user_id : Z)
  | InitialPayloadMatched
  | AddressIncomplete
  | PortForbidden (port : Z)
  | ResolveFailed
  | NotResolved
  | OnlyForbiddenAddresses
  | ConnectFailed
  | WriteFailed
  | RemoteWriteTimeout
  | ClientWriteTimeout
  | SessionIdleTimeout
  | BindFailed
  | SendFailed
  | ListenFailed
  | AcceptFailed
  (** panel.rs, supervisor.rs *)
  | PanelEnvelope
  | PanelRet (ret : Z)
  | PanelData
  | PanelTransport
  | BaseUrlInvalid
  | HttpClientFailed
  | TooManyUsers (n max_users : nat).

#[export] Instance error_eq_dec : EqDecision error.
Proof. solve_decision. Defined.
