(* ===== verification/Kdf.v ===== *)
(** * Key derivation and MACs ([src/src/ssr/kdf.rs])

    The third-party primitives ([md-5], [hmac], [aes], [base64],
    [chacha20] crates) are a class of operations, [Crypto]; what their
    documentation promises is [CryptoLaws].  [Toy] is one concrete
    implementation of both, on which witnesses evaluate.  The functions of
    kdf.rs are defined on top of the class. *)

From S2P Require Import Prelude.

(** ** The primitives *)

(** XOR a byte string with successive keystream bytes, [next] being the
    generator's step. *)
Fixpoint xor_stream {S} (next : S -> byte * S) (s : S) (data : bytes) : bytes * S :=
  match data with
  | [] => ([], s)
  | b :: data =>
      let '(k, s1) := next s in
      let '(rest, s2) := xor_stream next s1 data in
      (u8_xor b k :: rest, s2)
  end.

Class Crypto : Type := {
  (** [Md5::digest]. *)
  md5_digest : bytes -> bytes;
  (** [Hmac<Md5>]: key, message. *)
  hmac_md5 : bytes -> bytes -> bytes;
  (** [Aes128::decrypt_block] and [encrypt_block]: key, block. *)
  aes128_decrypt : bytes -> bytes -> bytes;
  aes128_encrypt : bytes -> bytes -> bytes;
  (** [base64::engine::general_purpose::STANDARD.encode]. *)
  base64_encode : bytes -> bytes;
  (** The [ChaCha20] cipher object: [new_from_slices(key, nonce)] and
      [apply_keystream]. *)
  ChaCha20 : Type;
  chacha20_new : bytes -> bytes -> option ChaCha20;
  chacha20_apply : ChaCha20 -> bytes -> bytes * ChaCha20
}.

Class CryptoLaws (C : Crypto) : Prop := {
  md5_digest_length d : length (md5_digest d) = 16;
  hmac_md5_length k d : length (hmac_md5 k d) = 16;
  aes128_decrypt_length k b : length k = 16 -> length b = 16 -> length (aes128_decrypt k b) = 16;
  aes128_encrypt_length k b : length k = 16 -> length b = 16 -> length (aes128_encrypt k b) = 16;
  aes128_decrypt_encrypt k b :
    length k = 16 -> length b = 16 -> aes128_decrypt k (aes128_encrypt k b) = b;
  chacha20_new_sizes k n : length k = 32 -> length n = 12 -> is_Some (chacha20_new k n);
  (** [apply_keystream] XORs a keystream, whatever the chunking. *)
  chacha20_keystream :
    exists next, forall c d, chacha20_apply c d = xor_stream next c d
}.

(** ** The functions of kdf.rs *)

Section Kdf.
Context `{Crypto}.

(** The [while] loop of [evp_bytes_to_key]: every round appends a digest. *)
Fixpoint evp_loop (fuel : nat) (password : bytes) (key_len : nat) (key prev : bytes) : bytes :=
  match fuel with
  | 0 => key
  | S fuel =>
      if length key <? key_len then
        let prev := md5_digest (prev ++ password) in
        evp_loop fuel password key_len (key ++ prev) prev
      else key
  end.

(** A round adds 16 bytes, so [key_len] rounds are more than enough. *)
Definition evp_bytes_to_key (password : bytes) (key_len : nat) : bytes :=
  take key_len (evp_loop key_len password key_len [] []).

Definition md5 (data : bytes) : bytes := md5_digest data.

(** [full[..n]]; the callers pass 2, 4 and 6, and a digest has 16 bytes. *)
Definition hmac_md5_prefix (key data : bytes) (n : nat) : bytes :=
  take n (hmac_md5 key data).

(** The reference of the derivation: block [0] is [MD5(password)], block
    [i] is [MD5(block (i-1) || password)]. *)
Fixpoint evp_block (password : bytes) (i : nat) : bytes :=
  match i with
  | 0 => md5_digest password
  | S i => md5_digest (evp_block password i ++ password)
  end.

Definition evp_blocks (password : bytes) (n : nat) : bytes :=
  concat (map (evp_block password) (seq 0 n)).

End Kdf.

(** ** A concrete instance *)
Module Toy.

Definition digest (d : bytes) : bytes :=
  le_split 16 (fold_left (fun acc b =>
    (acc * 1099511628211 + byte.unsigned b + 1) mod 2 ^ 128)%Z d 14695981039346656037%Z).

Definition hmac (k d : bytes) : bytes := digest (k ++ Byte.x5c :: d).

Definition aes (k b : bytes) : bytes := zip_with u8_xor b k.

Definition chacha_new (k n : bytes) : option Z :=
  if (length k =? 32) && (length n =? 12) then Some (le_combine (digest (k ++ n))) else None.

Definition chacha_next (s : Z) : byte * Z :=
  (byte.of_Z (s / 65536), ((s * 6364136223846793005 + 1442695040888963407) mod 2 ^ 64)%Z).

#[export] Instance crypto : Crypto := {|
  md5_digest := digest;
  hmac_md5 := hmac;
  aes128_decrypt := aes;
  aes128_encrypt := aes;
  base64_encode := fun d => d;
  ChaCha20 := Z;
  chacha20_new := chacha_new;
  chacha20_apply := xor_stream chacha_next
|}.

Lemma aes_length k b : length k = 16 -> length b = 16 -> length (aes k b) = 16.
Proof. intros Hk Hb. unfold aes. rewrite length_zip_with. lia. Qed.

Lemma aes_involutive k b : length b = length k -> aes k (aes k b) = b.
Proof.
  unfold aes. revert k. induction b as [|x b IH]; intros [|y k] Hl; try done; cbn in *.
  rewrite u8_xor_cancel. f_equal. apply IH. lia.
Qed.

#[export] Instance crypto_laws : CryptoLaws crypto.
Proof.
  split.
  - intros d. apply LittleEndianList.length_le_split.
  - intros k d. apply LittleEndianList.length_le_split.
  - apply aes_length.
  - apply aes_length.
  - intros k b Hk Hb. apply aes_involutive. lia.
  - intros k n Hk Hn. cbn. unfold chacha_new. rewrite Hk, Hn. by eexists.
  - exists chacha_next. done.
Qed.

End Toy.

(** ** Lemmas *)

Section KdfLemmas.
Context `{HL : CryptoLaws}.

Lemma length_md5 d : length (md5 d) = 16.
Proof. apply md5_digest_length. Qed.

Lemma length_hmac_md5_prefix k d n : n <= 16 -> length (hmac_md5_prefix k d n) = n.
Proof.
  intros. unfold hmac_md5_prefix. rewrite length_take, hmac_md5_length. lia.
Qed.

Lemma evp_blocks_S pw n : evp_blocks pw (S n) = evp_blocks pw n ++ evp_block pw n.
Proof.
  unfold evp_blocks. rewrite seq_S, map_app, concat_app. cbn. by rewrite app_nil_r.
Qed.

Lemma length_evp_block pw i : length (evp_block pw i) = 16.
Proof. destruct i; apply md5_digest_length. Qed.

Lemma length_evp_blocks pw n : length (evp_blocks pw n) = 16 * n.
Proof.
  induction n as [|n IH]; [done|].
  rewrite evp_blocks_S, length_app, IH, length_evp_block. lia.
Qed.

(** With [n] blocks produced, the loop ends with some number [m] of blocks,
    at which its guard is false. *)
Lemma evp_loop_spec fuel pw key_len n :
  key_len <= 16 * (n + fuel) ->
  exists m, n <= m /\ key_len <= 16 * m /\
    evp_loop fuel pw key_len (evp_blocks pw n)
      (match n with 0 => [] | S i => evp_block pw i end) = evp_blocks pw m.
Proof.
  revert n. induction fuel as [|fuel IH]; intros n Hf; cbn -[evp_block].
  - exists n. split_and!; [lia|lia|done].
  - rewrite length_evp_blocks. case_match eqn:Hlt.
    + destruct (IH (S n)) as (m & ? & ? & Heq); [lia|].
      exists m. split_and!; [lia|done|]. rewrite <- Heq. rewrite evp_blocks_S.
      by destruct n.
    + apply Nat.ltb_ge in Hlt. exists n. split_and!; [lia|lia|done].
Qed.

Lemma evp_blocks_prefix pw n k : take (16 * n) (evp_blocks pw (n + k)) = evp_blocks pw n.
Proof.
  induction k as [|k IH].
  - rewrite Nat.add_0_r. apply take_ge. by rewrite length_evp_blocks.
  - rewrite <- plus_n_Sm, evp_blocks_S, take_app_le; [done|].
    rewrite length_evp_blocks. lia.
Qed.

Lemma take_evp_blocks pw key_len n m :
  key_len <= 16 * n -> n <= m ->
  take key_len (evp_blocks pw m) = take key_len (evp_blocks pw n).
Proof.
  intros Hk Hm. replace m with (n + (m - n)) by lia.
  rewrite <- (evp_blocks_prefix pw n (m - n)), take_take. f_equal. lia.
Qed.

Lemma evp_bytes_to_key_blocks pw key_len n :
  key_len <= 16 * n -> evp_bytes_to_key pw key_len = take key_len (evp_blocks pw n).
Proof.
  intros Hn. unfold evp_bytes_to_key.
  destruct (evp_loop_spec key_len pw key_len 0) as (m & _ & Hm & Heq); [lia|].
  change (evp_blocks pw 0) with (@nil byte) in Heq. rewrite Heq.
  destruct (Nat.le_ge_cases n m).
  - by apply take_evp_blocks.
  - symmetry. by apply take_evp_blocks.
Qed.

Lemma length_evp_bytes_to_key pw key_len : length (evp_bytes_to_key pw key_len) = key_len.
Proof.
  rewrite (evp_bytes_to_key_blocks pw key_len key_len) by lia.
  rewrite length_take, length_evp_blocks. lia.
Qed.

End KdfLemmas.

(** Keep the derivation folded in proofs about its callers. *)
#[global] Arguments evp_loop : simpl never.
#[global] Arguments evp_bytes_to_key : simpl never.
#[global] Arguments hmac_md5_prefix : simpl never.

#[export] Hint Rewrite @length_md5 @length_evp_bytes_to_key using typeclasses eauto : len.

(** ** Properties *)

(** [evp_bytes_to_key] is OpenSSL's derivation: the first [key_len]
    bytes of the chain [MD5(pw)], [MD5(m0 || pw)], ..., with exactly the
    requested length; in particular the loop ends for every length, and a
    shorter key is a prefix of a longer one. *)
Theorem evp_bytes_to_key_reference `{HL : CryptoLaws} pw n :
  (forall j, n <= 16 * j -> evp_bytes_to_key pw n = take n (evp_blocks pw j)) /\
  length (evp_bytes_to_key pw n) = n /\
  (forall m, m <= n -> take m (evp_bytes_to_key pw n) = evp_bytes_to_key pw m).
Proof.
  split_and!.
  - intros j. apply evp_bytes_to_key_blocks.
  - apply length_evp_bytes_to_key.
  - intros m Hm. rewrite !(evp_bytes_to_key_blocks pw _ n) by lia.
    rewrite take_take. f_equal. lia.
Qed.

Lemma evp_bytes_to_key_reference_witness :
  evp_bytes_to_key (H:=Toy.crypto) [Byte.x61] 16 = Toy.digest [Byte.x61] /\
  take 16 (evp_bytes_to_key (H:=Toy.crypto) [Byte.x61] 32) =
    evp_bytes_to_key (H:=Toy.crypto) [Byte.x61] 16.
Proof.
  split.
  - rewrite (proj1 (evp_bytes_to_key_reference (HL:=Toy.crypto_laws) [Byte.x61] 16) 1) by lia.
    vm_compute. reflexivity.
  - apply (proj2 (proj2 (evp_bytes_to_key_reference (HL:=Toy.crypto_laws) [Byte.x61] 32))). lia.
Defined.
