(* ===== verification/Standards.v ===== *)
(** * The primitives as their standards define them

    An instance of [Crypto] with the algorithms the crates implement: MD5
    (RFC 1321), HMAC (RFC 2104), AES-128 (FIPS 197), Base64 (RFC 4648) and
    ChaCha20 (RFC 8439), with the standards' own test vectors.  Nothing in
    the development depends on it but the evaluation of the unit tests
    (Tests.v); that it satisfies [CryptoLaws] says that what the theorems
    assume of the crates holds for these algorithms. *)

From Stdlib Require Import Btauto.
From S2P Require Import Prelude Kdf.

#[local] Open Scope Z_scope.

Module Standards.

(** ** 32-bit words *)

Definition w32 (x : Z) : Z := Z.land x 4294967295.
Definition rotl (x n : Z) : Z := Z.lor (w32 (Z.shiftl x n)) (Z.shiftr x (32 - n)).
Definition add32 (x y : Z) : Z := w32 (x + y).
Definition not32 (x : Z) : Z := Z.lxor x 4294967295.

(** Little-endian words of a byte string. *)
Fixpoint words (n : nat) (b : bytes) : list Z :=
  match n with
  | O => []
  | S n => le_combine (take 4 b) :: words n (drop 4 b)
  end.

(** ** MD5 *)

Definition md5_k : list Z :=
  [0xd76aa478; 0xe8c7b756; 0x242070db; 0xc1bdceee; 0xf57c0faf; 0x4787c62a; 0xa8304613; 0xfd469501;
   0x698098d8; 0x8b44f7af; 0xffff5bb1; 0x895cd7be; 0x6b901122; 0xfd987193; 0xa679438e; 0x49b40821;
   0xf61e2562; 0xc040b340; 0x265e5a51; 0xe9b6c7aa; 0xd62f105d; 0x02441453; 0xd8a1e681; 0xe7d3fbc8;
   0x21e1cde6; 0xc33707d6; 0xf4d50d87; 0x455a14ed; 0xa9e3e905; 0xfcefa3f8; 0x676f02d9; 0x8d2a4c8a;
   0xfffa3942; 0x8771f681; 0x6d9d6122; 0xfde5380c; 0xa4beea44; 0x4bdecfa9; 0xf6bb4b60; 0xbebfbc70;
   0x289b7ec6; 0xeaa127fa; 0xd4ef3085; 0x04881d05; 0xd9d4d039; 0xe6db99e5; 0x1fa27cf8; 0xc4ac5665;
   0xf4292244; 0x432aff97; 0xab9423a7; 0xfc93a039; 0x655b59c3; 0x8f0ccc92; 0xffeff47d; 0x85845dd1;
   0x6fa87e4f; 0xfe2ce6e0; 0xa3014314; 0x4e0811a1; 0xf7537e82; 0xbd3af235; 0x2ad7d2bb; 0xeb86d391].

Definition md5_shift (i : nat) : Z :=
  nth (4 * (i / 16) + i mod 4) [7; 12; 17; 22; 5; 9; 14; 20; 4; 11; 16; 23; 6; 10; 15; 21] 0.

Definition md5_mix (i : nat) (b c d : Z) : Z :=
  match (i / 16)%nat with
  | O => Z.lor (Z.land b c) (Z.land (not32 b) d)
  | S O => Z.lor (Z.land d b) (Z.land (not32 d) c)
  | S (S O) => Z.lxor b (Z.lxor c d)
  | _ => Z.lxor c (Z.lor b (not32 d))
  end.

Definition md5_index (i : nat) : nat :=
  match (i / 16)%nat with
  | O => i
  | S O => (5 * i + 1) mod 16
  | S (S O) => (3 * i + 5) mod 16
  | _ => (7 * i) mod 16
  end.

Definition md5_state : Type := Z * Z * Z * Z.

Definition md5_step (m : list Z) (s : md5_state) (i : nat) : md5_state :=
  let '(a, b, c, d) := s in
  let f := w32 (md5_mix i b c d + a + nth i md5_k 0 + nth (md5_index i) m 0) in
  (d, add32 b (rotl f (md5_shift i)), b, c).

Definition md5_block (s : md5_state) (block : bytes) : md5_state :=
  let '(a, b, c, d) := s in
  let '(a', b', c', d') := fold_left (md5_step (words 16 block)) (seq 0 64) s in
  (add32 a a', add32 b b', add32 c c', add32 d d').

Fixpoint blocks (n k : nat) (b : bytes) : list bytes :=
  match n with
  | O => []
  | S n => take k b :: blocks n k (drop k b)
  end.

Definition md5_pad (m : bytes) : bytes :=
  let len := length m in
  let zeros := ((119 - len mod 64) mod 64)%nat in
  m ++ Byte.x80 :: repeat Byte.x00 zeros ++ le_split 8 (8 * Z.of_nat len).

Definition md5 (m : bytes) : bytes :=
  let p := md5_pad m in
  let '(a, b, c, d) := fold_left md5_block (blocks (length p / 64) 64 p)
    (0x67452301, 0xefcdab89, 0x98badcfe, 0x10325476) in
  le_split 4 a ++ le_split 4 b ++ le_split 4 c ++ le_split 4 d.

(** ** HMAC-MD5 *)

Definition hmac_key (k : bytes) : bytes :=
  let k := if (64 <? length k)%nat then md5 k else k in k ++ repeat Byte.x00 (64 - length k).

Definition hmac (k m : bytes) : bytes :=
  let k := hmac_key k in
  md5 (map (u8_xor Byte.x5c) k ++ md5 (map (u8_xor Byte.x36) k ++ m)).

(** ** Base64 *)

Definition base64_char (n : Z) : byte :=
  byte.of_Z (if n <? 26 then 65 + n else if n <? 52 then 71 + n else if n <? 62 then n - 4
             else if n =? 62 then 43 else 47).

Definition sextet (x i : Z) : byte := base64_char (Z.land (Z.shiftr x (6 * i)) 63).

Fixpoint base64 (b : bytes) : bytes :=
  let u := byte.unsigned in
  match b with
  | x :: y :: z :: b =>
      let v := u x * 65536 + u y * 256 + u z in
      sextet v 3 :: sextet v 2 :: sextet v 1 :: sextet v 0 :: base64 b
  | [x; y] => let v := u x * 65536 + u y * 256 in [sextet v 3; sextet v 2; sextet v 1; Byte.x3d]
  | [x] => let v := u x * 65536 in [sextet v 3; sextet v 2; Byte.x3d; Byte.x3d]
  | [] => []
  end.

(** ** AES-128 *)

(** Multiplication by x in GF(2^8). *)
Definition xtime (b : byte) : byte :=
  let y := 2 * byte.unsigned b in byte.of_Z (if 256 <=? y then Z.lxor y 0x11b else y).

Fixpoint gf_mul (n : nat) (a b : byte) : byte :=
  match n with
  | O => Byte.x00
  | S n =>
      let rest := gf_mul n (xtime a) (byte.of_Z (Z.shiftr (byte.unsigned b) 1)) in
      if Z.testbit (byte.unsigned b) 0 then u8_xor a rest else rest
  end.

Definition gf (a b : byte) : byte := gf_mul 8 a b.

(** The inverse is the power 254. *)
Definition gf_inv (a : byte) : byte :=
  let a2 := gf a a in let a4 := gf a2 a2 in let a8 := gf a4 a4 in let a16 := gf a8 a8 in
  let a32 := gf a16 a16 in let a64 := gf a32 a32 in let a128 := gf a64 a64 in
  gf a128 (gf a64 (gf a32 (gf a16 (gf a8 (gf a4 a2))))).

Definition rotl8 (b : byte) (n : Z) : byte :=
  let x := byte.unsigned b in byte.of_Z (Z.lor (Z.shiftl x n) (Z.shiftr x (8 - n))).

Definition sbox_of (b : byte) : byte :=
  let i := gf_inv b in
  u8_xor (u8_xor (u8_xor i (rotl8 i 1)) (u8_xor (rotl8 i 2) (rotl8 i 3))) (u8_xor (rotl8 i 4) Byte.x63).

Definition all_bytes : bytes := Eval vm_compute in map (fun n => byte.of_Z (Z.of_nat n)) (seq 0 256).

Definition sbox_table : bytes := Eval vm_compute in map sbox_of all_bytes.
Definition sbox (b : byte) : byte := nth (u8_idx b) sbox_table Byte.x00.

Definition inv_table : bytes := Eval vm_compute in
  map (fun c => hd Byte.x00 (List.filter (fun b => Byte.eqb (sbox b) c) all_bytes)) all_bytes.
Definition inv_sbox (b : byte) : byte := nth (u8_idx b) inv_table Byte.x00.

Definition permute (p : list nat) (s : bytes) : bytes := map (fun i => nth i s Byte.x00) p.
Definition shift_rows : bytes -> bytes := permute [0; 5; 10; 15; 4; 9; 14; 3; 8; 13; 2; 7; 12; 1; 6; 11]%nat.
Definition inv_shift_rows : bytes -> bytes := permute [0; 13; 10; 7; 4; 1; 14; 11; 8; 5; 2; 15; 12; 9; 6; 3]%nat.

Definition x2 := xtime.
Definition x4 (b : byte) : byte := xtime (xtime b).
Definition x8 (b : byte) : byte := xtime (xtime (xtime b)).
Definition x3 (b : byte) : byte := u8_xor (x2 b) b.
Definition x9 (b : byte) : byte := u8_xor (x8 b) b.
Definition x11 (b : byte) : byte := u8_xor (u8_xor (x8 b) (x2 b)) b.
Definition x13 (b : byte) : byte := u8_xor (u8_xor (x8 b) (x4 b)) b.
Definition x14 (b : byte) : byte := u8_xor (u8_xor (x8 b) (x4 b)) (x2 b).

Definition xor4 (a b c d : byte) : byte := u8_xor (u8_xor a b) (u8_xor c d).

Fixpoint mix_columns (s : bytes) : bytes :=
  match s with
  | a :: b :: c :: d :: s =>
      xor4 (x2 a) (x3 b) c d :: xor4 a (x2 b) (x3 c) d :: xor4 a b (x2 c) (x3 d) ::
      xor4 (x3 a) b c (x2 d) :: mix_columns s
  | s => s
  end.

Fixpoint inv_mix_columns (s : bytes) : bytes :=
  match s with
  | a :: b :: c :: d :: s =>
      xor4 (x14 a) (x11 b) (x13 c) (x9 d) :: xor4 (x9 a) (x14 b) (x11 c) (x13 d) ::
      xor4 (x13 a) (x9 b) (x14 c) (x11 d) :: xor4 (x11 a) (x13 b) (x9 c) (x14 d) :: inv_mix_columns s
  | s => s
  end.

Definition add_key (k s : bytes) : bytes := zip_with u8_xor s k.

(** The key schedule: the next round key. *)
Definition next_key (rcon : byte) (k : bytes) : bytes :=
  let t := permute [13; 14; 15; 12]%nat k in
  let t := match map sbox t with a :: r => u8_xor a rcon :: r | [] => [] end in
  let w0 := zip_with u8_xor (take 4 k) t in
  let w1 := zip_with u8_xor (take 4 (drop 4 k)) w0 in
  let w2 := zip_with u8_xor (take 4 (drop 8 k)) w1 in
  let w3 := zip_with u8_xor (take 4 (drop 12 k)) w2 in
  w0 ++ w1 ++ w2 ++ w3.

Fixpoint schedule (rcons : bytes) (k : bytes) : list bytes :=
  match rcons with
  | [] => []
  | r :: rcons => let k := next_key r k in k :: schedule rcons k
  end.

Definition rcons : bytes :=
  [Byte.x01; Byte.x02; Byte.x04; Byte.x08; Byte.x10; Byte.x20; Byte.x40; Byte.x80; Byte.x1b; Byte.x36].

Fixpoint enc_rounds (ks : list bytes) (s : bytes) : bytes :=
  match ks with
  | [] => s
  | [k] => add_key k (shift_rows (map sbox s))
  | k :: ks => enc_rounds ks (add_key k (mix_columns (shift_rows (map sbox s))))
  end.

Fixpoint dec_rounds (ks : list bytes) (s : bytes) : bytes :=
  match ks with
  | [] => s
  | [k] => map inv_sbox (inv_shift_rows (add_key k s))
  | k :: ks => map inv_sbox (inv_shift_rows (inv_mix_columns (add_key k (dec_rounds ks s))))
  end.

Definition aes_encrypt (k b : bytes) : bytes := enc_rounds (schedule rcons k) (add_key k b).
Definition aes_decrypt (k b : bytes) : bytes := add_key k (dec_rounds (schedule rcons k) b).

(** ** ChaCha20 *)

Record chacha : Type := {
  cc_key : list Z; cc_nonce : list Z; cc_counter : Z; cc_left : bytes   (* keystream left over *)
}.

Definition upd (i : nat) (v : Z) (s : list Z) : list Z := take i s ++ v :: drop (S i) s.

Definition quarter (a b c d : nat) (s : list Z) : list Z :=
  let g i s := nth i s 0 in
  let op x y z r s := let s := upd x (add32 (g x s) (g y s)) s in upd z (rotl (Z.lxor (g z s) (g x s)) r) s in
  op c d b 7 (op a b d 8 (op c d b 12 (op a b d 16 s))).

Definition double_round (s : list Z) : list Z :=
  let s := quarter 3 7 11 15 (quarter 2 6 10 14 (quarter 1 5 9 13 (quarter 0 4 8 12 s))) in
  quarter 3 4 9 14 (quarter 2 7 8 13 (quarter 1 6 11 12 (quarter 0 5 10 15 s))).

Definition chacha_block (c : chacha) : bytes :=
  let s := [0x61707865; 0x3320646e; 0x79622d32; 0x6b206574] ++ cc_key c ++ [w32 (cc_counter c)] ++ cc_nonce c in
  let r := Nat.iter 10 double_round s in
  concat (map (le_split 4) (zip_with add32 s r)).

Definition chacha_next (c : chacha) : byte * chacha :=
  match cc_left c with
  | b :: rest => (b, {| cc_key := cc_key c; cc_nonce := cc_nonce c; cc_counter := cc_counter c; cc_left := rest |})
  | [] =>
      match chacha_block c with
      | b :: rest => (b, {| cc_key := cc_key c; cc_nonce := cc_nonce c; cc_counter := cc_counter c + 1; cc_left := rest |})
      | [] => (Byte.x00, c)
      end
  end.

Definition chacha_new (k n : bytes) : option chacha :=
  if ((length k =? 32) && (length n =? 12))%nat
  then Some {| cc_key := words 8 k; cc_nonce := words 3 n; cc_counter := 0; cc_left := [] |}
  else None.

#[export] Instance standard_crypto : Crypto := {|
  md5_digest := md5; hmac_md5 := hmac; aes128_decrypt := aes_decrypt; aes128_encrypt := aes_encrypt;
  base64_encode := base64; ChaCha20 := chacha; chacha20_new := chacha_new;
  chacha20_apply := xor_stream chacha_next
|}.

(** ** The standards' vectors *)

(** [hex::encode]. *)
Definition hex_digit (n : Z) : ascii :=
  Stdlib.Strings.Ascii.ascii_of_nat (Z.to_nat (if n <? 10 then 48 + n else 87 + n)).

Fixpoint hex (b : bytes) : string :=
  match b with
  | [] => EmptyString
  | x :: b => String (hex_digit (byte.unsigned x / 16)) (String (hex_digit (byte.unsigned x mod 16)) (hex b))
  end.

Definition text (s : string) : bytes := String.list_byte_of_string s.
Definition counting (n : nat) : bytes := take n all_bytes.

Example md5_vectors :
  hex (md5 (text "")) = "d41d8cd98f00b204e9800998ecf8427e"%string /\
  hex (md5 (text "abc")) = "900150983cd24fb0d6963f7d28e17f72"%string /\
  hex (md5 (text "12345678901234567890123456789012345678901234567890123456789012345678901234567890")) =
    "57edf4a22be3c955ac49da2e2107b67a"%string.
Proof. split_and!; by vm_compute. Qed.

Example hmac_vectors :
  hex (hmac (repeat Byte.x0b 16) (text "Hi There")) = "9294727a3638bb1c13f48ef8158bfc9d"%string /\
  hex (hmac (text "Jefe") (text "what do ya want for nothing?")) = "750c783e6ab0b503eaa86e310a5db738"%string /\
  hex (hmac (repeat Byte.xaa 80) (text "Test Using Larger Than Block-Size Key - Hash Key First")) =
    "6b1ab7fe4bd7bf8f0b62e6ce61b9d0cd"%string.
Proof. split_and!; by vm_compute. Qed.

Example base64_vectors :
  base64 (text "foobar") = text "Zm9vYmFy" /\ base64 (text "fooba") = text "Zm9vYmE=" /\
  base64 (text "foob") = text "Zm9vYg==".
Proof. split_and!; by vm_compute. Qed.

Example aes_vector :
  let k := counting 16 in
  let b := map (fun n => byte.of_Z (17 * Z.of_nat n)) (seq 0 16) in
  hex (aes_encrypt k b) = "69c4e0d86a7b0430d8cdb78070b4c55a"%string /\ aes_decrypt k (aes_encrypt k b) = b.
Proof. split; by vm_compute. Qed.

Example chacha_vector :
  hex (chacha_block {| cc_key := words 8 (counting 32);
         cc_nonce := words 3 (Byte.x00 :: Byte.x00 :: Byte.x00 :: Byte.x09 :: Byte.x00 :: Byte.x00 :: Byte.x00 ::
           Byte.x4a :: repeat Byte.x00 4);
         cc_counter := 1; cc_left := [] |}) =
    ("10f1e7e4d13b5915500fdd1fa32071c4c7d1f4c733c068030422aa9ac3d46c4e" ++
     "d2826446079faa0914c2d705d98b02a2b5129cd1de164eb9cbd083e8a2503c4e")%string.
Proof. by vm_compute. Qed.

(** ** The laws *)

Lemma all_bytes_complete b : b ∈ all_bytes.
Proof. destruct b; vm_compute; repeat (first [left|right]). Qed.

Lemma byte_forall (P : byte -> Prop) `{!forall b, Decision (P b)} :
  forallb (fun b => bool_decide (P b)) all_bytes = true -> forall b, P b.
Proof.
  intros Hall b. rewrite forallb_forall in Hall. apply (bool_decide_eq_true_1 (P b)), Hall.
  apply list_elem_of_In, all_bytes_complete.
Qed.

Lemma inv_sbox_sbox b : inv_sbox (sbox b) = b.
Proof. revert b. apply (byte_forall (fun b => inv_sbox (sbox b) = b)). by vm_compute. Qed.

(** Multiplication by x is linear. *)
Lemma xtime_xor a b : xtime (u8_xor a b) = u8_xor (xtime a) (xtime b).
Proof.
  assert (H : forall a, forallb (fun b => bool_decide (xtime (u8_xor a b) = u8_xor (xtime a) (xtime b)))
    all_bytes = true).
  { apply (byte_forall (fun a => forallb (fun b => bool_decide
      (xtime (u8_xor a b) = u8_xor (xtime a) (xtime b))) all_bytes = true)). by vm_compute. }
  revert b. apply (byte_forall (fun b => xtime (u8_xor a b) = u8_xor (xtime a) (xtime b))), H.
Qed.

(** Equality of sums, bit by bit. *)
Ltac xor_ring :=
  apply byte.unsigned_inj; rewrite ?u8_xor_unsigned; apply Z.bits_inj; intros ?i;
  rewrite ?Z.lxor_spec; btauto.

Lemma mix_column a b c d s :
  inv_mix_columns (xor4 (x2 a) (x3 b) c d :: xor4 a (x2 b) (x3 c) d :: xor4 a b (x2 c) (x3 d) ::
    xor4 (x3 a) b c (x2 d) :: s) = a :: b :: c :: d :: inv_mix_columns s.
Proof.
  cbn [inv_mix_columns].
  unfold xor4, x14, x13, x11, x9, x3, x8, x4, x2. rewrite !xtime_xor.
  f_equal; [xor_ring|]. f_equal; [xor_ring|]. f_equal; [xor_ring|]. f_equal; xor_ring.
Qed.

(** A list of 16 bytes, byte by byte. *)
Ltac sixteen s :=
  do 16 (destruct s as [|?b s]; [discriminate|]); destruct s; [|discriminate].

Lemma inv_mix_mix s : length s = 16%nat -> inv_mix_columns (mix_columns s) = s.
Proof. intros Hs. sixteen s. cbn [mix_columns]. by rewrite !mix_column. Qed.

Lemma inv_shift_shift s : length s = 16%nat -> inv_shift_rows (shift_rows s) = s.
Proof. intros Hs. by sixteen s. Qed.

Lemma add_key_twice k s : length k = 16%nat -> length s = 16%nat -> add_key k (add_key k s) = s.
Proof.
  intros Hk Hs. unfold add_key. revert k Hk. rewrite <- Hs. clear Hs.
  induction s as [|x s IH]; intros [|y k] Hk; try done; cbn in *. rewrite u8_xor_cancel. f_equal. apply IH. lia.
Qed.

Lemma inv_sub_sub s : map inv_sbox (map sbox s) = s.
Proof. induction s as [|b s IH]; [done|]. cbn [map]. by rewrite inv_sbox_sbox, IH. Qed.

Lemma add_key_length k s : length k = 16%nat -> length s = 16%nat -> length (add_key k s) = 16%nat.
Proof. intros Hk Hs. unfold add_key. rewrite length_zip_with. lia. Qed.

Lemma shift_length s : length (shift_rows s) = 16%nat.
Proof. done. Qed.

Lemma inv_shift_length s : length (inv_shift_rows s) = 16%nat.
Proof. done. Qed.

Lemma mix_length s : length s = 16%nat -> length (mix_columns s) = 16%nat.
Proof. intros Hs. by sixteen s. Qed.

Lemma schedule_lengths rs k :
  length k = 16%nat -> Forall (fun k => length k = 16%nat) (schedule rs k).
Proof.
  revert k. induction rs as [|r rs IH]; intros k Hk; [constructor|]. cbn [schedule].
  assert (Hn : length (next_key r k) = 16%nat) by by sixteen k. constructor; [done|by apply IH].
Qed.

(** The rounds, undone from the last to the first. *)
Lemma dec_enc_rounds ks s :
  Forall (fun k => length k = 16%nat) ks -> length s = 16%nat -> dec_rounds ks (enc_rounds ks s) = s.
Proof.
  intros Hks. revert s. induction Hks as [|k ks Hk Hks IH]; intros s Hs; [done|].
  destruct ks as [|k' ks].
  - cbn [enc_rounds dec_rounds]. rewrite add_key_twice by (try apply shift_length; done).
    rewrite inv_shift_shift by by rewrite length_map. apply inv_sub_sub.
  - change (map inv_sbox (inv_shift_rows (inv_mix_columns (add_key k (dec_rounds (k' :: ks)
      (enc_rounds (k' :: ks) (add_key k (mix_columns (shift_rows (map sbox s))))))))) = s).
    assert (Hm : length (mix_columns (shift_rows (map sbox s))) = 16%nat) by apply mix_length, shift_length.
    rewrite IH by by apply add_key_length.
    rewrite add_key_twice by done. rewrite inv_mix_mix by apply shift_length.
    rewrite inv_shift_shift by by rewrite length_map. apply inv_sub_sub.
Qed.

Lemma enc_rounds_length ks s :
  Forall (fun k => length k = 16%nat) ks -> length s = 16%nat -> length (enc_rounds ks s) = 16%nat.
Proof.
  intros Hks. revert s. induction Hks as [|k ks Hk Hks IH]; intros s Hs; [done|]. destruct ks as [|k' ks].
  - by apply add_key_length.
  - apply IH, add_key_length; [done|]. apply mix_length, shift_length.
Qed.

Lemma dec_rounds_length ks s :
  Forall (fun k => length k = 16%nat) ks -> length s = 16%nat -> length (dec_rounds ks s) = 16%nat.
Proof.
  intros Hks Hs. destruct ks as [|k [|k' ks]]; [done|..]; cbn [dec_rounds]; by rewrite length_map, inv_shift_length.
Qed.

Lemma md5_length d : length (md5 d) = 16%nat.
Proof.
  unfold md5. destruct (fold_left _ _ _) as [[[a b] c] d'].
  by rewrite !length_app, !LittleEndianList.length_le_split.
Qed.

Lemma aes_decrypt_length k b : length k = 16%nat -> length b = 16%nat -> length (aes_decrypt k b) = 16%nat.
Proof. intros Hk Hb. apply add_key_length; [done|]. apply dec_rounds_length; [by apply schedule_lengths|done]. Qed.

Lemma aes_encrypt_length k b : length k = 16%nat -> length b = 16%nat -> length (aes_encrypt k b) = 16%nat.
Proof. intros Hk Hb. apply enc_rounds_length; [by apply schedule_lengths|by apply add_key_length]. Qed.

Lemma aes_roundtrip k b : length k = 16%nat -> length b = 16%nat -> aes_decrypt k (aes_encrypt k b) = b.
Proof.
  intros Hk Hb. unfold aes_decrypt, aes_encrypt.
  rewrite dec_enc_rounds by (try apply schedule_lengths; try apply add_key_length; done). by apply add_key_twice.
Qed.

Lemma chacha_new_sizes k n : length k = 32%nat -> length n = 12%nat -> is_Some (chacha_new k n).
Proof. intros Hk Hn. unfold chacha_new. rewrite Hk, Hn. by eexists. Qed.

#[export] Instance standard_laws : CryptoLaws standard_crypto.
Proof.
  split.
  - exact md5_length.
  - intros k d. apply md5_length.
  - exact aes_decrypt_length.
  - exact aes_encrypt_length.
  - exact aes_roundtrip.
  - exact chacha_new_sizes.
  - exists chacha_next. intros c d. reflexivity.
Qed.

End Standards.
