(* ===== verification/Rc4.v ===== *)
(** * The [rc4-md5] stream cipher ([src/src/ssr/rc4.rs])

    RC4's key schedule and generator as the code runs them, on a 256-entry
    S-box of bytes; [Rc4Md5] keys it by [MD5(master_key || iv)].  The
    results: the S-box stays a permutation of the 256 byte values, the
    generator is a keystream cipher, and the test vectors of the module's
    own tests. *)

From S2P Require Import Prelude Kdf.

(** [struct Rc4]. *)
Record Rc4 : Type := { rc4_s : list byte; rc4_i : byte; rc4_j : byte }.

(** [s.swap(i, j)]; the array has 256 entries and both indices are below
    256, so neither access is out of range. *)
Definition swap (s : list byte) (i j : nat) : list byte :=
  <[i := s !!! j]> (<[j := s !!! i]> s).

(** One round of the key schedule. [key[i % key.len()]] panics (remainder
    by zero) on an empty key. *)
Definition ksa_step {E} (key : bytes) (st : list byte * byte) (i : nat) : res E (list byte * byte) :=
  let '(s, j) := st in
  k ← (if length key =? 0 then Panic else index key (i mod length key));
  let j := u8_wrapping_add (u8_wrapping_add j (s !!! i)) k in
  Ok (swap s i (u8_idx j), j).

Fixpoint ksa {E} (key : bytes) (idxs : list nat) (st : list byte * byte) : res E (list byte * byte) :=
  match idxs with
  | [] => Ok st
  | i :: idxs => st ← ksa_step key st i; ksa key idxs st
  end.

(** The identity S-box. *)
Definition identity_box : list byte := map usize_as_u8 (seq 0 256).

(** [Rc4::new]. *)
Definition Rc4_new {E} (key : bytes) : res E Rc4 :=
  st ← ksa key (seq 0 256) (identity_box, Byte.x00);
  Ok {| rc4_s := st.1; rc4_i := Byte.x00; rc4_j := Byte.x00 |}.

(** The body of [apply]'s loop: the next keystream byte. *)
Definition rc4_next (c : Rc4) : byte * Rc4 :=
  let i := u8_wrapping_add (rc4_i c) Byte.x01 in
  let j := u8_wrapping_add (rc4_j c) (rc4_s c !!! u8_idx i) in
  let s := swap (rc4_s c) (u8_idx i) (u8_idx j) in
  let k := s !!! u8_idx (u8_wrapping_add (s !!! u8_idx i) (s !!! u8_idx j)) in
  (k, {| rc4_s := s; rc4_i := i; rc4_j := j |}).

(** [Rc4::apply]. *)
Fixpoint rc4_apply (c : Rc4) (data : bytes) : bytes * Rc4 :=
  match data with
  | [] => ([], c)
  | b :: data =>
      let '(k, c) := rc4_next c in
      let '(out, c) := rc4_apply c data in
      (u8_xor b k :: out, c)
  end.

(** [IV_LEN], [KEY_LEN]. *)
Definition IV_LEN : nat := 16.
Definition KEY_LEN : nat := 16.

(** [struct Rc4Md5], [Rc4Md5::new], [Rc4Md5::process]. *)
Record Rc4Md5 : Type := { rc4 : Rc4 }.

Definition Rc4Md5_new `{Crypto} {E} (master_key iv : bytes) : res E Rc4Md5 :=
  let seed := master_key ++ iv in
  let rc4_key := md5 seed in
  c ← Rc4_new rc4_key;
  Ok {| rc4 := c |}.

Definition Rc4Md5_process (c : Rc4Md5) (data : bytes) : bytes * Rc4Md5 :=
  let '(out, c) := rc4_apply (rc4 c) data in (out, {| rc4 := c |}).

(** The invariant: the S-box is a permutation of the byte values. *)
Definition rc4_wf (c : Rc4) : Prop := rc4_s c ≡ₚ identity_box.

(** ** Lemmas *)

Lemma length_identity_box : length identity_box = 256.
Proof. reflexivity. Qed.

Lemma swap_perm s i j : i < length s -> j < length s -> swap s i j ≡ₚ s.
Proof.
  intros Hi Hj. unfold swap. apply Permutation_insert_swap; by apply list_lookup_lookup_total_lt.
Qed.

Lemma length_swap s i j : length (swap s i j) = length s.
Proof. unfold swap. by rewrite !length_insert. Qed.

Lemma box_perm_length s : s ≡ₚ identity_box -> length s = 256.
Proof. intros ->. reflexivity. Qed.

Lemma box_swap s i j :
  s ≡ₚ identity_box -> i < 256 -> j < 256 -> swap s i j ≡ₚ identity_box.
Proof.
  intros Hs Hi Hj. pose proof (box_perm_length s Hs) as Hl.
  rewrite swap_perm; [done|lia|lia].
Qed.

Lemma ksa_ok {E} key idxs st :
  key <> [] -> Forall (fun i => i < 256) idxs -> st.1 ≡ₚ identity_box ->
  exists st', ksa (E:=E) key idxs st = Ok st' /\ st'.1 ≡ₚ identity_box.
Proof.
  intros Hkey His. revert st. induction His as [|i idxs Hi His IH]; intros [s j] Hs; cbn.
  { by eexists. }
  assert (length key <> 0) as Hl by by destruct key.
  rewrite (proj2 (Nat.eqb_neq _ _) Hl). unfold index.
  destruct (lookup_lt_is_Some_2 key (i mod length key)) as [k ->].
  { by apply Nat.mod_upper_bound. }
  cbn -[Nat.modulo]. apply IH. apply box_swap; [done|lia|apply u8_idx_lt].
Qed.

Lemma Rc4_new_ok {E} key :
  key <> [] -> exists c, Rc4_new (E:=E) key = Ok c /\ rc4_wf c.
Proof.
  intros Hkey. unfold Rc4_new.
  destruct (ksa_ok (E:=E) key (seq 0 256) (identity_box, Byte.x00)) as (st & -> & Hst); [done| |done|].
  - apply Forall_forall. intros i Hi%elem_of_seq. lia.
  - by eexists.
Qed.

Lemma rc4_next_wf c : rc4_wf c -> rc4_wf (rc4_next c).2.
Proof. intros Hc. apply box_swap; [done|apply u8_idx_lt|apply u8_idx_lt]. Qed.

Lemma rc4_apply_xor_stream c data : rc4_apply c data = xor_stream rc4_next c data.
Proof.
  revert c. induction data as [|b data IH]; intros c; [done|].
  cbn -[rc4_next]. destruct (rc4_next c) as [k c']. by rewrite IH.
Qed.

Lemma rc4_apply_wf c data : rc4_wf c -> rc4_wf (rc4_apply c data).2.
Proof.
  revert c. induction data as [|b data IH]; intros c Hc; [done|].
  cbn -[rc4_next]. pose proof (rc4_next_wf c Hc) as Hn.
  destruct (rc4_next c) as [k c']. specialize (IH c' Hn).
  by destruct (rc4_apply c' data).
Qed.

Lemma Rc4Md5_new_ok `{HL : CryptoLaws} {E} master_key iv :
  exists c, Rc4Md5_new (E:=E) master_key iv = Ok c /\ rc4_wf (rc4 c).
Proof.
  unfold Rc4Md5_new.
  destruct (Rc4_new_ok (E:=E) (md5 (master_key ++ iv))) as (c & -> & Hc).
  - intros Hnil. pose proof (length_md5 (master_key ++ iv)) as Hl. by rewrite Hnil in Hl.
  - by eexists.
Qed.

(** ** Properties *)

(** Every S-box the cipher ever holds is a permutation of the 256 byte
    values: [Rc4::new] builds one from any non-empty key (and panics on the
    empty one), and [apply] keeps it one; so every index the code forms is
    in range. *)
Theorem rc4_box_permutation {E} (key : bytes) :
  match Rc4_new (E:=E) key with
  | Ok c => key <> [] /\ rc4_wf c /\
      (forall data, rc4_wf (rc4_apply c data).2 /\ length (rc4_s (rc4_apply c data).2) = 256)
  | Panic => key = []
  | _ => False
  end.
Proof.
  destruct (decide (key = [])) as [->|Hkey]; [vm_compute; done|].
  destruct (Rc4_new_ok (E:=E) key Hkey) as (c & -> & Hc). split_and!; [done|done|].
  intros data. split; [|apply box_perm_length]; by apply rc4_apply_wf.
Qed.

(** The test vectors of the module's tests: key "Key" on "Plaintext"
    and key "Wiki" on "pedia". *)
Theorem rc4_known_answers {E} :
  (c ← Rc4_new (E:=E) (map byte.of_Z [75; 101; 121]%Z);
   Ok (byte.unsigned <$> (rc4_apply c (map byte.of_Z [80; 108; 97; 105; 110; 116; 101; 120; 116]%Z)).1)) =
    Ok [187; 243; 22; 232; 217; 64; 175; 10; 211]%Z /\
  (c ← Rc4_new (E:=E) (map byte.of_Z [87; 105; 107; 105]%Z);
   Ok (byte.unsigned <$> (rc4_apply c (map byte.of_Z [112; 101; 100; 105; 97]%Z)).1)) =
    Ok [16; 33; 191; 4; 32]%Z.
Proof. split; vm_compute; reflexivity. Qed.
