(* ===== verification/Str.v ===== *)
(** * The parts of Rust's [str] the program uses

    A Rust [String] or [&str] is a Rocq [string] whose characters are the
    bytes of its UTF-8 encoding.  The functions follow the documented
    behaviour of the standard library: ASCII case, [trim] (Unicode
    White_Space), [split_once], [split], unsigned [parse], [from_utf8] and
    the decimal and hexadecimal [Display] of small integers. *)

From S2P Require Import Prelude.

(** ** Characters *)

Definition char_code (c : ascii) : nat := Stdlib.Strings.Ascii.nat_of_ascii c.
Definition char_of (n : nat) : ascii := Stdlib.Strings.Ascii.ascii_of_nat n.

(** [char::to_digit(radix)]. *)
Definition to_digit (radix : nat) (c : ascii) : option nat :=
  let n := char_code c in
  let d := if (48 <=? n) && (n <=? 57) then Some (n - 48)
           else if (97 <=? n) && (n <=? 122) then Some (n - 87)
           else if (65 <=? n) && (n <=? 90) then Some (n - 55)
           else None in
  match d with
  | Some d => if d <? radix then Some d else None
  | None => None
  end.

Definition ascii_lower (c : ascii) : ascii :=
  let n := char_code c in
  if (65 <=? n) && (n <=? 90) then char_of (n + 32) else c.

(** [str::to_ascii_lowercase]. *)
Fixpoint to_ascii_lowercase (s : string) : string :=
  match s with
  | EmptyString => EmptyString
  | String c s => String (ascii_lower c) (to_ascii_lowercase s)
  end.

(** ** Bytes and strings *)

Definition string_bytes (s : string) : bytes := String.list_byte_of_string s.
Definition bytes_string (b : bytes) : string := String.string_of_list_byte b.

Definition str_is_empty (s : string) : bool :=
  match s with EmptyString => true | _ => false end.

(** ** [str::trim] *)

(** The UTF-8 encodings of the White_Space code points: U+0009..U+000D,
    U+0020, U+0085, U+00A0, U+1680, U+2000..U+200A, U+2028, U+2029, U+202F,
    U+205F and U+3000. *)
Definition white_space : list (list ascii) :=
  map (map char_of)
    ([[9]; [10]; [11]; [12]; [13]; [32]; [194; 133]; [194; 160]; [225; 154; 128]] ++
     map (fun n => [226; 128; n]) (seq 128 11) ++
     [[226; 128; 168]; [226; 128; 169]; [226; 128; 175]; [226; 129; 159]; [227; 128; 128]]).

Fixpoint strip_prefix (p l : list ascii) : option (list ascii) :=
  match p, l with
  | [], _ => Some l
  | a :: p, b :: l => if bool_decide (a = b) then strip_prefix p l else None
  | _ :: _, [] => None
  end.

Fixpoint strip_any (ps : list (list ascii)) (l : list ascii) : option (list ascii) :=
  match ps with
  | [] => None
  | p :: ps => match strip_prefix p l with Some l => Some l | None => strip_any ps l end
  end.

(** Every strip removes at least one byte: the length is enough fuel. *)
Fixpoint strip_all (fuel : nat) (ps : list (list ascii)) (l : list ascii) : list ascii :=
  match fuel with
  | 0 => l
  | S fuel => match strip_any ps l with Some l => strip_all fuel ps l | None => l end
  end.

Definition trim_start_list (l : list ascii) : list ascii := strip_all (length l) white_space l.
Definition trim_end_list (l : list ascii) : list ascii :=
  reverse (strip_all (length l) (map reverse white_space) (reverse l)).

Definition trim (s : string) : string :=
  String.string_of_list_ascii (trim_end_list (trim_start_list (String.list_ascii_of_string s))).

(** ** Splitting *)

(** [s.split_once(c)]. *)
Fixpoint split_once (c : ascii) (s : string) : option (string * string) :=
  match s with
  | EmptyString => None
  | String a s =>
      if bool_decide (a = c) then Some (EmptyString, s)
      else match split_once c s with
           | Some (l, r) => Some (String a l, r)
           | None => None
           end
  end.

(** [s.split(c)], collected. *)
Fixpoint split (c : ascii) (s : string) : list string :=
  match s with
  | EmptyString => [EmptyString]
  | String a s =>
      if bool_decide (a = c) then EmptyString :: split c s
      else match split c s with
           | x :: xs => String a x :: xs
           | [] => [String a EmptyString]
           end
  end.

(** ** [str::parse] for unsigned integers *)

Fixpoint parse_digits (max acc : Z) (s : string) : option Z :=
  match s with
  | EmptyString => Some acc
  | String c s =>
      match to_digit 10 c with
      | Some d =>
          let acc := (acc * 10 + Z.of_nat d)%Z in
          if (acc <=? max)%Z then parse_digits max acc s else None
      | None => None
      end
  end.

(** An optional [+], then one or more digits, with checked arithmetic. *)
Definition parse_uint (max : Z) (s : string) : option Z :=
  match s with
  | EmptyString => None
  | String c rest =>
      if bool_decide (c = "+"%char) then
        match rest with EmptyString => None | _ => parse_digits max 0 rest end
      else parse_digits max 0 s
  end.

Definition parse_u8 : string -> option Z := parse_uint 255.
Definition parse_u16 : string -> option Z := parse_uint 65535.
Definition parse_u64 : string -> option Z := parse_uint 18446744073709551615.

(** ** [Display] of a [u8] (decimal) and [{:x}] of a [u16] *)

Definition digit_char (n : nat) : ascii :=
  if n <? 10 then char_of (48 + n) else char_of (87 + n).

Definition u8_decimal (n : nat) : string :=
  if n <? 10 then String (digit_char n) EmptyString
  else if n <? 100 then String (digit_char (n / 10)) (String (digit_char (n mod 10)) EmptyString)
  else String (digit_char (n / 100))
         (String (digit_char (n / 10 mod 10)) (String (digit_char (n mod 10)) EmptyString)).

Definition u16_hex (z : Z) : string :=
  let d k := digit_char (Z.to_nat (Z.land (Z.shiftr z (4 * k)) 15)) in
  if (z <? 16)%Z then String (d 0)%Z EmptyString
  else if (z <? 256)%Z then String (d 1)%Z (String (d 0)%Z EmptyString)
  else if (z <? 4096)%Z then String (d 2)%Z (String (d 1)%Z (String (d 0)%Z EmptyString))
  else String (d 3)%Z (String (d 2)%Z (String (d 1)%Z (String (d 0)%Z EmptyString))).

(** ** [std::str::from_utf8] *)

Definition in_range (lo hi : Z) (b : byte) : bool :=
  ((lo <=? byte.unsigned b) && (byte.unsigned b <=? hi))%Z.
Definition is_cont : byte -> bool := in_range 128 191.

(** The well-formed byte sequences of the Unicode standard, table 3-7. *)
Fixpoint utf8_valid (l : bytes) : bool :=
  match l with
  | [] => true
  | a :: l1 =>
      if in_range 0 127 a then utf8_valid l1
      else match l1 with
      | [] => false
      | b :: l2 =>
          if in_range 194 223 a then is_cont b && utf8_valid l2
          else match l2 with
          | [] => false
          | c :: l3 =>
              if in_range 224 224 a then in_range 160 191 b && is_cont c && utf8_valid l3
              else if in_range 225 236 a || in_range 238 239 a
                then is_cont b && is_cont c && utf8_valid l3
              else if in_range 237 237 a then in_range 128 159 b && is_cont c && utf8_valid l3
              else match l3 with
              | [] => false
              | d :: l4 =>
                  if in_range 240 240 a
                    then in_range 144 191 b && is_cont c && is_cont d && utf8_valid l4
                  else if in_range 241 243 a
                    then is_cont b && is_cont c && is_cont d && utf8_valid l4
                  else if in_range 244 244 a
                    then in_range 128 143 b && is_cont c && is_cont d && utf8_valid l4
                  else false
              end
          end
      end
  end.

Definition from_utf8 (l : bytes) : option string :=
  if utf8_valid l then Some (bytes_string l) else None.

(** ** Lemmas *)

Lemma strip_prefix_length p l l' :
  strip_prefix p l = Some l' -> length l = length p + length l'.
Proof.
  revert l. induction p as [|a p IH]; intros l; cbn.
  - by intros [= ->].
  - destruct l as [|b l]; [done|]. case_bool_decide; [|done]. intros H1%IH. cbn. lia.
Qed.

Lemma parse_digits_bound max acc s n :
  (0 <= acc <= max)%Z -> parse_digits max acc s = Some n -> (0 <= n <= max)%Z.
Proof.
  revert acc. induction s as [|c s IH]; intros acc Hacc; cbn.
  - by intros [= <-].
  - case_match; [|done]. case_match eqn:Hle; [|done]. apply Z.leb_le in Hle.
    apply IH. lia.
Qed.

Lemma parse_uint_bound max s n :
  (0 <= max)%Z -> parse_uint max s = Some n -> (0 <= n <= max)%Z.
Proof.
  intros Hm. unfold parse_uint. destruct s as [|c s]; [done|].
  case_bool_decide; [destruct s; [done|]|]; apply parse_digits_bound; lia.
Qed.

Lemma to_ascii_lowercase_idemp s :
  to_ascii_lowercase (to_ascii_lowercase s) = to_ascii_lowercase s.
Proof.
  induction s as [|c s IH]; [done|]. cbn. f_equal; [|done].
  destruct c as [[] [] [] [] [] [] [] []]; vm_compute; reflexivity.
Qed.

Lemma bytes_string_bytes b : string_bytes (bytes_string b) = b.
Proof. apply String.list_byte_of_string_of_list_byte. Qed.

Lemma utf8_valid_ascii l : Forall (fun b => (byte.unsigned b < 128)%Z) l -> utf8_valid l = true.
Proof.
  induction 1 as [|b l Hb Hl IH]; [done|].
  cbn -[in_range]. unfold in_range at 1. pose proof (u8_unsigned_range b).
  rewrite (proj2 (Z.leb_le 0 _)), (proj2 (Z.leb_le _ 127)) by lia. done.
Qed.

(** Test: the examples of the documentation. *)
Example trim_examples :
  trim "  1.2.3.4 " = "1.2.3.4" /\ split "," "a,,b" = ["a"; ""; "b"] /\
  split_once "/" "10.0.0.0/8/9" = Some ("10.0.0.0", "8/9") /\
  parse_u8 "+032" = Some 32%Z /\ parse_u8 "256" = None /\ parse_u8 "" = None /\
  parse_u16 "+" = None /\ u8_decimal 107 = "107" /\ u16_hex 43981 = "abcd".
Proof. vm_compute. done. Qed.
