(* ===== verification/Cipher.v ===== *)
(** * Stream-cipher selection ([src/src/ssr/cipher.rs])

    [CipherKind] with its key and IV lengths, and [StreamCipher], one
    direction of a connection.  The interface the upper layers use is the
    class [KeystreamCipher]: processing XORs a keystream.  [Rc4Md5]
    implements it (proved from rc4.rs), [ChaCha20] by its law, and
    [StreamCipher] from both. *)

From S2P Require Import Prelude Errors Kdf Rc4 Str.

(** [enum CipherKind]. *)
Module CipherKind.

Inductive t : Type := Rc4Md5 | Chacha20Ietf.

#[export] Instance eq_dec : EqDecision t.
Proof. solve_decision. Defined.

Definition from_method (method : string) : res error t :=
  let m := to_ascii_lowercase method in
  if bool_decide (m = "rc4-md5") then Ok Rc4Md5
  else if bool_decide (m = "chacha20-ietf") then Ok Chacha20Ietf
  else Err (UnsupportedMethod m).

Definition key_len (k : t) : nat :=
  match k with Rc4Md5 => 16 | Chacha20Ietf => 32 end.

Definition iv_len (k : t) : nat :=
  match k with Rc4Md5 => 16 | Chacha20Ietf => 12 end.

End CipherKind.

Abbreviation CipherKind := CipherKind.t (only parsing).

(** [enum StreamCipher]. *)
Module StreamCipher.
Section StreamCipher.
Context `{Crypto}.

Inductive t : Type :=
  | Rc4 (c : Rc4Md5)
  | Chacha20 (c : ChaCha20).

(** [StreamCipher::process]. *)
Definition process (c : t) (data : bytes) : bytes * t :=
  match c with
  | Rc4 c => let '(out, c) := Rc4Md5_process c data in (out, Rc4 c)
  | Chacha20 c => let '(out, c) := chacha20_apply c data in (out, Chacha20 c)
  end.

(** [CipherKind::new_stream]. *)
Definition new_stream {E} (k : CipherKind) (master_key iv : bytes) : res E t :=
  match k with
  | CipherKind.Rc4Md5 => c ← Rc4Md5_new master_key iv; Ok (Rc4 c)
  | CipherKind.Chacha20Ietf => c ← expect (chacha20_new master_key iv); Ok (Chacha20 c)
  end.

End StreamCipher.
End StreamCipher.

Abbreviation StreamCipher := StreamCipher.t (only parsing).

(** ** The interface: a keystream cipher *)

Class KeystreamCipher {C : Type} (process : C -> bytes -> bytes * C) : Prop :=
  keystream_spec : exists next, forall c d, process c d = xor_stream next c d.

(** Successive calls of [process] on one cipher object. *)
Fixpoint process_all {C} (process : C -> bytes -> bytes * C) (c : C) (ds : list bytes) : list bytes :=
  match ds with
  | [] => []
  | d :: ds => (process c d).1 :: process_all process (process c d).2 ds
  end.

Section Keystream.
Context {C : Type} (process : C -> bytes -> bytes * C) `{!KeystreamCipher process}.

Lemma process_nil c : process c [] = ([], c).
Proof. destruct (keystream_spec (process:=process)) as [next Hn]. by rewrite Hn. Qed.

Lemma process_app c a b :
  process c (a ++ b) =
    ((process c a).1 ++ (process (process c a).2 b).1, (process (process c a).2 b).2).
Proof.
  destruct (keystream_spec (process:=process)) as [next Hn]. rewrite !Hn.
  revert c. induction a as [|x a IH]; intros c; cbn.
  { by destruct (xor_stream next c b). }
  destruct (next c) as [k c1]. rewrite IH. by destruct (xor_stream next c1 a).
Qed.

Lemma process_length c d : length (process c d).1 = length d.
Proof.
  destruct (keystream_spec (process:=process)) as [next Hn]. rewrite Hn.
  revert c. induction d as [|x d IH]; intros c; cbn; [done|].
  destruct (next c) as [k c1]. specialize (IH c1). destruct (xor_stream next c1 d).
  cbn in *. by rewrite IH.
Qed.

(** Processing twice from the same state gives the data back. *)
Lemma process_cancel c d : process c (process c d).1 = (d, (process c d).2).
Proof.
  destruct (keystream_spec (process:=process)) as [next Hn]. rewrite !Hn.
  revert c. induction d as [|x d IH]; intros c; [done|]. cbn.
  destruct (next c) as [k c1] eqn:Hk. specialize (IH c1).
  destruct (xor_stream next c1 d) as [d' c2] eqn:Hd. cbn in *.
  rewrite Hk, IH. by rewrite u8_xor_cancel.
Qed.

Lemma process_all_concat c ds : concat (process_all process c ds) = (process c (concat ds)).1.
Proof.
  revert c. induction ds as [|d ds IH]; intros c; cbn; [by rewrite process_nil|].
  by rewrite IH, process_app.
Qed.

End Keystream.

#[export] Instance rc4md5_keystream : KeystreamCipher Rc4Md5_process.
Proof.
  exists (fun c => let '(k, c) := rc4_next (rc4 c) in (k, {| rc4 := c |})).
  intros [c] d. unfold Rc4Md5_process. cbn [rc4]. rewrite rc4_apply_xor_stream.
  revert c. induction d as [|x d IH]; intros c; [done|].
  cbn -[rc4_next]. destruct (rc4_next c) as [k c1]. rewrite <- IH.
  by destruct (xor_stream rc4_next c1 d).
Qed.

#[export] Instance stream_cipher_keystream `{HL : CryptoLaws} :
  KeystreamCipher StreamCipher.process.
Proof.
  destruct rc4md5_keystream as [next1 H1]. destruct chacha20_keystream as [next2 H2].
  exists (fun c => match c with
    | StreamCipher.Rc4 c => let '(k, c) := next1 c in (k, StreamCipher.Rc4 c)
    | StreamCipher.Chacha20 c => let '(k, c) := next2 c in (k, StreamCipher.Chacha20 c)
    end).
  intros [c|c] d; cbn; rewrite ?H1, ?H2; revert c; induction d as [|x d IH];
    intros c; [done| |done|]; cbn.
  - destruct (next1 c) as [k c1]. rewrite <- IH. by destruct (xor_stream next1 c1 d).
  - destruct (next2 c) as [k c1]. rewrite <- IH. by destruct (xor_stream next2 c1 d).
Qed.

(** The [expect]s of [new_stream] hold: with a key of [key_len] and an IV
    of [iv_len] bytes it returns a cipher. *)
Lemma new_stream_ok `{HL : CryptoLaws} {E} k master_key iv :
  length master_key = CipherKind.key_len k -> length iv = CipherKind.iv_len k ->
  exists c, StreamCipher.new_stream (E:=E) k master_key iv = Ok c.
Proof.
  intros Hk Hi. unfold StreamCipher.new_stream. destruct k; cbn in Hk, Hi.
  - destruct (Rc4Md5_new_ok (E:=E) master_key iv) as (c & -> & _). by eexists.
  - destruct (chacha20_new_sizes master_key iv Hk Hi) as [c ->]. by eexists.
Qed.

(** ** Properties *)

(** For both methods, a key of [key_len] bytes and an IV of [iv_len]
    bytes: [new_stream] succeeds, and a second stream built from the same
    key and IV recovers the plaintext, however sender and receiver cut the
    byte stream into calls of [process]. *)
Theorem stream_cipher_roundtrip `{HL : CryptoLaws} (k : CipherKind) master_key iv
    (Hk : length master_key = CipherKind.key_len k) (Hi : length iv = CipherKind.iv_len k) :
  exists c, StreamCipher.new_stream (E:=error) k master_key iv = Ok c /\
    forall sent received,
      concat received = concat (process_all StreamCipher.process c sent) ->
      concat (process_all StreamCipher.process c received) = concat sent.
Proof.
  destruct (new_stream_ok (E:=error) k master_key iv Hk Hi) as [c Hc].
  exists c. split; [done|]. intros sent received Heq.
  rewrite (process_all_concat _ c received), Heq, (process_all_concat _ c sent).
  by rewrite (process_cancel _).
Qed.

Lemma stream_cipher_roundtrip_witness :
  exists c, StreamCipher.new_stream (H:=Toy.crypto) (E:=error) CipherKind.Chacha20Ietf
      (repeat Byte.x07 32) (repeat Byte.x01 12) = Ok c /\
    forall sent received,
      concat received = concat (process_all StreamCipher.process c sent) ->
      concat (process_all StreamCipher.process c received) = concat sent.
Proof.
  apply (stream_cipher_roundtrip (HL:=Toy.crypto_laws) CipherKind.Chacha20Ietf); reflexivity.
Defined.

(** [from_method] accepts exactly the two supported methods, in any
    ASCII case; every other name is the error that carries it. *)
Theorem from_method_spec (method : string) :
  match CipherKind.from_method method with
  | Ok CipherKind.Rc4Md5 => to_ascii_lowercase method = "rc4-md5"
  | Ok CipherKind.Chacha20Ietf => to_ascii_lowercase method = "chacha20-ietf"
  | Err e => e = UnsupportedMethod (to_ascii_lowercase method) /\
      to_ascii_lowercase method <> "rc4-md5" /\ to_ascii_lowercase method <> "chacha20-ietf"
  | _ => False
  end.
Proof. unfold CipherKind.from_method. by repeat case_bool_decide. Qed.
