(* ===== verification/Protocol.v ===== *)
(** * The [auth_aes128_md5] protocol layer ([src/src/ssr/protocol.rs])

    [AuthAes128Md5] is the per-connection state; [server_post_decrypt] and
    [server_pre_encrypt] are the receive and send paths as state-and-error
    computations with Rust's slice panics, the two [udp_*] functions the
    datagram codec. *)

From S2P Require Import Prelude Errors Kdf Str.

(** [SALT], [UNIT_LEN], [MAX_PACKET]. *)
Definition SALT : bytes := String.list_byte_of_string "auth_aes128_md5".
Definition UNIT_LEN : nat := Z.to_nat 8100.
Definition MAX_PACKET : nat := Z.to_nat 8192.

Module AuthAes128Md5.

(** [struct AuthAes128Md5]. *)
Record t : Type := {
  master_key : bytes;
  user_key : bytes;
  users : gmap Z bytes;
  is_multi_user : Z;
  user_id : option Z;
  aes_key : bytes;
  recv_iv : bytes;
  recv_buf : bytes;
  has_recv_header : bool;
  recv_id : Z;
  pack_id : Z
}.

(** Assignments [self.field = v]. *)
Definition set_user_key (v : bytes) (s : t) : t :=
  {| master_key := master_key s; user_key := v; users := users s;
     is_multi_user := is_multi_user s; user_id := user_id s; aes_key := aes_key s;
     recv_iv := recv_iv s; recv_buf := recv_buf s; has_recv_header := has_recv_header s;
     recv_id := recv_id s; pack_id := pack_id s |}.
Definition set_user_id (v : option Z) (s : t) : t :=
  {| master_key := master_key s; user_key := user_key s; users := users s;
     is_multi_user := is_multi_user s; user_id := v; aes_key := aes_key s;
     recv_iv := recv_iv s; recv_buf := recv_buf s; has_recv_header := has_recv_header s;
     recv_id := recv_id s; pack_id := pack_id s |}.
Definition set_aes_key (v : bytes) (s : t) : t :=
  {| master_key := master_key s; user_key := user_key s; users := users s;
     is_multi_user := is_multi_user s; user_id := user_id s; aes_key := v;
     recv_iv := recv_iv s; recv_buf := recv_buf s; has_recv_header := has_recv_header s;
     recv_id := recv_id s; pack_id := pack_id s |}.
Definition set_recv_buf (v : bytes) (s : t) : t :=
  {| master_key := master_key s; user_key := user_key s; users := users s;
     is_multi_user := is_multi_user s; user_id := user_id s; aes_key := aes_key s;
     recv_iv := recv_iv s; recv_buf := v; has_recv_header := has_recv_header s;
     recv_id := recv_id s; pack_id := pack_id s |}.
Definition set_has_recv_header (v : bool) (s : t) : t :=
  {| master_key := master_key s; user_key := user_key s; users := users s;
     is_multi_user := is_multi_user s; user_id := user_id s; aes_key := aes_key s;
     recv_iv := recv_iv s; recv_buf := recv_buf s; has_recv_header := v;
     recv_id := recv_id s; pack_id := pack_id s |}.
Definition set_recv_id (v : Z) (s : t) : t :=
  {| master_key := master_key s; user_key := user_key s; users := users s;
     is_multi_user := is_multi_user s; user_id := user_id s; aes_key := aes_key s;
     recv_iv := recv_iv s; recv_buf := recv_buf s; has_recv_header := has_recv_header s;
     recv_id := v; pack_id := pack_id s |}.
Definition set_pack_id (v : Z) (s : t) : t :=
  {| master_key := master_key s; user_key := user_key s; users := users s;
     is_multi_user := is_multi_user s; user_id := user_id s; aes_key := aes_key s;
     recv_iv := recv_iv s; recv_buf := recv_buf s; has_recv_header := has_recv_header s;
     recv_id := recv_id s; pack_id := v |}.

Section Code.
Context `{Crypto}.

(** The key derivation shared by [new] and [rebuild_aes_key]. *)
Definition aes_seed (key : bytes) : bytes := base64_encode key ++ SALT.

Definition derive_aes_key (key : bytes) : res error bytes :=
  copy_from_slice 16 (evp_bytes_to_key (aes_seed key) 16).

(** [AuthAes128Md5::new]. *)
Definition new (mk iv : bytes) (us : gmap Z bytes) (multi : Z) : res error t :=
  k ← derive_aes_key mk;
  Ok {| master_key := mk; user_key := mk; users := us; is_multi_user := multi;
        user_id := None; aes_key := k; recv_iv := iv; recv_buf := [];
        has_recv_header := false; recv_id := 1; pack_id := 1 |}.

Definition rebuild_aes_key : ST t error () :=
  s ← get;
  k ← lift (derive_aes_key (user_key s));
  modify (set_aes_key k).

Definition aes_decrypt_block (s : t) (block16 : bytes) : res error bytes :=
  block ← copy_from_slice 16 block16;
  Ok (aes128_decrypt (aes_key s) block).

(** [u16_le]. *)
Definition u16_le (b : bytes) : res error nat :=
  w ← index_n b 0 2; Ok (Z.to_nat (u16_from_le w)).

(** The user look-up of [server_post_decrypt] (lines 109-119). *)
Definition select_user (uid : Z) : ST t error () :=
  s ← get;
  match users s !! uid with
  | Some key =>
      modify (set_user_id (Some uid));;
      modify (set_user_key key);;
      rebuild_aes_key
  | None =>
      if (is_multi_user s =? 2)%Z then
        modify (set_user_id None);;
        modify (set_user_key (recv_iv s));;
        rebuild_aes_key
      else mret ()
  end.

(** [a != b] on byte strings. *)
Definition differ (a b : bytes) : bool := bool_decide (a <> b).

(** The auth-header phase (lines 80-142): [None] is the early
    [return Ok(out)] that waits for more bytes. *)
Definition recv_auth_header : ST t error (option bytes) :=
  s ← get;
  let buf := recv_buf s in
  let mac_key := recv_iv s ++ master_key s in
  (if 7 <=? length buf then
     d ← lift (slice buf 0 1);
     got ← lift (slice buf 1 7);
     lift (bail_if (differ (hmac_md5_prefix mac_key d 6) got) CheckHeadMismatch)
   else mret ());;
  if length buf <? 31 then mret None
  else
    d ← lift (slice buf 7 27);
    got ← lift (slice buf 27 31);
    lift (bail_if (differ (hmac_md5_prefix mac_key d 4) got) AuthHmacMismatch);;
    w ← lift (index_n buf 7 4);
    select_user (u32_from_le w);;
    s ← get;
    block ← lift (slice buf 11 27);
    head ← lift (aes_decrypt_block s block);
    w ← lift (slice head 12 14);
    len ← lift (u16_le w);
    lift (bail_if (negb ((31 <=? len) && (len <? MAX_PACKET))) (BadAuthLength len));;
    if length buf <? len then mret None
    else
      w ← lift (slice head 14 16);
      rnd_len ← lift (u16_le w);
      body ← lift (slice buf 0 (len - 4));
      got ← lift (slice buf (len - 4) len);
      lift (bail_if (differ (hmac_md5_prefix (user_key s) body 4) got) AuthChecksumMismatch);;
      let payload_start := 31 + rnd_len in
      lift (bail_if (len - 4 <? payload_start) (RndLenOverrun rnd_len));;
      out ← lift (slice buf payload_start (len - 4));
      rest ← lift (drain_front len buf);
      modify (set_recv_buf rest);;
      modify (set_has_recv_header true);;
      mret (Some out).

(** The [while] loop over streaming packets (lines 145-177). *)
Fixpoint recv_packets (fuel : nat) (out : bytes) : ST t error bytes :=
  match fuel with
  | 0 => lift OutOfFuel
  | S fuel =>
      s ← get;
      let buf := recv_buf s in
      if 4 <? length buf then
        let mac_key := user_key s ++ u32_to_le (recv_id s) in
        d ← lift (slice buf 0 2);
        got ← lift (slice buf 2 4);
        lift (bail_if (differ (hmac_md5_prefix mac_key d 2) got) LengthHmacMismatch);;
        len ← lift (u16_le d);
        lift (bail_if (negb ((7 <=? len) && (len <? MAX_PACKET))) (BadDataLength len));;
        if length buf <? len then mret out
        else
          body ← lift (slice buf 0 (len - 4));
          got ← lift (slice buf (len - 4) len);
          lift (bail_if (differ (hmac_md5_prefix mac_key body 4) got) DataChecksumMismatch);;
          modify (set_recv_id (u32_succ (recv_id s)));;
          marker ← lift (index buf 4);
          pos ← (if u8_idx marker <? 255 then mret (u8_idx marker + 4)
                 else w ← lift (slice buf 5 7); p ← lift (u16_le w); mret (p + 4));
          lift (bail_if (len - 4 <? pos) PaddingOverrun);;
          chunk ← lift (slice buf pos (len - 4));
          rest ← lift (drain_front len buf);
          modify (set_recv_buf rest);;
          recv_packets fuel (out ++ chunk)
      else mret out
  end.

(** [server_post_decrypt].  A packet is at least 7 bytes, so one round per
    buffered byte, and one for the failing test, is enough fuel. *)
Definition server_post_decrypt (incoming : bytes) : ST t error bytes :=
  modify (fun s => set_recv_buf (recv_buf s ++ incoming) s);;
  s ← get;
  first ← (if has_recv_header s then mret (Some []) else recv_auth_header);
  match first with
  | None => mret []
  | Some out => s ← get; recv_packets (S (length (recv_buf s))) out
  end.

(** [pack_data]. *)
Definition pack_data (buf : bytes) : ST t error bytes :=
  s ← get;
  let data := Byte.x01 :: buf in
  let data_len := usize_as_u16 (length data + 8) in
  let mac_key := user_key s ++ u32_to_le (pack_id s) in
  let len_bytes := u16_to_le data_len in
  let mac := hmac_md5_prefix mac_key len_bytes 2 in
  let packet := len_bytes ++ mac ++ data in
  let tail := hmac_md5_prefix mac_key packet 4 in
  modify (set_pack_id (u32_succ (pack_id s)));;
  mret (packet ++ tail).

(** [server_pre_encrypt]: the [while] loop, then the last packet. *)
Fixpoint pre_encrypt_loop (fuel : nat) (rest out : bytes) : ST t error bytes :=
  match fuel with
  | 0 => lift OutOfFuel
  | S fuel =>
      if UNIT_LEN <? length rest then
        unit ← lift (slice rest 0 UNIT_LEN);
        p ← pack_data unit;
        rest ← lift (slice_from rest UNIT_LEN);
        pre_encrypt_loop fuel rest (out ++ p)
      else
        p ← pack_data rest;
        mret (out ++ p)
  end.

Definition server_pre_encrypt (plaintext : bytes) : ST t error bytes :=
  pre_encrypt_loop (S (length plaintext)) plaintext [].

End Code.
End AuthAes128Md5.

Abbreviation AuthAes128Md5 := AuthAes128Md5.t (only parsing).

(** ** UDP *)

Section Udp.
Context `{Crypto}.

(** [udp_server_post_decrypt]. *)
Definition udp_server_post_decrypt (master_key : bytes) (users : gmap Z bytes)
    (is_multi_user : Z) (recv_iv buf : bytes) : res error (bytes * option Z) :=
  bail_if (length buf <? 8) (UdpTooShort (length buf));;
  w ← index_n buf (length buf - 8) 4;
  let uid := u32_from_le w in
  let '(user_key, user_id) :=
    match users !! uid with
    | Some user_key => (user_key, Some uid)
    | None => if (is_multi_user =? 0)%Z then (master_key, None) else (recv_iv, None)
    end in
  body ← slice buf 0 (length buf - 4);
  let expected := hmac_md5_prefix user_key body 4 in
  got ← slice_from buf (length buf - 4);
  bail_if (AuthAes128Md5.differ expected got) UdpHmacMismatch;;
  payload ← slice buf 0 (length buf - 8);
  Ok (payload, user_id).

(** [user_auth_key]. *)
Definition user_auth_key (password : string) : bytes := md5 (string_bytes password).

(** [udp_server_pre_encrypt]. *)
Definition udp_server_pre_encrypt (proto_key buf : bytes) : bytes :=
  let mac := hmac_md5_prefix proto_key buf 4 in
  buf ++ mac.

End Udp.
