(* ===== verification/ProtocolSpec.v ===== *)
(** * The framing specification of [auth_aes128_md5] and its refinement

    The contract of the receive path, stated without state, panics or
    loops over mutable buffers: [auth_frame] and [data_frame] say what the
    first packet of a byte string is ([NeedMore], [Reject] or [Frame]), and
    [decode] is the packet stream they cut.  [server_post_decrypt] refines
    it ([post_decrypt_refines]); from there, panic freedom, termination and
    independence of the chunking of the input follow. *)

From S2P Require Import Prelude Errors Kdf Protocol.
Import AuthAes128Md5.

(** ** Frames *)

Inductive frame : Type :=
  | NeedMore
  | Reject (e : error)
  | Frame (payload : bytes) (consumed : nat).

Section Spec.
Context `{Crypto}.

Definition aes_key_of (key : bytes) : bytes := evp_bytes_to_key (aes_seed key) 16.

(** The state after the look-up of [uid]. *)
Definition selected (uid : Z) (s : t) : t :=
  match users s !! uid with
  | Some key => set_aes_key (aes_key_of key) (set_user_key key (set_user_id (Some uid) s))
  | None =>
      if (is_multi_user s =? 2)%Z
      then set_aes_key (aes_key_of (recv_iv s)) (set_user_key (recv_iv s) (set_user_id None s))
      else s
  end.

Definition auth_mac_key (s : t) : bytes := recv_iv s ++ master_key s.
Definition frame_uid (buf : bytes) : Z := u32_from_le (sub buf 7 11).

(** The decrypted 16-byte block of an auth header. *)
Definition auth_head (s : t) (buf : bytes) : bytes :=
  aes128_decrypt (aes_key (selected (frame_uid buf) s)) (sub buf 11 27).

Definition u16_at (b : bytes) (i : nat) : nat := Z.to_nat (u16_from_le (sub b i (i + 2))).

Definition mac_ok (key data : bytes) (n : nat) (got : bytes) : bool :=
  negb (differ (hmac_md5_prefix key data n) got).

(** The auth packet at the front of [buf]. *)
Definition auth_frame (s : t) (buf : bytes) : frame :=
  if length buf <? 7 then NeedMore
  else if negb (mac_ok (auth_mac_key s) (sub buf 0 1) 6 (sub buf 1 7)) then Reject CheckHeadMismatch
  else if length buf <? 31 then NeedMore
  else if negb (mac_ok (auth_mac_key s) (sub buf 7 27) 4 (sub buf 27 31)) then Reject AuthHmacMismatch
  else
    let head := auth_head s buf in
    let len := u16_at head 12 in
    let rnd_len := u16_at head 14 in
    if negb ((31 <=? len) && (len <? MAX_PACKET)) then Reject (BadAuthLength len)
    else if length buf <? len then NeedMore
    else if negb (mac_ok (user_key (selected (frame_uid buf) s)) (sub buf 0 (len - 4)) 4
                    (sub buf (len - 4) len)) then Reject AuthChecksumMismatch
    else if len - 4 <? 31 + rnd_len then Reject (RndLenOverrun rnd_len)
    else Frame (sub buf (31 + rnd_len) (len - 4)) len.

(** Where the payload of a data packet starts: after one padding byte that
    holds the padding's length, or, for the value 255, the two bytes that
    follow. *)
Definition data_pos (buf : bytes) : nat :=
  let marker := u8_idx (buf !!! 4) in
  if marker <? 255 then marker + 4 else u16_at buf 5 + 4.

(** The data packet at the front of [buf], under the user's key and the
    packet counter [id]. *)
Definition data_frame (key : bytes) (id : Z) (buf : bytes) : frame :=
  let mac_key := key ++ u32_to_le id in
  if length buf <=? 4 then NeedMore
  else if negb (mac_ok mac_key (sub buf 0 2) 2 (sub buf 2 4)) then Reject LengthHmacMismatch
  else
    let len := u16_at buf 0 in
    if negb ((7 <=? len) && (len <? MAX_PACKET)) then Reject (BadDataLength len)
    else if length buf <? len then NeedMore
    else if negb (mac_ok mac_key (sub buf 0 (len - 4)) 4 (sub buf (len - 4) len))
      then Reject DataChecksumMismatch
    else if len - 4 <? data_pos buf then Reject PaddingOverrun
    else Frame (sub buf (data_pos buf) (len - 4)) len.

(** The payload of all complete data packets of [buf], with the counter and
    the bytes that remain.  [fuel] above the length of [buf] is enough. *)
Fixpoint data_frames (fuel : nat) (key : bytes) (id : Z) (buf out : bytes) : res error (bytes * Z * bytes) :=
  match fuel with
  | 0 => OutOfFuel
  | S fuel =>
      match data_frame key id buf with
      | NeedMore => Ok (out, id, buf)
      | Reject e => Err e
      | Frame p n => data_frames fuel key (u32_succ id) (drop n buf) (out ++ p)
      end
  end.

(** The receive path as a function of the state and the buffered bytes. *)
Definition after_frames (s : t) (r : res error (bytes * Z * bytes)) : res error (bytes * t) :=
  '(out, id, rest) ← r; Ok (out, set_recv_buf rest (set_recv_id id s)).

Definition decode (s : t) (buf : bytes) : res error (bytes * t) :=
  if has_recv_header s then
    after_frames s (data_frames (S (length buf)) (user_key s) (recv_id s) buf [])
  else
    match auth_frame s buf with
    | NeedMore =>
        Ok ([], set_recv_buf buf (if length buf <? 31 then s else selected (frame_uid buf) s))
    | Reject e => Err e
    | Frame p n =>
        let s1 := set_has_recv_header true (selected (frame_uid buf) s) in
        after_frames s1 (data_frames (S (length buf)) (user_key s1) (recv_id s1) (drop n buf) p)
    end.

(** Well-formed state: [aes_key] is the key derived from [user_key]. *)
Definition wf (s : t) : Prop := aes_key s = aes_key_of (user_key s).

(** The state [new] returns. *)
Definition initial (mk iv : bytes) (us : gmap Z bytes) (multi : Z) : t :=
  {| master_key := mk; user_key := mk; users := us; is_multi_user := multi;
     user_id := None; aes_key := aes_key_of mk; recv_iv := iv; recv_buf := [];
     has_recv_header := false; recv_id := 1; pack_id := 1 |}.

(** Feed the chunks of a byte stream one after the other. *)
Fixpoint feed (chunks : list bytes) : ST t error bytes :=
  match chunks with
  | [] => mret []
  | c :: chunks => out ← server_post_decrypt c; rest ← feed chunks; mret (out ++ rest)
  end.

End Spec.

(** ** Outcomes of composed methods *)

Lemma outcome_bind {S E A B} (m : ST S E A) (f : A -> ST S E B) s :
  outcome (m ≫= f) s = ('(a, s') ← outcome m s; outcome (f a) s').
Proof.
  unfold outcome, mbind, ST_bind, res_bind. by destruct (m s) as [[] ?].
Qed.

Lemma outcome_lift {S E A} (r : res E A) (s : S) : outcome (lift r) s = (a ← r; Ok (a, s)).
Proof. by destruct r. Qed.

Lemma outcome_lift_ok {S E A} (r : res E A) (s : S) a : r = Ok a -> outcome (lift r) s = Ok (a, s).
Proof. by intros ->. Qed.

Lemma outcome_get {S E} (s : S) : outcome (E:=E) get s = Ok (s, s).
Proof. done. Qed.

Lemma outcome_modify {S E} (f : S -> S) (s : S) : outcome (E:=E) (modify f) s = Ok ((), f s).
Proof. done. Qed.

Lemma outcome_ret {S E A} (a : A) (s : S) : outcome (E:=E) (mret a) s = Ok (a, s).
Proof. done. Qed.

Lemma outcome_bail_if {S E} (b : bool) (e : E) (s : S) :
  outcome (lift (bail_if b e)) s = if b then Err e else Ok ((), s).
Proof. by destruct b. Qed.

Lemma outcome_slice {S E A} (buf : list A) a b (s : S) :
  a <= b <= length buf -> outcome (E:=E) (lift (slice buf a b)) s = Ok (sub buf a b, s).
Proof. intros. by rewrite outcome_lift, slice_ok. Qed.

Lemma outcome_index_n {S E A} (buf : list A) i n (s : S) :
  i + n <= length buf -> outcome (E:=E) (lift (index_n buf i n)) s = Ok (sub buf i (i + n), s).
Proof. intros. by rewrite outcome_lift, index_n_ok. Qed.

Lemma outcome_drain {S E A} (buf : list A) n (s : S) :
  n <= length buf -> outcome (E:=E) (lift (drain_front n buf)) s = Ok (drop n buf, s).
Proof. intros. by rewrite outcome_lift, drain_front_ok. Qed.

Lemma outcome_u16_le {S} (b : bytes) (s : S) :
  length b = 2 -> outcome (lift (u16_le b)) s = Ok (Z.to_nat (u16_from_le b), s).
Proof.
  intros Hb. rewrite outcome_lift. unfold u16_le. rewrite index_n_ok by lia.
  rewrite sub_all by (cbn; lia). done.
Qed.

(** Run the monadic program at the head of an [outcome]. *)
Ltac run_step :=
  first
    [ rewrite outcome_bind | rewrite outcome_get | rewrite outcome_modify
    | rewrite outcome_ret | rewrite outcome_bail_if | rewrite bind_Ok
    | rewrite outcome_slice by (split; lia) | rewrite outcome_index_n by lia
    | rewrite outcome_drain by lia ].
Ltac run := repeat (run_step; cbv beta zeta iota).

Section Refinement.
Context `{HL : CryptoLaws}.

Lemma derive_aes_key_ok key : derive_aes_key key = Ok (aes_key_of key).
Proof. unfold derive_aes_key. by rewrite copy_from_slice_ok by apply length_evp_bytes_to_key. Qed.

Lemma length_aes_key_of key : length (aes_key_of key) = 16.
Proof. apply length_evp_bytes_to_key. Qed.

Lemma new_ok mk iv us multi : new mk iv us multi = Ok (initial mk iv us multi).
Proof. unfold new. by rewrite derive_aes_key_ok. Qed.

Lemma initial_wf mk iv us multi : wf (initial mk iv us multi).
Proof. done. Qed.

Lemma selected_wf uid s : wf s -> wf (selected uid s).
Proof.
  intros Hs. unfold selected. case_match; [done|]. by case_match.
Qed.

Lemma select_user_refines uid s : outcome (select_user uid) s = Ok ((), selected uid s).
Proof.
  unfold select_user, selected. run. destruct (users s !! uid) as [key|].
  - unfold rebuild_aes_key. run. by rewrite outcome_lift, derive_aes_key_ok.
  - case_match; [|done]. unfold rebuild_aes_key. run.
    by rewrite outcome_lift, derive_aes_key_ok.
Qed.

Lemma auth_head_length s buf : wf s -> 31 <= length buf -> length (auth_head s buf) = 16.
Proof.
  intros Hs Hb. apply aes128_decrypt_length.
  - rewrite (selected_wf _ s Hs). apply length_aes_key_of.
  - rewrite length_sub; lia.
Qed.

Lemma recv_auth_header_refines s :
  wf s ->
  outcome recv_auth_header s =
    match auth_frame s (recv_buf s) with
    | NeedMore =>
        Ok (None, if length (recv_buf s) <? 31 then s else selected (frame_uid (recv_buf s)) s)
    | Reject e => Err e
    | Frame p n =>
        Ok (Some p, set_has_recv_header true
             (set_recv_buf (drop n (recv_buf s)) (selected (frame_uid (recv_buf s)) s)))
    end.
Proof.
  intros Hs. unfold recv_auth_header, auth_frame, mac_ok, auth_mac_key. run.
  rewrite !negb_involutive. set (buf := recv_buf s).
  destruct (Nat.ltb_spec (length buf) 7) as [H7|H7].
  { rewrite (proj2 (Nat.leb_gt 7 _)) by lia.
    rewrite (proj2 (Nat.ltb_lt _ 31)) by lia. by run. }
  rewrite (proj2 (Nat.leb_le 7 _)) by lia. run.
  destruct (differ _ _); [done|]. run.
  destruct (Nat.ltb_spec (length buf) 31) as [H31|H31]; [done|]. run.
  destruct (differ _ _); [done|]. run.
  change (u32_from_le (sub buf 7 (7 + 4))) with (frame_uid buf).
  rewrite select_user_refines. run.
  unfold aes_decrypt_block. rewrite copy_from_slice_ok by (rewrite length_sub; lia).
  rewrite bind_Ok, outcome_lift. run.
  change (aes128_decrypt _ _) with (auth_head s buf).
  pose proof (auth_head_length s buf Hs H31) as Hhead. run.
  rewrite outcome_u16_le by (rewrite length_sub; lia). run.
  change (Z.to_nat _) with (u16_at (auth_head s buf) 12).
  set (len := u16_at (auth_head s buf) 12).
  destruct (negb _) eqn:Hlen; [done|]. run.
  apply negb_false_iff, andb_prop in Hlen as [Hlen%Nat.leb_le _].
  destruct (Nat.ltb_spec (length buf) len) as [Hb|Hb]; [done|]. run.
  rewrite outcome_u16_le by (rewrite length_sub; lia). run.
  change (Z.to_nat _) with (u16_at (auth_head s buf) 14).
  set (rnd_len := u16_at (auth_head s buf) 14).
  destruct (differ _ _); [done|]. run.
  destruct (Nat.ltb_spec (len - 4) (31 + rnd_len)) as [Hr|Hr]; [done|]. by run.
Qed.

Lemma recv_packets_refines fuel s out :
  outcome (recv_packets fuel out) s =
    after_frames s (data_frames fuel (user_key s) (recv_id s) (recv_buf s) out).
Proof.
  revert s out. induction fuel as [|fuel IH]; intros s out; [done|].
  cbn [recv_packets data_frames]. unfold data_frame, mac_ok. run.
  rewrite !negb_involutive. set (buf := recv_buf s).
  assert (Heta : set_recv_buf buf (set_recv_id (recv_id s) s) = s) by by destruct s.
  destruct (Nat.ltb_spec 4 (length buf)) as [H4|H4].
  2:{ rewrite (proj2 (Nat.leb_le _ 4)) by lia. run. unfold after_frames. run. by rewrite Heta. }
  rewrite (proj2 (Nat.leb_gt _ 4)) by lia. run.
  destruct (differ _ _); [done|]. run.
  rewrite outcome_u16_le by (rewrite length_sub; lia). run.
  change (Z.to_nat (u16_from_le (sub buf 0 2))) with (u16_at buf 0).
  set (len := u16_at buf 0).
  destruct (negb _) eqn:Hlen; [done|]. run.
  apply negb_false_iff, andb_prop in Hlen as [Hlen%Nat.leb_le _].
  destruct (Nat.ltb_spec (length buf) len) as [Hb|Hb].
  { run. unfold after_frames. run. by rewrite Heta. }
  run. destruct (differ _ _); [done|]. run.
  rewrite (outcome_lift_ok _ _ (buf !!! 4)); [run|].
  2:{ unfold index. by rewrite (list_lookup_lookup_total_lt buf 4) by lia. }
  assert (Hpos : forall s', outcome (S:=t) (E:=error)
      (if u8_idx (buf !!! 4) <? 255 then mret (u8_idx (buf !!! 4) + 4)
       else w ← lift (slice buf 5 7); p ← lift (u16_le w); mret (p + 4)) s' = Ok (data_pos buf, s')).
  { intros s'. unfold data_pos. destruct (u8_idx _ <? 255); run; [done|].
    rewrite outcome_u16_le by (rewrite length_sub; lia). by run. }
  rewrite Hpos. run.
  destruct (Nat.ltb_spec (len - 4) (data_pos buf)) as [Hp|Hp]; [done|]. run.
  rewrite IH. cbn. unfold after_frames. destruct (data_frames _ _ _ _ _) as [[[o i] r]| | |]; done.
Qed.

(** ** Frames are stable under extension of the buffer *)

Lemma data_frame_bounds key id buf p n :
  data_frame key id buf = Frame p n -> 7 <= n <= length buf.
Proof.
  unfold data_frame. intros Hf. cbv zeta in Hf. split_guards Hf. injection Hf as <- <-.
  match goal with H : negb (_ && _) = false |- _ =>
    apply negb_false_iff, andb_prop in H as [H%Nat.leb_le _] end.
  match goal with H : (length buf <? _) = false |- _ => apply Nat.ltb_ge in H end. lia.
Qed.

Lemma u16_at_app buf ext i : i + 2 <= length buf -> u16_at (buf ++ ext) i = u16_at buf i.
Proof. intros. unfold u16_at. by rewrite sub_app_l. Qed.

Lemma data_pos_app buf ext : 7 <= length buf -> data_pos (buf ++ ext) = data_pos buf.
Proof.
  intros. unfold data_pos. rewrite lookup_total_app_l by lia. by rewrite u16_at_app by lia.
Qed.

Lemma data_frame_app key id buf ext :
  data_frame key id buf <> NeedMore -> data_frame key id (buf ++ ext) = data_frame key id buf.
Proof.
  unfold data_frame. rewrite length_app.
  destruct (Nat.leb_spec (length buf) 4) as [H4|H4]; [done|]. intros Hne.
  rewrite (proj2 (Nat.leb_gt _ 4)) by lia. rewrite !sub_app_l, !u16_at_app by lia.
  destruct (negb (mac_ok _ _ _ _)); [done|].
  destruct (negb (_ && _)) eqn:Hlen; [done|].
  apply negb_false_iff, andb_prop in Hlen as [Hlen%Nat.leb_le _].
  destruct (Nat.ltb_spec (length buf) (u16_at buf 0)) as [Hb|Hb]; [done|].
  rewrite (proj2 (Nat.ltb_ge _ (u16_at buf 0))) by lia.
  rewrite !sub_app_l by lia. by rewrite data_pos_app by lia.
Qed.

Lemma auth_frame_bounds s buf p n :
  auth_frame s buf = Frame p n -> 31 <= n <= length buf.
Proof.
  unfold auth_frame. intros Hf. cbv zeta in Hf. split_guards Hf. injection Hf as <- <-.
  match goal with H : negb (_ && _) = false |- _ =>
    apply negb_false_iff, andb_prop in H as [H%Nat.leb_le _] end.
  match goal with H : (length buf <? u16_at _ _) = false |- _ => apply Nat.ltb_ge in H end. lia.
Qed.

Lemma auth_head_app s buf ext : 31 <= length buf -> auth_head s (buf ++ ext) = auth_head s buf.
Proof. intros. unfold auth_head, frame_uid. by rewrite !sub_app_l by lia. Qed.

Lemma auth_frame_app s buf ext :
  auth_frame s buf <> NeedMore -> auth_frame s (buf ++ ext) = auth_frame s buf.
Proof.
  unfold auth_frame. rewrite length_app.
  destruct (Nat.ltb_spec (length buf) 7) as [H7|H7]; [done|]. intros Hne.
  rewrite (proj2 (Nat.ltb_ge _ 7)) by lia. rewrite !(sub_app_l buf ext _ 1), !(sub_app_l buf ext _ 7) by lia.
  destruct (negb (mac_ok _ (sub buf 0 1) _ _)); [done|].
  destruct (Nat.ltb_spec (length buf) 31) as [H31|H31]; [done|].
  rewrite (proj2 (Nat.ltb_ge _ 31)) by lia. rewrite !sub_app_l by lia.
  destruct (negb (mac_ok _ (sub buf 7 27) _ _)); [done|]. rewrite auth_head_app by lia.
  cbv zeta in *. set (len := u16_at (auth_head s buf) 12) in *.
  destruct (negb (_ && _)); [done|].
  destruct (Nat.ltb_spec (length buf) len) as [Hb|Hb]; [done|].
  rewrite (proj2 (Nat.ltb_ge _ len)) by lia.
  unfold frame_uid. by rewrite !sub_app_l by lia.
Qed.

(** ** The packet loop *)

Lemma data_frames_total f key id buf out :
  length buf < f -> safe (fun _ => True) (data_frames f key id buf out).
Proof.
  revert id buf out. induction f as [|f IH]; intros id buf out Hf; [lia|].
  cbn. destruct (data_frame key id buf) as [|e|p n] eqn:Hd; [done|done|].
  apply data_frame_bounds in Hd. apply IH. rewrite length_drop. lia.
Qed.

Lemma data_frames_fuel f1 f2 key id buf out :
  length buf < f1 -> length buf < f2 ->
  data_frames f1 key id buf out = data_frames f2 key id buf out.
Proof.
  revert f2 id buf out. induction f1 as [|f1 IH]; intros [|f2] id buf out H1 H2; [lia..|].
  cbn. destruct (data_frame key id buf) as [|e|p n] eqn:Hd; [done|done|].
  apply data_frame_bounds in Hd. apply IH; rewrite length_drop; lia.
Qed.

Lemma data_frames_rest f key id buf out o id' rest :
  data_frames f key id buf out = Ok (o, id', rest) -> length rest <= length buf.
Proof.
  revert id buf out. induction f as [|f IH]; intros id buf out; [done|].
  cbn. destruct (data_frame key id buf) as [|e|p n] eqn:Hd; [naive_solver|done|].
  intros Hr%IH. rewrite length_drop in Hr. lia.
Qed.

Lemma data_frames_out f key id buf out :
  data_frames f key id buf out =
    ('(o, id', rest) ← data_frames f key id buf []; Ok (out ++ o, id', rest)).
Proof.
  revert id buf out. induction f as [|f IH]; intros id buf out; [done|].
  cbn [data_frames]. destruct (data_frame key id buf) as [|e|p n].
  - by rewrite bind_Ok, app_nil_r.
  - done.
  - rewrite IH, (IH _ _ ([] ++ p)), bind_assoc. cbn [app].
    destruct (data_frames f key _ (drop n buf) []) as [[[o i] r]| | |]; try done.
    by rewrite !bind_Ok, app_assoc.
Qed.

Lemma data_frames_app f key id a b out :
  length (a ++ b) < f ->
  data_frames f key id (a ++ b) out =
    ('(o, id', rest) ← data_frames f key id a out; data_frames f key id' (rest ++ b) o).
Proof.
  revert id a out. induction f as [|f IH]; intros id a out Hf; [lia|].
  cbn [data_frames]. destruct (data_frame key id a) as [|e|p n] eqn:Hd; [done| |].
  - by rewrite data_frame_app, Hd by by rewrite Hd.
  - rewrite data_frame_app, Hd by by rewrite Hd.
    apply data_frame_bounds in Hd. rewrite length_app in Hf.
    rewrite drop_app_le by lia. rewrite IH by (rewrite length_app, length_drop; lia).
    destruct (data_frames f key _ (drop n a) _) as [[[o i] r]| | |] eqn:Hr; try done.
    apply data_frames_rest in Hr. rewrite length_drop in Hr. rewrite !bind_Ok.
    change (match data_frame key i (r ++ b) with
            | NeedMore => Ok (o, i, r ++ b)
            | Reject e => Err e
            | Frame p0 n0 => data_frames f key (u32_succ i) (drop n0 (r ++ b)) (o ++ p0)
            end) with (data_frames (S f) key i (r ++ b) o).
    apply data_frames_fuel; rewrite length_app; lia.
Qed.

(** ** The look-up *)

Lemma selected_idemp u s : selected u (selected u s) = selected u s.
Proof.
  unfold selected at 2 3. destruct (users s !! u) eqn:Hu; [unfold selected; cbn; by rewrite Hu|].
  destruct (is_multi_user s =? 2)%Z eqn:Hm; unfold selected; cbn; by rewrite Hu, Hm.
Qed.

Lemma selected_set_recv_buf u b s : selected u (set_recv_buf b s) = set_recv_buf b (selected u s).
Proof. unfold selected. cbn. by repeat case_match. Qed.

Lemma selected_fields u s :
  auth_mac_key (selected u s) = auth_mac_key s /\
  has_recv_header (selected u s) = has_recv_header s /\
  recv_id (selected u s) = recv_id s /\ recv_buf (selected u s) = recv_buf s.
Proof. unfold selected. by repeat case_match. Qed.

Lemma auth_frame_set_recv_buf b s buf : auth_frame (set_recv_buf b s) buf = auth_frame s buf.
Proof. unfold auth_frame, auth_head. by rewrite !selected_set_recv_buf. Qed.

Lemma auth_frame_selected s buf : auth_frame (selected (frame_uid buf) s) buf = auth_frame s buf.
Proof.
  unfold auth_frame, auth_head. rewrite !selected_idemp.
  by rewrite (proj1 (selected_fields (frame_uid buf) s)).
Qed.

Lemma frame_uid_app buf ext : 31 <= length buf -> frame_uid (buf ++ ext) = frame_uid buf.
Proof. intros. unfold frame_uid. by rewrite sub_app_l by lia. Qed.

(** ** Refinement *)

Lemma post_decrypt_outcome incoming s :
  wf s -> outcome (server_post_decrypt incoming) s = decode s (recv_buf s ++ incoming).
Proof.
  intros Hs. unfold server_post_decrypt, decode. run.
  set (buf := recv_buf s ++ incoming). cbn [has_recv_header set_recv_buf].
  destruct (has_recv_header s).
  { run. by rewrite recv_packets_refines. }
  rewrite recv_auth_header_refines by done. cbn [recv_buf set_recv_buf].
  rewrite auth_frame_set_recv_buf, selected_set_recv_buf.
  destruct (auth_frame s buf) as [|e|p n] eqn:Hf; run; [|done|].
  { by case_match. }
  apply auth_frame_bounds in Hf.
  rewrite recv_packets_refines. cbn [recv_buf set_has_recv_header set_recv_buf recv_id user_key].
  rewrite (data_frames_fuel _ (S (length buf))) by (rewrite ?length_drop; lia).
  unfold after_frames. by destruct (data_frames _ _ _ _ _) as [[[o i] r]| | |].
Qed.

(** ** Chunking *)

Lemma decode_app s buf ext :
  decode s (buf ++ ext) =
    ('(o1, s1) ← decode s buf; '(o2, s2) ← decode s1 (recv_buf s1 ++ ext); Ok (o1 ++ o2, s2)).
Proof.
  assert (Hframes : forall s1 key id b o, key = user_key s1 -> has_recv_header s1 = true ->
    length (b ++ ext) <= length (buf ++ ext) ->
    after_frames s1 (data_frames (S (length (buf ++ ext))) key id (b ++ ext) o) =
    ('(o1, s2) ← after_frames s1 (data_frames (S (length buf)) key id b o);
     '(o2, s3) ← decode s2 (recv_buf s2 ++ ext); Ok (o1 ++ o2, s3))).
  { intros s1 key id b o -> Hh Hl. rewrite !length_app in Hl.
    rewrite data_frames_app by (rewrite !length_app; lia).
    rewrite (data_frames_fuel _ (S (length buf))) by (rewrite ?length_app; lia).
    unfold after_frames.
    destruct (data_frames _ _ id b o) as [[[o1 i1] r1]| | |] eqn:Hd; try done.
    rewrite !bind_Ok. unfold decode. cbn [has_recv_header set_recv_buf set_recv_id recv_buf user_key recv_id].
    rewrite Hh, data_frames_out. apply data_frames_rest in Hd.
    rewrite (data_frames_fuel _ (S (length (r1 ++ ext)))) by (rewrite !length_app; lia).
    unfold after_frames. by destruct (data_frames _ _ _ _ []) as [[[o2 i2] r2]| | |]. }
  unfold decode at 1 3. destruct (has_recv_header s) eqn:Hh.
  { by apply Hframes. }
  destruct (auth_frame s buf) as [|e|p n] eqn:Hf.
  - rewrite bind_Ok. unfold decode.
    destruct (Nat.ltb_spec (length buf) 31) as [H31|H31].
    + cbn [has_recv_header set_recv_buf recv_buf]. rewrite Hh, auth_frame_set_recv_buf.
      rewrite selected_set_recv_buf.
      destruct (auth_frame s (buf ++ ext)) as [|e|p n]; [|done|].
      { rewrite bind_Ok. cbn. by case_match. }
      cbn -[data_frames]. by destruct (data_frames _ _ _ _ _) as [[[o i] r]| | |].
    + destruct (selected_fields (frame_uid buf) s) as (_ & Hh' & _ & _).
      cbn [has_recv_header set_recv_buf recv_buf]. rewrite Hh', Hh, auth_frame_set_recv_buf.
      rewrite selected_set_recv_buf, frame_uid_app, selected_idemp by done.
      rewrite <- (frame_uid_app buf ext), auth_frame_selected by done.
      destruct (auth_frame s (buf ++ ext)) as [|e|p n]; [|done|].
      { rewrite bind_Ok, (proj2 (Nat.ltb_ge _ 31)) by (rewrite length_app; lia). done. }
      cbn -[data_frames]. by destruct (data_frames _ _ _ _ _) as [[[o i] r]| | |].
  - by rewrite auth_frame_app, Hf by by rewrite Hf.
  - rewrite auth_frame_app, Hf by by rewrite Hf.
    apply auth_frame_bounds in Hf. rewrite frame_uid_app, drop_app_le by lia.
    apply Hframes; [done|done|]. rewrite !length_app, length_drop. lia.
Qed.

Lemma decode_wf s buf o s' : wf s -> decode s buf = Ok (o, s') -> wf s'.
Proof.
  intros Hs. unfold decode, after_frames. destruct (has_recv_header s).
  { intros ([[o1 i1] r1] & _ & [= <- <-])%bind_inv_Ok. done. }
  pose proof (selected_wf (frame_uid buf) s Hs) as Hsel.
  destruct (auth_frame s buf) as [|e|p n]; [|done|].
  - intros [= <- <-]. by case_match.
  - intros ([[o1 i1] r1] & _ & [= <- <-])%bind_inv_Ok. done.
Qed.

Lemma feed_concat c cs s :
  wf s -> outcome (feed (c :: cs)) s = decode s (recv_buf s ++ concat (c :: cs)).
Proof.
  revert c s. induction cs as [|d cs IH]; intros c s Hs.
  - cbn [feed concat]. run. rewrite post_decrypt_outcome, app_nil_r by done.
    destruct (decode s _) as [[o s']| | |]; [|done..]. run. by rewrite app_nil_r.
  - change (concat (c :: d :: cs)) with (c ++ concat (d :: cs)).
    rewrite app_assoc, decode_app.
    change (feed (c :: d :: cs)) with
      (out ← server_post_decrypt c; rest ← feed (d :: cs); mret (out ++ rest)).
    run. rewrite post_decrypt_outcome by done.
    destruct (decode s _) as [[o s']| | |] eqn:Hd; [|done..]. run.
    rewrite IH by by eapply decode_wf. by destruct (decode s' _) as [[o2 s2]| | |].
Qed.

Lemma decode_safe s buf : safe (fun _ => True) (decode s buf).
Proof.
  assert (Hf : forall s1 f key id b o, length b < f ->
    safe (fun _ => True) (after_frames s1 (data_frames f key id b o))).
  { intros. apply (safe_bind (fun _ => True)); [by apply data_frames_total|]. by intros [[??]?]. }
  unfold decode. destruct (has_recv_header s); [apply Hf; lia|].
  destruct (auth_frame s buf) as [|e|p n]; [done|done|]. apply Hf. rewrite length_drop. lia.
Qed.

Lemma feed_safe cs s : wf s -> safe (fun _ => True) (outcome (feed cs) s).
Proof.
  intros Hs. destruct cs as [|c cs]; [done|]. rewrite feed_concat by done. apply decode_safe.
Qed.

End Refinement.

(** ** Properties *)

Import Toy.

(** A state for the witnesses. *)
Definition toy_state : t :=
  initial (repeat Byte.x01 16) (repeat Byte.x02 16) ∅ 0.

(** C20 [server_post_decrypt] refines the framing specification: from every
    well-formed state, its outcome (payload and new state, or error) on an
    input is [decode] of the buffered bytes followed by the input.  The
    conversion covers the slice indexing, the in-place key selection, the
    early returns and the packet loop. *)
Theorem post_decrypt_refines `{HL : CryptoLaws} incoming s (Hs : wf s) :
  outcome (server_post_decrypt incoming) s = decode s (recv_buf s ++ incoming).
Proof. by apply post_decrypt_outcome. Qed.

Lemma post_decrypt_refines_witness :
  outcome (server_post_decrypt (repeat Byte.x03 40)) toy_state = decode toy_state (repeat Byte.x03 40) /\
  decode toy_state (repeat Byte.x03 40) = Err CheckHeadMismatch.
Proof.
  split.
  - apply (post_decrypt_refines (HL:=Toy.crypto_laws)). reflexivity.
  - vm_compute. reflexivity.
Defined.

(** No input makes the receive path panic or loop: whatever the keys,
    the user table and the bytes a peer sends, in whatever chunks, a fresh
    session returns payload or an error value. *)
Theorem post_decrypt_never_panics `{HL : CryptoLaws} mk iv us multi (chunks : list bytes) :
  safe (fun _ => True) (s ← new mk iv us multi; outcome (feed chunks) s).
Proof.
  rewrite new_ok. apply feed_safe, initial_wf.
Qed.

Lemma post_decrypt_never_panics_witness :
  safe (fun _ => True) (s ← new (repeat Byte.x01 16) (repeat Byte.x02 16) ∅ 2;
    outcome (feed [[Byte.x00]; repeat Byte.xff 7; repeat Byte.x03 900]) s).
Proof. apply (post_decrypt_never_panics (HL:=Toy.crypto_laws)). Defined.

(** The receive path does not depend on how the byte stream is cut:
    feeding chunks one by one gives the same payload, the same final state
    and the same error as feeding their concatenation at once. *)
Theorem post_decrypt_chunking `{HL : CryptoLaws} c cs s (Hs : wf s) :
  outcome (feed (c :: cs)) s = outcome (server_post_decrypt (concat (c :: cs))) s.
Proof. by rewrite feed_concat, post_decrypt_outcome. Qed.

Lemma post_decrypt_chunking_witness :
  outcome (feed [[Byte.x05]; repeat Byte.x03 39]) toy_state =
    outcome (server_post_decrypt (Byte.x05 :: repeat Byte.x03 39)) toy_state.
Proof.
  exact (post_decrypt_chunking (HL:=Toy.crypto_laws) [Byte.x05] [repeat Byte.x03 39] toy_state eq_refl).
Defined.
