(* ===== verification/ProtocolPackets.v ===== *)
(** * Packets of [auth_aes128_md5]: what is sent is what is accepted

    The packets a peer builds ([auth_packet] with any padding,
    [data_packet]) are accepted by the receive path with their payload, the
    server's own send path ([pack_data], [server_pre_encrypt]) produces such
    packets, and conversely a header is accepted only if its three MACs
    verify under the keys of the connection and of the selected user.  The
    last part is the datagram codec. *)

From S2P Require Import Prelude Errors Kdf Protocol ProtocolSpec.
Import AuthAes128Md5.

Section Packets.
Context `{Crypto}.

(** The first packet of a connection: a check byte and its MAC, the user id
    and, under AES, 12 bytes of client data and the two lengths, their MAC,
    padding and payload, and the MAC of all of it under the user's key. *)
Definition auth_len (padding payload : bytes) : nat := 31 + length padding + length payload + 4.

Definition auth_plain (auth_data padding payload : bytes) : bytes :=
  auth_data ++ u16_to_le (usize_as_u16 (auth_len padding payload))
            ++ u16_to_le (usize_as_u16 (length padding)).

Definition auth_ident (ukey : bytes) (uid : Z) (plain : bytes) : bytes :=
  u32_to_le uid ++ aes128_encrypt (aes_key_of ukey) plain.

Definition auth_full (mac_key ukey : bytes) (check : byte) (uid : Z)
    (auth_data padding payload : bytes) : bytes :=
  let ident := auth_ident ukey uid (auth_plain auth_data padding payload) in
  [check] ++ hmac_md5_prefix mac_key [check] 6
    ++ ident ++ hmac_md5_prefix mac_key ident 4 ++ padding ++ payload.

Definition auth_packet (mac_key ukey : bytes) (check : byte) (uid : Z)
    (auth_data padding payload : bytes) : bytes :=
  let full := auth_full mac_key ukey check uid auth_data padding payload in
  full ++ hmac_md5_prefix ukey full 4.

(** A data packet with the one-byte padding both [pack_data]s emit. *)
Definition data_body (mac_key payload : bytes) : bytes :=
  let len_bytes := u16_to_le (usize_as_u16 (S (length payload) + 8)) in
  len_bytes ++ hmac_md5_prefix mac_key len_bytes 2 ++ [Byte.x01] ++ payload.

Definition data_packet (key : bytes) (id : Z) (payload : bytes) : bytes :=
  let mac_key := key ++ u32_to_le id in
  let packet := data_body mac_key payload in
  packet ++ hmac_md5_prefix mac_key packet 4.

Fixpoint data_packets (key : bytes) (id : Z) (payloads : list bytes) : bytes :=
  match payloads with
  | [] => []
  | p :: ps => data_packet key id p ++ data_packets key (u32_succ id) ps
  end.

(** The counter after [n] packets. *)
Fixpoint id_after (n : nat) (id : Z) : Z :=
  match n with 0 => id | S n => id_after n (u32_succ id) end.

(** The payloads [server_pre_encrypt] cuts a plaintext into. *)
Fixpoint units (fuel : nat) (rest : bytes) : list bytes :=
  match fuel with
  | 0 => [rest]
  | S fuel =>
      if UNIT_LEN <? length rest
      then take UNIT_LEN rest :: units fuel (drop UNIT_LEN rest)
      else [rest]
  end.

End Packets.

(** The key and identity the receive path selects for [uid] in a fresh
    session. *)
Definition key_for (mk iv : bytes) (us : gmap Z bytes) (multi uid : Z) : bytes * option Z :=
  match us !! uid with
  | Some key => (key, Some uid)
  | None => if (multi =? 2)%Z then (iv, None) else (mk, None)
  end.

(** A sequence of data packets whose MACs verify under [key] and the
    successive counters, with their payloads. *)
Inductive authentic `{Crypto} (key : bytes) : Z -> list bytes -> list bytes -> Prop :=
  | authentic_nil id : authentic key id [] []
  | authentic_cons id pkt pkts n pos payloads :
      n = length pkt -> 7 <= n < MAX_PACKET -> 4 <= pos <= n - 4 ->
      sub pkt 2 4 = hmac_md5_prefix (key ++ u32_to_le id) (sub pkt 0 2) 2 ->
      sub pkt (n - 4) n = hmac_md5_prefix (key ++ u32_to_le id) (sub pkt 0 (n - 4)) 4 ->
      authentic key (u32_succ id) pkts payloads ->
      authentic key id (pkt :: pkts) (sub pkt pos (n - 4) :: payloads).

Section Lemmas.
Context `{HL : CryptoLaws}.

Lemma mac_ok_refl key data n : mac_ok key data n (hmac_md5_prefix key data n) = true.
Proof. unfold mac_ok, differ. rewrite bool_decide_eq_false_2; [done|]. by intros []. Qed.

Lemma mac_ok_inv key data n got : mac_ok key data n got = true -> got = hmac_md5_prefix key data n.
Proof.
  unfold mac_ok, differ. intros Hb%negb_true_iff%bool_decide_eq_false_1.
  symmetry. destruct (decide (hmac_md5_prefix key data n = got)); [done|]. by destruct Hb.
Qed.

Lemma usize_as_u16_small n : n < MAX_PACKET -> Z.to_nat (usize_as_u16 n) = n.
Proof. unfold usize_as_u16, MAX_PACKET. intros. rewrite Z.mod_small by lia. lia. Qed.

Lemma u16_at_exact pre n post i :
  i = length pre -> n < MAX_PACKET -> u16_at (pre ++ u16_to_le (usize_as_u16 n) ++ post) i = n.
Proof.
  intros -> Hn. unfold u16_at. rewrite (sub_app_exact pre) by (rewrite ?length_u16_to_le; lia).
  rewrite u16_from_to_le; [by apply usize_as_u16_small|].
  apply Z.mod_pos_bound. lia.
Qed.

(** One field of a packet: what precedes it, what follows it. *)
Ltac field pre post :=
  apply (sub_exact _ pre _ post);
    [rewrite <- ?app_assoc; reflexivity | rewrite ?length_app; simpl; lia
    | rewrite ?length_app; simpl; lia].

Lemma length_data_packet key id p : length (data_packet key id p) = length p + 9.
Proof.
  unfold data_packet, data_body.
  rewrite !length_app, !length_hmac_md5_prefix, length_u16_to_le by lia. cbn. lia.
Qed.

Lemma data_packet_layout key id p :
  let mk := key ++ u32_to_le id in
  let len_bytes := u16_to_le (usize_as_u16 (length p + 9)) in
  let buf := data_packet key id p in
  let n := length p + 9 in
  sub buf 0 2 = len_bytes /\
  sub buf 2 4 = hmac_md5_prefix mk len_bytes 2 /\
  sub buf 0 (n - 4) = data_body mk p /\
  sub buf (n - 4) n = hmac_md5_prefix mk (data_body mk p) 4 /\
  buf !!! 4 = Byte.x01 /\
  sub buf 5 (n - 4) = p.
Proof.
  intros mk len_bytes buf n. unfold buf, data_packet. fold mk.
  set (m4 := hmac_md5_prefix mk _ 4). unfold data_body.
  replace (S (length p) + 8) with (length p + 9) by lia. fold len_bytes.
  set (m2 := hmac_md5_prefix mk len_bytes 2).
  assert (Hlb : length len_bytes = 2) by done.
  assert (Hm2 : length m2 = 2) by by apply length_hmac_md5_prefix; lia.
  assert (Hm4 : length m4 = 4) by by apply length_hmac_md5_prefix; lia.
  split_and!.
  - field (@nil byte) (m2 ++ [Byte.x01] ++ p ++ m4).
  - field len_bytes ([Byte.x01] ++ p ++ m4).
  - field (@nil byte) m4.
  - apply sub_app_tail; rewrite ?length_app; simpl; lia.
  - rewrite <- !app_assoc. by rewrite (lookup_total_app_r len_bytes), Hlb, (lookup_total_app_r m2), Hm2 by lia.
  - field (len_bytes ++ m2 ++ [Byte.x01]) m4.
Qed.

Lemma data_frame_packet key id p rest :
  length p + 9 < MAX_PACKET ->
  data_frame key id (data_packet key id p ++ rest) = Frame p (length p + 9).
Proof.
  intros Hp. pose proof (length_data_packet key id p) as Hl.
  destruct (data_packet_layout key id p) as (Hlb & Hm2 & Hbody & Hm4 & Hmark & Hpay).
  assert (Hstab : data_frame key id (data_packet key id p) = Frame p (length p + 9));
    [|by rewrite data_frame_app; rewrite Hstab].
  assert (Hlen : u16_at (data_packet key id p) 0 = length p + 9).
  { unfold u16_at. change (0 + 2) with 2. rewrite Hlb, u16_from_to_le by (apply Z.mod_pos_bound; lia).
    by apply usize_as_u16_small. }
  unfold data_frame, data_pos. rewrite Hl, Hlen, Hlb, Hm2, Hbody, Hm4, Hmark, !mac_ok_refl.
  rewrite (proj2 (Nat.leb_gt _ 4)), (proj2 (Nat.leb_le 7 _)), (proj2 (Nat.ltb_lt _ MAX_PACKET)),
    Nat.ltb_irrefl by lia.
  change (u8_idx Byte.x01 <? 255) with true. cbn [andb negb].
  change (u8_idx Byte.x01 + 4) with 5. rewrite (proj2 (Nat.ltb_ge _ 5)) by lia. by rewrite Hpay.
Qed.

Lemma data_frames_packets f key id ps rest out :
  Forall (fun p => length p + 9 < MAX_PACKET) ps ->
  length (data_packets key id ps ++ rest) < f ->
  data_frames f key id (data_packets key id ps ++ rest) out =
    data_frames f key (id_after (length ps) id) rest (out ++ concat ps).
Proof.
  intros Hps. revert f id out. induction Hps as [|p ps Hp Hps IH]; intros f id out Hf.
  { cbn. by rewrite app_nil_r. }
  cbn [data_packets length id_after concat] in *. rewrite <- app_assoc in *.
  destruct f as [|f]; [lia|]. cbn [data_frames].
  rewrite data_frame_packet by done.
  assert (Hl := length_data_packet key id p).
  rewrite drop_app_ge, Hl, Nat.sub_diag, drop_0 by lia.
  rewrite !length_app, Hl in Hf. rewrite IH by (rewrite length_app; lia).
  rewrite <- app_assoc. change (match _ with NeedMore => _ | Reject e => _ | Frame p n => _ end)
    with (data_frames (S f) key (id_after (length ps) (u32_succ id)) rest (out ++ p ++ concat ps)).
  apply data_frames_fuel; lia.
Qed.

Lemma data_frames_packets_nil f key id ps out :
  Forall (fun p => length p + 9 < MAX_PACKET) ps -> length (data_packets key id ps) < f ->
  data_frames f key id (data_packets key id ps) out =
    Ok (out ++ concat ps, id_after (length ps) id, []).
Proof.
  intros Hps Hf. pose proof (data_frames_packets f key id ps [] out Hps) as He.
  rewrite app_nil_r in He. rewrite He by done. by destruct f; [lia|].
Qed.

Lemma length_auth_ident ukey uid plain :
  length plain = 16 -> length (auth_ident ukey uid plain) = 20.
Proof.
  intros Hp. unfold auth_ident.
  rewrite length_app, aes128_encrypt_length; [done|apply length_aes_key_of|done].
Qed.

Lemma length_auth_plain d pad pay : length d = 12 -> length (auth_plain d pad pay) = 16.
Proof. intros Hd. unfold auth_plain. by rewrite !length_app, Hd. Qed.

Lemma length_auth_full mk ukey c uid d pad pay :
  length d = 12 -> length (auth_full mk ukey c uid d pad pay) = auth_len pad pay - 4.
Proof.
  intros Hd. unfold auth_full, auth_len.
  rewrite !length_app, length_auth_ident, !length_hmac_md5_prefix by (by apply length_auth_plain || lia).
  cbn. lia.
Qed.

Lemma auth_packet_layout mk ukey c uid d pad pay :
  length d = 12 ->
  let buf := auth_packet mk ukey c uid d pad pay in
  let n := auth_len pad pay in
  let plain := auth_plain d pad pay in
  let ident := auth_ident ukey uid plain in
  length buf = n /\ sub buf 0 1 = [c] /\ sub buf 1 7 = hmac_md5_prefix mk [c] 6 /\
  sub buf 7 27 = ident /\ sub buf 27 31 = hmac_md5_prefix mk ident 4 /\
  sub buf 7 11 = u32_to_le uid /\ sub buf 11 27 = aes128_encrypt (aes_key_of ukey) plain /\
  sub buf 0 (n - 4) = auth_full mk ukey c uid d pad pay /\
  sub buf (n - 4) n = hmac_md5_prefix ukey (auth_full mk ukey c uid d pad pay) 4 /\
  sub buf (31 + length pad) (n - 4) = pay.
Proof.
  intros Hd buf n plain ident. unfold buf, auth_packet.
  set (m4 := hmac_md5_prefix ukey _ 4).
  pose proof (length_auth_full mk ukey c uid d pad pay Hd) as Hfull. fold n in Hfull.
  assert (Hi : length ident = 20) by by apply length_auth_ident, length_auth_plain.
  assert (Hm4 : length m4 = 4) by by apply length_hmac_md5_prefix; lia.
  assert (Hn : n = 31 + length pad + length pay + 4) by done.
  unfold auth_full. fold plain ident. set (h6 := hmac_md5_prefix mk [c] 6).
  set (h4 := hmac_md5_prefix mk ident 4).
  assert (Hh6 : length h6 = 6) by by apply length_hmac_md5_prefix; lia.
  assert (Hh4 : length h4 = 4) by by apply length_hmac_md5_prefix; lia.
  assert (Hident : ident = u32_to_le uid ++ aes128_encrypt (aes_key_of ukey) plain) by done.
  assert (Hb : length (aes128_encrypt (aes_key_of ukey) plain) = 16).
  { rewrite Hident, length_app, length_u32_to_le in Hi. lia. }
  pose proof (length_u32_to_le uid) as Hu. split_and!.
  - rewrite !length_app. simpl. lia.
  - field (@nil byte) (h6 ++ ident ++ h4 ++ pad ++ pay ++ m4).
  - field [c] (ident ++ h4 ++ pad ++ pay ++ m4).
  - field ([c] ++ h6) (h4 ++ pad ++ pay ++ m4).
  - field ([c] ++ h6 ++ ident) (pad ++ pay ++ m4).
  - rewrite Hident. field ([c] ++ h6) (aes128_encrypt (aes_key_of ukey) plain ++ h4 ++ pad ++ pay ++ m4).
  - rewrite Hident. field ([c] ++ h6 ++ u32_to_le uid) (h4 ++ pad ++ pay ++ m4).
  - field (@nil byte) m4.
  - apply sub_app_tail; rewrite ?length_app; simpl; lia.
  - field ([c] ++ h6 ++ ident ++ h4 ++ pad) m4.
Qed.

Lemma auth_plain_lengths d pad pay :
  length d = 12 -> auth_len pad pay < MAX_PACKET ->
  u16_at (auth_plain d pad pay) 12 = auth_len pad pay /\ u16_at (auth_plain d pad pay) 14 = length pad.
Proof.
  intros Hd Hn. split.
  - by apply u16_at_exact.
  - unfold auth_plain. rewrite app_assoc, <- (app_nil_r (u16_to_le (usize_as_u16 (length pad)))).
    apply u16_at_exact; [by rewrite length_app, Hd|]. unfold auth_len in Hn. lia.
Qed.

Lemma auth_frame_packet s ukey check uid auth_data padding payload rest :
  wf s -> ukey = user_key (selected uid s) -> (0 <= uid < 2 ^ 32)%Z ->
  length auth_data = 12 -> auth_len padding payload < MAX_PACKET ->
  let packet := auth_packet (auth_mac_key s) ukey check uid auth_data padding payload in
  length packet = auth_len padding payload /\ frame_uid (packet ++ rest) = uid /\
  auth_frame s (packet ++ rest) = Frame payload (auth_len padding payload).
Proof.
  intros Hs Hukey Huid Hd Hn packet.
  destruct (auth_packet_layout (auth_mac_key s) ukey check uid auth_data padding payload Hd)
    as (Hl & H1 & H7 & H27 & H31 & H11 & Hblk & Hfull & Hm4 & Hpay).
  destruct (auth_plain_lengths auth_data padding payload Hd Hn) as [H12 H14].
  fold packet in Hl, H1, H7, H27, H31, H11, Hblk, Hfull, Hm4, Hpay.
  assert (H31n : 31 + length padding <= auth_len padding payload - 4) by (unfold auth_len; lia).
  assert (Hfu : frame_uid packet = uid) by (unfold frame_uid; rewrite H11; by apply u32_from_to_le).
  assert (Hah : auth_head s packet = auth_plain auth_data padding payload).
  { unfold auth_head. rewrite Hfu, Hblk, (selected_wf uid s Hs), <- Hukey.
    apply aes128_decrypt_encrypt; [apply length_aes_key_of|by apply length_auth_plain]. }
  assert (Hstab : auth_frame s packet = Frame payload (auth_len padding payload)).
  { unfold auth_frame. cbv zeta. rewrite Hl, Hfu, Hah, H12, H14, H1, H7, H27, H31, <- Hukey, Hfull, Hm4, !mac_ok_refl.
    rewrite (proj2 (Nat.ltb_ge _ 7)), (proj2 (Nat.ltb_ge _ 31)), (proj2 (Nat.leb_le 31 _)),
      (proj2 (Nat.ltb_lt _ MAX_PACKET)), Nat.ltb_irrefl by lia.
    cbn [andb negb]. rewrite (proj2 (Nat.ltb_ge _ (31 + _))) by lia. by rewrite Hpay. }
  split_and!; [done| |].
  - rewrite frame_uid_app by lia. done.
  - by rewrite auth_frame_app; rewrite Hstab.
Qed.

(** ** The send path *)

Lemma pack_data_spec buf s :
  outcome (pack_data buf) s =
    Ok (data_packet (user_key s) (pack_id s) buf, set_pack_id (u32_succ (pack_id s)) s).
Proof. reflexivity. Qed.

Lemma pre_encrypt_loop_spec fuel rest out s :
  length rest < fuel ->
  outcome (pre_encrypt_loop fuel rest out) s =
    Ok (out ++ data_packets (user_key s) (pack_id s) (units fuel rest),
        set_pack_id (id_after (length (units fuel rest)) (pack_id s)) s).
Proof.
  revert rest out s. induction fuel as [|fuel IH]; intros rest out s Hf; [lia|].
  cbn [pre_encrypt_loop units]. destruct (Nat.ltb_spec UNIT_LEN (length rest)) as [Hu|Hu].
  - run. rewrite pack_data_spec. run.
    rewrite outcome_lift, slice_from_ok by lia. run.
    assert (0 < UNIT_LEN) by (unfold UNIT_LEN; lia).
    rewrite IH by (rewrite length_drop; lia). cbn.
    unfold sub. rewrite drop_0, Nat.sub_0_r. by rewrite <- app_assoc.
  - run. rewrite pack_data_spec. run. cbn [data_packets]. by rewrite app_nil_r.
Qed.

Lemma units_concat fuel rest : concat (units fuel rest) = rest.
Proof.
  revert rest. induction fuel as [|fuel IH]; intros rest; cbn; [by rewrite app_nil_r|].
  case_match; cbn; [|by rewrite app_nil_r]. by rewrite IH, take_drop.
Qed.

Lemma units_small fuel rest :
  length rest < fuel -> Forall (fun p => length p <= UNIT_LEN) (units fuel rest).
Proof.
  revert rest. induction fuel as [|fuel IH]; intros rest Hf; [lia|]. cbn [units].
  destruct (Nat.ltb_spec UNIT_LEN (length rest)) as [Hu|Hu]; [|constructor; [exact Hu|constructor]].
  constructor; [rewrite length_take; lia|]. apply IH. rewrite length_drop.
  assert (0 < UNIT_LEN) by (unfold UNIT_LEN; lia). lia.
Qed.

Lemma length_data_packets key id ps :
  length (data_packets key id ps) = length (concat ps) + 9 * length ps.
Proof.
  revert id. induction ps as [|p ps IH]; intros id; [done|].
  cbn. rewrite !length_app, length_data_packet, IH. lia.
Qed.

(** ** The receive path on packets *)

Lemma selected_initial mk iv us multi uid :
  let s := selected uid (initial mk iv us multi) in
  (user_key s, user_id s) = key_for mk iv us multi uid /\
  recv_id s = 1%Z /\ pack_id s = 1%Z.
Proof. unfold selected, key_for. cbn. by repeat case_match. Qed.

Lemma decode_packets mk iv us multi check uid auth_data padding p0 ps :
  let ukey := (key_for mk iv us multi uid).1 in
  (0 <= uid < 2 ^ 32)%Z -> length auth_data = 12 -> auth_len padding p0 < MAX_PACKET ->
  Forall (fun p => length p + 9 < MAX_PACKET) ps ->
  exists s, decode (initial mk iv us multi)
      (auth_packet (iv ++ mk) ukey check uid auth_data padding p0 ++ data_packets ukey 1 ps) =
      Ok (p0 ++ concat ps, s) /\
    has_recv_header s = true /\ recv_buf s = [] /\
    (user_key s, user_id s) = key_for mk iv us multi uid /\
    recv_id s = id_after (length ps) 1.
Proof.
  intros ukey Huid Hd Hn Hps. set (s0 := initial mk iv us multi).
  destruct (selected_initial mk iv us multi uid) as (Hsel & Hrid & _). fold s0 in Hsel, Hrid.
  assert (Hukey : ukey = user_key (selected uid s0)) by (unfold ukey; by rewrite <- Hsel).
  destruct (auth_frame_packet s0 ukey check uid auth_data padding p0 (data_packets ukey 1 ps))
    as (Hl & Hfu & Hf); [apply initial_wf|done..|].
  change (auth_mac_key s0) with (iv ++ mk) in Hl, Hfu, Hf.
  set (pkt := auth_packet _ _ _ _ _ _ _) in *.
  unfold decode. change (has_recv_header s0) with false. cbv iota.
  rewrite Hf, Hfu. cbn [user_key recv_id set_has_recv_header]. rewrite Hrid, <- Hukey.
  rewrite <- Hl, drop_app_length.
  rewrite data_frames_packets_nil by (done || rewrite length_app; lia). eexists. split_and!; [done|done|done|exact Hsel|done].
Qed.

(** ** Acceptance implies authenticity *)

Lemma data_frames_authentic f key id buf out o id' rest :
  data_frames f key id buf out = Ok (o, id', rest) ->
  exists pkts payloads, buf = concat pkts ++ rest /\ o = out ++ concat payloads /\
    authentic key id pkts payloads.
Proof.
  revert id buf out. induction f as [|f IH]; intros id buf out; [done|].
  cbn [data_frames]. destruct (data_frame key id buf) as [|e|p n] eqn:Hd; [|done|].
  { intros [= -> -> ->]. exists [], []. split_and!; [done|by rewrite app_nil_r|constructor]. }
  intros (pkts & payloads & Hb & -> & Ha)%IH.
  pose proof (data_frame_bounds _ _ _ _ _ Hd) as Hn.
  exists (take n buf :: pkts), (p :: payloads). split_and!.
  - cbn. by rewrite <- app_assoc, <- Hb, take_drop.
  - cbn. by rewrite <- app_assoc.
  - assert (Hsub : forall a b, b <= n -> sub (take n buf) a b = sub buf a b).
    { intros a b Hab. rewrite <- (take_drop n buf) at 2. symmetry. apply sub_app_l.
      rewrite length_take. lia. }
    assert (Hnl : n = length (take n buf)) by (rewrite length_take; lia).
    unfold data_frame in Hd. cbv zeta in Hd. split_guards Hd. injection Hd as <- <-.
    repeat match goal with
      | H : negb (mac_ok _ _ _ _) = false |- _ => apply negb_false_iff, mac_ok_inv in H
      | H : negb (_ && _) = false |- _ =>
          apply negb_false_iff, andb_prop in H as [?%Nat.leb_le ?%Nat.ltb_lt]
      end.
    rewrite <- (Hsub (data_pos buf)) by lia.
    apply (authentic_cons _ _ _ _ _ (data_pos buf)); rewrite ?Hsub by lia; try done.
    apply Nat.ltb_ge in Heqb4. split; [|done]. unfold data_pos. case_match; lia.
Qed.

Lemma decode_accepts mk iv us multi buf o s :
  decode (initial mk iv us multi) buf = Ok (o, s) -> has_recv_header s = true ->
  exists len pos pkts payloads rest,
    31 <= len <= length buf /\ len < MAX_PACKET /\ 31 <= pos <= len - 4 /\
    sub buf 1 7 = hmac_md5_prefix (iv ++ mk) (sub buf 0 1) 6 /\
    sub buf 27 31 = hmac_md5_prefix (iv ++ mk) (sub buf 7 27) 4 /\
    (user_key s, user_id s) = key_for mk iv us multi (frame_uid buf) /\
    sub buf (len - 4) len = hmac_md5_prefix (user_key s) (sub buf 0 (len - 4)) 4 /\
    drop len buf = concat pkts ++ rest /\ authentic (user_key s) 1 pkts payloads /\
    o = sub buf pos (len - 4) ++ concat payloads.
Proof.
  unfold decode. set (s0 := initial mk iv us multi). cbn [has_recv_header initial s0].
  destruct (selected_initial mk iv us multi (frame_uid buf)) as (Hsel & Hrid & _).
  fold s0 in Hsel, Hrid. destruct (auth_frame s0 buf) as [|e|p n] eqn:Hf; [|done|].
  { intros [= <- <-]. cbn. destruct (selected_fields (frame_uid buf) s0) as (_ & Hh & _).
    case_match; [done|]. by rewrite Hh. }
  unfold after_frames. intros ([[o1 i1] r1] & Hd & [= <- <-])%bind_inv_Ok _.
  cbn [user_key user_id recv_id set_recv_buf set_recv_id set_has_recv_header] in *.
  apply data_frames_authentic in Hd as (pkts & payloads & Hrest & -> & Ha).
  rewrite Hrid in Ha. pose proof (auth_frame_bounds _ _ _ _ Hf) as Hn.
  unfold auth_frame in Hf. cbv zeta in Hf. split_guards Hf. injection Hf as <- <-.
  repeat match goal with
    | H : negb (mac_ok _ _ _ _) = false |- _ => apply negb_false_iff, mac_ok_inv in H
    | H : negb (_ && _) = false |- _ =>
        apply negb_false_iff, andb_prop in H as [?%Nat.leb_le ?%Nat.ltb_lt]
    | H : (_ <? _) = false |- _ => apply Nat.ltb_ge in H
    end.
  exists (u16_at (auth_head s0 buf) 12), (31 + u16_at (auth_head s0 buf) 14), pkts, payloads, r1.
  split_and!; (done || lia).
Qed.

(** ** UDP *)

(** The key a datagram's MAC is checked under. *)
Definition udp_key_for (mk iv : bytes) (us : gmap Z bytes) (multi uid : Z) : bytes * option Z :=
  match us !! uid with
  | Some key => (key, Some uid)
  | None => if (multi =? 0)%Z then (mk, None) else (iv, None)
  end.

(** The plaintext of a client's datagram. *)
Definition udp_body (key : bytes) (uid : Z) (payload : bytes) : bytes :=
  let body := payload ++ u32_to_le uid in
  body ++ hmac_md5_prefix key body 4.

Definition udp_uid (buf : bytes) : Z := u32_from_le (sub buf (length buf - 8) (length buf - 4)).

Lemma udp_post_decrypt_eq mk us multi iv buf :
  udp_server_post_decrypt mk us multi iv buf =
    if length buf <? 8 then Err (UdpTooShort (length buf))
    else
      let k := udp_key_for mk iv us multi (udp_uid buf) in
      if mac_ok k.1 (take (length buf - 4) buf) 4 (drop (length buf - 4) buf)
      then Ok (take (length buf - 8) buf, k.2) else Err UdpHmacMismatch.
Proof.
  unfold udp_server_post_decrypt. destruct (Nat.ltb_spec (length buf) 8) as [H8|H8]; [done|].
  cbn [bail_if]. rewrite bind_Ok, index_n_ok, bind_Ok by lia.
  replace (length buf - 8 + 4) with (length buf - 4) by lia. fold (udp_uid buf).
  rewrite !slice_ok, slice_from_ok by lia. unfold sub. rewrite !drop_0, !Nat.sub_0_r.
  unfold udp_key_for, mac_ok. cbv zeta.
  destruct (us !! udp_uid buf); [|destruct (multi =? 0)%Z]; cbn; by destruct (differ _ _).
Qed.

Lemma udp_body_accepted mk us multi iv uid payload :
  (0 <= uid < 2 ^ 32)%Z ->
  udp_server_post_decrypt mk us multi iv
    (udp_body (udp_key_for mk iv us multi uid).1 uid payload) =
  Ok (payload, (udp_key_for mk iv us multi uid).2).
Proof.
  intros Huid. set (k := udp_key_for mk iv us multi uid). unfold udp_body.
  set (body := payload ++ u32_to_le uid). set (m := hmac_md5_prefix k.1 body 4).
  assert (Hm : length m = 4) by by apply length_hmac_md5_prefix; lia.
  assert (Hb : length body = length payload + 4) by by unfold body; rewrite length_app.
  assert (Hl : length (body ++ m) = length payload + 8) by (rewrite length_app; lia).
  rewrite udp_post_decrypt_eq, Hl, (proj2 (Nat.ltb_ge _ 8)) by lia.
  replace (udp_uid (body ++ m)) with uid.
  2:{ unfold udp_uid. rewrite Hl, (sub_exact _ payload (u32_to_le uid) m); [by rewrite u32_from_to_le| | |].
      - unfold body. by rewrite <- app_assoc.
      - lia.
      - rewrite length_u32_to_le. lia. }
  fold k. replace (length payload + 8 - 4) with (length body) by lia.
  rewrite take_app_length, drop_app_length. cbv zeta. unfold m at 1. rewrite mac_ok_refl.
  do 2 f_equal. unfold body. rewrite <- app_assoc. apply take_app_length'. lia.
Qed.

End Lemmas.

(** ** Properties *)

Import Toy.

(** C21 A client whose uid is in the user table (or, with multi-user mode
    off, any client holding the master key) is served: the auth packet and
    the data packets it builds under the key the server selects, with any
    padding and any legal sizes, cut into chunks anywhere, decode to
    exactly its payload, nothing stays buffered, and the session carries
    its uid. *)
Theorem client_stream_accepted `{HL : CryptoLaws}
    mk iv us multi check uid auth_data padding p0 ps c cs
    (Huid : (0 <= uid < 2 ^ 32)%Z) (Hdata : length auth_data = 12)
    (Hlen : auth_len padding p0 < MAX_PACKET)
    (Hps : Forall (fun p => length p + 9 < MAX_PACKET) ps)
    (Hcs : concat (c :: cs) =
      auth_packet (iv ++ mk) (key_for mk iv us multi uid).1 check uid auth_data padding p0 ++
      data_packets (key_for mk iv us multi uid).1 1 ps) :
  exists s, (s ← new mk iv us multi; outcome (feed (c :: cs)) s) = Ok (p0 ++ concat ps, s) /\
    has_recv_header s = true /\ recv_buf s = [] /\
    (user_key s, user_id s) = key_for mk iv us multi uid /\
    recv_id s = id_after (length ps) 1.
Proof.
  rewrite new_ok, bind_Ok, feed_concat, Hcs by apply initial_wf. by apply decode_packets.
Qed.

(** The user table and bytes of the witnesses. *)
Definition toy_mk : bytes := repeat Byte.x01 16.
Definition toy_iv : bytes := repeat Byte.x02 16.
Definition toy_users : gmap Z bytes := {[ 42%Z := digest [Byte.x70] ]}.
Definition toy_wire (uid : Z) (key p0 : bytes) (ps : list bytes) : bytes :=
  auth_packet (toy_iv ++ toy_mk) key Byte.x11 uid (repeat Byte.x00 12) [Byte.x61] p0 ++
  data_packets key 1 ps.

Lemma client_stream_accepted_witness :
  exists s, (s ← new toy_mk toy_iv toy_users 2;
      outcome (feed [toy_wire 42 (digest [Byte.x70]) [Byte.x68; Byte.x69] [[Byte.x21]; []; [Byte.x22]]]) s) =
    Ok ([Byte.x68; Byte.x69; Byte.x21; Byte.x22], s) /\
    has_recv_header s = true /\ recv_buf s = [] /\
    (user_key s, user_id s) = (digest [Byte.x70], Some 42%Z) /\ recv_id s = 4%Z.
Proof.
  apply (client_stream_accepted (HL:=crypto_laws) toy_mk toy_iv toy_users 2 Byte.x11 42
    (repeat Byte.x00 12) [Byte.x61] [Byte.x68; Byte.x69] [[Byte.x21]; []; [Byte.x22]]
    (toy_wire 42 (digest [Byte.x70]) [Byte.x68; Byte.x69] [[Byte.x21]; []; [Byte.x22]]) []).
  - lia.
  - reflexivity.
  - compute_done.
  - compute_done.
  - vm_compute. reflexivity.
Defined.

(** C22 The converse: if a fresh session, fed any chunks, has accepted the
    header, then the bytes received carry a valid check MAC and header MAC
    under IV and master key and a valid packet MAC under the key selected
    for the uid they name; the session's identity is the one the table
    gives that uid; and the payload handed on is the auth packet's followed
    by that of data packets whose MACs verify under the same key and the
    counters 1, 2, .... *)
Theorem accepted_implies_authentic `{HL : CryptoLaws} mk iv us multi c cs o s
    (Hok : (s ← new mk iv us multi; outcome (feed (c :: cs)) s) = Ok (o, s))
    (Hheader : has_recv_header s = true) :
  let buf := concat (c :: cs) in
  exists len pos pkts payloads rest,
    31 <= len <= length buf /\ len < MAX_PACKET /\ 31 <= pos <= len - 4 /\
    sub buf 1 7 = hmac_md5_prefix (iv ++ mk) (sub buf 0 1) 6 /\
    sub buf 27 31 = hmac_md5_prefix (iv ++ mk) (sub buf 7 27) 4 /\
    (user_key s, user_id s) = key_for mk iv us multi (frame_uid buf) /\
    sub buf (len - 4) len = hmac_md5_prefix (user_key s) (sub buf 0 (len - 4)) 4 /\
    drop len buf = concat pkts ++ rest /\ authentic (user_key s) 1 pkts payloads /\
    o = sub buf pos (len - 4) ++ concat payloads.
Proof.
  rewrite new_ok, bind_Ok, feed_concat in Hok by apply initial_wf. by apply decode_accepts.
Qed.

Lemma accepted_implies_authentic_witness :
  let buf := toy_wire 42 (digest [Byte.x70]) [Byte.x68] [] in
  exists s len pos pkts payloads rest,
    31 <= len <= length buf /\ len < MAX_PACKET /\ 31 <= pos <= len - 4 /\
    sub buf 1 7 = hmac_md5_prefix (toy_iv ++ toy_mk) (sub buf 0 1) 6 /\
    sub buf 27 31 = hmac_md5_prefix (toy_iv ++ toy_mk) (sub buf 7 27) 4 /\
    (user_key s, user_id s) = key_for toy_mk toy_iv toy_users 2 (frame_uid buf) /\
    sub buf (len - 4) len = hmac_md5_prefix (user_key s) (sub buf 0 (len - 4)) 4 /\
    drop len buf = concat pkts ++ rest /\ authentic (user_key s) 1 pkts payloads /\
    [Byte.x68] = sub buf pos (len - 4) ++ concat payloads.
Proof.
  intros buf.
  pose (r := s ← new toy_mk toy_iv toy_users 2; outcome (feed [buf]) s).
  assert (Hr : exists s, r = Ok ([Byte.x68], s) /\ has_recv_header s = true).
  { unfold r, buf. vm_compute. eexists. split; reflexivity. }
  destruct Hr as (s & Hs & Hh). exists s.
  replace buf with (concat [buf]) by apply app_nil_r.
  apply (accepted_implies_authentic (HL:=crypto_laws) toy_mk toy_iv toy_users 2 buf [] [Byte.x68] s); done.
Defined.

(** C31 In single-port multi-user mode (2) a uid that is not in the user
    table is not refused: the header is accepted, without identity, from a
    client that computes its packet MACs with the connection's IV, which it
    chose itself and sent in the clear; all it needs is the carrier's
    master key.  The comment of the look-up expects the checksum to fail. *)
Theorem unknown_uid_accepted `{HL : CryptoLaws}
    mk iv us check uid auth_data padding p0 ps
    (Hunknown : us !! uid = None)
    (Huid : (0 <= uid < 2 ^ 32)%Z) (Hdata : length auth_data = 12)
    (Hlen : auth_len padding p0 < MAX_PACKET)
    (Hps : Forall (fun p => length p + 9 < MAX_PACKET) ps) :
  exists s, (s ← new mk iv us 2;
      outcome (server_post_decrypt
        (auth_packet (iv ++ mk) iv check uid auth_data padding p0 ++ data_packets iv 1 ps)) s) =
      Ok (p0 ++ concat ps, s) /\ user_id s = None.
Proof.
  assert (Hk : key_for mk iv us 2 uid = (iv, None)) by (unfold key_for; by rewrite Hunknown).
  destruct (decode_packets mk iv us 2 check uid auth_data padding p0 ps)
    as (s & Hd & _ & _ & Hid & _); [done..|].
  rewrite Hk in Hd, Hid. exists s. rewrite new_ok, bind_Ok, post_decrypt_outcome by apply initial_wf.
  split; [exact Hd|congruence].
Qed.

Lemma unknown_uid_accepted_witness :
  exists s, (s ← new toy_mk toy_iv toy_users 2;
      outcome (server_post_decrypt (toy_wire 7 toy_iv [Byte.x68] [[Byte.x69]])) s) =
      Ok ([Byte.x68; Byte.x69], s) /\ user_id s = None.
Proof.
  apply (unknown_uid_accepted (HL:=crypto_laws) toy_mk toy_iv toy_users Byte.x11 7
    (repeat Byte.x00 12) [Byte.x61] [Byte.x68] [[Byte.x69]]).
  - reflexivity.
  - lia.
  - reflexivity.
  - compute_done.
  - compute_done.
Defined.

(** [server_pre_encrypt] loses nothing: from any state, for any
    plaintext (of any length), the wire bytes are data packets within the
    size limit whose frames, read by the same packet rules under the user's
    key and the counter, are exactly the plaintext; the counter advances by
    the number of packets (modulo 2^32) and each packet costs 9 bytes. *)
Theorem pre_encrypt_roundtrip `{HL : CryptoLaws} (plaintext : bytes) (s : t) :
  exists wire s' n,
    outcome (server_pre_encrypt plaintext) s = Ok (wire, s') /\
    data_frames (S (length wire)) (user_key s) (pack_id s) wire [] = Ok (plaintext, pack_id s', []) /\
    pack_id s' = id_after n (pack_id s) /\ length wire = length plaintext + 9 * n /\
    s' = set_pack_id (pack_id s') s.
Proof.
  unfold server_pre_encrypt. rewrite pre_encrypt_loop_spec by lia.
  set (us := units _ _). eexists _, _, (length us). split; [done|].
  assert (Hus : Forall (fun p => length p + 9 < MAX_PACKET) us).
  { eapply Forall_impl; [apply units_small; lia|]. unfold UNIT_LEN, MAX_PACKET. intros p Hp. lia. }
  cbn [app pack_id set_pack_id]. split_and!; [|done| |done].
  - rewrite data_frames_packets_nil by (done || lia). cbn [app]. unfold us. by rewrite units_concat.
  - rewrite length_data_packets. unfold us. by rewrite units_concat.
Qed.

Lemma pre_encrypt_roundtrip_witness :
  exists wire s' n,
    outcome (server_pre_encrypt [Byte.x68; Byte.x69]) toy_state = Ok (wire, s') /\
    data_frames (S (length wire)) (user_key toy_state) (pack_id toy_state) wire [] =
      Ok ([Byte.x68; Byte.x69], pack_id s', []) /\
    pack_id s' = id_after n (pack_id toy_state) /\ length wire = 2 + 9 * n /\
    s' = set_pack_id (pack_id s') toy_state.
Proof. apply (pre_encrypt_roundtrip (HL:=crypto_laws) [Byte.x68; Byte.x69] toy_state). Defined.

(** [udp_server_post_decrypt], on every branch and without a panic: a
    datagram shorter than 8 bytes is refused; otherwise it is accepted
    exactly when its last 4 bytes are the MAC of the rest under the key of
    the uid it names (the user's, else the master key when multi-user mode
    is off, else the IV), and the result is the payload without the 8-byte
    trailer and the uid if it is in the table. *)
Theorem udp_post_decrypt_spec `{HL : CryptoLaws} mk us multi iv buf :
  let k := udp_key_for mk iv us multi (udp_uid buf) in
  let signed := drop (length buf - 4) buf = hmac_md5_prefix k.1 (take (length buf - 4) buf) 4 in
  match udp_server_post_decrypt mk us multi iv buf with
  | Ok (payload, uid) => 8 <= length buf /\ signed /\ payload = take (length buf - 8) buf /\ uid = k.2
  | Err (UdpTooShort n) => n = length buf /\ n < 8
  | Err UdpHmacMismatch => 8 <= length buf /\ ~ signed
  | _ => False
  end.
Proof.
  intros k signed. rewrite udp_post_decrypt_eq.
  destruct (Nat.ltb_spec (length buf) 8) as [H8|H8]; [done|]. fold k. cbv zeta.
  destruct (mac_ok _ _ _ _) eqn:Hm.
  - apply mac_ok_inv in Hm. done.
  - split; [done|]. intros Hs. unfold signed in Hs. rewrite Hs, mac_ok_refl in Hm. done.
Qed.

Lemma udp_post_decrypt_spec_witness :
  udp_server_post_decrypt toy_mk toy_users 2 toy_iv (udp_body (digest [Byte.x70]) 42 [Byte.x05]) =
    Ok ([Byte.x05], Some 42%Z) /\
  match udp_server_post_decrypt toy_mk toy_users 2 toy_iv [Byte.x05] with
  | Err (UdpTooShort n) => n = 1 /\ n < 8
  | _ => False
  end.
Proof.
  split; [vm_compute; reflexivity|].
  exact (udp_post_decrypt_spec (HL:=crypto_laws) toy_mk toy_users 2 toy_iv [Byte.x05]).
Defined.
