(* ===== verification/Net.v ===== *)
(** * IP addresses ([std::net])

    [IpAddr] with the parts of the standard library the program uses: the
    octets, [Display] (RFC 5952 for IPv6), [FromStr] (the parser of
    [core::net::parser], with its limits on digits and its treatment of
    [::] and of an embedded IPv4 tail), and the IPv4-mapped conversions. *)

From S2P Require Import Prelude Str.
From stdpp Require Import pretty.

(** [enum IpAddr]: an [Ipv4Addr] is a [u32], an [Ipv6Addr] a [u128]. *)
Inductive IpAddr : Set :=
  | V4 (a : Z)
  | V6 (a : Z).

#[export] Instance ip_addr_eq_dec : EqDecision IpAddr.
Proof. solve_decision. Defined.

#[export] Instance ip_addr_countable : Countable IpAddr.
Proof.
  refine (inj_countable'
    (fun ip => match ip with V4 a => inl a | V6 a => inr a end)
    (fun x => match x with inl a => V4 a | inr a => V6 a end) _).
  by intros [].
Defined.

Definition ip_wf (ip : IpAddr) : Prop :=
  match ip with
  | V4 a => (0 <= a < 2 ^ 32)%Z
  | V6 a => (0 <= a < 2 ^ 128)%Z
  end.

Definition is_ipv4 (ip : IpAddr) : bool := match ip with V4 _ => true | V6 _ => false end.

(** [octets] and [from]: big-endian. *)
Definition be_bytes (n : nat) (a : Z) : bytes := reverse (le_split n a).
Definition be_value (b : bytes) : Z := le_combine (reverse b).

Definition octets (ip : IpAddr) : bytes :=
  match ip with V4 a => be_bytes 4 a | V6 a => be_bytes 16 a end.

(** [to_ipv4_mapped] and [to_ipv6_mapped]. *)
Definition v6_to_ipv4_mapped (a : Z) : option Z :=
  if (Z.shiftr a 32 =? 65535)%Z then Some (Z.land a (2 ^ 32 - 1)) else None.
Definition v4_to_ipv6_mapped (a : Z) : Z := Z.lor (Z.shiftl 65535 32) a.

(** ** Display *)

(** Octet [3] is the first one written. *)
Definition octet (a : Z) (i : Z) : nat := Z.to_nat (Z.land (Z.shiftr a (8 * i)) 255).

Definition v4_to_string (a : Z) : string :=
  (u8_decimal (octet a 3) +:+ "." +:+ u8_decimal (octet a 2) +:+ "." +:+
   u8_decimal (octet a 1) +:+ "." +:+ u8_decimal (octet a 0))%string.

(** [segments]: eight 16-bit groups, the first one on top. *)
Definition segments (a : Z) : list Z :=
  map (fun i => Z.land (Z.shiftr a (16 * i)) 65535) [7; 6; 5; 4; 3; 2; 1; 0]%Z.

(** The longest run of zero segments (the first of the longest):
    [(start, len)]. *)
Fixpoint zero_span (i : nat) (current longest : nat * nat) (segs : list Z) : nat * nat :=
  match segs with
  | [] => longest
  | g :: segs =>
      if (g =? 0)%Z then
        let start := if current.2 =? 0 then i else current.1 in
        let current := (start, S current.2) in
        zero_span (S i) current (if longest.2 <? current.2 then current else longest) segs
      else zero_span (S i) (0, 0) longest segs
  end.

Definition fmt_subslice (segs : list Z) : string :=
  match segs with
  | [] => ""
  | g :: segs => u16_hex g +:+ String.concat "" (map (fun g => ":" +:+ u16_hex g)%string segs)
  end.

Definition v6_to_string (a : Z) : string :=
  match v6_to_ipv4_mapped a with
  | Some v4 => "::ffff:" +:+ v4_to_string v4
  | None =>
      let segs := segments a in
      let '(start, len) := zero_span 0 (0, 0) (0, 0) segs in
      if 1 <? len
      then fmt_subslice (take start segs) +:+ "::" +:+ fmt_subslice (drop (start + len) segs)
      else fmt_subslice segs
  end.

Definition ip_to_string (ip : IpAddr) : string :=
  match ip with V4 a => v4_to_string a | V6 a => v6_to_string a end.

(** [SocketAddr] and its [Display]. *)
Record SocketAddr : Set := { sa_ip : IpAddr; sa_port : Z }.

#[export] Instance socket_addr_eq_dec : EqDecision SocketAddr.
Proof. solve_decision. Defined.

#[export] Instance socket_addr_countable : Countable SocketAddr.
Proof.
  refine (inj_countable' (fun a => (sa_ip a, sa_port a))
    (fun x => {| sa_ip := x.1; sa_port := x.2 |}) _).
  by intros [].
Defined.

Definition socket_to_string (a : SocketAddr) : string :=
  (match sa_ip a with
   | V4 _ => ip_to_string (sa_ip a)
   | V6 _ => "[" +:+ ip_to_string (sa_ip a) +:+ "]"
   end +:+ ":" +:+ pretty (Z.to_N (sa_port a)))%string.

(** ** FromStr *)

(** The digits at the front of [s]; more than [max_digits] of them is an
    error. *)
Fixpoint read_digits (radix max_digits count : nat) (acc : Z) (s : string)
    : option (nat * Z * string) :=
  match s with
  | EmptyString => Some (count, acc, s)
  | String c rest =>
      match to_digit radix c with
      | None => Some (count, acc, s)
      | Some d =>
          if max_digits <? S count then None
          else read_digits radix max_digits (S count) (acc * Z.of_nat radix + Z.of_nat d) rest
      end
  end.

Definition starts_with_zero (s : string) : bool :=
  match s with String c _ => bool_decide (c = "0"%char) | EmptyString => false end.

Definition read_number (radix max_digits : nat) (allow_zero_prefix : bool) (limit : Z) (s : string)
    : option (Z * string) :=
  match read_digits radix max_digits 0 0 s with
  | None => None
  | Some (count, n, rest) =>
      if count =? 0 then None
      else if negb allow_zero_prefix && starts_with_zero s && (1 <? count) then None
      else if (n <=? limit)%Z then Some (n, rest) else None
  end.

Definition read_given_char (c : ascii) (s : string) : option string :=
  match s with
  | String a rest => if bool_decide (a = c) then Some rest else None
  | EmptyString => None
  end.

Definition read_separator {A} (sep : ascii) (i : nat) (inner : string -> option (A * string))
    (s : string) : option (A * string) :=
  if 0 <? i then match read_given_char sep s with Some s => inner s | None => None end
  else inner s.

Definition read_octet (i : nat) : string -> option (Z * string) :=
  read_separator "." i (read_number 10 3 false 255).

Definition read_ipv4_addr (s : string) : option (Z * string) :=
  '(a, s) ← read_octet 0 s;
  '(b, s) ← read_octet 1 s;
  '(c, s) ← read_octet 2 s;
  '(d, s) ← read_octet 3 s;
  Some (((a * 256 + b) * 256 + c) * 256 + d, s)%Z.

(** [read_groups] on the [n] slots that are left; an embedded IPv4 address
    needs two of them. *)
Fixpoint read_groups (n i : nat) (s : string) : list Z * bool * string :=
  match n with
  | 0 => ([], false, s)
  | S n =>
      match (if 0 <? n then read_separator ":" i read_ipv4_addr s else None) with
      | Some (v4, s) => ([Z.shiftr v4 16; Z.land v4 65535], true, s)
      | None =>
          match read_separator ":" i (read_number 16 4 true 65535) s with
          | Some (g, s) => let '(gs, v4, s) := read_groups n (S i) s in (g :: gs, v4, s)
          | None => ([], false, s)
          end
      end
  end.

Definition from_segments (gs : list Z) : Z := fold_left (fun acc g => acc * 65536 + g)%Z gs 0%Z.

Definition read_ipv6_addr (s : string) : option (Z * string) :=
  let '(head, head_ipv4, s) := read_groups 8 0 s in
  if length head =? 8 then Some (from_segments head, s)
  else if head_ipv4 then None
  else
    s ← read_given_char ":" s;
    s ← read_given_char ":" s;
    let '(tail, _, s) := read_groups (8 - (length head + 1)) 0 s in
    Some (from_segments (head ++ repeat 0%Z (8 - length head - length tail) ++ tail), s).

Definition read_ip_addr (s : string) : option (IpAddr * string) :=
  match read_ipv4_addr s with
  | Some (a, s) => Some (V4 a, s)
  | None => match read_ipv6_addr s with Some (a, s) => Some (V6 a, s) | None => None end
  end.

(** [s.parse::<IpAddr>()]: the whole string must be consumed. *)
Definition parse_ip (s : string) : option IpAddr :=
  match read_ip_addr s with
  | Some (ip, EmptyString) => Some ip
  | _ => None
  end.

(** ** Lemmas *)

Lemma length_octets ip : length (octets ip) = if is_ipv4 ip then 4 else 16.
Proof. by destruct ip. Qed.

Lemma be_value_bytes n a : (0 <= a < 2 ^ (8 * Z.of_nat n))%Z -> be_value (be_bytes n a) = a.
Proof.
  intros Ha. unfold be_value, be_bytes. rewrite reverse_involutive.
  rewrite LittleEndianList.le_combine_split, Z.mul_comm. by apply Z.mod_small.
Qed.

Lemma be_bytes_value b : be_bytes (length b) (be_value b) = b.
Proof.
  unfold be_value, be_bytes. rewrite <- (length_reverse b), LittleEndianList.split_le_combine.
  apply reverse_involutive.
Qed.

Lemma be_value_range b : (0 <= be_value b < 2 ^ (8 * Z.of_nat (length b)))%Z.
Proof.
  pose proof (LittleEndianList.le_combine_bound (reverse b)) as H.
  by rewrite length_reverse in H.
Qed.

Example ip_text_examples :
  v6_to_string 1 = "::1" /\ v6_to_string 0 = "::" /\
  v6_to_string (v4_to_ipv6_mapped 2130706433) = "::ffff:127.0.0.1" /\
  v6_to_string 42540766411282592856903984951653826561 = "2001:db8::1" /\
  parse_ip "2001:db8::1" = Some (V6 42540766411282592856903984951653826561) /\
  parse_ip "::ffff:1.2.3.4" = Some (V6 (v4_to_ipv6_mapped 16909060)) /\
  parse_ip "1.2.3.4" = Some (V4 16909060) /\ parse_ip "1.2.3" = None /\
  parse_ip "01.2.3.4" = None /\ parse_ip "1.2.3.256" = None /\ parse_ip "::" = Some (V6 0) /\
  parse_ip "1::2::3" = None /\ parse_ip "1:2:3:4:5:6:7:8:9" = None /\
  parse_ip "1:2:3:4:5:6:7:8" = Some (V6 5192455318486707404433266433261576) /\
  parse_ip "1.2.3.4 " = None /\ parse_ip "1:2:3:4:5:6:1.2.3.4" =
    Some (V6 5192455318486707404433266449711876).
Proof. vm_compute. done. Qed.

(** ** Text round trip for IPv4 *)

(** [rest] ends the number: it is empty or starts with a dot. *)
Definition ends_number (rest : string) : Prop :=
  rest = "" \/ exists r, rest = String "." r.

Lemma read_octet_decimal n rest :
  n < 256 -> ends_number rest ->
  read_number 10 3 false 255 (u8_decimal n +:+ rest) = Some (Z.of_nat n, rest).
Proof.
  intros Hn Hr.
  assert (Forall (fun n => read_number 10 3 false 255 (u8_decimal n +:+ rest) =
    Some (Z.of_nat n, rest)) (seq 0 256)) as Hall.
  { cbn [seq]. destruct Hr as [->|[r ->]]; repeat (constructor; [reflexivity|]); constructor. }
  rewrite Forall_forall in Hall. apply Hall, elem_of_seq. lia.
Qed.

Lemma octet_div a i : (0 <= i)%Z -> octet a i = Z.to_nat (a / 2 ^ (8 * i) mod 256).
Proof.
  intros. unfold octet. rewrite Z.shiftr_div_pow2 by lia.
  by rewrite (Z.land_ones _ 8) by lia.
Qed.

Lemma octet_lt a i : (0 <= i)%Z -> octet a i < 256.
Proof. intros. rewrite octet_div by done. pose proof (Z.mod_pos_bound (a / 2 ^ (8 * i)) 256). lia. Qed.

Lemma octets_value a :
  (0 <= a < 2 ^ 32)%Z ->
  (((Z.of_nat (octet a 3) * 256 + Z.of_nat (octet a 2)) * 256 + Z.of_nat (octet a 1)) * 256
    + Z.of_nat (octet a 0))%Z = a.
Proof.
  intros Ha. rewrite !octet_div by lia. cbn [Z.mul Z.pow].
  change (2 ^ (8 * 3))%Z with 16777216%Z. change (2 ^ (8 * 2))%Z with 65536%Z.
  change (2 ^ (8 * 1))%Z with 256%Z. change (2 ^ (8 * 0))%Z with 1%Z.
  rewrite !Z2Nat.id by (apply Z.mod_pos_bound; lia).
  Z.to_euclidean_division_equations. lia.
Qed.

Lemma string_app_assoc (a b c : string) : ((a +:+ b) +:+ c = a +:+ b +:+ c)%string.
Proof. induction a as [|x a IH]; [done|]. change (String x ((a +:+ b) +:+ c) = String x (a +:+ b +:+ c))%string. by rewrite IH. Qed.

Lemma string_app_nil_r (a : string) : (a +:+ "")%string = a.
Proof. induction a as [|x a IH]; [done|]. change (String x (a +:+ "") = String x a)%string. by rewrite IH. Qed.

Lemma read_octet_dot i n rest :
  n < 256 -> ends_number rest -> 0 < i ->
  read_octet i (String "." (u8_decimal n +:+ rest)) = Some (Z.of_nat n, rest).
Proof.
  intros Hn Hr Hi. unfold read_octet, read_separator.
  rewrite (proj2 (Nat.ltb_lt 0 i)) by done. by apply read_octet_decimal.
Qed.

Lemma read_ipv4_to_string a :
  (0 <= a < 2 ^ 32)%Z -> read_ipv4_addr (v4_to_string a) = Some (a, "").
Proof.
  intros Ha. unfold v4_to_string, read_ipv4_addr. rewrite <- (string_app_nil_r (u8_decimal (octet a 0))).
  assert (forall r, ends_number (String "." r)) as Hdot by (intros r; right; by exists r).
  assert (ends_number "") as Hnil by by left.
  change (read_octet 0) with (read_number 10 3 false 255).
  repeat change ("." +:+ ?x)%string with (String "." x).
  rewrite read_octet_decimal by (auto; apply octet_lt; lia). cbn [mbind option_bind].
  rewrite read_octet_dot by (auto; apply octet_lt; lia). cbn [mbind option_bind].
  rewrite read_octet_dot by (auto; apply octet_lt; lia). cbn [mbind option_bind].
  rewrite read_octet_dot by (auto; apply octet_lt; lia). cbn [mbind option_bind].
  by rewrite octets_value.
Qed.

Lemma parse_v4_to_string a : (0 <= a < 2 ^ 32)%Z -> parse_ip (v4_to_string a) = Some (V4 a).
Proof. intros Ha. unfold parse_ip, read_ip_addr. by rewrite read_ipv4_to_string. Qed.

(** Every address the parser returns is in range. *)
Lemma read_digits_nonneg radix max count acc s n m r :
  (0 <= acc)%Z -> read_digits radix max count acc s = Some (n, m, r) -> (0 <= m)%Z.
Proof.
  revert count acc. induction s as [|c s IH]; intros count acc Ha; cbn; [naive_solver|].
  destruct (to_digit radix c) as [d|]; [|naive_solver].
  case_match; [done|]. apply IH. lia.
Qed.

Lemma read_number_range radix max z limit s n r :
  read_number radix max z limit s = Some (n, r) -> (0 <= n <= limit)%Z.
Proof.
  unfold read_number. destruct (read_digits _ _ _ _ _) as [[[c m] r']|] eqn:Hd; [|done].
  apply read_digits_nonneg in Hd; [|done]. case_match; [done|]. case_match; [done|].
  case_match eqn:Hl; [|done]. intros [= <- <-]. apply Z.leb_le in Hl. lia.
Qed.

Lemma read_separator_inv {A} sep i (inner : string -> option (A * string)) s x :
  read_separator sep i inner s = Some x -> exists s', inner s' = Some x.
Proof. unfold read_separator. repeat case_match; naive_solver. Qed.

Lemma read_ipv4_range s a r : read_ipv4_addr s = Some (a, r) -> (0 <= a < 2 ^ 32)%Z.
Proof.
  unfold read_ipv4_addr. intros H.
  do 4 (apply bind_Some in H as ([? ?] & ?%read_separator_inv & H)). destruct_and?.
  repeat match goal with Ho : exists s, _ = _ |- _ => destruct Ho as [? ?%read_number_range] end.
  injection H as <- <-. lia.
Qed.

Lemma read_groups_range n i s gs b r :
  read_groups n i s = (gs, b, r) -> length gs <= n /\ Forall (fun g => 0 <= g < 65536)%Z gs.
Proof.
  revert i s gs b r. induction n as [|n IH]; intros i s gs b r; cbn [read_groups];
    [intros [= <- <- <-]; split; [done|constructor]|].
  destruct (if 0 <? n then read_separator ":" i read_ipv4_addr s else None) as [[v4 s']|] eqn:H4.
  - intros [= <- <- <-]. destruct (Nat.ltb_spec 0 n); [|done].
    apply read_separator_inv in H4 as [s2 H4%read_ipv4_range].
    split; [cbn; lia|]. change 65535%Z with (Z.ones 16).
    rewrite Z.land_ones, Z.shiftr_div_pow2 by lia.
    repeat constructor; Z.to_euclidean_division_equations; lia.
  - destruct (read_separator _ i (read_number _ _ _ _) s) as [[g s']|] eqn:Hn;
      [|intros [= <- <- <-]; split; [cbn; lia|constructor]].
    destruct (read_groups n (S i) s') as [[gs' b'] r'] eqn:Hg. apply IH in Hg as [Hl Hf].
    intros [= <- <- <-]. split; [cbn; lia|]. constructor; [|done].
    apply read_separator_inv in Hn as [? ?%read_number_range]. lia.
Qed.

Lemma from_segments_range gs :
  Forall (fun g => 0 <= g < 65536)%Z gs ->
  (0 <= from_segments gs < 2 ^ (16 * Z.of_nat (length gs)))%Z.
Proof.
  unfold from_segments. intros Hf.
  assert (forall acc k, 0 <= k -> 0 <= acc < 2 ^ k ->
    0 <= fold_left (fun acc g => acc * 65536 + g) gs acc < 2 ^ (k + 16 * Z.of_nat (length gs)))%Z as H.
  { induction Hf as [|g gs Hg Hf IH]; intros acc k Hk Hacc; cbn [fold_left length].
    - by rewrite Z.add_0_r.
    - replace (k + 16 * Z.of_nat (S (length gs)))%Z
        with (k + 16 + 16 * Z.of_nat (length gs))%Z by lia.
      apply IH; [lia|]. rewrite Z.pow_add_r by lia. lia. }
  specialize (H 0 0)%Z. cbn in H. apply H; lia.
Qed.

Lemma parse_ip_wf s ip : parse_ip s = Some ip -> ip_wf ip.
Proof.
  unfold parse_ip, read_ip_addr. destruct (read_ipv4_addr s) as [[a r]|] eqn:H4.
  { apply read_ipv4_range in H4. destruct r; naive_solver. }
  destruct (read_ipv6_addr s) as [[a r]|] eqn:H6; [|done].
  intros Hip. assert (0 <= a < 2 ^ 128)%Z as Ha; [|destruct r; naive_solver].
  clear Hip. revert H6. unfold read_ipv6_addr.
  destruct (read_groups 8 0 s) as [[head b] s1] eqn:Hh. apply read_groups_range in Hh as [Hl Hf].
  destruct (Nat.eqb_spec (length head) 8) as [H8|H8].
  { intros [= <- <-]. apply from_segments_range in Hf. by rewrite H8 in Hf. }
  destruct b; [done|]. intros (s2 & _ & (s3 & _ & H)%bind_Some)%bind_Some.
  destruct (read_groups _ 0 s3) as [[tail b'] s4] eqn:Ht. apply read_groups_range in Ht as [Htl Htf].
  injection H as <- <-. set (gs := head ++ _).
  assert (Forall (fun g => 0 <= g < 65536)%Z gs) as Hgs.
  { subst gs. rewrite !Forall_app. split_and!; [done| |done]. apply Forall_forall.
    intros x ->%list_elem_of_In%repeat_spec. lia. }
  apply from_segments_range in Hgs. assert (length gs = 8) as Hlen.
  { subst gs. rewrite !length_app, repeat_length. lia. }
  by rewrite Hlen in Hgs.
Qed.
