(* ===== verification/Address.v ===== *)
(** * The target-address header ([src/src/ssr/address.rs])

    [parse] reads [ATYP || ADDR || PORT] at the front of the decrypted
    stream, [pack_socket_addr] writes it for UDP responses.  The theorems:
    the parser is total with the branch structure of the header formats, it
    is stable under extension of the buffer, and it inverts the packer. *)

From S2P Require Import Prelude Errors Str Net.

Definition ATYP_IPV4 : byte := Byte.x01.
Definition ATYP_DOMAIN : byte := Byte.x03.
Definition ATYP_IPV6 : byte := Byte.x04.

(** [struct Address]. *)
Record Address : Type := { host : string; port : Z }.

#[export] Instance address_eq_dec : EqDecision Address.
Proof. solve_decision. Defined.

Definition connect_target (a : Address) : string * Z := (host a, port a).

(** [b & !0x08]. *)
Definition mask_connect_type (b : byte) : byte :=
  byte.of_Z (Z.land (byte.unsigned b) (Z.lxor 255 8)).

(** [parse]. *)
Definition parse (buf : bytes) : res error (option (Address * nat)) :=
  if length buf =? 0 then Ok None
  else
    b0 ← index buf 0;
    let atyp := mask_connect_type b0 in
    if bool_decide (atyp = ATYP_IPV4) then
      let end_ := 1 + 4 + 2 in
      if length buf <? end_ then Ok None
      else
        o ← index_n buf 1 4;
        p ← index_n buf 5 2;
        Ok (Some ({| host := ip_to_string (V4 (be_value o)); port := u16_from_be p |}, end_))
    else if bool_decide (atyp = ATYP_DOMAIN) then
      if length buf <? 2 then Ok None
      else
        b1 ← index buf 1;
        let dlen := u8_idx b1 in
        let end_ := 2 + dlen + 2 in
        if length buf <? end_ then Ok None
        else
          d ← slice buf 2 (2 + dlen);
          match from_utf8 d with
          | None => Err NonUtf8Domain
          | Some h =>
              p ← index_n buf (2 + dlen) 2;
              Ok (Some ({| host := h; port := u16_from_be p |}, end_))
          end
    else if bool_decide (atyp = ATYP_IPV6) then
      let end_ := 1 + 16 + 2 in
      if length buf <? end_ then Ok None
      else
        o ← slice buf 1 17;
        o ← copy_from_slice 16 o;
        p ← index_n buf 17 2;
        Ok (Some ({| host := ip_to_string (V6 (be_value o)); port := u16_from_be p |}, end_))
    else Err (UnsupportedAtyp atyp).

(** [pack_socket_addr]. *)
Definition pack_socket_addr (ip : IpAddr) (port : Z) : bytes :=
  match ip with
  | V4 _ => ATYP_IPV4 :: octets ip ++ u16_to_be port
  | V6 _ => ATYP_IPV6 :: octets ip ++ u16_to_be port
  end.

(** The domain form, which clients send. *)
Definition pack_domain (domain : bytes) (port : Z) : bytes :=
  ATYP_DOMAIN :: usize_as_u8 (length domain) :: domain ++ u16_to_be port.

(** Set the connect-type flag on the first byte of a header. *)
Definition with_connect_type (hdr : bytes) : bytes :=
  match hdr with
  | [] => []
  | b :: hdr => byte.of_Z (Z.lor (byte.unsigned b) 8) :: hdr
  end.

(** ** The header formats, as a specification *)

Inductive header : Type :=
  | HeaderIp4 | HeaderDomain (dlen : nat) | HeaderIp6 | HeaderBad (atyp : byte) | HeaderShort.

Definition header_of (buf : bytes) : header :=
  match buf with
  | [] => HeaderShort
  | b0 :: rest =>
      let atyp := mask_connect_type b0 in
      if bool_decide (atyp = ATYP_IPV4) then HeaderIp4
      else if bool_decide (atyp = ATYP_DOMAIN) then
        match rest with [] => HeaderShort | b1 :: _ => HeaderDomain (u8_idx b1) end
      else if bool_decide (atyp = ATYP_IPV6) then HeaderIp6
      else HeaderBad atyp
  end.

#[export] Instance header_eq_dec : EqDecision header.
Proof. solve_decision. Defined.

(** Total length of the header, address bytes included. *)
Definition header_len (h : header) : nat :=
  match h with
  | HeaderIp4 => 7 | HeaderDomain dlen => dlen + 4 | HeaderIp6 => 19
  | HeaderBad _ | HeaderShort => 0
  end.

Definition header_host (h : header) (buf : bytes) : option string :=
  match h with
  | HeaderIp4 => Some (v4_to_string (be_value (sub buf 1 5)))
  | HeaderDomain dlen => from_utf8 (sub buf 2 (2 + dlen))
  | HeaderIp6 => Some (v6_to_string (be_value (sub buf 1 17)))
  | HeaderBad _ | HeaderShort => None
  end.

Definition parse_spec (buf : bytes) : res error (option (Address * nat)) :=
  match header_of buf with
  | HeaderShort => Ok None
  | HeaderBad atyp => Err (UnsupportedAtyp atyp)
  | h =>
      let n := header_len h in
      if length buf <? n then Ok None
      else match header_host h buf with
           | None => Err NonUtf8Domain
           | Some host => Ok (Some ({| host := host; port := u16_from_be (sub buf (n - 2) n) |}, n))
           end
  end.

(** ** Lemmas *)

Lemma parse_eq buf : parse buf = parse_spec buf.
Proof.
  unfold parse, parse_spec. destruct buf as [|b0 rest]; [done|].
  change (length (b0 :: rest) =? 0) with false. cbv iota. cbn [header_of].
  change (index (b0 :: rest) 0) with (Ok (E:=error) b0). rewrite bind_Ok.
  case_bool_decide; [|case_bool_decide; [|case_bool_decide]]; cbv zeta; cbn [header_len header_host].
  - change (1 + 4 + 2) with 7.
    destruct (Nat.ltb_spec (length (b0 :: rest)) 7) as [H7|H7]; [done|]. rewrite !index_n_ok by (cbn in *; lia). done.
  - destruct rest as [|b1 rest]; [done|]. cbn [header_len header_host].
    rewrite (proj2 (Nat.ltb_ge _ 2)) by (cbn; lia).
    change (index (b0 :: b1 :: rest) 1) with (Ok (E:=error) b1). rewrite bind_Ok. cbv zeta.
    replace (2 + u8_idx b1 + 2) with (u8_idx b1 + 4) by lia.
    destruct (Nat.ltb_spec (length (b0 :: b1 :: rest)) (u8_idx b1 + 4)) as [Hn|Hn]; [done|].
    rewrite slice_ok by lia. rewrite bind_Ok. destruct (from_utf8 _); [|done].
    rewrite index_n_ok by lia. rewrite bind_Ok. do 6 f_equal; lia.
  - change (1 + 16 + 2) with 19.
    destruct (Nat.ltb_spec (length (b0 :: rest)) 19) as [H7|H7]; [done|]. rewrite slice_ok by (cbn in *; lia). rewrite bind_Ok.
    rewrite copy_from_slice_ok by (apply length_sub; cbn in *; lia). rewrite bind_Ok.
    rewrite index_n_ok by (cbn in *; lia). done.
  - done.
Qed.

Lemma header_of_app buf ext : header_of buf <> HeaderShort -> header_of (buf ++ ext) = header_of buf.
Proof.
  destruct buf as [|b0 [|b1 rest]]; cbn; [done| |done].
  by repeat case_bool_decide.
Qed.

Lemma header_host_app h buf ext :
  header_len h <= length buf -> header_host h (buf ++ ext) = header_host h buf.
Proof.
  destruct h; cbn [header_len header_host]; intros; try done; by rewrite sub_app_l by lia.
Qed.

Lemma parse_app buf ext : parse buf <> Ok None -> parse (buf ++ ext) = parse buf.
Proof.
  rewrite !parse_eq. unfold parse_spec. intros Hne.
  destruct (decide (header_of buf = HeaderShort)) as [Hs|Hs]; [by rewrite Hs in Hne|].
  rewrite header_of_app by done. rewrite length_app.
  destruct (header_of buf) as [|d| |a|]; try done; cbv zeta in *;
    (case_match eqn:Hl; [done|]); apply Nat.ltb_ge in Hl;
    rewrite (proj2 (Nat.ltb_ge _ _)) by lia; rewrite header_host_app by done;
    by rewrite sub_app_l by lia.
Qed.

Lemma parse_consumed buf a n : parse buf = Ok (Some (a, n)) -> 0 < n <= length buf.
Proof.
  rewrite parse_eq. unfold parse_spec.
  destruct (header_of buf); try done; cbv zeta; cbn [header_len];
    (case_match eqn:Hl; [done|]); apply Nat.ltb_ge in Hl;
    (case_match; [|done]); intros [= <- <-]; lia.
Qed.

Lemma length_u16_to_be n : length (u16_to_be n) = 2.
Proof. done. Qed.

Lemma u8_idx_of_nat n : n < 256 -> u8_idx (usize_as_u8 n) = n.
Proof.
  intros. unfold u8_idx, usize_as_u8. rewrite byte.unsigned_of_Z.
  unfold byte.wrap. rewrite Z.mod_small by lia. lia.
Qed.

(** The flag does not change what a header is, for the three types. *)
Lemma header_of_connect_type buf : header_of (with_connect_type buf) = header_of buf.
Proof.
  destruct buf as [|b0 rest]; [done|]. cbn [with_connect_type header_of].
  replace (mask_connect_type (byte.of_Z (Z.lor (byte.unsigned b0) 8))) with (mask_connect_type b0);
    [done|]. by destruct b0.
Qed.

Lemma parse_connect_type buf : parse (with_connect_type buf) = parse buf.
Proof.
  rewrite !parse_eq. unfold parse_spec. rewrite header_of_connect_type.
  destruct buf as [|b0 rest]; [done|]. cbn [with_connect_type].
  assert (forall a b, 1 <= a -> sub (byte.of_Z (Z.lor (byte.unsigned b0) 8) :: rest) a b
    = sub (b0 :: rest) a b) as Hsub by (by intros [|a] b Ha; [lia|]).
  destruct (header_of (b0 :: rest)); try done; cbn [header_len header_host length];
    by rewrite !Hsub by lia.
Qed.

Lemma header_of_packed ip port :
  header_of (pack_socket_addr ip port) = if is_ipv4 ip then HeaderIp4 else HeaderIp6.
Proof. by destruct ip. Qed.

Lemma header_fields (x : byte) (o p : bytes) :
  sub (x :: o ++ p) 1 (1 + length o) = o /\
  sub (x :: o ++ p) (1 + length o) (1 + length o + length p) = p.
Proof.
  split.
  - by apply (sub_exact _ [x] o p).
  - by apply (sub_app_tail (x :: o) p).
Qed.

Lemma parse_packed_only ip port :
  ip_wf ip -> (0 <= port < 2 ^ 16)%Z ->
  parse (pack_socket_addr ip port) =
    Ok (Some ({| host := ip_to_string ip; port := port |}, length (pack_socket_addr ip port))).
Proof.
  intros Hip Hp. rewrite parse_eq.
  unfold parse_spec; rewrite header_of_packed.
  destruct (header_fields (if is_ipv4 ip then ATYP_IPV4 else ATYP_IPV6) (octets ip) (u16_to_be port))
    as [Ho Hq].
  rewrite length_octets, length_u16_to_be in *.
  destruct ip as [a|a]; cbn [is_ipv4 ip_wf] in *; unfold pack_socket_addr;
    cbn [length header_len header_host]; rewrite length_app, length_octets, length_u16_to_be;
    cbn [is_ipv4 Nat.add Nat.ltb Nat.leb Nat.sub] in *; rewrite Ho, Hq;
    rewrite u16_from_to_be by done; cbn [octets]; by rewrite be_value_bytes by done.
Qed.

Lemma parse_packed_ip ip port rest :
  ip_wf ip -> (0 <= port < 2 ^ 16)%Z ->
  parse (pack_socket_addr ip port ++ rest) =
    Ok (Some ({| host := ip_to_string ip; port := port |}, length (pack_socket_addr ip port))).
Proof. intros. by rewrite parse_app; rewrite parse_packed_only. Qed.

Lemma parse_packed_domain d h port rest :
  length d < 256 -> from_utf8 d = Some h -> (0 <= port < 2 ^ 16)%Z ->
  parse (pack_domain d port ++ rest) =
    Ok (Some ({| host := h; port := port |}, length (pack_domain d port))).
Proof.
  intros Hd Hh Hp.
  assert (parse (pack_domain d port) =
    Ok (Some ({| host := h; port := port |}, length (pack_domain d port)))) as Heq.
  { rewrite parse_eq. unfold parse_spec, pack_domain. cbn [header_of].
    change (mask_connect_type ATYP_DOMAIN) with ATYP_DOMAIN.
    rewrite bool_decide_false by done. rewrite bool_decide_true by done.
    rewrite u8_idx_of_nat by done. cbn [header_len header_host length].
    rewrite length_app, length_u16_to_be. cbv zeta.
    rewrite (proj2 (Nat.ltb_ge _ _)) by lia.
    rewrite (sub_exact _ [_; _] d (u16_to_be port)) by done. rewrite Hh.
    rewrite (sub_exact _ (ATYP_DOMAIN :: usize_as_u8 (length d) :: d) (u16_to_be port) [])
      by (rewrite ?app_nil_r, ?length_u16_to_be; cbn [length]; first [done|lia]).
    rewrite u16_from_to_be by done. do 3 f_equal. lia. }
  by rewrite parse_app; rewrite Heq.
Qed.

(** ** Properties *)

(** C33 The parser of the address header, on every branch: it never
    panics; it asks for more bytes exactly when the header named by the
    first bytes is incomplete; otherwise it returns host, port and header
    length, or the error for a non-UTF-8 domain or an unknown type.  The
    connect-type flag [0x08] has no effect. *)
Theorem parse_branches buf : parse buf = parse_spec buf /\ parse (with_connect_type buf) = parse buf.
Proof. split; [apply parse_eq|apply parse_connect_type]. Qed.

(** Once the header is complete (or wrong), more bytes do not change
    the verdict, and the bytes reported as consumed lie in the buffer: what
    the handshake passes on as initial payload is the bytes after the
    header, however the stream was cut. *)
Theorem parse_stable buf ext (Hd : parse buf <> Ok None) :
  parse (buf ++ ext) = parse buf /\
  (forall a n, parse buf = Ok (Some (a, n)) ->
    0 < n <= length buf /\ drop n (buf ++ ext) = drop n buf ++ ext).
Proof.
  split; [by apply parse_app|]. intros a n Hp%parse_consumed. split; [done|].
  by rewrite drop_app_le by lia.
Qed.

Lemma parse_stable_witness :
  parse ([Byte.x01; Byte.x01; Byte.x02; Byte.x03; Byte.x04; Byte.x01; Byte.xbb] ++ [Byte.x68]) =
    Ok (Some ({| host := "1.2.3.4"; port := 443 |}, 7)).
Proof.
  etransitivity.
  - refine (proj1 (parse_stable [Byte.x01; Byte.x01; Byte.x02; Byte.x03; Byte.x04; Byte.x01; Byte.xbb]
      [Byte.x68] _)). vm_compute. discriminate.
  - vm_compute. reflexivity.
Defined.

(** C32 Round trip of the header: what [pack_socket_addr] writes, followed
    by any payload, parses to the same address text and port with exactly
    its length consumed; for IPv4 the text denotes the address again; and a
    domain header of up to 255 bytes of UTF-8 parses to its name. *)
Theorem pack_parse_roundtrip ip port d h rest
    (Hip : ip_wf ip) (Hp : (0 <= port < 2 ^ 16)%Z) (Hd : length d < 256) (Hh : from_utf8 d = Some h) :
  parse (pack_socket_addr ip port ++ rest) =
    Ok (Some ({| host := ip_to_string ip; port := port |}, length (pack_socket_addr ip port))) /\
  (is_ipv4 ip = true -> parse_ip (ip_to_string ip) = Some ip) /\
  parse (pack_domain d port ++ rest) =
    Ok (Some ({| host := h; port := port |}, length (pack_domain d port))).
Proof.
  split_and!.
  - by apply parse_packed_ip.
  - destruct ip; [|done]. intros _. by apply parse_v4_to_string.
  - by apply parse_packed_domain.
Qed.

Lemma pack_parse_roundtrip_witness :
  parse (pack_socket_addr (V4 16909060) 443 ++ [Byte.x68]) =
    Ok (Some ({| host := "1.2.3.4"; port := 443 |}, 7)) /\
  parse_ip "1.2.3.4" = Some (V4 16909060) /\
  parse (pack_domain (string_bytes "example.com") 80 ++ [Byte.x47]) =
    Ok (Some ({| host := "example.com"; port := 80 |}, 15)).
Proof.
  assert (0 <= 443 < 2 ^ 16)%Z as Hp by lia. assert (0 <= 80 < 2 ^ 16)%Z as Hp' by lia.
  assert (ip_wf (V4 16909060)) as Hip by (split; [lia|reflexivity]).
  split; [|split].
  - exact (proj1 (pack_parse_roundtrip _ 443 [] "" _ Hip Hp ltac:(compute_done) eq_refl)).
  - exact (proj1 (proj2 (pack_parse_roundtrip _ 443 [] "" [] Hip Hp ltac:(compute_done) eq_refl)) eq_refl).
  - exact (proj2 (proj2 (pack_parse_roundtrip _ 80 (string_bytes "example.com") "example.com" [Byte.x47]
      Hip Hp' ltac:(compute_done) eq_refl))).
Defined.
