(* ===== verification/Float.v ===== *)
(** * [f64] and [Duration]

    Binary64 arithmetic as the executable [SpecFloat] (round to nearest,
    ties to even), with the conversions the program uses: [u64 as f64], the
    saturating [f64 as u64], [max] and [min] (a NaN operand is ignored),
    [Duration::as_secs_f64] and [from_secs_f64].  A [Duration] is a number
    of nanoseconds, an [Instant] the nanoseconds since the process clock's
    origin. *)

From Stdlib Require Export Floats.SpecFloat.
From S2P Require Import Prelude.

Definition f64 : Set := spec_float.

#[export] Instance f64_eq_dec : EqDecision f64.
Proof. solve_decision. Defined.

Definition f64_mul : f64 -> f64 -> f64 := SFmul 53 1024.
Definition f64_add : f64 -> f64 -> f64 := SFadd 53 1024.
Definition f64_sub : f64 -> f64 -> f64 := SFsub 53 1024.
Definition f64_div : f64 -> f64 -> f64 := SFdiv 53 1024.
Definition f64_abs : f64 -> f64 := SFabs.
Definition f64_ltb : f64 -> f64 -> bool := SFltb.
Definition f64_leb : f64 -> f64 -> bool := SFleb.
Definition f64_zero : f64 := S754_zero false.
(** An integer constant or [n as f64]. *)
Definition f64_of_Z (n : Z) : f64 := binary_normalize 53 1024 n 0 false.
(** [f64::EPSILON], 2^-52. *)
Definition f64_epsilon : f64 := binary_normalize 53 1024 1 (-52) false.

Definition f64_is_nan (x : f64) : bool := match x with S754_nan => true | _ => false end.

(** [f64::max] and [f64::min]. *)
Definition f64_max (x y : f64) : f64 :=
  if f64_is_nan x then y else if f64_is_nan y then x else if f64_ltb x y then y else x.
Definition f64_min (x y : f64) : f64 :=
  if f64_is_nan x then y else if f64_is_nan y then x else if f64_ltb y x then y else x.

(** The integer part of a finite magnitude. *)
Definition f64_trunc_abs (m : positive) (e : Z) : Z :=
  if (0 <=? e)%Z then (Zpos m * 2 ^ e)%Z else (Zpos m / 2 ^ (- e))%Z.

Definition U64_MAX : Z := 18446744073709551615.

(** [x as u64]: truncates, saturates, and maps NaN to 0. *)
Definition f64_as_u64 (x : f64) : Z :=
  match x with
  | S754_nan | S754_zero _ => 0
  | S754_infinity s => if s then 0 else U64_MAX
  | S754_finite s m e => if s then 0 else Z.min U64_MAX (f64_trunc_abs m e)
  end.

(** ** Durations *)

Definition Duration : Set := Z.
Definition Instant : Set := Z.
Bind Scope Z_scope with Duration.
Bind Scope Z_scope with Instant.
Definition NANOS_PER_SEC : Z := 1000000000.
Definition from_secs (s : Z) : Duration := (s * NANOS_PER_SEC)%Z.
Definition from_millis (ms : Z) : Duration := (ms * 1000000)%Z.

(** [now.duration_since(earlier)] saturates at zero. *)
Definition duration_since (now earlier : Instant) : Duration := Z.max 0 (now - earlier).

(** [as_secs_f64]: [secs as f64 + nanos as f64 / 1e9]. *)
Definition as_secs_f64 (d : Duration) : f64 :=
  f64_add (f64_of_Z (d / NANOS_PER_SEC)%Z)
    (f64_div (f64_of_Z (d mod NANOS_PER_SEC)%Z) (f64_of_Z NANOS_PER_SEC)).

(** Nearest integer to [n / d], ties to even. *)
Definition div_half_even (n d : Z) : Z :=
  let q := (n / d)%Z in
  let r := (n mod d)%Z in
  if (2 * r <? d)%Z then q
  else if (d <? 2 * r)%Z then (q + 1)%Z
  else if Z.even q then q else (q + 1)%Z.

(** [Duration::from_secs_f64]: to the nearest nanosecond; panics on a
    negative, non-finite or too large value. *)
Definition from_secs_f64 {E} (x : f64) : res E Duration :=
  match x with
  | S754_zero _ => Ok 0%Z
  | S754_finite false m e =>
      let ns := if (0 <=? e)%Z then (Zpos m * 2 ^ e * NANOS_PER_SEC)%Z
                else div_half_even (Zpos m * NANOS_PER_SEC) (2 ^ (- e)) in
      if (ns <? 2 ^ 64 * NANOS_PER_SEC)%Z then Ok ns else Panic
  | _ => Panic
  end.

(** ** Lemmas *)

Lemma f64_as_u64_range x : (0 <= f64_as_u64 x <= U64_MAX)%Z.
Proof.
  unfold f64_as_u64, U64_MAX. destruct x as [|s| |s m e]; try lia; destruct s; try lia.
  unfold f64_trunc_abs. case_match; pose proof (Z.pow_nonneg 2 e); [lia|].
  pose proof (Z.div_pos (Zpos m) (2 ^ (- e))) as Hd.
  assert (0 < 2 ^ (- e))%Z by (apply Z.pow_pos_nonneg; lia). lia.
Qed.

Lemma SFcompare_antisym x y :
  SFcompare y x = match SFcompare x y with
    | Some Lt => Some Gt | Some Gt => Some Lt | c => c end.
Proof.
  destruct x as [[]|[]| |[] m e], y as [[]|[]| |[] m' e']; try reflexivity; cbn;
    change (Pos.compare_cont Eq) with Pos.compare;
    rewrite (Z.compare_antisym e e'), (Pos.compare_antisym m m');
    by destruct (e ?= e')%Z, (m ?= m')%positive.
Qed.

Lemma SFcompare_refl x : f64_is_nan x = false -> SFcompare x x = Some Eq.
Proof.
  destruct x as [[]|[]| |[] m e]; try done; cbn; intros _;
    change (Pos.compare_cont Eq) with Pos.compare;
    by rewrite Z.compare_refl, Pos.compare_refl.
Qed.

Lemma SFcompare_some x y :
  f64_is_nan x = false -> f64_is_nan y = false -> exists c, SFcompare x y = Some c.
Proof.
  destruct x as [[]|[]| |[] m e], y as [[]|[]| |[] m' e']; try done;
    intros _ _; cbn; repeat case_match; by eexists.
Qed.

Lemma f64_leb_refl x : f64_is_nan x = false -> f64_leb x x = true.
Proof. intros Hx. unfold f64_leb, SFleb. by rewrite SFcompare_refl. Qed.

Lemma f64_ltb_leb x y : f64_ltb x y = true -> f64_leb x y = true.
Proof. unfold f64_ltb, f64_leb, SFltb, SFleb. by destruct (SFcompare x y) as [[]|]. Qed.

Lemma f64_not_ltb_leb x y :
  f64_is_nan x = false -> f64_is_nan y = false -> f64_ltb x y = false -> f64_leb y x = true.
Proof.
  intros Hx Hy. destruct (SFcompare_some x y Hx Hy) as [c Hc].
  unfold f64_ltb, f64_leb, SFltb, SFleb. rewrite (SFcompare_antisym x y), Hc. by destruct c.
Qed.

Lemma f64_not_leb_leb x y :
  f64_is_nan x = false -> f64_is_nan y = false -> f64_leb x y = false -> f64_leb y x = true.
Proof.
  intros Hx Hy. destruct (SFcompare_some x y Hx Hy) as [c Hc].
  unfold f64_leb, SFleb. rewrite (SFcompare_antisym x y), Hc. by destruct c.
Qed.

Lemma f64_min_le_r x y : f64_is_nan y = false -> f64_leb (f64_min x y) y = true.
Proof.
  intros Hy. unfold f64_min. destruct (f64_is_nan x) eqn:Hx; [by apply f64_leb_refl|].
  rewrite Hy. destruct (f64_ltb y x) eqn:Hlt; [by apply f64_leb_refl|].
  by apply f64_not_ltb_leb.
Qed.

Lemma f64_max_not_nan x y : f64_is_nan y = false -> f64_is_nan (f64_max x y) = false.
Proof. intros Hy. unfold f64_max. rewrite Hy. by repeat case_match. Qed.

Lemma f64_max_ge_r x y : f64_is_nan y = false -> f64_leb y (f64_max x y) = true.
Proof.
  intros Hy. unfold f64_max. destruct (f64_is_nan x) eqn:Hx; [by apply f64_leb_refl|].
  rewrite Hy. destruct (f64_ltb x y) eqn:Hlt; [by apply f64_leb_refl|].
  by apply f64_not_ltb_leb.
Qed.

Example float_examples :
  f64_as_u64 (f64_mul (f64_of_Z 5) (f64_of_Z 1048576)) = 5242880%Z /\
  f64_as_u64 (f64_of_Z (2 ^ 70)) = U64_MAX /\ f64_as_u64 (f64_of_Z (-3)) = 0%Z /\
  from_secs_f64 (E:=()) (f64_div (f64_of_Z 1) (f64_of_Z 4)) = Ok 250000000%Z /\
  as_secs_f64 1500000000%Z = f64_div (f64_of_Z 3) (f64_of_Z 2).
Proof. vm_compute. done. Qed.
