(* ===== verification/FloatBounds.v ===== *)
(** * Bounds on [f64] results

    What rounding can do to a magnitude: an operation on non-negative
    numbers gives a non-negative number (never a NaN), a result has a
    canonical mantissa, and its binary order of magnitude is at most one more
    than that of the exact result.  This is what the limiter needs to know
    that its sleeps are valid durations. *)

From S2P Require Import Prelude Float.

#[local] Open Scope Z_scope.

Abbreviation fexp := (SpecFloat.fexp 53 1024).
Abbreviation emin := (SpecFloat.emin 53 1024).

(** ** Digits *)

Lemma digits2_pos_bounds p : 2 ^ (Zpos (digits2_pos p) - 1) <= Zpos p < 2 ^ Zpos (digits2_pos p).
Proof.
  induction p as [p IH|p IH|]; cbn [digits2_pos]; [..|cbn; lia];
    rewrite Pos2Z.inj_succ, Z.pow_succ_r by lia;
    replace (2 ^ (Z.succ (Zpos (digits2_pos p)) - 1)) with (2 * 2 ^ (Zpos (digits2_pos p) - 1))
      by (rewrite <- Z.pow_succ_r by lia; f_equal; lia); lia.
Qed.

(** The number of digits, characterised by powers of two. *)
Lemma Zdigits2_le n d : 0 <= d -> 0 <= n < 2 ^ d -> Zdigits2 n <= d.
Proof.
  intros Hd [Hn Hlt]. destruct n as [|p|p]; cbn [Zdigits2]; [lia| |lia].
  destruct (digits2_pos_bounds p) as [Hlo _]. apply Z.nlt_ge. intros Hgt.
  assert (2 ^ d <= 2 ^ (Zpos (digits2_pos p) - 1)) by (apply Z.pow_le_mono_r; lia). lia.
Qed.

Lemma Zdigits2_ge n d : 0 <= d -> 2 ^ d <= n -> d + 1 <= Zdigits2 n.
Proof.
  intros Hd Hn. assert (0 < 2 ^ d) by (apply Z.pow_pos_nonneg; lia).
  destruct n as [|p|p]; [lia| |lia]. cbn [Zdigits2].
  destruct (digits2_pos_bounds p) as [_ Hhi]. apply Z.nlt_ge. intros Hgt.
  assert (2 ^ Zpos (digits2_pos p) <= 2 ^ d) by (apply Z.pow_le_mono_r; lia). lia.
Qed.

Lemma Zdigits2_bound n : 0 <= n -> n < 2 ^ Zdigits2 n.
Proof. intros Hn. destruct n as [|p|p]; [cbn; lia|apply digits2_pos_bounds|lia]. Qed.

Lemma Zdigits2_nonneg n : 0 <= Zdigits2 n.
Proof. by destruct n. Qed.

Lemma Zdigits2_pos_ge p : 2 ^ (Zdigits2 (Zpos p) - 1) <= Zpos p.
Proof. apply digits2_pos_bounds. Qed.

(** ** Shifting a mantissa to the right *)

Lemma shr_1_m mrs : 0 <= shr_m mrs -> shr_m (shr_1 mrs) = shr_m mrs / 2.
Proof.
  destruct mrs as [m r s]. cbn [shr_m]. intros Hm. destruct m as [|p|p]; [done| |lia].
  destruct p as [p|p|]; cbn; [|..|done].
  - apply (Z.div_unique _ 2 (Zpos p) 1); lia.
  - apply (Z.div_unique _ 2 (Zpos p) 0); lia.
Qed.

Lemma pow2_xO p : 2 ^ Zpos (xO p) = 2 ^ Zpos p * 2 ^ Zpos p.
Proof. rewrite <- Z.pow_add_r by lia. f_equal. lia. Qed.

Lemma pow2_xI p : 2 ^ Zpos (xI p) = 2 * (2 ^ Zpos p * 2 ^ Zpos p).
Proof. rewrite <- pow2_xO, <- Z.pow_succ_r by lia. f_equal. Qed.

Lemma iter_shr_m p mrs : 0 <= shr_m mrs -> shr_m (iter_pos shr_1 p mrs) = shr_m mrs / 2 ^ Zpos p.
Proof.
  revert mrs. induction p as [p IH|p IH|]; intros mrs Hm; cbn [iter_pos]; [..|by rewrite shr_1_m].
  - assert (0 <= shr_m (shr_1 mrs)) by (rewrite shr_1_m by done; apply Z.div_pos; lia).
    rewrite !IH, shr_1_m by (rewrite ?IH by done; try done; apply Z.div_pos; lia).
    rewrite !Z.div_div, pow2_xI by lia. f_equal.
  - rewrite !IH by (rewrite ?IH by done; try done; apply Z.div_pos; lia).
    by rewrite Z.div_div, pow2_xO by lia.
Qed.

Lemma shr_record_m m l : shr_m (shr_record_of_loc m l) = m.
Proof. by destruct l as [|[]]. Qed.

Lemma shr_fexp_m m e l :
  0 <= m ->
  let n := Z.max 0 (fexp (Zdigits2 m + e) - e) in
  shr_m (shr_fexp 53 1024 m e l).1 = m / 2 ^ n /\ (shr_fexp 53 1024 m e l).2 = e + n.
Proof.
  intros Hm. unfold shr_fexp, shr.
  destruct (fexp (Zdigits2 m + e) - e) as [|p|p] eqn:Hn; cbn zeta.
  - rewrite Z.max_id. cbn [fst snd]. rewrite shr_record_m, Z.pow_0_r, Z.div_1_r. lia.
  - rewrite Z.max_r by lia. cbn [fst snd]. rewrite iter_shr_m, shr_record_m by by rewrite shr_record_m. lia.
  - rewrite Z.max_l by lia. cbn [fst snd]. rewrite shr_record_m, Z.pow_0_r, Z.div_1_r. lia.
Qed.

Lemma div_digits m n : 0 <= m -> 0 <= n -> 0 < m / 2 ^ n -> Zdigits2 (m / 2 ^ n) = Zdigits2 m - n.
Proof.
  intros Hm Hn Hpos. assert (0 < 2 ^ n) by (apply Z.pow_pos_nonneg; lia).
  destruct m as [|p|p]; [by rewrite Z.div_0_l in Hpos by lia| |lia].
  pose proof (digits2_pos_bounds p) as [Hlo Hhi]. cbn [Zdigits2].
  set (d := Zpos (digits2_pos p)) in *.
  assert (Hnd : n < d).
  { apply Z.nle_gt. intros Hle. assert (2 ^ d <= 2 ^ n) by (apply Z.pow_le_mono_r; lia).
    rewrite Z.div_small in Hpos; lia. }
  apply Z.le_antisymm.
  - apply Zdigits2_le; [lia|]. split; [lia|]. apply Z.div_lt_upper_bound; [lia|].
    rewrite <- Z.pow_add_r by lia. by replace (n + (d - n)) with d by lia.
  - replace (d - n) with ((d - 1 - n) + 1) by lia. apply Zdigits2_ge; [lia|].
    apply Z.div_le_lower_bound; [lia|]. rewrite <- Z.pow_add_r by lia.
    by replace (n + (d - 1 - n)) with (d - 1) by lia.
Qed.

(** ** Rounding *)

Lemma fexp_eq x : fexp x = Z.max (x - 53) (-1074).
Proof. reflexivity. Qed.

Lemma round_cases m l : round_nearest_even m l = m \/ round_nearest_even m l = m + 1.
Proof. destruct l as [|[]]; cbn; [by left| |by left|by right]. destruct (Z.even m); [by left|by right]. Qed.

Lemma Zdigits2_mono a b : 0 <= a <= b -> Zdigits2 a <= Zdigits2 b.
Proof.
  intros H. apply Zdigits2_le; [apply Zdigits2_nonneg|].
  pose proof (Zdigits2_bound b ltac:(lia)). lia.
Qed.

Lemma Zdigits2_succ m : 0 <= m -> Zdigits2 (m + 1) <= Zdigits2 m + 1.
Proof.
  intros Hm. pose proof (Zdigits2_nonneg m). apply Zdigits2_le; [lia|].
  pose proof (Zdigits2_bound m Hm). rewrite Z.pow_add_r by lia. lia.
Qed.

(** One alignment to the format: the order of magnitude does not grow. *)
Lemma align_order m e B :
  0 <= m -> Zdigits2 m + e <= B -> -1074 <= B ->
  let n := Z.max 0 (fexp (Zdigits2 m + e) - e) in Zdigits2 (m / 2 ^ n) + (e + n) <= B.
Proof.
  intros Hm Hd HB n. pose proof (Zdigits2_nonneg m). subst n. rewrite fexp_eq.
  set (n := Z.max 0 _). assert (0 <= n) by lia. assert (0 < 2 ^ n) by (apply Z.pow_pos_nonneg; lia).
  pose proof (Z.div_pos m (2 ^ n) Hm ltac:(lia)).
  destruct (Z.eq_dec (m / 2 ^ n) 0) as [->|]; [cbn [Zdigits2]; lia|].
  rewrite div_digits by lia. lia.
Qed.

(** What [binary_round_aux] returns. *)
Definition rounded (sx : bool) (m e : Z) : f64 :=
  match m with
  | Z0 => S754_zero sx
  | Zpos p => if e <=? 971 then S754_finite sx p e else S754_infinity sx
  | Zneg _ => S754_nan
  end.

Definition canonical (m e : Z) : Prop := fexp (Zdigits2 m + e) = e.

Lemma aux_split sx mx ex lx :
  0 <= mx ->
  let n1 := Z.max 0 (fexp (Zdigits2 mx + ex) - ex) in
  exists m2, (m2 = mx / 2 ^ n1 \/ m2 = mx / 2 ^ n1 + 1) /\
    let n2 := Z.max 0 (fexp (Zdigits2 m2 + (ex + n1)) - (ex + n1)) in
    binary_round_aux 53 1024 sx mx ex lx = rounded sx (m2 / 2 ^ n2) (ex + n1 + n2).
Proof.
  intros Hm n1. unfold binary_round_aux. destruct (shr_fexp_m mx ex lx Hm) as [H1 H2].
  destruct (shr_fexp 53 1024 mx ex lx) as [mrs e1]. cbn [fst snd] in H1, H2. subst e1. fold n1 in H1 |- *.
  exists (round_nearest_even (shr_m mrs) (loc_of_shr_record mrs)). rewrite H1. split; [apply round_cases|].
  assert (Hp : 0 <= mx / 2 ^ n1) by (apply Z.div_pos; [lia|apply Z.pow_pos_nonneg; lia]).
  set (m2 := round_nearest_even _ _).
  assert (Hm2 : 0 <= m2) by (destruct (round_cases (mx / 2 ^ n1) (loc_of_shr_record mrs)); lia).
  destruct (shr_fexp_m m2 (ex + n1) loc_Exact Hm2) as [H3 H4].
  destruct (shr_fexp 53 1024 m2 (ex + n1) loc_Exact) as [mrs2 e2]. cbn [fst snd] in H3, H4.
  subst e2. by rewrite H3.
Qed.

(** An alignment that drops digits of a long mantissa leaves 53 of them. *)
Lemma long_digits m n : 0 < m -> 0 <= n -> n <= Zdigits2 m - 1 -> 0 < m / 2 ^ n.
Proof.
  intros Hm Hn Hle. destruct m as [|p|p]; [lia| |lia]. pose proof (Zdigits2_pos_ge p).
  assert (2 ^ n <= 2 ^ (Zdigits2 (Zpos p) - 1)) by (apply Z.pow_le_mono_r; lia).
  assert (0 < 2 ^ n) by (apply Z.pow_pos_nonneg; lia). apply Z.div_str_pos. lia.
Qed.

Lemma digits_54 m : Zdigits2 m = 54 -> 0 <= m <= 2 ^ 53 -> m = 2 ^ 53.
Proof.
  intros Hd Hm. destruct m as [|p|p]; [done| |lia]. pose proof (Zdigits2_pos_ge p) as Hp.
  rewrite Hd in Hp. change (54 - 1) with 53 in Hp. lia.
Qed.

(** The mantissa after the first alignment has at most 53 digits, and that
    many in the normal range. *)
Lemma first_alignment mx ex :
  0 <= mx -> ex <= fexp (Zdigits2 mx + ex) ->
  let f := fexp (Zdigits2 mx + ex) in
  let m1 := mx / 2 ^ (f - ex) in
  0 <= m1 /\ Zdigits2 m1 <= 53 /\ (f = -1074 \/ Zdigits2 m1 = 53) /\ -1074 <= f.
Proof.
  intros Hm Hex f m1. assert (H2 : 0 < 2 ^ (f - ex)) by (apply Z.pow_pos_nonneg; lia).
  assert (H1 : 0 <= m1) by (apply Z.div_pos; lia). pose proof (Zdigits2_nonneg mx).
  pose proof (fexp_eq (Zdigits2 mx + ex)) as Hf. fold f in Hf.
  assert (Hd : Zdigits2 m1 <= 53).
  { destruct (Z.eq_dec m1 0) as [->|]; [cbn; lia|]. subst m1. rewrite div_digits by lia. lia. }
  split_and!; [done|done| |lia]. destruct (Z.eq_dec f (-1074)) as [|Hn]; [by left|right].
  assert (0 < mx) by (destruct mx; cbn in *; lia).
  assert (0 < m1) by (apply long_digits; lia). subst m1. rewrite div_digits by lia. lia.
Qed.

Lemma aux_canonical mx ex m2 :
  0 <= mx -> ex <= fexp (Zdigits2 mx + ex) ->
  let f := fexp (Zdigits2 mx + ex) in
  let m1 := mx / 2 ^ (f - ex) in
  m1 <= m2 <= m1 + 1 ->
  let n2 := Z.max 0 (fexp (Zdigits2 m2 + f) - f) in
  canonical (m2 / 2 ^ n2) (f + n2).
Proof.
  intros Hm Hex f m1 Hm2 n2. destruct (first_alignment mx ex Hm Hex) as (H1 & H53 & Hor & Hmin).
  fold f m1 in H1, H53, Hor, Hmin. unfold canonical. pose proof (fexp_eq (Zdigits2 m2 + f)) as Hf2.
  pose proof (Zdigits2_succ m1 H1). pose proof (Zdigits2_mono m1 m2 ltac:(lia)).
  pose proof (Zdigits2_mono m2 (m1 + 1) ltac:(lia)).
  destruct (Z.le_gt_cases (Zdigits2 m2) 53).
  - assert (n2 = 0) as -> by lia. rewrite Z.pow_0_r, Z.div_1_r, Z.add_0_r, fexp_eq. lia.
  - assert (n2 = 1) as -> by lia. assert (m1 < 2 ^ 53).
    { pose proof (Zdigits2_bound m1 H1). assert (2 ^ Zdigits2 m1 <= 2 ^ 53) by (apply Z.pow_le_mono_r; lia). lia. }
    rewrite (digits_54 m2) by lia. change (Zdigits2 (2 ^ 53 / 2 ^ 1)) with 53. rewrite fexp_eq. lia.
Qed.

(** The result of rounding: bounds of its order, and its form. *)
Lemma aux_spec sx mx ex lx :
  0 <= mx ->
  exists m e, 0 <= m /\ binary_round_aux 53 1024 sx mx ex lx = rounded sx m e /\
    (forall B, Zdigits2 mx + ex <= B -> -1074 <= B -> Zdigits2 m + e <= B + 1) /\
    (ex <= fexp (Zdigits2 mx + ex) -> canonical m e) /\
    (0 < mx -> -1021 <= Zdigits2 mx + ex -> 0 < m /\ Zdigits2 mx + ex <= Zdigits2 m + e).
Proof.
  intros Hm. destruct (aux_split sx mx ex lx Hm) as (m2 & Hm2 & ->).
  set (n1 := Z.max 0 (fexp (Zdigits2 mx + ex) - ex)) in *.
  set (m1 := mx / 2 ^ n1) in *. set (n2 := Z.max 0 (fexp (Zdigits2 m2 + (ex + n1)) - (ex + n1))).
  assert (Hn1 : 0 < 2 ^ n1) by (apply Z.pow_pos_nonneg; lia).
  assert (Hn2 : 0 < 2 ^ n2) by (apply Z.pow_pos_nonneg; lia).
  assert (H1 : 0 <= m1) by (apply Z.div_pos; lia).
  assert (H2 : m1 <= m2 <= m1 + 1) by lia.
  exists (m2 / 2 ^ n2), (ex + n1 + n2). split; [apply Z.div_pos; lia|]. split; [done|]. split_and!.
  - intros B HB HE. apply align_order; [lia| |lia].
    pose proof (align_order mx ex B Hm HB HE) as Ho. cbv zeta in Ho. fold n1 m1 in Ho.
    pose proof (Zdigits2_succ m1 H1). pose proof (Zdigits2_mono m2 (m1 + 1) ltac:(lia)). lia.
  - intros Hex. pose proof (aux_canonical mx ex m2 Hm Hex) as Hc. cbv zeta in Hc.
    assert (n1 = fexp (Zdigits2 mx + ex) - ex) as Hn by lia. rewrite <- Hn in Hc. fold m1 in Hc.
    replace (fexp (Zdigits2 mx + ex)) with (ex + n1) in Hc by lia. by apply Hc.
  - intros Hpos Hlow. pose proof (fexp_eq (Zdigits2 mx + ex)) as Hf1.
    pose proof (fexp_eq (Zdigits2 m2 + (ex + n1))) as Hf2.
    assert (Zdigits2 mx >= 1) by (destruct mx; cbn in *; lia).
    assert (H1p : 0 < m1) by (apply long_digits; lia).
    assert (Hd1 : Zdigits2 m1 = Zdigits2 mx - n1) by (apply div_digits; lia).
    pose proof (Zdigits2_mono m1 m2 ltac:(lia)).
    assert (Zdigits2 m1 >= 1) by (destruct m1; cbn in *; lia).
    assert (Hq : 0 < m2 / 2 ^ n2) by (apply long_digits; lia). split; [done|].
    rewrite div_digits by lia. lia.
Qed.

(** ** Non-negative numbers *)

(** Non-negative with a canonical mantissa; zero has the positive sign. *)
Definition unsigned (x : f64) : Prop :=
  match x with
  | S754_zero s | S754_infinity s => s = false
  | S754_finite s m e => s = false /\ canonical (Zpos m) e
  | S754_nan => False
  end.

Definition finite (x : f64) : Prop :=
  match x with S754_zero _ | S754_finite _ _ _ => True | _ => False end.

(** The binary order of magnitude: a finite [x] is below [2 ^ order x]. *)
Definition order (x : f64) : Z :=
  match x with S754_finite _ m e => Zdigits2 (Zpos m) + e | _ => -1074 end.

Lemma rounded_unsigned m e : 0 <= m -> canonical m e -> unsigned (rounded false m e).
Proof. intros Hm Hc. destruct m; [done| |lia]. unfold rounded. by case_match. Qed.

Lemma rounded_order m e B : 0 <= m -> Zdigits2 m + e <= B -> -1074 <= B -> order (rounded false m e) <= B.
Proof. intros Hm Hd HB. destruct m as [|p|p]; [done| |lia]. unfold rounded. by case_match. Qed.

Lemma rounded_finite m e B : 0 <= m -> Zdigits2 m + e <= B -> B <= 971 -> finite (rounded false m e).
Proof.
  intros Hm Hd HB. destruct m as [|p|p]; [done| |lia]. unfold rounded. pose proof (Zdigits2_nonneg (Zpos p)).
  by rewrite (proj2 (Z.leb_le e 971)) by lia.
Qed.

Lemma iter_xO m p : Zpos (Pos.iter xO m p) = Zpos m * 2 ^ Zpos p.
Proof.
  induction p as [|p IH] using Pos.peano_ind; [cbn; lia|].
  rewrite Pos.iter_succ, Pos2Z.inj_succ, Z.pow_succ_r, Pos2Z.inj_xO, IH by lia. lia.
Qed.

Lemma shl_align_spec mx ex ex' :
  let r := shl_align mx ex ex' in
  r.2 = Z.min ex ex' /\ Zpos r.1 = Zpos mx * 2 ^ (ex - r.2).
Proof.
  unfold shl_align. destruct (ex' - ex) as [|p|p] eqn:Hd; cbn [fst snd].
  - split; [lia|]. rewrite Z.sub_diag. lia.
  - split; [lia|]. rewrite Z.sub_diag. lia.
  - split; [lia|]. rewrite iter_xO. do 2 f_equal. lia.
Qed.

Lemma Zdigits2_shift m k : 0 < m -> 0 <= k -> Zdigits2 (m * 2 ^ k) = Zdigits2 m + k.
Proof.
  intros Hm Hk. assert (0 < 2 ^ k) by (apply Z.pow_pos_nonneg; lia).
  pose proof (Zdigits2_bound m ltac:(lia)). pose proof (Zdigits2_nonneg m).
  destruct m as [|p|p]; [lia| |lia]. pose proof (Zdigits2_pos_ge p) as Hp.
  assert (1 <= Zdigits2 (Zpos p)) by (cbn; lia). apply Z.le_antisymm.
  - apply Zdigits2_le; [lia|]. rewrite Z.pow_add_r by lia. nia.
  - replace (Zdigits2 (Zpos p) + k) with (Zdigits2 (Zpos p) - 1 + k + 1) by lia.
    apply Zdigits2_ge; [lia|]. rewrite Z.pow_add_r by lia. nia.
Qed.

(** A positive number, normalised. *)
Lemma normalize_spec p e :
  let x := binary_normalize 53 1024 (Zpos p) e false in
  unsigned x /\
  (forall B, Zdigits2 (Zpos p) + e <= B -> -1074 <= B -> order x <= B + 1) /\
  (Zdigits2 (Zpos p) + e <= 900 -> finite x) /\
  (-1021 <= Zdigits2 (Zpos p) + e <= 1023 ->
     finite x /\ Zdigits2 (Zpos p) + e <= order x /\ exists m e', x = S754_finite false m e').
Proof.
  cbn [binary_normalize]. unfold binary_round.
  set (f := fexp (Zpos (digits2_pos p) + e)). destruct (shl_align_spec p e f) as [H2 H1].
  destruct (shl_align p e f) as [mz ez]. cbn [fst snd] in H1, H2.
  assert (Hd : Zdigits2 (Zpos mz) + ez = Zdigits2 (Zpos p) + e).
  { rewrite H1, Zdigits2_shift by lia. lia. }
  destruct (aux_spec false (Zpos mz) ez loc_Exact) as (m & e' & Hm & -> & Hup & Hcan & Hlow); [lia|].
  rewrite Hd in Hup, Hcan, Hlow.
  assert (Hc : canonical m e') by (apply Hcan; change (Zdigits2 (Zpos p)) with (Zpos (digits2_pos p)); fold f; lia).
  split_and!.
  - by apply rounded_unsigned.
  - intros B HB HE. apply rounded_order; [done|by apply Hup|lia].
  - intros Hsmall. apply (rounded_finite m e' 901); [done|by apply (Hup 900)|lia].
  - intros [Hlo Hhi]. destruct Hlow as [Hpos Hle]; [lia|done|]. pose proof (Hup 1023 Hhi ltac:(lia)) as Hu.
    unfold canonical in Hc. pose proof (fexp_eq (Zdigits2 m + e')) as Hf.
    destruct m as [|q|q]; [lia| |lia]. unfold rounded. rewrite (proj2 (Z.leb_le e' 971)) by lia.
    split_and!; [done|done|by exists q, e'].
Qed.

(** [n as f64]. *)
Lemma of_Z_spec n :
  0 < n < 2 ^ 1000 ->
  unsigned (f64_of_Z n) /\ Zdigits2 n <= order (f64_of_Z n) <= Zdigits2 n + 1 /\
  exists m e, f64_of_Z n = S754_finite false m e.
Proof.
  intros Hn. destruct n as [|p|p]; [lia| |lia]. unfold f64_of_Z.
  destruct (normalize_spec p 0) as (Hu & Hup & _ & Hlow). rewrite Z.add_0_r in Hup, Hlow.
  assert (Zdigits2 (Zpos p) <= 1000) by (apply Zdigits2_le; lia).
  pose proof (Zdigits2_nonneg (Zpos p)). destruct Hlow as (_ & Hlo & Hf); [lia|].
  split_and!; [done|done| |done]. apply Hup; lia.
Qed.

Lemma of_Z_unsigned n : 0 <= n -> unsigned (f64_of_Z n).
Proof. intros Hn. destruct n as [|p|p]; [done| |lia]. apply normalize_spec. Qed.

Lemma add_unsigned x y : unsigned x -> unsigned y -> unsigned (f64_add x y).
Proof.
  destruct x as [s|s| |s m e], y as [s'|s'| |s' m' e']; cbn [unsigned]; intros Hx Hy;
    destruct_and?; subst; try done.
  unfold f64_add, SFadd, cond_Zopp. apply normalize_spec.
Qed.

Lemma min_cases x y : f64_min x y = x \/ f64_min x y = y.
Proof. unfold f64_min. repeat case_match; auto. Qed.

(** A product with a positive factor: not negative, not a NaN. *)
Definition signless (x : f64) : Prop :=
  match x with S754_zero s | S754_infinity s | S754_finite s _ _ => s = false | S754_nan => False end.

Lemma unsigned_signless x : unsigned x -> signless x.
Proof. destruct x; cbn; tauto. Qed.

Lemma rounded_signless m e : 0 <= m -> signless (rounded false m e).
Proof. intros Hm. destruct m; [done| |lia]. unfold rounded. by case_match. Qed.

Lemma mul_signless x m e : signless x -> signless (f64_mul x (S754_finite false m e)).
Proof.
  destruct x as [s|s| |s m' e']; cbn; try done; try (intros ->; done).
  intros ->. cbn [xorb]. destruct (aux_spec false (Zpos (m' * m)) (e' + e) loc_Exact)
    as (m2 & e2 & Hm & -> & _); [lia|]. by apply rounded_signless.
Qed.

Lemma add_signless x y : unsigned x -> signless y -> unsigned (f64_add x y) \/ f64_add x y = y.
Proof.
  destruct x as [s|s| |s m e], y as [s'|s'| |s' m' e']; cbn [unsigned signless]; intros Hx Hy;
    destruct_and?; subst; try done; try (by left); try (by right).
  left. unfold f64_add, SFadd, cond_Zopp. apply normalize_spec.
Qed.

(** ** Order and comparison *)

Lemma canonical_digits p e : canonical (Zpos p) e -> Zdigits2 (Zpos p) <= 53 /\ -1074 <= e /\
  (e = -1074 \/ Zdigits2 (Zpos p) = 53).
Proof. unfold canonical. rewrite fexp_eq. lia. Qed.

(** Canonical numbers compare as their values. *)
Lemma leb_value s m1 e1 m2 e2 :
  s = false -> canonical (Zpos m1) e1 -> canonical (Zpos m2) e2 ->
  f64_leb (S754_finite s m1 e1) (S754_finite false m2 e2) = true ->
  let ez := Z.min e1 e2 in Zpos m1 * 2 ^ (e1 - ez) <= Zpos m2 * 2 ^ (e2 - ez).
Proof.
  intros -> H1 H2. unfold f64_leb, SFleb. cbn [SFcompare].
  destruct (canonical_digits _ _ H1) as (D1 & L1 & O1). destruct (canonical_digits _ _ H2) as (D2 & L2 & O2).
  pose proof (Zdigits2_bound (Zpos m1) ltac:(lia)) as B1. pose proof (Zdigits2_pos_ge m2) as B2.
  destruct (Z.compare_spec e1 e2) as [->|Hlt|Hgt]; intros Hc; [| |done].
  - rewrite Z.min_id, Z.sub_diag. change (Pos.compare_cont Eq m1 m2) with (m1 ?= m2)%positive in Hc.
    destruct (Pos.compare_spec m1 m2); [subst; lia|lia|done].
  - rewrite Z.min_l by lia. rewrite Z.sub_diag, Z.pow_0_r, Z.mul_1_r.
    assert (H53 : Zdigits2 (Zpos m2) = 53) by lia. rewrite H53 in B2.
    assert (2 ^ Zdigits2 (Zpos m1) <= 2 ^ 53) by (apply Z.pow_le_mono_r; lia).
    assert (2 ^ 1 <= 2 ^ (e2 - e1)) by (apply Z.pow_le_mono_r; lia).
    change (53 - 1) with 52 in B2. nia.
Qed.

Lemma leb_order x y :
  unsigned x -> unsigned y -> finite y -> f64_leb x y = true -> order x <= order y.
Proof.
  destruct x as [s|s| |s m e], y as [s'|s'| |s' m' e']; cbn [unsigned finite]; intros Hx Hy Hf Hle;
    destruct_and?; subst; try done; cbn [order].
  - destruct (canonical_digits _ _ H0) as (_ & ? & _). pose proof (Zdigits2_nonneg (Zpos m')). lia.
  - rename select (canonical (Zpos m) e) into H1. rename select (canonical (Zpos m') e') into H2.
    pose proof (leb_value false m e m' e' eq_refl H1 H2 Hle) as Hv. cbv zeta in Hv.
    pose proof (Zdigits2_shift (Zpos m) (e - Z.min e e') ltac:(lia) ltac:(lia)) as S1.
    pose proof (Zdigits2_shift (Zpos m') (e' - Z.min e e') ltac:(lia) ltac:(lia)) as S2.
    pose proof (Zdigits2_mono _ _ (conj (Z.mul_nonneg_nonneg _ _ (Pos2Z.is_nonneg m)
      (Z.pow_nonneg 2 (e - Z.min e e') ltac:(lia))) Hv)). lia.
Qed.

(** A difference that is not negative. *)
Lemma sub_unsigned x y :
  unsigned x -> unsigned y -> finite x -> f64_leb y x = true ->
  unsigned (f64_sub x y) /\ order (f64_sub x y) <= order x + 1 /\
  (order x <= 900 -> finite (f64_sub x y)).
Proof.
  destruct x as [s|s| |s m e], y as [s'|s'| |s' m' e']; cbn [unsigned finite]; intros Hx Hy Hf Hle;
    destruct_and?; subst; try done.
  - split_and!; [by split| |done]. unfold f64_sub, SFsub. lia.
  - rename select (canonical (Zpos m) e) into H1. rename select (canonical (Zpos m') e') into H2.
    pose proof (leb_value false m' e' m e eq_refl H2 H1 Hle) as Hv.
    cbv zeta in Hv. unfold f64_sub, SFsub, cond_Zopp.
    destruct (shl_align_spec m e (Z.min e e')) as [E1 V1].
    destruct (shl_align_spec m' e' (Z.min e e')) as [E2 V2].
    replace (Z.min e (Z.min e e')) with (Z.min e e') in E1 by lia.
    replace (Z.min e' (Z.min e e')) with (Z.min e e') in E2 by lia.
    rewrite E1 in V1. rewrite E2 in V2. rewrite V1, V2. rewrite (Z.min_comm e' e) in Hv.
    pose proof (Zdigits2_shift (Zpos m) (e - Z.min e e') ltac:(lia) ltac:(lia)) as S1.
    assert (0 < 2 ^ (e' - Z.min e e')) by (apply Z.pow_pos_nonneg; lia).
    destruct (canonical_digits _ _ H1) as (_ & ? & _). destruct (canonical_digits _ _ H2) as (_ & ? & _).
    pose proof (Zdigits2_nonneg (Zpos m)).
    destruct (Zpos m * 2 ^ (e - Z.min e e') - Zpos m' * 2 ^ (e' - Z.min e e')) as [|d|d] eqn:Hd; [| |lia].
    + split_and!; [done|cbn [order binary_normalize]; lia|done].
    + destruct (normalize_spec d (Z.min e e')) as (Hu & Hup & Hfin & _). cbn [order].
      pose proof (Zdigits2_mono (Zpos d) (Zpos m * 2 ^ (e - Z.min e e')) ltac:(nia)).
      split_and!; [done|apply Hup; lia|]. intros Hsmall. apply Hfin. lia.
Qed.

Lemma unsigned_zero_leb x : unsigned x -> f64_leb f64_zero x = true.
Proof. destruct x as [s|s| |s m e]; cbn; try done; [by intros ->|by intros [-> _]]. Qed.

Lemma order_min x : unsigned x -> 0 <= order x + 1074.
Proof.
  destruct x as [| | |s m e]; try done. cbn [unsigned order]. intros [_ Hc].
  destruct (canonical_digits _ _ Hc) as (_ & ? & _). pose proof (Zdigits2_nonneg (Zpos m)). lia.
Qed.

Lemma leb_finite x y : unsigned x -> unsigned y -> finite y -> f64_leb x y = true -> finite x.
Proof.
  destruct x as [s|s| |s m e], y as [s'|s'| |s' m' e']; cbn [unsigned finite]; intros Hx Hy Hf Hle;
    destruct_and?; subst; done.
Qed.

(** ** Products, quotients and durations *)

(** A product with a number of full precision. *)
Lemma mul_unsigned x m e :
  signless x -> Zdigits2 (Zpos m) = 53 -> unsigned (f64_mul x (S754_finite false m e)).
Proof.
  intros Hx Hm. destruct x as [s|s| |s m' e']; cbn in Hx; subst; try done.
  destruct (aux_spec false (Zpos (m' * m)) (e' + e) loc_Exact) as (m2 & e2 & H2 & Heq & _ & Hc & _); [lia|].
  unfold f64_mul, SFmul. cbn [xorb]. rewrite Heq. apply rounded_unsigned, Hc; [done|].
  pose proof (Zdigits2_mono (Zpos m) (Zpos (m' * m)) ltac:(nia)). rewrite fexp_eq. lia.
Qed.

(** A quotient: the orders subtract. *)
Lemma div_bound x m2 e2 :
  signless x -> finite x -> 0 <= order x + 1074 ->
  exists m e, 0 <= m /\ f64_div x (S754_finite false m2 e2) = rounded false m e /\
    Zdigits2 m + e <= Z.max (order x - (Zdigits2 (Zpos m2) + e2) + 1) (-1074) + 1.
Proof.
  destruct x as [s|s| |s m1 e1]; cbn [signless finite order]; intros Hx Hf Ho; subst; try done.
  { exists 0, (-1074). split_and!; [done|done|cbn [Zdigits2]; lia]. }
  unfold f64_div, SFdiv, SFdiv_core_binary. cbn [xorb].
  set (D := Zdigits2 (Zpos m1) + e1 - (Zdigits2 (Zpos m2) + e2)). set (e' := Z.min (fexp D) (e1 - e2)).
  assert (Hs : 0 <= e1 - e2 - e') by lia. set (k := e1 - e2 - e') in *.
  assert (Hn : match k with 0 => Zpos m1 | Zpos _ => Z.shiftl (Zpos m1) k | Zneg _ => 0 end = Zpos m1 * 2 ^ k).
  { destruct k as [|k|k]; [by rewrite Z.pow_0_r, Z.mul_1_r|by apply Z.shiftl_mul_pow2|lia]. }
  rewrite Hn. pose proof (Z.div_eucl_eq (Zpos m1 * 2 ^ k) (Zpos m2) ltac:(lia)) as _.
  destruct (Z.div_eucl (Zpos m1 * 2 ^ k) (Zpos m2)) as [q r] eqn:Hq.
  assert (q = Zpos m1 * 2 ^ k / Zpos m2) as -> by (unfold Z.div; by rewrite Hq).
  assert (0 < 2 ^ k) by (apply Z.pow_pos_nonneg; lia).
  assert (Hq0 : 0 <= Zpos m1 * 2 ^ k / Zpos m2) by (apply Z.div_pos; lia).
  destruct (aux_spec false (Zpos m1 * 2 ^ k / Zpos m2) e' (new_location (Zpos m2) r) Hq0)
    as (m & e & Hm & Heq & Hup & _). exists m, e. split_and!; [done|done|]. apply Hup; [|lia].
  pose proof (Zdigits2_nonneg (Zpos m1)). pose proof (Zdigits2_pos_ge m2) as B2.
  pose proof (Zdigits2_shift (Zpos m1) k ltac:(lia) ltac:(lia)) as Hsh.
  destruct (Z.eq_dec (Zpos m1 * 2 ^ k / Zpos m2) 0) as [->|Hne].
  { cbn [Zdigits2]. subst e' D. rewrite fexp_eq. lia. }
  assert (Hle : Zdigits2 (Zpos m1 * 2 ^ k / Zpos m2) <= Zdigits2 (Zpos m1 * 2 ^ k / 2 ^ (Zdigits2 (Zpos m2) - 1))).
  { apply Zdigits2_mono. split; [done|]. assert (1 <= Zdigits2 (Zpos m2)) by (cbn; lia).
    apply Z.div_le_compat_l; [lia|]. split; [apply Z.pow_pos_nonneg; lia|done]. }
  assert (1 <= Zdigits2 (Zpos m2)) by (cbn; lia).
  assert (0 < 2 ^ (Zdigits2 (Zpos m2) - 1)) by (apply Z.pow_pos_nonneg; lia).
  assert (0 <= Zpos m1 * 2 ^ k / 2 ^ (Zdigits2 (Zpos m2) - 1)) by (apply Z.div_pos; lia).
  destruct (Z.eq_dec (Zpos m1 * 2 ^ k / 2 ^ (Zdigits2 (Zpos m2) - 1)) 0) as [Hz|Hz].
  { rewrite Hz in Hle. cbn [Zdigits2] in Hle.
    pose proof (Zdigits2_ge (Zpos m1 * 2 ^ k / Zpos m2) 0 ltac:(lia) ltac:(lia)). lia. }
  rewrite div_digits in Hle by lia. lia.
Qed.

(** [Duration::from_secs_f64] accepts a rounded number below [2^B]. *)
Lemma from_secs_rounded {E} m e B :
  0 <= m -> Zdigits2 m + e <= B -> 0 <= B <= 63 ->
  exists d, from_secs_f64 (E:=E) (rounded false m e) = Ok d /\ 0 <= d <= 2 ^ B * NANOS_PER_SEC.
Proof.
  intros Hm Hd HB. assert (HN : NANOS_PER_SEC = 1000000000) by done.
  assert (2 ^ B <= 2 ^ 63) by (apply Z.pow_le_mono_r; lia). assert (0 < 2 ^ B) by (apply Z.pow_pos_nonneg; lia).
  change (2 ^ 63) with 9223372036854775808 in *. pose proof (Zdigits2_nonneg m).
  destruct m as [|p|p]; [exists 0; split; [done|lia]| |lia].
  unfold rounded. rewrite (proj2 (Z.leb_le e 971)) by lia. unfold from_secs_f64.
  pose proof (Zdigits2_bound (Zpos p) Hm) as Hb. change (2 ^ 64) with 18446744073709551616.
  assert (Hk : forall n, 0 <= n <= 2 ^ B * NANOS_PER_SEC ->
    exists d, (if n <? 18446744073709551616 * NANOS_PER_SEC then Ok n else Panic) = @Ok E Z d /\
      0 <= d <= 2 ^ B * NANOS_PER_SEC).
  { intros n Hn. rewrite (proj2 (Z.ltb_lt n _)) by lia. by exists n. }
  apply Hk. destruct (Z.leb_spec 0 e) as [He|He].
  - assert (0 < 2 ^ e) by (apply Z.pow_pos_nonneg; lia).
    assert (2 ^ (Zdigits2 (Zpos p) + e) <= 2 ^ B) by (apply Z.pow_le_mono_r; lia).
    rewrite Z.pow_add_r in * by lia. nia.
  - assert (Hpe : 0 < 2 ^ (- e)) by (apply Z.pow_pos_nonneg; lia).
    assert (2 ^ Zdigits2 (Zpos p) <= 2 ^ (B + - e)) by (apply Z.pow_le_mono_r; lia).
    rewrite Z.pow_add_r in * by lia.
    assert (0 <= Zpos p * NANOS_PER_SEC / 2 ^ (- e)) by (apply Z.div_pos; lia).
    assert (Zpos p * NANOS_PER_SEC / 2 ^ (- e) < 2 ^ B * NANOS_PER_SEC) by (apply Z.div_lt_upper_bound; nia).
    unfold div_half_even. repeat case_match; lia.
Qed.

(** The nanoseconds of a duration, in seconds. *)
Lemma nanos_signless d :
  signless (f64_div (f64_of_Z (d mod NANOS_PER_SEC)) (f64_of_Z NANOS_PER_SEC)).
Proof.
  assert (HN : NANOS_PER_SEC = 1000000000) by done.
  pose proof (Z.mod_pos_bound d NANOS_PER_SEC ltac:(lia)) as Hr.
  destruct (of_Z_spec NANOS_PER_SEC) as (_ & _ & m2 & e2 & ->); [lia|].
  destruct (Z.eq_dec (d mod NANOS_PER_SEC) 0) as [->|Hne]; [done|].
  destruct (of_Z_spec (d mod NANOS_PER_SEC)) as (Hu & Ho & m1 & e1 & Heq); [lia|]. rewrite Heq in *.
  pose proof (Zdigits2_nonneg (d mod NANOS_PER_SEC)).
  destruct (div_bound (S754_finite false m1 e1) m2 e2) as (m & e & Hm & -> & _); [done|done|lia|].
  by apply rounded_signless.
Qed.

(** [as_secs_f64] of a duration is never negative nor a NaN. *)
Lemma as_secs_signless d : 0 <= d -> signless (as_secs_f64 d).
Proof.
  intros Hd. unfold as_secs_f64. assert (HN : NANOS_PER_SEC = 1000000000) by done.
  assert (Hq : 0 <= d / NANOS_PER_SEC) by (apply Z.div_pos; lia).
  destruct (add_signless (f64_of_Z (d / NANOS_PER_SEC)) _ (of_Z_unsigned _ Hq) (nanos_signless d))
    as [Hu| ->]; [by apply unsigned_signless|apply nanos_signless].
Qed.

(** A 64-bit rate is zero, or of full precision and at least one. *)
Lemma of_u64 r :
  0 <= r < 2 ^ 64 ->
  f64_of_Z r = f64_zero \/
  exists m e, f64_of_Z r = S754_finite false m e /\ canonical (Zpos m) e /\ Zdigits2 (Zpos m) = 53 /\
    1 <= Zdigits2 (Zpos m) + e <= 65.
Proof.
  intros Hr. destruct (Z.eq_dec r 0) as [->|Hne]; [by left|right].
  assert (2 ^ 64 < 2 ^ 1000) by (apply Z.pow_lt_mono_r; lia).
  destruct (of_Z_spec r) as (Hu & Ho & m & e & Heq); [lia|]. rewrite Heq in *.
  destruct Hu as [_ Hc]. cbn [order] in Ho. exists m, e.
  assert (Zdigits2 r <= 64) by (apply Zdigits2_le; lia).
  assert (1 <= Zdigits2 r) by (destruct r; cbn; lia).
  pose proof Hc as Hc2. unfold canonical in Hc2. rewrite fexp_eq in Hc2. split_and!; try done; lia.
Qed.

(** ** Sums and products that are large *)

(** Large, or beyond all finite numbers. *)
Definition at_least (D : Z) (x : f64) : Prop :=
  unsigned x /\ match x with S754_infinity _ => True | S754_finite _ _ _ => D <= order x | _ => False end.

Lemma rounded_at_least m e D :
  0 < m -> canonical m e -> D <= Zdigits2 m + e -> at_least D (rounded false m e).
Proof.
  intros Hm Hc Hd. split; [apply rounded_unsigned; [lia|done]|]. destruct m as [|p|p]; [lia| |lia].
  unfold rounded. by destruct (e <=? 971).
Qed.

Lemma normalize_at_least p e :
  -1021 <= Zdigits2 (Zpos p) + e ->
  at_least (Zdigits2 (Zpos p) + e) (binary_normalize 53 1024 (Zpos p) e false).
Proof.
  intros Hlo. cbn [binary_normalize]. unfold binary_round.
  set (f := fexp (Zpos (digits2_pos p) + e)). destruct (shl_align_spec p e f) as [H2 H1].
  destruct (shl_align p e f) as [mz ez]. cbn [fst snd] in H1, H2.
  assert (Hd : Zdigits2 (Zpos mz) + ez = Zdigits2 (Zpos p) + e).
  { rewrite H1, Zdigits2_shift by lia. lia. }
  destruct (aux_spec false (Zpos mz) ez loc_Exact) as (m & e' & Hm & -> & _ & Hcan & Hlow); [lia|].
  rewrite Hd in Hcan, Hlow. destruct Hlow as [Hpos Hle]; [lia|done|].
  apply rounded_at_least; [done| |done].
  apply Hcan. change (Zdigits2 (Zpos p)) with (Zpos (digits2_pos p)). fold f. lia.
Qed.

(** A sum is at least each of its parts. *)
Lemma add_at_least D x y : -1021 <= D -> signless x -> at_least D y -> at_least D (f64_add x y).
Proof.
  intros HD Hx [Hu Hy]. destruct y as [|s'| |s' m' e']; cbn in Hu; destruct_and?; subst; try done.
  - by destruct x as [s|s| |s m e]; cbn in Hx; subst.
  - destruct x as [s|s| |s m e]; cbn in Hx; subst; [by split|done|done|].
    unfold f64_add, SFadd, cond_Zopp. set (ez := Z.min e e').
    destruct (shl_align_spec m' e' ez) as [E1 E2].
    destruct (shl_align m e ez) as [q d], (shl_align m' e' ez) as [q' d']. cbn [fst snd] in *.
    assert (Hq' : Zdigits2 (Zpos q') + ez = Zdigits2 (Zpos m') + e').
    { rewrite E2, Zdigits2_shift by lia. lia. }
    pose proof (Zdigits2_mono (Zpos q') (Zpos (q + q')) ltac:(lia)) as Hmono. cbn [order] in Hy.
    destruct (normalize_at_least (q + q') ez) as [Hn Ho]; [lia|]. split; [exact Hn|].
    change (Zpos q + Zpos q') with (Zpos (q + q')).
    destruct (binary_normalize _ _ _ _ _); try done. lia.
Qed.

Lemma add_comm x y : signless x -> signless y -> f64_add x y = f64_add y x.
Proof.
  destruct x as [s|s| |s m e], y as [s'|s'| |s' m' e']; cbn; intros; subst; try done.
  unfold f64_add, SFadd, cond_Zopp. by rewrite Z.min_comm, Z.add_comm.
Qed.

(** So is a product with a number of full precision. *)
Lemma mul_at_least D x m2 e2 :
  at_least D x -> Zdigits2 (Zpos m2) = 53 -> -1021 <= D + (53 + e2) - 1 ->
  at_least (D + (53 + e2) - 1) (f64_mul x (S754_finite false m2 e2)).
Proof.
  intros [Hu Hx] Hm HD. destruct x as [|s| |s m1 e1]; cbn in Hu; destruct_and?; subst; try done.
  unfold f64_mul, SFmul. cbn [xorb order] in *.
  assert (Hd : Zdigits2 (Zpos m1) + Zdigits2 (Zpos m2) - 1 <= Zdigits2 (Zpos (m1 * m2))).
  { pose proof (Zdigits2_pos_ge m1). pose proof (Zdigits2_pos_ge m2).
    assert (1 <= Zdigits2 (Zpos m1)) by (cbn; lia).
    replace (Zdigits2 (Zpos m1) + Zdigits2 (Zpos m2) - 1) with
      ((Zdigits2 (Zpos m1) - 1 + (Zdigits2 (Zpos m2) - 1)) + 1) by lia.
    apply Zdigits2_ge; [lia|]. rewrite Z.pow_add_r, Pos2Z.inj_mul by lia.
    apply Z.mul_le_mono_nonneg; auto using Z.pow_nonneg with lia. }
  destruct (aux_spec false (Zpos (m1 * m2)) (e1 + e2) loc_Exact) as (m & e & _ & Heq & _ & Hc & Hlow); [lia|].
  destruct Hlow as [Hpos Hle]; [lia..|].
  rewrite Heq. apply rounded_at_least; [done| |lia]. apply Hc. rewrite fexp_eq.
  pose proof (Zdigits2_mono (Zpos m2) (Zpos (m1 * m2)) ltac:(nia)). lia.
Qed.

(** [n] seconds or more. *)
Lemma as_secs_at_least k d :
  0 <= k -> from_secs (2 ^ k) <= d < from_secs (2 ^ 64) -> at_least (k + 1) (as_secs_f64 d).
Proof.
  intros Hk Hd. assert (HN : NANOS_PER_SEC = 1000000000) by done. unfold from_secs in Hd.
  assert (0 < 2 ^ k) by (apply Z.pow_pos_nonneg; lia).
  assert (Hs : 2 ^ k <= d / NANOS_PER_SEC < 2 ^ 64).
  { split; [apply Z.div_le_lower_bound; lia|apply Z.div_lt_upper_bound; lia]. }
  assert (2 ^ 64 < 2 ^ 1000) by (apply Z.pow_lt_mono_r; lia).
  destruct (of_Z_spec (d / NANOS_PER_SEC)) as (Hu & Ho & m & e & Heq); [lia|].
  pose proof (Zdigits2_ge (d / NANOS_PER_SEC) k Hk ltac:(lia)).
  unfold as_secs_f64.
  rewrite add_comm; [|by apply unsigned_signless|apply nanos_signless].
  apply add_at_least; [lia|apply nanos_signless|].
  split; [done|]. rewrite Heq in *. lia.
Qed.

(** Above a finite number. *)
Lemma at_least_min D x y :
  at_least D x -> unsigned y -> finite y -> order y < D -> f64_min x y = y.
Proof.
  intros [Hu Hx] Hy Hf Ho. assert (Hn : f64_is_nan x = false /\ f64_is_nan y = false) by by destruct x, y.
  destruct Hn as [Hnx Hny]. unfold f64_min. rewrite Hnx, Hny.
  destruct (f64_ltb y x) eqn:Hlt; [done|]. exfalso.
  apply f64_not_ltb_leb in Hlt; [|done|done].
  pose proof (leb_finite x y Hu Hy Hf Hlt). pose proof (leb_order x y Hu Hy Hf Hlt). destruct x; try done. lia.
Qed.
