(* ===== verification/Panel.v ===== *)
(** * The panel's data and answers ([src/src/panel.rs])

    The rows the panel sends ([PanelUser], [NodeInfo], [DetectRule],
    [RelayRule]), the reports it receives, and [PanelClient]'s handling of
    answers.  The HTTP transport and the JSON decoder are third-party code:
    [Wire] is the class of what they return, per request; a method is a
    [call], which keeps the exchanges it made beside its result. *)

From S2P Require Import Prelude Errors Str Float.

(** [struct PanelUser]. *)
Record PanelUser : Set := {
  pu_id : Z;
  pu_user_id : option Z;
  pu_port : Z;
  pu_password : string;
  pu_method : option string;
  pu_protocol : option string;
  pu_protocol_param : option string;
  pu_obfs : option string;
  pu_obfs_param : option string;
  pu_enable : option Z;
  pu_is_multi_user : Z;
  pu_node_speedlimit : option f64;
  pu_node_connector : option Z;
  pu_forbidden_ip : option string;
  pu_forbidden_port : option string
}.

#[export] Instance panel_user_eq_dec : EqDecision PanelUser.
Proof. solve_decision. Defined.

(** [PanelUser::user_id] and [is_enabled]. *)
Definition user_id (u : PanelUser) : Z := default (pu_id u) (pu_user_id u).
Definition is_enabled (u : PanelUser) : bool := negb (default 1 (pu_enable u) =? 0)%Z.

Record NodeInfo : Set := {
  ni_server : option string; ni_sort : option Z; ni_traffic_rate : option f64
}.

Record DetectRule : Set := { dr_id : Z; dr_name : string; dr_regex : string }.

Record RelayRule : Set := {
  rr_id : Z; rr_source_node_id : option Z; rr_dist_node_id : option Z; rr_port : option Z
}.

Record AliveIpReport : Set := { air_user_id : Z; air_ip : string }.
Record DetectLogReport : Set := { dlr_user_id : Z; dlr_list_id : Z }.

(** The fields of [traffic::TrafficDelta] that go on the wire. *)
Record TrafficReport : Set := { tr_user_id : Z; tr_upload : Z; tr_download : Z }.

(** What a POST sends. *)
Inductive body : Set :=
  | BodyNodeInfo (load : string) (uptime : Z)
  | BodyTraffic (data : list TrafficReport)
  | BodyAliveIp (data : list AliveIpReport)
  | BodyDetectLog (data : list DetectLogReport).

(** One request: path, query pairs, and the body of a POST. *)
Record request : Set := {
  req_path : string; req_query : list (string * string); req_body : option body
}.

(** [struct ApiResponse<Value>]. *)
Record ApiResponse (V : Type) : Type := {
  ret : Z; msg : option string; data : option V
}.
Arguments ret {V} _.
Arguments msg {V} _.
Arguments data {V} _.

(** The transport and serde: [send] is the exchange of one request (an error
    for a failed connection, an HTTP error status or a body that is not
    JSON); the decoders return [None] on a type mismatch. *)
Class Wire : Type := {
  Value : Set;
  send : request -> option Value;
  decode_envelope : Value -> option (ApiResponse Value);
  is_null : Value -> bool;
  decode_users : Value -> option (list PanelUser);
  decode_node_info : Value -> option NodeInfo;
  decode_detect_rules : Value -> option (list DetectRule);
  decode_relay_rules : Value -> option (list RelayRule)
}.

(** Decimal text of an integer, [u64::to_string]. *)
Fixpoint decimal_loop (fuel : nat) (n : Z) (acc : string) : string :=
  match fuel with
  | 0 => acc
  | S fuel =>
      let acc := String (digit_char (Z.to_nat (n mod 10))) acc in
      if (n <? 10)%Z then acc else decimal_loop fuel (n / 10)%Z acc
  end.

(** A [u64] has at most 20 digits. *)
Definition u64_decimal (n : Z) : string := decimal_loop 20 n "".

Section Client.
Context `{Wire}.

(** [unwrap_ret]. *)
Definition unwrap_ret {T} (decode : Value -> option T) (value : Value) : res error (option T) :=
  match decode_envelope value with
  | None => Err PanelEnvelope
  | Some response =>
      if negb (ret response =? 1)%Z then Err (PanelRet (ret response))
      else match data response with
           | Some v =>
               if negb (is_null v) then
                 match decode v with
                 | Some parsed => Ok (Some parsed)
                 | None => Err PanelData
                 end
               else Ok None
           | None => Ok None
           end
  end.

(** ** Calls

    A method of the client: the requests it sends, each with what comes
    back, and its result. *)

Definition exchange : Type := request * option Value.
Definition call (A : Type) : Type := list exchange * res error A.

#[export] Instance call_ret : MRet call := fun A a => ([], Ok a).
#[export] Instance call_bind : MBind call := fun A B f m =>
  match m with
  | (xs, Ok a) => let '(ys, r) := f a in (xs ++ ys, r)
  | (xs, Err e) => (xs, Err e)
  | (xs, Panic) => (xs, Panic)
  | (xs, OutOfFuel) => (xs, OutOfFuel)
  end.

(** A computation that sends nothing. *)
Definition yields {A} (r : res error A) : call A := ([], r).

(** One exchange. *)
Definition exchanged (r : request) : call Value :=
  let answer := send r in
  ([(r, answer)], match answer with Some v => Ok v | None => Err PanelTransport end).

(** [get_json]. *)
Definition get_json (path : string) (query : list (string * string)) : call Value :=
  exchanged {| req_path := path; req_query := query; req_body := None |}.

(** [get_api_optional]. *)
Definition get_api_optional {T} (decode : Value -> option T) (path : string)
    (query : list (string * string)) : call (option T) :=
  value ← get_json path query; yields (unwrap_ret decode value).

(** [post_ack]. *)
Definition post_ack (path : string) (query : list (string * string)) (b : body) : call () :=
  value ← exchanged {| req_path := path; req_query := query; req_body := Some b |};
  yields (unwrap_ret (T:=Value) Some value);;
  mret ().

Context (node_id : Z).

Definition node_query : list (string * string) := [("node_id", u64_decimal node_id)].
Definition info_path : string := ("nodes/" +:+ u64_decimal node_id +:+ "/info")%string.

Definition ping : call () :=
  value ← get_json "func/ping" []; yields (unwrap_ret (T:=Value) Some value);; mret ().

Definition node_info : call (option NodeInfo) :=
  get_api_optional decode_node_info info_path [].

Definition report_node_info (load : string) (uptime : Z) : call () :=
  post_ack info_path [] (BodyNodeInfo load uptime).

(** [users]: the enabled rows. *)
Definition users : call (list PanelUser) :=
  us ← get_api_optional decode_users "users" node_query;
  mret (filter (fun u => is_enabled u = true) (default [] us)).

Definition report_traffic (deltas : list TrafficReport) : call () :=
  if length deltas =? 0 then mret () else post_ack "users/traffic" node_query (BodyTraffic deltas).

Definition report_alive_ips (items : list AliveIpReport) : call () :=
  if length items =? 0 then mret () else post_ack "users/aliveip" node_query (BodyAliveIp items).

Definition report_detect_logs (items : list DetectLogReport) : call () :=
  if length items =? 0 then mret () else post_ack "users/detectlog" node_query (BodyDetectLog items).

Definition detect_rules : call (list DetectRule) :=
  rules ← get_api_optional decode_detect_rules "func/detect_rules" [];
  mret (default [] rules).

Definition relay_rules : call (list RelayRule) :=
  rules ← get_api_optional decode_relay_rules "func/relay_rules" node_query;
  mret (default [] rules).

End Client.

(** ** A concrete transport, for examples *)
Module ToyWire.

(** A decoded answer: the envelope, and the list of users it carries. *)
Inductive value : Set :=
  | VNull
  | VUsers (us : list PanelUser)
  | VEnvelope (ret : Z) (data : option value)
  | VGarbage.

Definition envelope (v : value) : option (ApiResponse value) :=
  match v with
  | VEnvelope r d => Some {| ret := r; msg := None; data := d |}
  | _ => None
  end.

Definition wire (answer : option value) : Wire := {|
  Value := value;
  send := fun _ => answer;
  decode_envelope := envelope;
  is_null := fun v => match v with VNull => true | _ => false end;
  decode_users := fun v => match v with VUsers us => Some us | _ => None end;
  decode_node_info := fun _ => None;
  decode_detect_rules := fun _ => Some [];
  decode_relay_rules := fun _ => Some []
|}.

End ToyWire.

(** ** Specification *)

(** The panel's answer to a report: it takes it. *)
Definition taken `{Wire} (answer : option Value) : bool :=
  match answer with
  | Some v => match decode_envelope v with Some r => (ret r =? 1)%Z | None => false end
  | None => false
  end.

(** ** Lemmas *)

Lemma unwrap_ret_total `{Wire} {T} (decode : Value -> option T) v :
  safe (fun _ => True) (unwrap_ret decode v).
Proof. unfold unwrap_ret. by repeat case_match. Qed.

(** A call that returns, possibly with an error. *)
Definition returning `{Wire} {A} (c : call A) : Prop := safe (fun _ => True) c.2.

Lemma bind_returning `{Wire} {A B} (m : call A) (f : A -> call B) :
  returning m -> (forall a, returning (f a)) -> returning (m ≫= f).
Proof.
  unfold returning. intros Hm Hf. destruct m as [xs [a|e| |]]; try done. cbn. specialize (Hf a). by destruct (f a).
Qed.

Lemma exchanged_returning `{Wire} r : returning (exchanged r).
Proof. unfold returning, exchanged. by destruct (send r). Qed.

(** One exchange, then only computation. *)
Lemma exchanged_bind `{Wire} {A} r (f : Value -> call A) :
  (forall v, (f v).1 = []) -> (exchanged r ≫= f).1 = [(r, send r)].
Proof.
  intros Hf. unfold exchanged. destruct (send r) as [v|]; [|done]. cbn. specialize (Hf v).
  destruct (f v) as [xs q]. cbn in *. by rewrite Hf.
Qed.

Lemma silent_bind `{Wire} {A B} (m : call A) (f : A -> call B) :
  m.1 = [] -> (forall a, (f a).1 = []) -> (m ≫= f).1 = [].
Proof.
  destruct m as [xs [a|e| |]]; cbn; intros -> Hf; [|done..]. specialize (Hf a). by destruct (f a).
Qed.

(** No call panics. *)
Lemma get_api_optional_returning `{Wire} {T} (decode : Value -> option T) path query :
  returning (get_api_optional decode path query).
Proof. apply bind_returning; [apply exchanged_returning|]. intros v. apply unwrap_ret_total. Qed.

Lemma post_ack_returning `{Wire} path query b : returning (post_ack path query b).
Proof.
  apply bind_returning; [apply exchanged_returning|]. intros v.
  apply bind_returning; [apply unwrap_ret_total|done].
Qed.

Lemma ping_returning `{Wire} : returning ping.
Proof.
  apply bind_returning; [apply exchanged_returning|]. intros v.
  apply bind_returning; [apply unwrap_ret_total|done].
Qed.
Lemma users_returning `{Wire} n : returning (users n).
Proof. apply bind_returning; [apply get_api_optional_returning|done]. Qed.
Lemma detect_rules_returning `{Wire} : returning detect_rules.
Proof. apply bind_returning; [apply get_api_optional_returning|done]. Qed.
Lemma relay_rules_returning `{Wire} n : returning (relay_rules n).
Proof. apply bind_returning; [apply get_api_optional_returning|done]. Qed.
Lemma node_info_returning `{Wire} n : returning (node_info n).
Proof. apply get_api_optional_returning. Qed.
Lemma report_traffic_returning `{Wire} n l : returning (report_traffic n l).
Proof. unfold report_traffic. case_match; [done|apply post_ack_returning]. Qed.
Lemma report_alive_ips_returning `{Wire} n l : returning (report_alive_ips n l).
Proof. unfold report_alive_ips. case_match; [done|apply post_ack_returning]. Qed.
Lemma report_detect_logs_returning `{Wire} n l : returning (report_detect_logs n l).
Proof. unfold report_detect_logs. case_match; [done|apply post_ack_returning]. Qed.
Lemma report_node_info_returning `{Wire} n x y : returning (report_node_info n x y).
Proof. apply post_ack_returning. Qed.

(** What the methods send: one request each, or none. *)
Lemma get_api_optional_sends `{Wire} {T} (decode : Value -> option T) path query :
  List.map fst (get_api_optional decode path query).1 =
    [{| req_path := path; req_query := query; req_body := None |}].
Proof. unfold get_api_optional, get_json. by rewrite exchanged_bind. Qed.

Lemma ping_sends `{Wire} :
  List.map fst ping.1 = [{| req_path := "func/ping"; req_query := []; req_body := None |}].
Proof. unfold ping, get_json. rewrite exchanged_bind; [done|]. intros v. by apply silent_bind. Qed.

Lemma list_sends `{Wire} {T} (decode : Value -> option T) {A} path query (f : option T -> A) :
  List.map fst (x ← get_api_optional decode path query; mret (M:=call) (f x)).1 =
    [{| req_path := path; req_query := query; req_body := None |}].
Proof.
  pose proof (get_api_optional_sends decode path query) as Hs.
  destruct (get_api_optional decode path query) as [xs [a|e| |]]; cbn in *; rewrite ?app_nil_r; done.
Qed.

(** No method sends more than one request. *)
Definition once `{Wire} {A} (c : call A) : Prop := c.1 = [] \/ exists r, c.1 = [(r, send r)].

Lemma once_one `{Wire} {A} r (f : Value -> call A) : (forall v, (f v).1 = []) -> once (exchanged r ≫= f).
Proof. intros Hf. right. exists r. by apply exchanged_bind. Qed.

Lemma once_then `{Wire} {A B} (m : call A) (f : A -> B) : once m -> once (x ← m; mret (f x)).
Proof. unfold once. destruct m as [xs [a|e| |]]; cbn; rewrite ?app_nil_r; done. Qed.

Lemma get_api_optional_once `{Wire} {T} (decode : Value -> option T) path query :
  once (get_api_optional decode path query).
Proof. by apply once_one. Qed.
Lemma post_ack_once `{Wire} path query b : once (post_ack path query b).
Proof. apply once_one. intros v. by apply silent_bind. Qed.
Lemma ping_once `{Wire} : once ping.
Proof. apply once_one. intros v. by apply silent_bind. Qed.
Lemma node_info_once `{Wire} n : once (node_info n).
Proof. apply get_api_optional_once. Qed.
Lemma users_once `{Wire} n : once (users n).
Proof. apply once_then, get_api_optional_once. Qed.
Lemma detect_rules_once `{Wire} : once detect_rules.
Proof. apply once_then, get_api_optional_once. Qed.
Lemma relay_rules_once `{Wire} n : once (relay_rules n).
Proof. apply once_then, get_api_optional_once. Qed.
Lemma report_node_info_once `{Wire} n x y : once (report_node_info n x y).
Proof. apply post_ack_once. Qed.
Lemma report_traffic_once `{Wire} n l : once (report_traffic n l).
Proof. unfold report_traffic. case_match; [by left|apply post_ack_once]. Qed.
Lemma report_alive_ips_once `{Wire} n l : once (report_alive_ips n l).
Proof. unfold report_alive_ips. case_match; [by left|apply post_ack_once]. Qed.
Lemma report_detect_logs_once `{Wire} n l : once (report_detect_logs n l).
Proof. unfold report_detect_logs. case_match; [by left|apply post_ack_once]. Qed.

(** A post: its exchange, and [Ok] exactly if the panel takes it. *)
Lemma post_ack_spec `{Wire} path query b :
  let r := {| req_path := path; req_query := query; req_body := Some b |} in
  (post_ack path query b).1 = [(r, send r)] /\
  ((post_ack path query b).2 = Ok () <-> taken (send r) = true).
Proof.
  split; [apply exchanged_bind; intros v; by apply silent_bind|].
  unfold post_ack, exchanged, taken, unwrap_ret, yields. destruct (send _) as [v|]; [|done]. cbn.
  destruct (decode_envelope v) as [e|]; [|done]. destruct (ret e =? 1)%Z; cbn; [|done].
  destruct (data e) as [d|]; [|done]. by destruct (is_null d).
Qed.

(** ** Properties *)

(** The user list of a poll: a transport failure, a bad envelope, a
    [ret] other than 1 or rows that do not decode are errors, each its own
    (so the supervisor keeps its tables); a missing or null [data] is the
    empty list, and otherwise exactly the enabled rows are kept, in order. *)
Theorem users_spec `{Wire} node_id :
  let r := {| req_path := "users"; req_query := node_query node_id; req_body := None |} in
  users node_id = ([(r, send r)],
    match send r with
    | None => Err PanelTransport
    | Some v =>
        match decode_envelope v with
        | None => Err PanelEnvelope
        | Some r =>
            if (ret r =? 1)%Z then
              match data r with
              | None => Ok []
              | Some d =>
                  if is_null d then Ok []
                  else match decode_users d with
                       | None => Err PanelData
                       | Some rows => Ok (filter (fun u => is_enabled u = true) rows)
                       end
              end
            else Err (PanelRet (ret r))
        end
    end).
Proof.
  cbv zeta. unfold users, get_api_optional, get_json, exchanged, unwrap_ret, yields.
  destruct (send _) as [v|]; [|done]. cbn.
  destruct (decode_envelope v) as [r|]; [|done].
  destruct (ret r =? 1)%Z; [|done]. destruct (data r) as [d|]; [|done]. cbn [negb].
  destruct (is_null d); [done|]. by destruct (decode_users d).
Qed.
