(* ===== verification/Profile.v ===== *)
(** * The protocol profile ([Profile] in [src/src/ssr/mod.rs]) and the node
      table it falls back to ([NodeConfig] in [src/src/config.rs]) *)

From S2P Require Import Prelude Errors Str Float Cipher Panel.

(** [struct NodeConfig]. *)
Record NodeConfig : Type := {
  listen_host : string; nc_method : string; nc_protocol : string; nc_obfs : string;
  server_port : Z; timeout_secs : Z; workers : nat;
  tcp_enabled : bool; udp_enabled : bool;
  enforce_forbidden : bool; enforce_conn_limit : bool; nc_audit_block : bool; enforce_speed : bool
}.

(** [NodeConfig::timeout]. *)
Definition node_timeout (n : NodeConfig) : Duration := from_secs (timeout_secs n).

Module Profile.

(** [struct Profile]. *)
Record t : Type := { method : string; protocol : string; obfs : string; timeout : Duration }.

#[global] Instance eq_dec : EqDecision t.
Proof. unfold EqDecision, Decision, Duration. solve_decision. Defined.

(** [Profile::ensure_supported]. *)
Definition ensure_supported (p : t) : res error () :=
  if (bool_decide (method p = "rc4-md5") || bool_decide (method p = "chacha20-ietf"))
     && bool_decide (protocol p = "auth_aes128_md5") && bool_decide (obfs p = "plain")
  then CipherKind.from_method (method p);; Ok ()
  else Err (UnsupportedProfile (method p) (protocol p) (obfs p)).

(** [Profile::new]. *)
Definition new (method protocol obfs : string) (timeout : Duration) : res error t :=
  let profile := {| method := to_ascii_lowercase method; protocol := to_ascii_lowercase protocol;
                    obfs := to_ascii_lowercase obfs; timeout := timeout |} in
  ensure_supported profile;;
  Ok profile.

(** [Profile::from_user]. *)
Definition from_user (u : PanelUser) (n : NodeConfig) : res error t :=
  new (default (nc_method n) (pu_method u)) (default (nc_protocol n) (pu_protocol u))
    (default (nc_obfs n) (pu_obfs u)) (node_timeout n).

(** [Profile::cipher_kind]. *)
Definition cipher_kind (p : t) : res error CipherKind :=
  match CipherKind.from_method (method p) with
  | Ok k => Ok k
  | Err _ => Panic
  | Panic => Panic
  | OutOfFuel => OutOfFuel
  end.

(** The three names are supported, in any ASCII case. *)
Definition supported_text (m p o : string) : Prop :=
  (to_ascii_lowercase m = "rc4-md5" \/ to_ascii_lowercase m = "chacha20-ietf") /\
  to_ascii_lowercase p = "auth_aes128_md5" /\ to_ascii_lowercase o = "plain".

Definition supported_textb (m p o : string) : bool :=
  (bool_decide (to_ascii_lowercase m = "rc4-md5") ||
   bool_decide (to_ascii_lowercase m = "chacha20-ietf")) &&
  bool_decide (to_ascii_lowercase p = "auth_aes128_md5") && bool_decide (to_ascii_lowercase o = "plain").

Lemma supported_text_b m p o : supported_textb m p o = true <-> supported_text m p o.
Proof.
  unfold supported_textb, supported_text. rewrite !andb_true_iff, orb_true_iff, !bool_decide_eq_true.
  tauto.
Qed.

Lemma new_eq m p o timeout :
  new m p o timeout =
    if supported_textb m p o
    then Ok {| method := to_ascii_lowercase m; protocol := to_ascii_lowercase p;
               obfs := to_ascii_lowercase o; timeout := timeout |}
    else Err (UnsupportedProfile (to_ascii_lowercase m) (to_ascii_lowercase p) (to_ascii_lowercase o)).
Proof.
  unfold new, ensure_supported, supported_textb. cbn [method protocol obfs].
  destruct (_ && _ && _) eqn:Hb; [|done].
  rewrite !andb_true_iff, orb_true_iff, !bool_decide_eq_true in Hb.
  destruct Hb as [[[Hm|Hm] _] _]; by rewrite Hm.
Qed.

Lemma new_supported m p o timeout :
  (exists prof, new m p o timeout = Ok prof) <-> supported_text m p o.
Proof.
  rewrite new_eq, <- supported_text_b. destruct (supported_textb m p o); split; try done; [by eexists|].
  by intros [? ?].
Qed.

Lemma new_safe m p o timeout : safe (fun _ => True) (new m p o timeout).
Proof. rewrite new_eq. by case_match. Qed.

Lemma new_cipher_kind m p o timeout prof :
  new m p o timeout = Ok prof -> exists k, cipher_kind prof = Ok k.
Proof.
  rewrite new_eq. destruct (supported_textb m p o) eqn:Hb; [|done]. intros [= <-].
  apply supported_text_b in Hb as [Hm _]. unfold cipher_kind, CipherKind.from_method. cbn [method].
  rewrite to_ascii_lowercase_idemp. destruct Hm as [-> | ->]; by eexists.
Qed.

End Profile.

(** ** Properties *)

(** A profile is built exactly for the supported combinations, in any
    ASCII case, from the user's fields with the node's as fallback; the
    [expect] of [cipher_kind] then never fires, and every other combination
    is the error that carries the three lowercased names. *)
Theorem profile_from_user_spec u n :
  let m := default (nc_method n) (pu_method u) in
  let p := default (nc_protocol n) (pu_protocol u) in
  let o := default (nc_obfs n) (pu_obfs u) in
  match Profile.from_user u n with
  | Ok prof => Profile.supported_text m p o /\ (exists k, Profile.cipher_kind prof = Ok k) /\
      Profile.timeout prof = from_secs (timeout_secs n)
  | Err e => ~ Profile.supported_text m p o /\
      e = UnsupportedProfile (to_ascii_lowercase m) (to_ascii_lowercase p) (to_ascii_lowercase o)
  | _ => False
  end.
Proof.
  cbv zeta. unfold Profile.from_user.
  pose proof (Profile.supported_text_b (default (nc_method n) (pu_method u))
    (default (nc_protocol n) (pu_protocol u)) (default (nc_obfs n) (pu_obfs u))) as Hb.
  destruct (Profile.new _ _ _ _) as [prof| | |] eqn:Hn;
    pose proof Hn as Hn'; rewrite Profile.new_eq in Hn'; case_match; try done.
  - split; [by apply Hb|]. split; [by eapply Profile.new_cipher_kind|]. by injection Hn' as <-.
  - injection Hn' as <-. split; [|done]. by rewrite <- Hb.
Qed.
