(* ===== verification/Config.v ===== *)
(** * The configuration ([src/src/config.rs])

    The three tables with their serde defaults, the environment overrides
    and [validate].  The TOML parser is third-party: its result is the
    [raw_*] records, where an absent key is [None]. *)

From S2P Require Import Prelude Errors Str Float Cipher Profile.

Record PanelConfig : Type := {
  base_url : string; key : string; node_id : Z;
  request_timeout_secs : Z; poll_interval_secs : Z;
  traffic_report_interval_secs : Z; heartbeat_interval_secs : Z; ipv4_only : bool
}.

Record LimitsConfig : Type := {
  max_users : nat; max_sessions : nat; session_ttl_secs : Z;
  max_udp_associations : nat; udp_association_ttl_secs : Z;
  max_alive_ips : nat; alive_ip_ttl_secs : Z;
  max_detect_logs : nat; detect_log_ttl_secs : Z; max_accepts_per_port : nat
}.

Record Config : Type := { panel : PanelConfig; node : NodeConfig; limits : LimitsConfig }.

(** [Config::validate]. *)
Definition validate (c : Config) : res error () :=
  bail_if (str_is_empty (trim (base_url (panel c)))) BaseUrlRequired;;
  bail_if (str_is_empty (trim (key (panel c)))) KeyRequired;;
  bail_if (workers (node c) =? 0) WorkersZero;;
  bail_if (server_port (node c) =? 0)%Z ServerPortZero;;
  bail_if (timeout_secs (node c) =? 0)%Z TimeoutZero;;
  bail_if ((max_users (limits c) =? 0) || (max_sessions (limits c) =? 0)) LimitsZero;;
  Profile.new (nc_method (node c)) (nc_protocol (node c)) (nc_obfs (node c)) (node_timeout (node c));;
  Ok ().

(** [apply_env_overrides]; [env] is [std::env::var(..).ok()]. *)
Definition apply_env_overrides (env : string -> option string) (c : Config) : Config :=
  let p := panel c in
  let p := match env "SSPANEL_PANEL_BASE_URL" with
    | Some v => {| base_url := v; key := key p; node_id := node_id p;
        request_timeout_secs := request_timeout_secs p; poll_interval_secs := poll_interval_secs p;
        traffic_report_interval_secs := traffic_report_interval_secs p;
        heartbeat_interval_secs := heartbeat_interval_secs p; ipv4_only := ipv4_only p |}
    | None => p end in
  let p := match env "SSPANEL_PANEL_KEY" with
    | Some v => {| base_url := base_url p; key := v; node_id := node_id p;
        request_timeout_secs := request_timeout_secs p; poll_interval_secs := poll_interval_secs p;
        traffic_report_interval_secs := traffic_report_interval_secs p;
        heartbeat_interval_secs := heartbeat_interval_secs p; ipv4_only := ipv4_only p |}
    | None => p end in
  let p := match env "SSPANEL_NODE_ID" with
    | Some v => match parse_u64 v with
        | Some n => {| base_url := base_url p; key := key p; node_id := n;
            request_timeout_secs := request_timeout_secs p; poll_interval_secs := poll_interval_secs p;
            traffic_report_interval_secs := traffic_report_interval_secs p;
            heartbeat_interval_secs := heartbeat_interval_secs p; ipv4_only := ipv4_only p |}
        | None => p end
    | None => p end in
  {| panel := p; node := node c; limits := limits c |}.

(** ** Durations *)

Definition request_timeout (p : PanelConfig) : Duration := from_secs (request_timeout_secs p).
Definition poll_interval (p : PanelConfig) : Duration := from_secs (poll_interval_secs p).
Definition traffic_report_interval (p : PanelConfig) : Duration :=
  from_secs (traffic_report_interval_secs p).
Definition heartbeat_interval (p : PanelConfig) : Duration := from_secs (heartbeat_interval_secs p).
Definition session_ttl (l : LimitsConfig) : Duration := from_secs (session_ttl_secs l).
Definition udp_association_ttl (l : LimitsConfig) : Duration := from_secs (udp_association_ttl_secs l).
Definition alive_ip_ttl (l : LimitsConfig) : Duration := from_secs (alive_ip_ttl_secs l).
Definition detect_log_ttl (l : LimitsConfig) : Duration := from_secs (detect_log_ttl_secs l).

(** ** The tables as parsed, and the serde defaults *)

Record raw_panel : Type := {
  r_base_url : string; r_key : string; r_node_id : Z;
  r_request_timeout_secs : option Z; r_poll_interval_secs : option Z;
  r_traffic_report_interval_secs : option Z; r_heartbeat_interval_secs : option Z;
  r_ipv4_only : option bool
}.

Record raw_node : Type := {
  r_listen_host : option string; r_method : option string; r_protocol : option string;
  r_obfs : option string; r_server_port : option Z; r_timeout_secs : option Z;
  r_workers : option nat; r_tcp_enabled : option bool; r_udp_enabled : option bool;
  r_enforce_forbidden : option bool; r_enforce_conn_limit : option bool;
  r_audit_block : option bool; r_enforce_speed : option bool
}.

Record raw_limits : Type := {
  r_max_users : option nat; r_max_sessions : option nat; r_session_ttl_secs : option Z;
  r_max_udp_associations : option nat; r_udp_association_ttl_secs : option Z;
  r_max_alive_ips : option nat; r_alive_ip_ttl_secs : option Z;
  r_max_detect_logs : option nat; r_detect_log_ttl_secs : option Z;
  r_max_accepts_per_port : option nat
}.

Definition default_request_timeout_secs : Z := 10.
Definition default_poll_interval_secs : Z := 60.
Definition default_traffic_report_interval_secs : Z := 60.
Definition default_heartbeat_interval_secs : Z := 60.
Definition default_listen_host : string := "0.0.0.0".
Definition default_method : string := "rc4-md5".
Definition default_protocol : string := "auth_aes128_md5".
Definition default_obfs : string := "plain".
Definition default_server_port : Z := 43003.
Definition default_timeout_secs : Z := 300.
Definition default_workers : nat := 1.
Definition default_true : bool := true.
Definition default_max_users : nat := Z.to_nat 4096.
Definition default_max_sessions : nat := Z.to_nat 65536.
Definition default_session_ttl_secs : Z := 600.
Definition default_max_udp_associations : nat := Z.to_nat 32768.
Definition default_udp_association_ttl_secs : Z := 180.
Definition default_max_alive_ips : nat := Z.to_nat 65536.
Definition default_alive_ip_ttl_secs : Z := 600.
Definition default_max_detect_logs : nat := Z.to_nat 8192.
Definition default_detect_log_ttl_secs : Z := 3600.
Definition default_max_accepts_per_port : nat := Z.to_nat 2048.

(** What [derive(Deserialize)] builds from the attributes of the structs. *)
Definition de_panel (r : raw_panel) : PanelConfig := {|
  base_url := r_base_url r; key := r_key r; node_id := r_node_id r;
  request_timeout_secs := default default_request_timeout_secs (r_request_timeout_secs r);
  poll_interval_secs := default default_poll_interval_secs (r_poll_interval_secs r);
  traffic_report_interval_secs :=
    default default_traffic_report_interval_secs (r_traffic_report_interval_secs r);
  heartbeat_interval_secs := default default_heartbeat_interval_secs (r_heartbeat_interval_secs r);
  ipv4_only := default default_true (r_ipv4_only r)
|}.

Definition de_node (r : raw_node) : NodeConfig := {|
  listen_host := default default_listen_host (r_listen_host r);
  nc_method := default default_method (r_method r);
  nc_protocol := default default_protocol (r_protocol r);
  nc_obfs := default default_obfs (r_obfs r);
  server_port := default default_server_port (r_server_port r);
  timeout_secs := default default_timeout_secs (r_timeout_secs r);
  workers := default default_workers (r_workers r);
  tcp_enabled := default default_true (r_tcp_enabled r);
  udp_enabled := default default_true (r_udp_enabled r);
  enforce_forbidden := default default_true (r_enforce_forbidden r);
  enforce_conn_limit := default default_true (r_enforce_conn_limit r);
  nc_audit_block := default default_true (r_audit_block r);
  enforce_speed := default default_true (r_enforce_speed r)
|}.

Definition de_limits (r : raw_limits) : LimitsConfig := {|
  max_users := default default_max_users (r_max_users r);
  max_sessions := default default_max_sessions (r_max_sessions r);
  session_ttl_secs := default default_session_ttl_secs (r_session_ttl_secs r);
  max_udp_associations := default default_max_udp_associations (r_max_udp_associations r);
  udp_association_ttl_secs :=
    default default_udp_association_ttl_secs (r_udp_association_ttl_secs r);
  max_alive_ips := default default_max_alive_ips (r_max_alive_ips r);
  alive_ip_ttl_secs := default default_alive_ip_ttl_secs (r_alive_ip_ttl_secs r);
  max_detect_logs := default default_max_detect_logs (r_max_detect_logs r);
  detect_log_ttl_secs := default default_detect_log_ttl_secs (r_detect_log_ttl_secs r);
  max_accepts_per_port := default default_max_accepts_per_port (r_max_accepts_per_port r)
|}.

(** [Config::load] after the TOML parser: defaults, then the environment. *)
Definition load (env : string -> option string) (p : raw_panel) (n : raw_node) (l : raw_limits)
    : Config :=
  apply_env_overrides env {| panel := de_panel p; node := de_node n; limits := de_limits l |}.

(** [config_path_from_args] in [src/src/main.rs]: the arguments behind the
    program's name.  A trailing [--config] is ignored. *)
Fixpoint config_path_from_args (args : list string) : string :=
  match args with
  | [] => "config.toml"
  | arg :: args =>
      if String.eqb arg "--config"
      then match args with path :: _ => path | [] => "config.toml" end
      else config_path_from_args args
  end.

(** ** Specification *)

(** What a valid configuration is. *)
Definition valid (c : Config) : Prop :=
  trim (base_url (panel c)) <> "" /\ trim (key (panel c)) <> "" /\
  0 < workers (node c) /\ server_port (node c) <> 0%Z /\ timeout_secs (node c) <> 0%Z /\
  0 < max_users (limits c) /\ 0 < max_sessions (limits c) /\
  Profile.supported_text (nc_method (node c)) (nc_protocol (node c)) (nc_obfs (node c)).

(** Tables with no key but the required ones. *)
Definition empty_node : raw_node :=
  Build_raw_node None None None None None None None None None None None None None.
Definition empty_limits : raw_limits :=
  Build_raw_limits None None None None None None None None None None.
Definition minimal_panel (url k : string) (id : Z) : raw_panel :=
  Build_raw_panel url k id None None None None None.

(** ** Lemmas *)

Example config_path_examples :
  config_path_from_args ["-v"; "--config"; "/etc/node.toml"; "--config"; "x"] = "/etc/node.toml" /\
  config_path_from_args ["--config"] = "config.toml".
Proof. done. Qed.

Lemma str_is_empty_spec s : str_is_empty s = false <-> s <> "".
Proof. by destruct s. Qed.

Lemma bail_if_inv {E} b (e : E) : bail_if b e = Ok () <-> b = false.
Proof. by destruct b. Qed.

Lemma validate_valid c : validate c = Ok () <-> valid c.
Proof.
  unfold validate, valid. rewrite <- !str_is_empty_spec.
  destruct (str_is_empty (trim (base_url _))); [by split; intros; destruct_and?|].
  destruct (str_is_empty (trim (key _))); [by split; intros; destruct_and?|].
  destruct (Nat.eqb_spec (workers (node c)) 0); [by split; intros; [|lia]|].
  destruct (Z.eqb_spec (server_port (node c)) 0); [by split; intros; [|lia]|].
  destruct (Z.eqb_spec (timeout_secs (node c)) 0); [by split; intros; [|lia]|].
  destruct (Nat.eqb_spec (max_users (limits c)) 0); [by split; intros; [|lia]|].
  destruct (Nat.eqb_spec (max_sessions (limits c)) 0); [by split; intros; [|lia]|].
  cbn [bail_if orb]. rewrite !bind_Ok. rewrite <- Profile.new_supported with (timeout := node_timeout (node c)).
  destruct (Profile.new _ _ _ _) as [p| | |].
  - split; [|done]. intros _. split_and!; try done; try lia. by eexists.
  - split; [done|]. intros (_ & _ & _ & _ & _ & _ & _ & ? & ?). done.
  - split; [done|]. intros (_ & _ & _ & _ & _ & _ & _ & ? & ?). done.
  - split; [done|]. intros (_ & _ & _ & _ & _ & _ & _ & ? & ?). done.
Qed.

(** The environment wins over the file. *)
Lemma load_overrides env p n l :
  let c := panel (load env p n l) in
  base_url c = default (r_base_url p) (env "SSPANEL_PANEL_BASE_URL") /\
  key c = default (r_key p) (env "SSPANEL_PANEL_KEY") /\
  node_id c = default (r_node_id p) (env "SSPANEL_NODE_ID" ≫= parse_u64).
Proof.
  unfold load, apply_env_overrides. cbn [panel].
  destruct (env "SSPANEL_PANEL_BASE_URL"), (env "SSPANEL_PANEL_KEY"), (env "SSPANEL_NODE_ID") as [v|];
    cbn; try destruct (parse_u64 v); done.
Qed.

Lemma validate_safe c : safe (fun _ => True) (validate c).
Proof.
  unfold validate.
  do 6 (apply (safe_bind (fun _ => True)); [by unfold bail_if; case_match|intros _ _]).
  apply (safe_bind (fun _ => True)); [apply Profile.new_safe|done].
Qed.

(** ** Properties *)

(** A file with only [panel.base_url], [panel.key], [panel.node_id] and
    empty tables is valid: the defaults pass their own checks; and the
    environment wins over the file, where a [SSPANEL_NODE_ID] that is not a
    [u64] is ignored. *)
Theorem defaults_valid url k id env
    (Hu : trim (default url (env "SSPANEL_PANEL_BASE_URL")) <> "")
    (Hk : trim (default k (env "SSPANEL_PANEL_KEY")) <> "") :
  let c := load env (minimal_panel url k id) empty_node empty_limits in
  validate c = Ok () /\
  base_url (panel c) = default url (env "SSPANEL_PANEL_BASE_URL") /\
  key (panel c) = default k (env "SSPANEL_PANEL_KEY") /\
  node_id (panel c) = default id (env "SSPANEL_NODE_ID" ≫= parse_u64).
Proof.
  cbv zeta. rewrite validate_valid. unfold valid, load, apply_env_overrides. cbn [panel node limits].
  assert (Profile.supported_text default_method default_protocol default_obfs) as Hs
    by (apply Profile.supported_text_b; reflexivity).
  destruct (env "SSPANEL_PANEL_BASE_URL"), (env "SSPANEL_PANEL_KEY"), (env "SSPANEL_NODE_ID") as [v|];
    cbn in Hu, Hk |- *; try destruct (parse_u64 v); cbn;
    split_and!; try done; compute_done.
Qed.

Lemma defaults_valid_witness :
  validate (load (fun _ => None) (minimal_panel "https://panel.example" "secret" 7)
    empty_node empty_limits) = Ok ().
Proof.
  refine (proj1 (defaults_valid "https://panel.example" "secret" 7 (fun _ => None) _ _));
    vm_compute; discriminate.
Defined.
