(* ===== verification/PanelClient.v ===== *)
(** * The panel's HTTP client ([PanelClient] in [src/src/panel.rs])

    [PanelClient::new], [url], and the exchanges of [get_json] and
    [post_ack].  [reqwest] and [url] are third-party code: [Http] is the
    class of the calls the client makes, [HttpLaws] the documented behaviour
    of URLs that the theorems rely on.  A client and one run of its
    exchanges are a [Wire], so everything about the panel's answers
    (Panel.v) and the supervisor applies to it. *)

From S2P Require Import Prelude Errors Str Float Net Panel Config.

(** [url::Url] and [reqwest::ClientBuilder]. *)
Class Http : Type := {
  Url : Set;
  Url_parse : string -> option Url;
  set_path : string -> Url -> Url;
  join : Url -> string -> option Url;
  append_pair : string -> string -> Url -> Url;
  HttpClient : Set;
  build_client : Duration -> string -> option IpAddr -> option HttpClient
}.

(** [str::trim_end_matches(c)]. *)
Fixpoint drop_matches (c : ascii) (l : list ascii) : list ascii :=
  match l with
  | x :: l' => if Ascii.eqb x c then drop_matches c l' else l
  | [] => []
  end.

Definition trim_end_matches (c : ascii) (s : string) : string :=
  String.string_of_list_ascii (rev (drop_matches c (rev (String.list_ascii_of_string s)))).

Section Client.
Context `{W : Wire} `{H : Http}.

(** [struct PanelClient]. *)
Record PanelClient : Type := {
  base : Url; pc_key : string; pc_node_id : Z; http : HttpClient
}.

Definition USER_AGENT : string := "sspanel-ssr-rust-backend/0.1".
Definition UNSPECIFIED : IpAddr := V4 0.

(** [PanelClient::new]. *)
Definition new (config : PanelConfig) : res error PanelClient :=
  match Url_parse (trim_end_matches "/" (base_url config)) with
  | None => Err BaseUrlInvalid
  | Some base =>
      let base := set_path "" base in
      let local_address := if ipv4_only config then Some UNSPECIFIED else None in
      match build_client (request_timeout config) USER_AGENT local_address with
      | None => Err HttpClientFailed
      | Some http => Ok {| base := base; pc_key := key config; pc_node_id := node_id config; http := http |}
      end
  end.

(** [url]; [None] is the error of [join]. *)
Definition url (c : PanelClient) (path : string) (query : list (string * string)) : option Url :=
  u ← join (base c) ("/mod_mu/" +:+ path);
  Some (fold_left (fun u kv => append_pair kv.1 kv.2 u) query (append_pair "key" (pc_key c) u)).

(** The exchange of one request: the URL, and what comes back if it is sent
    ([send], [error_for_status], the JSON decoder). *)
Definition transport (exchange : HttpClient -> Url -> option body -> option Value) (c : PanelClient)
    : request -> option Value :=
  fun r => match url c (req_path r) (req_query r) with
           | Some u => exchange (http c) u (req_body r)
           | None => None
           end.

Definition wire_of (exchange : HttpClient -> Url -> option body -> option Value) (c : PanelClient) : Wire := {|
  Value := Panel.Value; send := transport exchange c; decode_envelope := decode_envelope;
  is_null := is_null; decode_users := decode_users; decode_node_info := decode_node_info;
  decode_detect_rules := decode_detect_rules; decode_relay_rules := decode_relay_rules
|}.

(** ** Specification *)

(** The paths of the client's methods. *)
Definition method_paths (node_id : Z) : list string :=
  ["func/ping"; info_path node_id; "users"; "users/traffic"; "users/aliveip"; "users/detectlog";
   "func/detect_rules"; "func/relay_rules"].

End Client.

(** A path that a URL keeps as it is: letters, digits, [_] and [/], no empty
    segment. *)
Definition plain_char (c : ascii) : bool :=
  let n := char_code c in
  ((48 <=? n) && (n <=? 57)) || ((65 <=? n) && (n <=? 90)) || ((97 <=? n) && (n <=? 122)) || (n =? 95).

Fixpoint plain_segments (l : list ascii) (fresh : bool) : bool :=
  match l with
  | [] => negb fresh
  | c :: l => if Ascii.eqb c "/" then negb fresh && plain_segments l true
              else plain_char c && plain_segments l false
  end.

Definition plain_path (p : string) : bool :=
  match String.list_ascii_of_string p with
  | c :: l => Ascii.eqb c "/" && plain_segments l true
  | [] => false
  end.

(** What the [url] crate documents: an absolute path replaces path and query
    of a URL that can be a base, and nothing can be joined to one that
    cannot (such as [data:...]); a pair goes behind the query. *)
Class HttpLaws `(H : Http) : Type := {
  origin : Url -> string;
  path_of : Url -> string;
  query_pairs : Url -> list (string * string);
  can_be_base : Url -> bool;
  join_absolute u p :
    can_be_base u = true -> plain_path p = true ->
    exists u', join u p = Some u' /\ origin u' = origin u /\ path_of u' = p /\ query_pairs u' = [];
  join_opaque u p : can_be_base u = false -> plain_path p = true -> join u p = None;
  set_path_base p u : can_be_base (set_path p u) = can_be_base u /\ origin (set_path p u) = origin u;
  append_pair_query k v u :
    query_pairs (append_pair k v u) = query_pairs u ++ [(k, v)] /\
    origin (append_pair k v u) = origin u /\ path_of (append_pair k v u) = path_of u
}.

(** ** Lemmas *)

Abbreviation chars := String.list_ascii_of_string.

Lemma chars_app a b : chars (a +:+ b) = chars a ++ chars b.
Proof. induction a as [|c a IH]; [done|]. change (c :: chars (a +:+ b) = c :: (chars a ++ chars b)). by rewrite IH. Qed.

Lemma digit_plain n : n < 10 -> plain_char (digit_char n) = true.
Proof. intros Hn. do 10 (destruct n as [|n]; [by vm_compute|]). lia. Qed.

(** A decimal number is a plain word. *)
Lemma decimal_loop_plain fuel n acc :
  Forall (fun c => plain_char c = true) (chars acc) ->
  Forall (fun c => plain_char c = true) (chars (decimal_loop fuel n acc)) /\
  (0 < fuel \/ chars acc <> [] -> chars (decimal_loop fuel n acc) <> []).
Proof.
  revert n acc. induction fuel as [|fuel IH]; intros n acc Ha; cbn [decimal_loop]; [split; [done|]; intros [|]; [lia|done]|].
  assert (Hacc : Forall (fun c => plain_char c = true) (chars (String (digit_char (Z.to_nat (n mod 10))) acc))).
  { constructor; [|done]. apply digit_plain. pose proof (Z.mod_pos_bound n 10 ltac:(lia)). lia. }
  case_match; [by split|]. destruct (IH (n / 10)%Z _ Hacc) as [H1 H2]. split; [done|]. intros _. apply H2. by right.
Qed.

(** A plain word is a segment. *)
Lemma plain_word w l b :
  w <> [] -> Forall (fun c => plain_char c = true) w -> plain_segments (w ++ l) b = plain_segments l false.
Proof.
  intros Hne Hw. revert b Hne. induction Hw as [|c w Hc _ IH]; intros b Hne; [done|]. cbn [app plain_segments].
  replace (Ascii.eqb c "/") with false; [rewrite Hc; cbn [andb]; destruct w; [done|by apply IH]|].
  symmetry. apply Ascii.eqb_neq. by intros ->.
Qed.

Lemma info_path_plain n : plain_path ("/mod_mu/" +:+ info_path n) = true.
Proof.
  unfold plain_path, info_path. rewrite !chars_app. unfold u64_decimal.
  destruct (decimal_loop_plain 20 n "" ltac:(constructor)) as [Hd Hne].
  cbn [chars app Ascii.eqb Bool.eqb andb]. set (d := chars (decimal_loop 20 n "")) in *.
  change (plain_segments (chars "mod_mu/nodes/" ++ d ++ chars "/info") true = true).
  change (plain_segments (d ++ chars "/info") true = true).
  rewrite plain_word; [done|apply Hne; left; lia|done].
Qed.

Lemma method_paths_plain n path :
  path ∈ method_paths n -> plain_path ("/mod_mu/" +:+ path) = true.
Proof.
  unfold method_paths. rewrite !elem_of_cons, elem_of_nil.
  intros [-> |[-> |[-> |[-> |[-> |[-> |[-> |[-> |[]]]]]]]]]; [reflexivity|apply info_path_plain|reflexivity..].
Qed.

Section Laws.
Context `{W : Wire} `{H : Http} `{L : !HttpLaws H}.

Lemma append_pairs kvs u :
  let u' := fold_left (fun u kv => append_pair kv.1 kv.2 u) kvs u in
  query_pairs u' = query_pairs u ++ kvs /\ origin u' = origin u /\ path_of u' = path_of u.
Proof.
  revert u. induction kvs as [|[k v] kvs IH]; intros u; cbn; [by rewrite app_nil_r|].
  destruct (IH (append_pair k v u)) as (-> & -> & ->). destruct (append_pair_query k v u) as (-> & -> & ->).
  by rewrite <- app_assoc.
Qed.

End Laws.

(** ** Properties *)

(** C29 Where the requests go.  [new] fails only if the base URL does not
    parse or the HTTP client cannot be built; what it keeps of the URL is
    its origin.  If the URL can be a base, every path of the client's
    methods, whatever the node id, gives a request to that origin, under
    [/mod_mu/], with the key as the first pair and the method's own behind
    it.  If it cannot (a missing scheme as in [localhost:8080] is enough),
    [new] succeeds all the same, and every method fails without sending
    anything. *)
Theorem requests_carry_key `{W : Wire} `{H : Http} `{L : !HttpLaws H} config u0
    (Hu : Url_parse (trim_end_matches "/" (base_url config)) = Some u0) :
  (forall e, new config = Err e -> e = HttpClientFailed) /\
  forall c, new config = Ok c ->
    pc_node_id c = node_id config /\
    forall path query, path ∈ method_paths (node_id config) ->
      (can_be_base u0 = true -> exists u,
         url c path query = Some u /\ origin u = origin u0 /\ path_of u = ("/mod_mu/" +:+ path)%string /\
         query_pairs u = ("key", key config) :: query) /\
      (can_be_base u0 = false -> forall exchange b,
         url c path query = None /\
         send (Wire:=wire_of exchange c) {| req_path := path; req_query := query; req_body := b |} = None).
Proof.
  unfold new. rewrite Hu. split; [intros e; case_match; by intros [= <-]|].
  intros c Hc. destruct (build_client _ _ _) as [http|] in Hc; [|done]. injection Hc as <-. split; [done|].
  intros path query Hp. apply method_paths_plain in Hp. unfold url. cbn [base pc_key].
  destruct (set_path_base "" u0) as [Hb Ho]. split.
  - intros Hcb. destruct (join_absolute (set_path "" u0) ("/mod_mu/" +:+ path)) as (u & -> & Hou & Hpu & Hqu);
      [by rewrite Hb|done|]. cbn [mbind option_bind]. eexists. split; [done|].
    destruct (append_pairs query (append_pair "key" (key config) u)) as (-> & -> & ->).
    destruct (append_pair_query "key" (key config) u) as (-> & -> & ->). by rewrite Hqu, Hou, Ho, Hpu.
  - intros Hcb exchange b. cbn [send wire_of]. unfold transport. cbn [req_path req_query]. unfold url. cbn [base].
    rewrite join_opaque; [done|by rewrite Hb|done].
Qed.

(** ** A concrete [Http], for the witness *)
Module ToyHttp.

(** A URL as its parts: what is in front of the path, whether that has an
    authority, the path and the pairs. *)
Record toy_url : Set := { t_origin : string; t_base : bool; t_path : string; t_pairs : list (string * string) }.

(** [scheme://host] without a path, or opaque. *)
Definition parse (s : string) : option toy_url :=
  match String.index 0 ":" s with
  | None => None
  | Some n => Some {| t_origin := s; t_base := String.prefix "://" (String.substring n (String.length s - n) s);
                      t_path := ""; t_pairs := [] |}
  end.

#[export] Instance toy_http : Http := {
  Url := toy_url; Url_parse := parse;
  set_path p u := {| t_origin := t_origin u; t_base := t_base u;
                     t_path := if t_base u then p else t_path u; t_pairs := t_pairs u |};
  join u p := if t_base u then Some {| t_origin := t_origin u; t_base := true; t_path := p; t_pairs := [] |}
              else None;
  append_pair k v u := {| t_origin := t_origin u; t_base := t_base u; t_path := t_path u;
                          t_pairs := t_pairs u ++ [(k, v)] |};
  HttpClient := option IpAddr; build_client _ _ a := Some a
}.

#[export] Instance toy_laws : HttpLaws toy_http.
Proof.
  refine {| origin := t_origin; path_of := t_path; query_pairs := t_pairs; can_be_base := t_base |}; cbn; try done.
  - intros u p -> _. by eexists.
  - by intros u p ->.
Defined.

End ToyHttp.

Import ToyHttp.

Definition toy_panel_config (u : string) : PanelConfig :=
  {| base_url := u; key := "secret"; Config.node_id := 7; request_timeout_secs := 10; poll_interval_secs := 60;
     traffic_report_interval_secs := 60; heartbeat_interval_secs := 60; ipv4_only := true |}.

Lemma requests_carry_key_witness :
  (exists c u, new (toy_panel_config "https://panel.example/") = Ok c /\
     url c "users" [("node_id", "7")] = Some u /\ origin u = "https://panel.example" /\
     query_pairs u = [("key", "secret"); ("node_id", "7")]) /\
  (exists c, new (toy_panel_config "localhost:8080") = Ok c /\ url c "users" [] = None).
Proof.
  split.
  - destruct (requests_carry_key (W:=ToyWire.wire None) (H:=toy_http) (toy_panel_config "https://panel.example/")
      {| t_origin := "https://panel.example"; t_base := true; t_path := ""; t_pairs := [] |} eq_refl) as [_ Hc].
    destruct (Hc _ eq_refl) as [_ Hp]. destruct (Hp "users" [("node_id", "7")]) as [H1 _].
    { repeat (first [left|right]). }
    destruct (H1 eq_refl) as (u & Hu & Ho & _ & Hq). eexists _, u. split; [reflexivity|]. by split_and!.
  - destruct (requests_carry_key (W:=ToyWire.wire None) (H:=toy_http) (toy_panel_config "localhost:8080")
      {| t_origin := "localhost:8080"; t_base := false; t_path := ""; t_pairs := [] |} eq_refl) as [_ Hc].
    destruct (Hc _ eq_refl) as [_ Hp]. destruct (Hp "users" []) as [_ H2].
    { repeat (first [left|right]). }
    eexists. split; [reflexivity|]. exact (proj1 (H2 eq_refl (fun _ _ _ => None) None)).
Defined.
