(* ===== verification/Session.v ===== *)
(** * The codec of a connection and of a datagram ([src/src/ssr/mod.rs])

    [ServerSession] composes the stream cipher and the protocol layer for
    one TCP connection; [udp_decrypt_packet] and [udp_encrypt_packet] are
    the datagram codec.  The operating system's generator
    ([getrandom::getrandom]) is an argument: [rnd n] is the result of
    filling a buffer of [n] bytes. *)

From S2P Require Import Prelude Errors Kdf Rc4 Str Cipher Protocol ProtocolSpec ProtocolPackets.

Section Code.
Context `{Crypto}.

(** [derive_master_key], [derive_user_auth_key]. *)
Definition derive_master_key (password : string) (cipher : CipherKind) : bytes :=
  evp_bytes_to_key (string_bytes password) (CipherKind.key_len cipher).
Definition derive_user_auth_key (password : string) : bytes := user_auth_key password.

(** [vec![0; n]] filled by [getrandom]. *)
Definition getrandom (rnd : nat -> option bytes) (n : nat) : res error bytes :=
  match rnd n with Some b => Ok b | None => Err RandomFailure end.

(** [udp_decrypt_packet]. *)
Definition udp_decrypt_packet (master_key : bytes) (users : gmap Z bytes) (is_multi_user : Z)
    (packet : bytes) (cipher : CipherKind) : res error (bytes * option Z) :=
  let iv_len := CipherKind.iv_len cipher in
  bail_if (length packet <? iv_len) (UdpShorterThanIv iv_len);;
  iv ← slice packet 0 iv_len;
  body ← slice_from packet iv_len;
  c ← StreamCipher.new_stream cipher master_key iv;
  let body := (StreamCipher.process c body).1 in
  udp_server_post_decrypt master_key users is_multi_user iv body.

(** [udp_encrypt_packet]. *)
Definition udp_encrypt_packet (rnd : nat -> option bytes) (master_key proto_key
    header_and_payload : bytes) (cipher : CipherKind) : res error bytes :=
  let data := udp_server_pre_encrypt proto_key header_and_payload in
  iv ← getrandom rnd (CipherKind.iv_len cipher);
  c ← StreamCipher.new_stream cipher master_key iv;
  Ok (iv ++ (StreamCipher.process c data).1).

End Code.

Module ServerSession.
Section ServerSession.
Context `{Crypto}.

(** [struct ServerSession]. *)
Record t : Type := {
  cipher : CipherKind;
  master_key : bytes;
  recv_iv_buf : bytes;
  decryptor : option StreamCipher;
  protocol : option AuthAes128Md5;
  users : gmap Z bytes;
  is_multi_user : Z;
  send_iv : bytes;
  encryptor : StreamCipher;
  send_iv_emitted : bool
}.

Definition set_recv_iv_buf (v : bytes) (s : t) : t :=
  {| cipher := cipher s; master_key := master_key s; recv_iv_buf := v; decryptor := decryptor s;
     protocol := protocol s; users := users s; is_multi_user := is_multi_user s;
     send_iv := send_iv s; encryptor := encryptor s; send_iv_emitted := send_iv_emitted s |}.
Definition set_decryptor (v : option StreamCipher) (s : t) : t :=
  {| cipher := cipher s; master_key := master_key s; recv_iv_buf := recv_iv_buf s; decryptor := v;
     protocol := protocol s; users := users s; is_multi_user := is_multi_user s;
     send_iv := send_iv s; encryptor := encryptor s; send_iv_emitted := send_iv_emitted s |}.
Definition set_protocol (v : option AuthAes128Md5) (s : t) : t :=
  {| cipher := cipher s; master_key := master_key s; recv_iv_buf := recv_iv_buf s;
     decryptor := decryptor s; protocol := v; users := users s; is_multi_user := is_multi_user s;
     send_iv := send_iv s; encryptor := encryptor s; send_iv_emitted := send_iv_emitted s |}.
Definition set_encryptor (v : StreamCipher) (s : t) : t :=
  {| cipher := cipher s; master_key := master_key s; recv_iv_buf := recv_iv_buf s;
     decryptor := decryptor s; protocol := protocol s; users := users s;
     is_multi_user := is_multi_user s; send_iv := send_iv s; encryptor := v;
     send_iv_emitted := send_iv_emitted s |}.
Definition set_send_iv_emitted (v : bool) (s : t) : t :=
  {| cipher := cipher s; master_key := master_key s; recv_iv_buf := recv_iv_buf s;
     decryptor := decryptor s; protocol := protocol s; users := users s;
     is_multi_user := is_multi_user s; send_iv := send_iv s; encryptor := encryptor s;
     send_iv_emitted := v |}.

(** [ServerSession::new]. *)
Definition new (rnd : nat -> option bytes) (password : string) (us : gmap Z bytes) (multi : Z)
    (k : CipherKind) : res error t :=
  let mk := evp_bytes_to_key (string_bytes password) (CipherKind.key_len k) in
  iv ← getrandom rnd (CipherKind.iv_len k);
  enc ← StreamCipher.new_stream k mk iv;
  Ok {| cipher := k; master_key := mk; recv_iv_buf := []; decryptor := None; protocol := None;
        users := us; is_multi_user := multi; send_iv := iv; encryptor := enc;
        send_iv_emitted := false |}.

(** The IV phase of [decrypt] (lines 200-220): the cipher bytes of this
    call, or [None] for the early return that waits for the IV. *)
Definition take_iv (raw : bytes) : ST t error (option bytes) :=
  s ← get;
  match decryptor s with
  | None =>
      let iv_len := CipherKind.iv_len (cipher s) in
      modify (set_recv_iv_buf (recv_iv_buf s ++ raw));;
      s ← get;
      if length (recv_iv_buf s) <? iv_len then mret None
      else
        iv ← lift (slice (recv_iv_buf s) 0 iv_len);
        rest ← lift (slice_from (recv_iv_buf s) iv_len);
        modify (set_recv_iv_buf []);;
        d ← lift (StreamCipher.new_stream (cipher s) (master_key s) iv);
        modify (set_decryptor (Some d));;
        p ← lift (AuthAes128Md5.new (master_key s) iv (users s) (is_multi_user s));
        modify (set_protocol (Some p));;
        mret (Some rest)
  | Some _ => mret (Some raw)
  end.

(** [self.protocol.as_mut().expect(..).method(..)]: the protocol's state
    changes even when the method returns an error. *)
Definition with_protocol {A} (m : ST AuthAes128Md5.t error A) : ST t error A :=
  s ← get;
  p ← lift (expect (protocol s));
  let '(r, p) := m p in
  modify (set_protocol (Some p));;
  lift r.

(** [ServerSession::decrypt]. *)
Definition decrypt (raw : bytes) : ST t error bytes :=
  first ← take_iv raw;
  match first with
  | None => mret []
  | Some cipher_bytes =>
      if length cipher_bytes =? 0 then mret []
      else
        s ← get;
        d ← lift (expect (decryptor s));
        let '(plain, d) := StreamCipher.process d cipher_bytes in
        modify (set_decryptor (Some d));;
        with_protocol (AuthAes128Md5.server_post_decrypt plain)
  end.

(** [ServerSession::user_id]. *)
Definition user_id (s : t) : option Z :=
  match protocol s with Some p => AuthAes128Md5.user_id p | None => None end.

(** [ServerSession::encrypt]. *)
Definition encrypt (plaintext : bytes) : ST t error bytes :=
  s ← get;
  lift (bail_if (bool_decide (protocol s = None)) EncryptBeforeHandshake);;
  body ← with_protocol (AuthAes128Md5.server_pre_encrypt plaintext);
  s ← get;
  let '(body, enc) := StreamCipher.process (encryptor s) body in
  modify (set_encryptor enc);;
  if send_iv_emitted s then mret body
  else
    modify (set_send_iv_emitted true);;
    mret (send_iv s ++ body).

(** Feed the chunks of a byte stream, encrypt a list of messages. *)
Fixpoint feed (chunks : list bytes) : ST t error bytes :=
  match chunks with
  | [] => mret []
  | c :: chunks => out ← decrypt c; rest ← feed chunks; mret (out ++ rest)
  end.

Fixpoint send_all (msgs : list bytes) : ST t error bytes :=
  match msgs with
  | [] => mret []
  | m :: msgs => out ← encrypt m; rest ← send_all msgs; mret (out ++ rest)
  end.

End ServerSession.
End ServerSession.

Abbreviation ServerSession := ServerSession.t (only parsing).
