(* ===== verification/SessionSpec.v ===== *)
(** * The specification of a session's receive side, and its refinement

    [sdecode] is what a session does with the next bytes of the stream,
    without buffers that fill up, early returns or [expect]s: split the IV
    off, decrypt the rest in one go, decode the frames.  [decrypt] refines
    it, so the session neither panics nor depends on how the bytes were
    cut. *)

From S2P Require Import Prelude Errors Kdf Str Cipher Protocol ProtocolSpec ProtocolPackets Session.
Import ServerSession.

Section Spec.
Context `{Crypto}.

Definition continue (s : t) (d : StreamCipher) (p : AuthAes128Md5.t) (bs : bytes)
    : res error (bytes * t) :=
  let '(plain, d) := StreamCipher.process d bs in
  '(o, p) ← decode p (AuthAes128Md5.recv_buf p ++ plain);
  Ok (o, set_protocol (Some p) (set_decryptor (Some d) s)).

Definition sdecode (s : t) (bs : bytes) : res error (bytes * t) :=
  match decryptor s, protocol s with
  | Some d, Some p => continue s d p bs
  | _, _ =>
      let n := CipherKind.iv_len (cipher s) in
      let buf := recv_iv_buf s ++ bs in
      if length buf <? n then Ok ([], set_recv_iv_buf buf s)
      else
        d ← StreamCipher.new_stream (cipher s) (master_key s) (take n buf);
        continue (set_recv_iv_buf [] s) d
          (initial (master_key s) (take n buf) (users s) (is_multi_user s)) (drop n buf)
  end.

(** All complete packets of the protocol's buffer have been consumed. *)
Definition settled (p : AuthAes128Md5.t) : Prop :=
  decode p (AuthAes128Md5.recv_buf p) = Ok ([], p).

Definition swf (s : t) : Prop :=
  length (master_key s) = CipherKind.key_len (cipher s) /\
  match decryptor s, protocol s with
  | None, None => True
  | Some d, Some p => wf p /\ settled p
  | _, _ => False
  end.

(** The state [new] returns for the IV [iv]. *)
Definition fresh (k : CipherKind) (password : string) (us : gmap Z bytes) (multi : Z)
    (iv : bytes) (enc : StreamCipher) : t :=
  {| cipher := k; master_key := evp_bytes_to_key (string_bytes password) (CipherKind.key_len k);
     recv_iv_buf := []; decryptor := None; protocol := None; users := us; is_multi_user := multi;
     send_iv := iv; encryptor := enc; send_iv_emitted := false |}.

End Spec.

(** ** Lemmas *)

Section Lemmas.
Context `{HL : CryptoLaws}.

Lemma new_fresh rnd password us multi k iv :
  rnd (CipherKind.iv_len k) = Some iv -> length iv = CipherKind.iv_len k ->
  exists enc,
    ServerSession.new rnd password us multi k = Ok (fresh k password us multi iv enc) /\
    StreamCipher.new_stream (E:=error) k
      (evp_bytes_to_key (string_bytes password) (CipherKind.key_len k)) iv = Ok enc.
Proof.
  intros Hr Hiv. unfold ServerSession.new, getrandom. rewrite Hr, bind_Ok.
  destruct (new_stream_ok (E:=error) k
    (evp_bytes_to_key (string_bytes password) (CipherKind.key_len k)) iv) as [enc Henc];
    [apply length_evp_bytes_to_key|done|].
  exists enc. by rewrite Henc.
Qed.

Lemma fresh_swf k password us multi iv enc : swf (fresh k password us multi iv enc).
Proof. split; [apply length_evp_bytes_to_key|done]. Qed.

Lemma decode_settled s buf o s' : decode s buf = Ok (o, s') -> settled s'.
Proof.
  intros Hd. pose proof (decode_app s buf []) as Happ.
  rewrite app_nil_r, Hd, bind_Ok, app_nil_r in Happ. unfold settled.
  destruct (decode s' _) as [[o2 s2]| | |]; try done.
  rewrite bind_Ok in Happ. injection Happ as Ho ->.
  assert (o2 = []) as ->; [|done]. apply (f_equal length) in Ho.
  rewrite length_app in Ho. destruct o2; [done|cbn in Ho; lia].
Qed.

Lemma initial_settled mk iv us multi : settled (initial mk iv us multi).
Proof. done. Qed.

Lemma outcome_with_protocol {A} (m : ST AuthAes128Md5.t error A) s :
  outcome (with_protocol m) s =
    (p ← expect (protocol s); '(a, p') ← outcome m p; Ok (a, set_protocol (Some p') s)).
Proof.
  unfold with_protocol. run. rewrite outcome_lift. destruct (protocol s) as [p|]; [|done].
  cbn [expect]. rewrite !bind_Ok. cbv beta iota.
  unfold outcome at 2. destruct (m p) as [r p'] eqn:Hm. run. rewrite outcome_lift. by destruct r.
Qed.

Lemma set_same s d p :
  decryptor s = Some d -> protocol s = Some p -> set_protocol (Some p) (set_decryptor (Some d) s) = s.
Proof. destruct s. cbn. by intros -> ->. Qed.

Lemma continue_nil s d p :
  settled p -> continue s d p [] = Ok ([], set_protocol (Some p) (set_decryptor (Some d) s)).
Proof.
  intros Hp. unfold continue. rewrite (process_nil StreamCipher.process), app_nil_r.
  by rewrite Hp.
Qed.

(** The part of [decrypt] after the IV. *)
Lemma decrypt_tail s d p cb :
  wf p -> settled p -> decryptor s = Some d -> protocol s = Some p ->
  outcome (if length cb =? 0 then mret []
    else
      s ← get;
      d ← lift (expect (decryptor s));
      let '(plain, d) := StreamCipher.process d cb in
      modify (set_decryptor (Some d));;
      with_protocol (AuthAes128Md5.server_post_decrypt plain)) s = continue s d p cb.
Proof.
  intros Hw Hs Hd Hp. destruct cb as [|b cb].
  { rewrite continue_nil by done. cbn. by rewrite set_same. }
  change (length (b :: cb) =? 0) with false. cbv iota. run. rewrite outcome_lift, Hd.
  cbn [expect]. rewrite !bind_Ok. cbv beta iota. unfold continue.
  destruct (StreamCipher.process d (b :: cb)) as [plain d']. run.
  rewrite outcome_with_protocol. cbn [protocol set_decryptor]. rewrite Hp. cbn [expect].
  rewrite bind_Ok, post_decrypt_outcome by done. reflexivity.
Qed.

Lemma decrypt_outcome raw s : swf s -> outcome (decrypt raw) s = sdecode s raw.
Proof.
  intros [Hk Hs]. unfold decrypt, take_iv, sdecode. run.
  destruct (decryptor s) as [d|] eqn:Hd, (protocol s) as [p|] eqn:Hp; try done.
  { destruct Hs as [Hw Hset]. run. by apply decrypt_tail. }
  run. cbn [recv_iv_buf set_recv_iv_buf cipher master_key users is_multi_user].
  set (buf := recv_iv_buf s ++ raw). set (n := CipherKind.iv_len (cipher s)).
  destruct (Nat.ltb_spec (length buf) n) as [Hn|Hn]; [by run|].
  run. replace (sub buf 0 n) with (take n buf) by (unfold sub; by rewrite Nat.sub_0_r, drop_0).
  rewrite outcome_lift, slice_from_ok by done. rewrite !bind_Ok. run.
  cbn [recv_iv_buf set_recv_iv_buf cipher master_key users is_multi_user].
  assert (length (take n buf) = n) as Hiv by (rewrite length_take; lia).
  destruct (new_stream_ok (E:=error) (cipher s) (master_key s) (take n buf) Hk Hiv) as [d Hnew].
  rewrite outcome_lift, Hnew, !bind_Ok. run. rewrite outcome_lift, new_ok, !bind_Ok. run.
  erewrite decrypt_tail; [|apply initial_wf|apply initial_settled|done|done].
  unfold continue. destruct (StreamCipher.process d _) as [plain d'].
  by destruct (decode _ _) as [[o p']| | |].
Qed.

Lemma continue_app s d p a b :
  continue s d p (a ++ b) =
    ('(o1, s1) ← continue s d p a; '(o2, s2) ← sdecode s1 b; Ok (o1 ++ o2, s2)).
Proof.
  unfold continue at 1 2. rewrite (process_app StreamCipher.process).
  destruct (StreamCipher.process d a) as [pa da]. cbn [fst snd].
  rewrite app_assoc, decode_app.
  destruct (decode p (_ ++ pa)) as [[o1 p1]| | |]; [|done..].
  rewrite !bind_Ok. unfold sdecode. cbn [decryptor protocol set_decryptor set_protocol].
  unfold continue. destruct (StreamCipher.process da b) as [pb db]. cbn [fst snd].
  by destruct (decode p1 _) as [[o2 p2]| | |].
Qed.

Lemma sdecode_app s a b :
  swf s ->
  sdecode s (a ++ b) =
    ('(o1, s1) ← sdecode s a; '(o2, s2) ← sdecode s1 b; Ok (o1 ++ o2, s2)).
Proof.
  intros [Hk Hs]. unfold sdecode at 1 3.
  destruct (decryptor s) as [d|] eqn:Hd, (protocol s) as [p|] eqn:Hp; try done.
  { apply continue_app. }
  rewrite app_assoc. set (buf := recv_iv_buf s ++ a). set (n := CipherKind.iv_len (cipher s)).
  destruct (Nat.ltb_spec (length buf) n) as [Hn|Hn].
  - rewrite bind_Ok. unfold sdecode. cbn [decryptor protocol set_recv_iv_buf recv_iv_buf cipher
      master_key users is_multi_user]. rewrite Hd. fold n.
    destruct (length (buf ++ b) <? n); [done|].
    destruct (StreamCipher.new_stream _ _ _) as [d| | |]; [|done..]. rewrite !bind_Ok.
    unfold continue. destruct (StreamCipher.process d _) as [pl d'].
    by destruct (decode _ _) as [[o p']| | |].
  - rewrite (proj2 (Nat.ltb_ge _ _)) by (rewrite length_app; lia).
    rewrite take_app_le, drop_app_le by lia.
    destruct (StreamCipher.new_stream _ _ _) as [d| | |]; [|done..]. rewrite !bind_Ok.
    apply continue_app.
Qed.

Lemma continue_swf s d p bs o s' :
  length (master_key s) = CipherKind.key_len (cipher s) -> wf p ->
  continue s d p bs = Ok (o, s') -> swf s'.
Proof.
  intros Hk Hw. unfold continue. destruct (StreamCipher.process d bs) as [pl d'].
  intros ([o1 p1] & Hdec & [= <- <-])%bind_inv_Ok. split; [done|]. cbn. split.
  - by eapply decode_wf.
  - by eapply decode_settled.
Qed.

Lemma sdecode_swf s bs o s' : swf s -> sdecode s bs = Ok (o, s') -> swf s'.
Proof.
  intros [Hk Hs]. unfold sdecode.
  destruct (decryptor s) as [d|] eqn:Hd, (protocol s) as [p|] eqn:Hp; try done.
  { destruct Hs. by apply continue_swf. }
  case_match.
  - intros [= <- <-]. split; [done|]. cbn. by rewrite Hd, Hp.
  - intros (d & _ & Hc)%bind_inv_Ok. by eapply continue_swf, Hc; [|apply initial_wf].
Qed.

Lemma feed_outcome c cs s :
  swf s -> outcome (feed (c :: cs)) s = sdecode s (concat (c :: cs)).
Proof.
  revert c s. induction cs as [|d cs IH]; intros c s Hs.
  - cbn [feed concat]. run. rewrite decrypt_outcome, app_nil_r by done.
    destruct (sdecode s c) as [[o s']| | |]; [|done..]. run. by rewrite app_nil_r.
  - change (concat (c :: d :: cs)) with (c ++ concat (d :: cs)). rewrite sdecode_app by done.
    change (feed (c :: d :: cs)) with
      (out ← decrypt c; rest ← feed (d :: cs); mret (out ++ rest)).
    run. rewrite decrypt_outcome by done.
    destruct (sdecode s c) as [[o s']| | |] eqn:Hd; [|done..]. run.
    rewrite IH by by eapply sdecode_swf. by destruct (sdecode s' _) as [[o2 s2]| | |].
Qed.

Lemma sdecode_safe s bs : swf s -> safe (fun _ => True) (sdecode s bs).
Proof.
  intros [Hk Hs].
  assert (forall s d p bs, safe (fun _ => True) (continue s d p bs)) as Hc.
  { intros s' d p b. unfold continue. destruct (StreamCipher.process d b) as [pl d'].
    apply (safe_bind (fun _ => True)); [apply decode_safe|]. by intros [??]. }
  unfold sdecode.
  destruct (decryptor s) as [d|] eqn:Hd, (protocol s) as [p|] eqn:Hp; try done.
  case_match eqn:Hl; [done|]. apply Nat.ltb_ge in Hl.
  destruct (new_stream_ok (E:=error) (cipher s) (master_key s)
    (take (CipherKind.iv_len (cipher s)) (recv_iv_buf s ++ bs)) Hk) as [d ->].
  { rewrite length_take. lia. }
  rewrite bind_Ok. apply Hc.
Qed.

End Lemmas.

(** ** Properties *)

Import Toy.

(** A generator for the witnesses. *)
Definition toy_rnd (n : nat) : option bytes := Some (repeat Byte.x0a n).

Lemma toy_rnd_length n b : toy_rnd n = Some b -> length b = n.
Proof. intros [= <-]. apply repeat_length. Qed.

(** C6 The receive side of a session refines [sdecode], whatever chunks a
    byte stream arrives in, from the first byte (an incomplete IV) on:
    payload, final state and error are those of the whole stream decrypted
    and decoded at once; and no password, user table or byte stream makes
    it panic or run forever.  The session exists whenever the generator
    delivers. *)
Theorem session_decrypt_refines `{HL : CryptoLaws} rnd password us multi k iv
    (Hr : rnd (CipherKind.iv_len k) = Some iv) (Hiv : length iv = CipherKind.iv_len k) :
  exists s, ServerSession.new rnd password us multi k = Ok s /\ swf s /\
    forall c cs,
      outcome (feed (c :: cs)) s = sdecode s (concat (c :: cs)) /\
      safe (fun _ => True) (outcome (feed (c :: cs)) s).
Proof.
  destruct (new_fresh rnd password us multi k iv Hr Hiv) as (enc & Hnew & _).
  rewrite Hnew. eexists. split; [done|]. split; [apply fresh_swf|]. intros c cs.
  rewrite feed_outcome by apply fresh_swf. split; [done|]. apply sdecode_safe, fresh_swf.
Qed.

Lemma session_decrypt_refines_witness :
  exists s, ServerSession.new (H:=crypto) toy_rnd "pw" ∅ 0 CipherKind.Rc4Md5 = Ok s /\ swf s /\
    forall c cs,
      outcome (feed (c :: cs)) s = sdecode s (concat (c :: cs)) /\
      safe (fun _ => True) (outcome (feed (c :: cs)) s).
Proof.
  exact (session_decrypt_refines (HL:=crypto_laws) toy_rnd "pw" ∅ 0 CipherKind.Rc4Md5
    (repeat Byte.x0a 16) eq_refl eq_refl).
Defined.
