(* ===== verification/EndToEnd.v ===== *)
(** * Client and server, end to end

    The reference client's output decrypts, on the server, to its payload
    and identity, and what the server then sends decrypts, on the client,
    to the server's messages: for both ciphers, any chunking, single-user
    and multi-user keys. *)

From S2P Require Import Prelude Errors Kdf Str Cipher Protocol ProtocolSpec.
From S2P Require Import ProtocolPackets Session SessionSpec Client.

(** The packets a list of plaintexts is cut into by [server_pre_encrypt]. *)
Definition all_units (msgs : list bytes) : list bytes :=
  concat (map (fun m => units (S (length m)) m) msgs).

(** A client about to start: what [new_kind] and [new_multi_kind] return. *)
Definition ready `{Crypto} (k : CipherKind) (mk : bytes) (c : ClientCodec.t) : Prop :=
  ClientCodec.kind c = k /\ ClientCodec.master_key c = mk /\
  ClientCodec.send_iv c = ClientCodec.client_iv k /\
  StreamCipher.new_stream (E:=error) k mk (ClientCodec.client_iv k) = Ok (ClientCodec.encryptor c) /\
  ClientCodec.pack_id c = 1%Z /\ ClientCodec.recv_iv_buf c = [] /\
  ClientCodec.decryptor c = None /\ ClientCodec.recv_buf c = [].

Section Lemmas.
Context `{HL : CryptoLaws}.

Lemma length_client_iv k : length (ClientCodec.client_iv k) = CipherKind.iv_len k.
Proof. apply repeat_length. Qed.

(** ** Client to server *)

Lemma pack_auth_eq c buf :
  (0 <= ClientCodec.client_uid c < 2 ^ 32)%Z ->
  ClientCodec.pack_auth c buf =
    Ok (auth_packet (ClientCodec.send_iv c ++ ClientCodec.master_key c) (ClientCodec.user_key c)
      Byte.x11 (ClientCodec.client_uid c) (repeat Byte.x00 12) [] buf).
Proof.
  intros Huid. unfold ClientCodec.pack_auth.
  rewrite (copy_from_slice_ok 16 (evp_bytes_to_key _ _)) by apply length_evp_bytes_to_key.
  rewrite bind_Ok.
  rewrite copy_from_slice_ok by done. rewrite bind_Ok.
  unfold auth_packet, auth_full, auth_ident, auth_plain, auth_len, aes_key_of.
  unfold AuthAes128Md5.aes_seed. cbn [length app].
  replace (7 + 4 + 16 + 4 + length buf + 0 + 4) with (31 + 0 + length buf + 4) by lia.
  assert ((if (1 <? ClientCodec.recv_id c)%Z then u32_to_le (ClientCodec.recv_id c)
    else repeat Byte.x00 4) = u32_to_le (ClientCodec.client_uid c)) as ->.
  { unfold ClientCodec.client_uid. by case_match. }
  by rewrite <- !app_assoc.
Qed.

Lemma client_pack_data_spec buf c :
  outcome (ClientCodec.pack_data buf) c =
    Ok (data_packet (ClientCodec.user_key c) (ClientCodec.pack_id c) buf,
        ClientCodec.set_pack_id (u32_succ (ClientCodec.pack_id c)) c).
Proof. reflexivity. Qed.

(** The receive side of a client is untouched by sending. *)
Definition same_recv (c c' : ClientCodec.t) : Prop :=
  ClientCodec.kind c' = ClientCodec.kind c /\ ClientCodec.master_key c' = ClientCodec.master_key c /\
  ClientCodec.recv_iv_buf c' = ClientCodec.recv_iv_buf c /\
  ClientCodec.decryptor c' = ClientCodec.decryptor c /\
  ClientCodec.recv_buf c' = ClientCodec.recv_buf c /\
  ClientCodec.user_key c' = ClientCodec.user_key c.

Lemma client_send_all_spec ps c :
  exists c', outcome (ClientCodec.send_all ps) c =
    Ok ((StreamCipher.process (ClientCodec.encryptor c)
          (data_packets (ClientCodec.user_key c) (ClientCodec.pack_id c) ps)).1, c') /\
    same_recv c c'.
Proof.
  revert c. induction ps as [|p ps IH]; intros c.
  { exists c. cbn [ClientCodec.send_all data_packets]. by rewrite (process_nil StreamCipher.process). }
  cbn [ClientCodec.send_all data_packets]. unfold ClientCodec.client_send. run.
  rewrite client_pack_data_spec. run. rewrite (process_app StreamCipher.process).
  cbn [ClientCodec.encryptor ClientCodec.set_pack_id ClientCodec.set_send].
  destruct (StreamCipher.process (ClientCodec.encryptor c) (data_packet _ _ p)) as [b enc]. run.
  edestruct IH as (c' & -> & Hc'). cbn [fst snd]. run.
  exists c'. split; [done|exact Hc'].
Qed.

Lemma client_stream_spec p0 ps c :
  (0 <= ClientCodec.client_uid c < 2 ^ 32)%Z ->
  exists c', outcome (ClientCodec.client_stream p0 ps) c =
    Ok (ClientCodec.send_iv c ++ (StreamCipher.process (ClientCodec.encryptor c)
      (auth_packet (ClientCodec.send_iv c ++ ClientCodec.master_key c) (ClientCodec.user_key c)
        Byte.x11 (ClientCodec.client_uid c) (repeat Byte.x00 12) [] p0 ++
       data_packets (ClientCodec.user_key c) (ClientCodec.pack_id c) ps)).1, c') /\
    same_recv c c'.
Proof.
  intros Huid. unfold ClientCodec.client_stream, ClientCodec.client_first_send. run.
  rewrite outcome_lift, pack_auth_eq, !bind_Ok by done. run.
  rewrite (process_app StreamCipher.process).
  destruct (StreamCipher.process (ClientCodec.encryptor c) (auth_packet _ _ _ _ _ _ _)) as [b enc].
  run. edestruct client_send_all_spec as (c' & -> & Hc'). cbn [fst snd]. run.
  exists c'. rewrite <- app_assoc. split; [done|exact Hc'].
Qed.

(** The server on the client's stream: the plaintext of the stream is the
    packets, and [decode_packets] applies. *)
Lemma decode_pack_id s buf o s' :
  decode s buf = Ok (o, s') -> AuthAes128Md5.pack_id s' = AuthAes128Md5.pack_id s.
Proof.
  unfold decode, after_frames.
  assert (forall u, AuthAes128Md5.pack_id (selected u s) = AuthAes128Md5.pack_id s) as Hsel
    by (intros u; unfold selected; by repeat case_match).
  case_match.
  { intros ([[??]?] & _ & [= _ <-])%bind_inv_Ok. done. }
  case_match; [|done|].
  - intros [= _ <-]. case_match; cbn; done.
  - intros ([[??]?] & _ & [= _ <-])%bind_inv_Ok. cbn. done.
Qed.

Lemma server_accepts k password us multi iv enc uid p0 ps cenc :
  let mk := evp_bytes_to_key (string_bytes password) (CipherKind.key_len k) in
  let civ := ClientCodec.client_iv k in
  let kf := key_for mk civ us multi uid in
  StreamCipher.new_stream (E:=error) k mk civ = Ok cenc ->
  (0 <= uid < 2 ^ 32)%Z -> auth_len [] p0 < MAX_PACKET ->
  Forall (fun p => length p + 9 < MAX_PACKET) ps ->
  exists s p, sdecode (fresh k password us multi iv enc)
      (civ ++ (StreamCipher.process cenc
        (auth_packet (civ ++ mk) kf.1 Byte.x11 uid (repeat Byte.x00 12) [] p0 ++
         data_packets kf.1 1 ps)).1) = Ok (p0 ++ concat ps, s) /\
    ServerSession.protocol s = Some p /\
    (AuthAes128Md5.user_key p, AuthAes128Md5.user_id p) = kf /\ AuthAes128Md5.pack_id p = 1%Z /\
    ServerSession.send_iv s = iv /\ ServerSession.encryptor s = enc /\
    ServerSession.send_iv_emitted s = false.
Proof.
  intros mk civ kf Hc Huid Hp0 Hps.
  assert (length civ = CipherKind.iv_len k) as Hl by apply length_client_iv.
  unfold sdecode. cbn [ServerSession.decryptor ServerSession.protocol ServerSession.recv_iv_buf
    ServerSession.cipher ServerSession.master_key ServerSession.users ServerSession.is_multi_user
    fresh app]. fold mk.
  rewrite (proj2 (Nat.ltb_ge _ _)) by (rewrite length_app; lia).
  rewrite <- Hl, take_app_length, drop_app_length, Hc, bind_Ok. unfold continue.
  rewrite (process_cancel StreamCipher.process).
  destruct (decode_packets mk civ us multi Byte.x11 uid (repeat Byte.x00 12) [] p0 ps Huid)
    as (p & Hdec & _ & _ & Hkey & _); [done|done|done|].
  fold kf in Hdec. change (AuthAes128Md5.recv_buf (initial _ _ _ _)) with (@nil byte).
  cbn [app]. rewrite Hdec, bind_Ok. eexists _, p. split; [done|].
  apply decode_pack_id in Hdec. done.
Qed.

(** ** Server to client *)

Lemma data_packets_app key id a b :
  data_packets key id (a ++ b) = data_packets key id a ++ data_packets key (id_after (length a) id) b.
Proof.
  revert id. induction a as [|p a IH]; intros id; [done|].
  cbn [app data_packets length id_after]. by rewrite IH, app_assoc.
Qed.

Lemma server_pre_encrypt_spec m p :
  outcome (AuthAes128Md5.server_pre_encrypt m) p =
    Ok (data_packets (AuthAes128Md5.user_key p) (AuthAes128Md5.pack_id p) (units (S (length m)) m),
        AuthAes128Md5.set_pack_id
          (id_after (length (units (S (length m)) m)) (AuthAes128Md5.pack_id p)) p).
Proof. unfold AuthAes128Md5.server_pre_encrypt. by rewrite pre_encrypt_loop_spec by lia. Qed.

Lemma encrypt_spec m s p :
  ServerSession.protocol s = Some p ->
  let us := units (S (length m)) m in
  let r := StreamCipher.process (ServerSession.encryptor s)
    (data_packets (AuthAes128Md5.user_key p) (AuthAes128Md5.pack_id p) us) in
  exists s', outcome (ServerSession.encrypt m) s =
      Ok ((if ServerSession.send_iv_emitted s then [] else ServerSession.send_iv s) ++ r.1, s') /\
    ServerSession.protocol s' =
      Some (AuthAes128Md5.set_pack_id (id_after (length us) (AuthAes128Md5.pack_id p)) p) /\
    ServerSession.encryptor s' = r.2 /\ ServerSession.send_iv_emitted s' = true.
Proof.
  intros Hp us r. unfold ServerSession.encrypt. run.
  rewrite bool_decide_false by by rewrite Hp. run.
  rewrite outcome_with_protocol, Hp. cbn [expect]. rewrite bind_Ok, server_pre_encrypt_spec, !bind_Ok.
  fold us. run. cbn [ServerSession.encryptor ServerSession.set_protocol].
  unfold r. destruct (StreamCipher.process _ _) as [b enc]. run.
  cbn [ServerSession.send_iv_emitted ServerSession.set_protocol ServerSession.set_encryptor].
  destruct (ServerSession.send_iv_emitted s) eqn:He; run; eexists; by split_and!.
Qed.

Lemma send_all_spec msgs s p :
  ServerSession.protocol s = Some p ->
  exists s', outcome (ServerSession.send_all msgs) s =
    Ok ((if ServerSession.send_iv_emitted s then []
         else match msgs with [] => [] | _ => ServerSession.send_iv s end) ++
        (StreamCipher.process (ServerSession.encryptor s)
          (data_packets (AuthAes128Md5.user_key p) (AuthAes128Md5.pack_id p) (all_units msgs))).1, s').
Proof.
  revert s p. induction msgs as [|m msgs IH]; intros s p Hp.
  { exists s. cbn. rewrite (process_nil StreamCipher.process). by destruct (ServerSession.send_iv_emitted s). }
  cbn [ServerSession.send_all]. run.
  destruct (encrypt_spec m s p Hp) as (s1 & -> & Hp1 & Henc & Hem). run.
  destruct (IH s1 _ Hp1) as (s2 & ->). run. exists s2. f_equal. f_equal.
  unfold all_units. cbn [map concat]. rewrite data_packets_app, (process_app StreamCipher.process).
  rewrite Hem, Henc. cbn [app fst]. by rewrite <- app_assoc.
Qed.

End Lemmas.

Section Recv.
Context `{HL : CryptoLaws}.

(** The client's packet loop on a prefix [b] of a stream of packets: it
    returns the payloads [q1] of the complete ones and keeps the rest. *)
Lemma recv_loop_spec fuel key id qs rest out c :
  Forall (fun p => length p + 9 < MAX_PACKET) qs ->
  length (ClientCodec.recv_buf c) < fuel ->
  ClientCodec.recv_buf c ++ rest = data_packets key id qs ->
  exists q1 q2 b n, qs = q1 ++ q2 /\
    outcome (ClientCodec.recv_loop fuel out) c =
      Ok (out ++ concat q1, ClientCodec.set_recv_buf b (ClientCodec.set_recv_id n c)) /\
    b ++ rest = data_packets key (id_after (length q1) id) q2 /\
    (rest = [] -> q2 = []).
Proof.
  revert id qs out c. induction fuel as [|fuel IH]; intros id qs out c Hqs Hf Heq; [lia|].
  assert (Hstop : (out, c) = (out ++ concat [], ClientCodec.set_recv_buf (ClientCodec.recv_buf c)
    (ClientCodec.set_recv_id (ClientCodec.recv_id c) c))).
  { cbn [concat]. rewrite app_nil_r. by destruct c. }
  cbn [ClientCodec.recv_loop]. run. set (buf := ClientCodec.recv_buf c) in *.
  destruct qs as [|q qs].
  { apply app_eq_nil in Heq as [Hb ->]. rewrite Hb. cbn [length Nat.ltb Nat.leb].
    exists [], [], buf, (ClientCodec.recv_id c). run. rewrite <- Hstop, Hb. done. }
  apply Forall_cons in Hqs as [Hq Hqs].
  destruct (data_packet_layout key id q) as (Hlb & _ & _ & _ & Hmark & Hpay).
  pose proof (length_data_packet key id q) as Hlen. cbn [data_packets] in Heq.
  set (pkt := data_packet key id q) in *.
  assert (forall a b, b <= length buf -> b <= length pkt -> sub buf a b = sub pkt a b) as Hsub.
  { intros a b H1 H2. rewrite <- (sub_app_l buf rest) by done. by rewrite Heq, sub_app_l. }
  assert (length buf < length pkt -> rest <> []) as Hne.
  { intros Hlt ->. rewrite app_nil_r in Heq. rewrite Heq, length_app in Hlt. lia. }
  destruct (Nat.ltb_spec 4 (length buf)) as [H4|H4].
  2:{ exists [], (q :: qs), buf, (ClientCodec.recv_id c). run. rewrite <- Hstop. split_and!; try done.
      intros Hr. destruct Hne; [lia|done]. }
  run. rewrite Hsub by lia. change (0 + 2) with 2. rewrite Hlb.
  rewrite u16_from_to_le by (apply Z.mod_pos_bound; lia). rewrite usize_as_u16_small by done.
  destruct (Nat.ltb_spec (length buf) (length q + 9)) as [Hl|Hl].
  { exists [], (q :: qs), buf, (ClientCodec.recv_id c). run. rewrite <- Hstop. split_and!; try done.
    intros Hr. destruct Hne; [lia|done]. }
  run. rewrite outcome_lift. unfold index.
  assert (buf !! 4 = Some Byte.x01) as ->.
  { rewrite <- (lookup_app_l buf rest) by lia. rewrite Heq, lookup_app_l by lia.
    rewrite <- Hmark. apply list_lookup_lookup_total_lt. lia. }
  cbn [expect]. rewrite !bind_Ok. change (u8_idx Byte.x01 + 4) with 5. run.
  rewrite Hsub, Hpay by lia.
  set (c1 := ClientCodec.set_recv_buf (drop (length q + 9) buf)
    (ClientCodec.set_recv_id (u32_succ (ClientCodec.recv_id c)) c)).
  destruct (IH (u32_succ id) qs (out ++ q) c1) as (q1 & q2 & b & n & -> & -> & Hb & Hr).
  - done.
  - cbn. rewrite length_drop. lia.
  - cbn [c1 ClientCodec.recv_buf ClientCodec.set_recv_buf ClientCodec.set_recv].
    rewrite <- Hlen, <- drop_app_le, Heq by lia. by rewrite drop_app_length.
  - exists (q :: q1), q2, b, n. split_and!; [done| |done|done].
    cbn [concat]. by rewrite app_assoc.
Qed.

(** [client_recv] on cipher bytes, once the decryptor exists. *)
Lemma client_recv_step c d cb key id qs more :
  Forall (fun p => length p + 9 < MAX_PACKET) qs ->
  ClientCodec.decryptor c = Some d ->
  ClientCodec.recv_buf c ++ (StreamCipher.process d (cb ++ more)).1 = data_packets key id qs ->
  exists q1 q2 c' d' id', qs = q1 ++ q2 /\
    outcome (ClientCodec.client_recv cb) c = Ok (concat q1, c') /\
    ClientCodec.decryptor c' = Some d' /\
    ClientCodec.recv_buf c' ++ (StreamCipher.process d' more).1 = data_packets key id' q2 /\
    (more = [] -> q2 = []).
Proof.
  intros Hqs Hd Heq. rewrite (process_app StreamCipher.process) in Heq. cbn [fst] in Heq.
  unfold ClientCodec.client_recv. run. rewrite Hd. run. rewrite outcome_lift, Hd. cbn [expect].
  rewrite !bind_Ok. cbv beta iota. destruct (StreamCipher.process d cb) as [plain d'] eqn:Hpr.
  cbn [fst snd] in Heq. run.
  set (c1 := ClientCodec.set_recv_buf _ _).
  destruct (recv_loop_spec (S (length (ClientCodec.recv_buf c1))) key id qs
    (StreamCipher.process d' more).1 [] c1) as (q1 & q2 & b & n & Hq & Hloop & Hb & Hr);
    [done|lia|rewrite <- Heq, (app_assoc (ClientCodec.recv_buf c)); reflexivity|].
  rewrite Hloop. eexists q1, q2, _, d', _. split_and!; [done|done|done|exact Hb|].
  intros ->. apply Hr. by rewrite (process_nil StreamCipher.process).
Qed.

Lemma recv_all_step cb ds c d key id qs :
  Forall (fun p => length p + 9 < MAX_PACKET) qs ->
  ClientCodec.decryptor c = Some d ->
  ClientCodec.recv_buf c ++ (StreamCipher.process d (cb ++ concat ds)).1 = data_packets key id qs ->
  exists c', outcome (ClientCodec.recv_all (cb :: ds)) c = Ok (concat qs, c').
Proof.
  revert cb c d id qs. induction ds as [|e ds IH]; intros cb c d id qs Hqs Hd Heq.
  all: destruct (client_recv_step c d cb key id qs _ Hqs Hd Heq)
    as (q1 & q2 & c' & d' & id' & -> & Hout & Hd' & Heq' & Hlast).
  - cbn [ClientCodec.recv_all]. run. rewrite Hout. run. rewrite (Hlast eq_refl), !app_nil_r. by eexists.
  - change (ClientCodec.recv_all (cb :: e :: ds)) with
      (a ← ClientCodec.client_recv cb; b ← ClientCodec.recv_all (e :: ds); mret (a ++ b)).
    run. rewrite Hout. run. apply Forall_app in Hqs as [_ Hqs].
    destruct (IH e c' d' id' q2 Hqs Hd' Heq') as (c2 & ->). run. rewrite concat_app. by eexists.
Qed.

(** From the first byte on: the IV may be cut as well. *)
Lemma recv_all_iv ds c iv k mk key id qs enc :
  Forall (fun p => length p + 9 < MAX_PACKET) qs ->
  ClientCodec.kind c = k -> ClientCodec.master_key c = mk -> ClientCodec.decryptor c = None ->
  ClientCodec.recv_buf c = [] -> length (ClientCodec.recv_iv_buf c) < length iv ->
  length iv = CipherKind.iv_len k -> StreamCipher.new_stream (E:=error) k mk iv = Ok enc ->
  ClientCodec.recv_iv_buf c ++ concat ds =
    iv ++ (StreamCipher.process enc (data_packets key id qs)).1 ->
  exists c', outcome (ClientCodec.recv_all ds) c = Ok (concat qs, c').
Proof.
  revert c. induction ds as [|e ds IH]; intros c Hqs Hk Hmk Hd Hb Hshort Hiv Henc Heq.
  { cbn [concat] in Heq. rewrite app_nil_r in Heq. rewrite Heq, length_app in Hshort. lia. }
  cbn [concat] in Heq. rewrite app_assoc in Heq.
  destruct (Nat.ltb_spec (length (ClientCodec.recv_iv_buf c ++ e)) (length iv)) as [Hl|Hl].
  - cbn [ClientCodec.recv_all]. unfold ClientCodec.client_recv at 1. run. rewrite Hd. run.
    rewrite Hk, <- Hiv, (proj2 (Nat.ltb_lt _ _)) by done. run.
    destruct (IH (ClientCodec.set_recv_iv_buf (ClientCodec.recv_iv_buf c ++ e) c)) as (c' & ->); try done.
    run. by eexists.
  - set (buf := ClientCodec.recv_iv_buf c ++ e) in *.
    assert (buf = iv ++ drop (length iv) buf) as Hbuf.
    { rewrite <- (take_drop (length iv) buf) at 1. f_equal.
      rewrite <- (take_app_le buf (concat ds)) by lia. by rewrite Heq, take_app_length. }
    (* the state with the decryptor in place, fed the rest *)
    set (c1 := ClientCodec.set_decryptor (Some enc) (ClientCodec.set_recv_iv_buf buf c)).
    assert (outcome (ClientCodec.recv_all (e :: ds)) c =
      outcome (ClientCodec.recv_all (drop (length iv) buf :: ds)) c1) as ->.
    { cbn [ClientCodec.recv_all]. rewrite !outcome_bind. f_equal.
      unfold ClientCodec.client_recv. run. rewrite Hd. run. fold buf.
      rewrite Hk, <- Hiv, (proj2 (Nat.ltb_ge _ _)) by done. run.
      rewrite outcome_lift, slice_from_ok, !bind_Ok by done. run.
      replace (sub buf 0 (length iv)) with iv by (rewrite Hbuf; symmetry; by apply sub_app_head).
      cbn [ClientCodec.kind ClientCodec.master_key ClientCodec.set_recv_iv_buf ClientCodec.set_recv].
      rewrite Hmk, outcome_lift, Henc, !bind_Ok. run. fold c1.
      change (ClientCodec.decryptor c1) with (Some enc). run. reflexivity. }
    eapply recv_all_step; [done|done|].
    cbn [ClientCodec.recv_buf c1 ClientCodec.set_decryptor ClientCodec.set_recv_iv_buf ClientCodec.set_recv].
    rewrite Hb. cbn [app]. replace (drop (length iv) buf ++ concat ds)
      with (StreamCipher.process enc (data_packets key id qs)).1.
    + by rewrite (process_cancel StreamCipher.process).
    + rewrite <- drop_app_le, Heq by done. by rewrite drop_app_length.
Qed.

Lemma all_units_concat msgs : concat (all_units msgs) = concat msgs.
Proof.
  unfold all_units. induction msgs as [|m msgs IH]; [done|].
  cbn [map concat]. by rewrite concat_app, IH, units_concat.
Qed.

Lemma all_units_small msgs : Forall (fun p => length p + 9 < MAX_PACKET) (all_units msgs).
Proof.
  unfold all_units. induction msgs as [|m msgs IH]; [constructor|].
  cbn [map concat]. apply Forall_app. split; [|done].
  eapply Forall_impl; [apply units_small; lia|]. unfold UNIT_LEN, MAX_PACKET. intros p Hp. lia.
Qed.

End Recv.

(** A reference client and the identity the server gives it: the holder of
    the port's password where no user has uid 0 and the mode is not 2, or a
    user of the table with the user's password. *)
Inductive served `{Crypto} (password : string) (k : CipherKind) (us : gmap Z bytes) (multi : Z)
    (c : ClientCodec.t) : option Z -> Prop :=
  | served_single :
      ClientCodec.new_kind password k = Ok c -> us !! 0%Z = None -> multi <> 2%Z ->
      served password k us multi c None
  | served_user uid user_password :
      (1 < uid < 2 ^ 32)%Z -> us !! uid = Some (derive_user_auth_key user_password) ->
      ClientCodec.new_multi_kind password uid user_password k = Ok c ->
      served password k us multi c (Some uid).

Section Main.
Context `{HL : CryptoLaws}.

Lemma served_ready password k us multi c ident :
  let mk := evp_bytes_to_key (string_bytes password) (CipherKind.key_len k) in
  served password k us multi c ident ->
  ready k mk c /\ (0 <= ClientCodec.client_uid c < 2 ^ 32)%Z /\
  key_for mk (ClientCodec.client_iv k) us multi (ClientCodec.client_uid c) =
    (ClientCodec.user_key c, ident).
Proof.
  intros mk [Hc H0 Hm|uid upw Hu Hus Hc].
  - apply bind_inv_Ok in Hc as (enc & Henc & [= <-]). cbn. split_and!; try done.
    unfold key_for, ClientCodec.client_uid. cbn. rewrite H0.
    by rewrite (proj2 (Z.eqb_neq _ _)).
  - apply bind_inv_Ok in Hc as (enc & Henc & [= <-]). split; [done|].
    match goal with |- context [ClientCodec.client_uid ?c] =>
      assert (ClientCodec.client_uid c = uid) as -> end.
    { unfold ClientCodec.client_uid. cbn. by rewrite (proj2 (Z.ltb_lt _ _)) by lia. }
    split; [lia|]. unfold key_for. by rewrite Hus.
Qed.

Lemma end_to_end rnd password us multi k iv c ident p0 ps :
  rnd (CipherKind.iv_len k) = Some iv -> length iv = CipherKind.iv_len k ->
  served password k us multi c ident ->
  auth_len [] p0 < MAX_PACKET -> Forall (fun p => length p + 9 < MAX_PACKET) ps ->
  exists up c1, outcome (ClientCodec.client_stream p0 ps) c = Ok (up, c1) /\
    forall ch chs, concat (ch :: chs) = up ->
      exists s, (s0 ← ServerSession.new rnd password us multi k;
                 outcome (ServerSession.feed (ch :: chs)) s0) = Ok (p0 ++ concat ps, s) /\
        ServerSession.user_id s = ident /\
        forall m msgs, exists down s2,
          outcome (ServerSession.send_all (m :: msgs)) s = Ok (down, s2) /\
          forall ds, concat ds = down ->
            exists c2, outcome (ClientCodec.recv_all ds) c1 = Ok (concat (m :: msgs), c2).
Proof.
  intros Hr Hiv Hs Hp0 Hps.
  destruct (served_ready _ _ _ _ _ _ Hs) as ((Hk & Hmk & Hsiv & Henc & Hpid & Hrib & Hdec & Hrb) & Huid & Hkey).
  destruct (client_stream_spec p0 ps c Huid) as (c1 & -> & Hk1 & Hmk1 & Hrib1 & Hdec1 & Hrb1 & _).
  eexists _, c1. split; [done|]. intros ch chs Hcat.
  destruct (new_fresh rnd password us multi k iv Hr Hiv) as (enc & -> & Hsenc).
  rewrite bind_Ok, feed_outcome, Hcat by apply fresh_swf. rewrite Hsiv, Hmk, Hpid.
  destruct (server_accepts k password us multi iv enc (ClientCodec.client_uid c) p0 ps
    (ClientCodec.encryptor c) Henc Huid Hp0 Hps) as (s & p & Hdecode & Hp & Hid & Hsp & Hsi & Hse & Hem).
  rewrite Hkey in Hdecode, Hid. cbn [fst] in Hdecode. rewrite Hdecode.
  injection Hid as Huk Hui. exists s. split; [done|]. split.
  { unfold ServerSession.user_id. by rewrite Hp, Hui. }
  intros m msgs. destruct (send_all_spec (m :: msgs) s p Hp) as (s2 & ->).
  eexists _, s2. split; [done|]. intros ds Hds. rewrite Hem, Hsi, Hse in Hds.
  rewrite <- (all_units_concat (m :: msgs)).
  eapply (recv_all_iv ds c1 iv k (ClientCodec.master_key c));
    [apply all_units_small|by rewrite Hk1|done|by rewrite Hdec1| | |done| |].
  - by rewrite Hrb1.
  - rewrite Hrib1, Hrib. cbn [length]. rewrite Hiv. destruct k; cbn; lia.
  - rewrite Hmk. exact Hsenc.
  - rewrite Hrib1, Hrib. exact Hds.
Qed.

(** ** Datagrams *)

(** A client's datagram: IV, then the body under the cipher. *)
Definition client_datagram (c : StreamCipher) (iv key : bytes) (uid : Z) (payload : bytes) : bytes :=
  iv ++ (StreamCipher.process c (udp_body key uid payload)).1.

Lemma udp_decrypt_eq mk us multi packet k :
  length mk = CipherKind.key_len k ->
  CipherKind.iv_len k <= length packet ->
  exists c, StreamCipher.new_stream (E:=error) k mk (take (CipherKind.iv_len k) packet) = Ok c /\
    udp_decrypt_packet mk us multi packet k =
      udp_server_post_decrypt mk us multi (take (CipherKind.iv_len k) packet)
        (StreamCipher.process c (drop (CipherKind.iv_len k) packet)).1.
Proof.
  intros Hmk Hl. set (n := CipherKind.iv_len k) in *.
  destruct (new_stream_ok (E:=error) k mk (take n packet) Hmk) as [c Hc].
  { rewrite length_take. fold n. lia. }
  exists c. split; [done|]. unfold udp_decrypt_packet. fold n.
  rewrite (proj2 (Nat.ltb_ge _ _)) by done. cbn [bail_if]. rewrite bind_Ok, slice_ok, bind_Ok by lia.
  rewrite slice_from_ok, bind_Ok by done.
  replace (sub packet 0 n) with (take n packet) by (unfold sub; by rewrite Nat.sub_0_r, drop_0).
  by rewrite Hc.
Qed.

Lemma udp_decrypt_safe mk us multi packet k :
  length mk = CipherKind.key_len k -> safe (fun _ => True) (udp_decrypt_packet mk us multi packet k).
Proof.
  intros Hmk. destruct (Nat.ltb_spec (length packet) (CipherKind.iv_len k)) as [Hl|Hl].
  - unfold udp_decrypt_packet. by rewrite (proj2 (Nat.ltb_lt _ _)) by done.
  - destruct (udp_decrypt_eq mk us multi packet k Hmk Hl) as (c & _ & ->).
    rewrite udp_post_decrypt_eq. cbv zeta. destruct (_ <? 8); [done|]. by destruct (mac_ok _ _ _ _).
Qed.

Lemma udp_client_to_server mk us multi k iv c uid payload :
  length mk = CipherKind.key_len k -> length iv = CipherKind.iv_len k ->
  (0 <= uid < 2 ^ 32)%Z -> StreamCipher.new_stream (E:=error) k mk iv = Ok c ->
  udp_decrypt_packet mk us multi
    (client_datagram c iv (udp_key_for mk iv us multi uid).1 uid payload) k =
    Ok (payload, (udp_key_for mk iv us multi uid).2).
Proof.
  intros Hmk Hiv Huid Hc. unfold client_datagram.
  set (body := udp_body _ _ _). set (enc := (StreamCipher.process c body).1).
  destruct (udp_decrypt_eq mk us multi (iv ++ enc) k Hmk) as (c' & Hc' & ->);
    [rewrite length_app; lia|].
  rewrite <- Hiv, take_app_length, drop_app_length in *. rewrite Hc in Hc'. injection Hc' as <-.
  unfold enc. rewrite (process_cancel StreamCipher.process). by apply udp_body_accepted.
Qed.

Lemma udp_server_to_client rnd mk key data k iv :
  length mk = CipherKind.key_len k -> rnd (CipherKind.iv_len k) = Some iv ->
  length iv = CipherKind.iv_len k ->
  exists packet c, udp_encrypt_packet rnd mk key data k = Ok packet /\
    take (CipherKind.iv_len k) packet = iv /\ StreamCipher.new_stream (E:=error) k mk iv = Ok c /\
    (StreamCipher.process c (drop (CipherKind.iv_len k) packet)).1 =
      data ++ hmac_md5_prefix key data 4.
Proof.
  intros Hmk Hr Hiv. destruct (new_stream_ok (E:=error) k mk iv Hmk Hiv) as [c Hc].
  unfold udp_encrypt_packet, getrandom. rewrite Hr, bind_Ok, Hc, bind_Ok.
  eexists _, c. split; [done|]. rewrite <- Hiv, take_app_length, drop_app_length.
  by rewrite (process_cancel StreamCipher.process).
Qed.

End Main.

(** ** Properties *)

Import Toy.

(** C1 End to end over TCP, for both ciphers: whatever the reference client
    sends (the first payload in its auth packet, further data packets), cut
    into chunks anywhere, the server session decrypts to exactly those
    payloads and knows the client's identity; and whatever messages (of any
    length) the server then sends, cut anywhere, the client receives
    exactly them. *)
Theorem tcp_end_to_end `{HL : CryptoLaws} rnd password us multi k iv c ident p0 ps
    (Hr : rnd (CipherKind.iv_len k) = Some iv) (Hiv : length iv = CipherKind.iv_len k)
    (Hs : served password k us multi c ident)
    (Hp0 : auth_len [] p0 < MAX_PACKET) (Hps : Forall (fun p => length p + 9 < MAX_PACKET) ps) :
  exists up c1, outcome (ClientCodec.client_stream p0 ps) c = Ok (up, c1) /\
    forall ch chs, concat (ch :: chs) = up ->
      exists s, (s0 ← ServerSession.new rnd password us multi k;
                 outcome (ServerSession.feed (ch :: chs)) s0) = Ok (p0 ++ concat ps, s) /\
        ServerSession.user_id s = ident /\
        forall m msgs, exists down s2,
          outcome (ServerSession.send_all (m :: msgs)) s = Ok (down, s2) /\
          forall ds, concat ds = down ->
            exists c2, outcome (ClientCodec.recv_all ds) c1 = Ok (concat (m :: msgs), c2).
Proof. by apply end_to_end with (iv := iv). Qed.

(** The client of the witness. *)
Definition toy_client (k : CipherKind) : ClientCodec.t :=
  match ClientCodec.new_multi_kind "carrier" 42 "p" k with
  | Ok c => c
  | _ =>
      let rc4 := {| Rc4.rc4_s := []; Rc4.rc4_i := Byte.x00; Rc4.rc4_j := Byte.x00 |} in
      ClientCodec.Build_t k [] [] (StreamCipher.Rc4 {| Rc4.rc4 := rc4 |} : StreamCipher.t) false 0 [] None 0 [] []
  end.

Lemma toy_client_ok k : ClientCodec.new_multi_kind "carrier" 42 "p" k = Ok (toy_client k).
Proof.
  unfold toy_client, ClientCodec.new_multi_kind.
  destruct (new_stream_ok (HL:=crypto_laws) (E:=error) k
    (evp_bytes_to_key (string_bytes "carrier") (CipherKind.key_len k)) (ClientCodec.client_iv k))
    as [c ->]; [apply length_evp_bytes_to_key|apply repeat_length|done].
Qed.

Lemma tcp_end_to_end_witness :
  exists up c1, outcome (ClientCodec.client_stream [Byte.x01] [[Byte.x02]; [Byte.x03]])
      (toy_client CipherKind.Chacha20Ietf) = Ok (up, c1) /\
    forall ch chs, concat (ch :: chs) = up ->
      exists s, (s0 ← ServerSession.new toy_rnd "carrier" toy_users 2 CipherKind.Chacha20Ietf;
                 outcome (ServerSession.feed (ch :: chs)) s0) =
          Ok ([Byte.x01] ++ concat [[Byte.x02]; [Byte.x03]], s) /\
        ServerSession.user_id s = Some 42%Z /\
        forall m msgs, exists down s2,
          outcome (ServerSession.send_all (m :: msgs)) s = Ok (down, s2) /\
          forall ds, concat ds = down ->
            exists c2, outcome (ClientCodec.recv_all ds) c1 = Ok (concat (m :: msgs), c2).
Proof.
  apply (tcp_end_to_end (HL:=crypto_laws)) with (iv := repeat Byte.x0a 12).
  - reflexivity.
  - reflexivity.
  - apply (served_user _ _ _ _ _ 42 "p"); [lia|vm_compute; reflexivity|apply toy_client_ok].
  - compute_done.
  - constructor; [compute_done|constructor; [compute_done|constructor]].
Defined.

(** C23 End to end over UDP, for both ciphers: a datagram the client signs
    with the key the server selects for its uid decodes to its payload and
    identity (the user's key for a known uid, and the port's key in
    single-user mode); a reply decrypts, under the IV it carries, to the
    data followed by its MAC under the given user key; and no datagram
    makes the decoder panic. *)
Theorem udp_end_to_end `{HL : CryptoLaws} rnd password us multi k iv civ uid payload key data c
    (Hr : rnd (CipherKind.iv_len k) = Some iv) (Hiv : length iv = CipherKind.iv_len k)
    (Hciv : length civ = CipherKind.iv_len k) (Huid : (0 <= uid < 2 ^ 32)%Z)
    (Hc : StreamCipher.new_stream (E:=error) k (derive_master_key password k) civ = Ok c) :
  let mk := derive_master_key password k in
  udp_decrypt_packet mk us multi
    (client_datagram c civ (udp_key_for mk civ us multi uid).1 uid payload) k =
    Ok (payload, (udp_key_for mk civ us multi uid).2) /\
  (exists packet c', udp_encrypt_packet rnd mk key data k = Ok packet /\
    take (CipherKind.iv_len k) packet = iv /\ StreamCipher.new_stream (E:=error) k mk iv = Ok c' /\
    (StreamCipher.process c' (drop (CipherKind.iv_len k) packet)).1 =
      data ++ hmac_md5_prefix key data 4) /\
  (forall packet, safe (fun _ => True) (udp_decrypt_packet mk us multi packet k)).
Proof.
  intros mk. assert (length mk = CipherKind.key_len k) as Hmk by apply length_evp_bytes_to_key.
  split_and!.
  - by apply udp_client_to_server.
  - by apply udp_server_to_client.
  - intros packet. by apply udp_decrypt_safe.
Qed.

Lemma udp_end_to_end_witness :
  exists c, StreamCipher.new_stream (E:=error) CipherKind.Rc4Md5
      (derive_master_key "carrier" CipherKind.Rc4Md5) toy_iv = Ok c /\
  udp_decrypt_packet (derive_master_key "carrier" CipherKind.Rc4Md5) toy_users 2
    (client_datagram c toy_iv (digest [Byte.x70]) 42 [Byte.x05]) CipherKind.Rc4Md5 =
    Ok ([Byte.x05], Some 42%Z).
Proof.
  destruct (new_stream_ok (HL:=crypto_laws) (E:=error) CipherKind.Rc4Md5
    (derive_master_key "carrier" CipherKind.Rc4Md5) toy_iv) as [c Hc]; [reflexivity|reflexivity|].
  exists c. split; [exact Hc|].
  exact (proj1 (udp_end_to_end (HL:=crypto_laws) toy_rnd "carrier" toy_users 2 CipherKind.Rc4Md5
    (repeat Byte.x0a 16) toy_iv 42 [Byte.x05] [] [] c eq_refl eq_refl eq_refl ltac:(lia) Hc)).
Defined.
