(* ===== verification/Policy.v ===== *)
(** * Per-user policy ([src/src/policy.rs])

    CIDR blocks, port ranges and [UserPolicy], parsed from the panel's
    rows.  The theorems give the meaning of the bit masks (membership is
    equality of the leading bits, across IPv4 and IPv4-mapped addresses), of
    the comma-separated lists, and of the derived limits. *)

From S2P Require Import Prelude Str Float Net Panel.

(** [struct EnforcementConfig]. *)
Record EnforcementConfig : Type := {
  ec_forbidden : bool; ec_conn_limit : bool; ec_audit_block : bool; ec_speed : bool
}.

(** [u32::MAX << k] and [u128::MAX << k]. *)
Definition shl_max (width k : Z) : Z := Z.land (Z.shiftl (2 ^ width - 1) k) (2 ^ width - 1).

(** [v4_in] and [v6_in].  [prefix] is at most the width for every [Cidr]
    that [Cidr::parse] builds, so the subtraction does not underflow. *)
Definition v4_in (base ip prefix : Z) : bool :=
  if (prefix =? 0)%Z then true
  else
    let mask := shl_max 32 (32 - prefix) in
    (Z.land base mask =? Z.land ip mask)%Z.

Definition v6_in (base ip prefix : Z) : bool :=
  if (prefix =? 0)%Z then true
  else
    let mask := shl_max 128 (128 - prefix) in
    (Z.land base mask =? Z.land ip mask)%Z.

(** [struct Cidr]. *)
Module Cidr.

Record t : Type := { base : IpAddr; prefix : Z }.

#[global] Instance eq_dec : EqDecision t.
Proof. solve_decision. Defined.

(** [Cidr::parse]. *)
Definition parse (text : string) : option t :=
  let text := trim text in
  if str_is_empty text then None
  else
    let '(addr_part, prefix_part) :=
      match split_once "/" text with Some (a, p) => (a, Some p) | None => (text, None) end in
    base ← parse_ip (trim addr_part);
    let max := (if is_ipv4 base then 32 else 128)%Z in
    prefix ← (match prefix_part with
      | Some p => n ← parse_u8 (trim p); if (max <? n)%Z then None else Some n
      | None => Some max
      end);
    Some {| base := base; prefix := prefix |}.

(** [Cidr::contains]. *)
Definition contains (c : t) (ip : IpAddr) : bool :=
  match base c, ip with
  | V4 base, V4 ip => v4_in base ip (prefix c)
  | V6 base, V6 ip => v6_in base ip (prefix c)
  | V4 base, V6 ip =>
      match v6_to_ipv4_mapped ip with
      | Some ip4 => v4_in base ip4 (prefix c)
      | None => false
      end
  | V6 base, V4 ip => v6_in base (v4_to_ipv6_mapped ip) (prefix c)
  end.

End Cidr.

(** [struct PortRange]. *)
Module PortRange.

Record t : Type := { start : Z; end_ : Z }.

#[global] Instance eq_dec : EqDecision t.
Proof. solve_decision. Defined.

(** [PortRange::parse]. *)
Definition parse (text : string) : option t :=
  let text := trim text in
  if str_is_empty text then None
  else match split_once "-" text with
    | Some (a, b) =>
        start ← parse_u16 (trim a);
        end_ ← parse_u16 (trim b);
        let '(start, end_) := if (start <=? end_)%Z then (start, end_) else (end_, start) in
        Some {| start := start; end_ := end_ |}
    | None => p ← parse_u16 text; Some {| start := p; end_ := p |}
    end.

(** [PortRange::contains]. *)
Definition contains (r : t) (port : Z) : bool := ((start r <=? port) && (port <=? end_ r))%Z.

End PortRange.

(** [parse_list]. *)
Definition parse_list {T} (raw : option string) (parse : string -> option T) : list T :=
  match raw with
  | None => []
  | Some raw =>
      omap (fun item => let item := trim item in
              if str_is_empty item then None else parse item) (split "," raw)
  end.

(** [struct UserPolicy]. *)
Module UserPolicy.

Record t : Type := {
  speed_limit_bps : Z;
  conn_limit : Z;
  forbidden_ips : list Cidr.t;
  forbidden_ports : list PortRange.t
}.

#[global] Instance eq_dec : EqDecision t.
Proof. solve_decision. Defined.

(** [Default]. *)
Definition default_policy : t :=
  {| speed_limit_bps := 0; conn_limit := 0; forbidden_ips := []; forbidden_ports := [] |}.

(** [UserPolicy::from_user]. *)
Definition from_user (u : PanelUser) : t :=
  let mbits := f64_max (default f64_zero (pu_node_speedlimit u)) f64_zero in
  {| speed_limit_bps :=
       f64_as_u64 (f64_div (f64_mul (f64_mul mbits (f64_of_Z 1024)) (f64_of_Z 1024)) (f64_of_Z 8));
     conn_limit := (Z.max (default 0 (pu_node_connector u)) 0 mod 2 ^ 32)%Z;
     forbidden_ips := parse_list (pu_forbidden_ip u) Cidr.parse;
     forbidden_ports := parse_list (pu_forbidden_port u) PortRange.parse |}.

Definition list_is_empty {A} (l : list A) : bool := match l with [] => true | _ => false end.

Definition is_unrestricted (p : t) : bool :=
  (speed_limit_bps p =? 0)%Z && (conn_limit p =? 0)%Z &&
  list_is_empty (forbidden_ips p) && list_is_empty (forbidden_ports p).

Definition needs_connection_policy (p : t) : bool :=
  (0 <? conn_limit p)%Z || negb (list_is_empty (forbidden_ips p)) ||
  negb (list_is_empty (forbidden_ports p)).

Definition port_forbidden (p : t) (port : Z) : bool :=
  existsb (fun r => PortRange.contains r port) (forbidden_ports p).

Definition ip_forbidden (p : t) (ip : IpAddr) : bool :=
  existsb (fun c => Cidr.contains c ip) (forbidden_ips p).

Definition has_forbidden_ip (p : t) : bool := negb (list_is_empty (forbidden_ips p)).

End UserPolicy.

(** ** Specification *)

(** A CIDR that [parse] builds. *)
Definition cidr_wf (c : Cidr.t) : Prop :=
  ip_wf (Cidr.base c) /\
  (0 <= Cidr.prefix c <= if is_ipv4 (Cidr.base c) then 32 else 128)%Z.

(** The 128-bit form of an address in which IPv4 is [::ffff:a.b.c.d]. *)
Definition as_v6 (ip : IpAddr) : Z :=
  match ip with V4 a => v4_to_ipv6_mapped a | V6 a => a end.

(** Membership as an address range: the network of [base] under [prefix]
    is the block of [2 ^ (128 - prefix)] addresses around it. *)
Definition cidr_spec (c : Cidr.t) (ip : IpAddr) : bool :=
  let host_bits := (match Cidr.base c with V4 _ => 32 | V6 _ => 128 end - Cidr.prefix c)%Z in
  (as_v6 (Cidr.base c) / 2 ^ host_bits =? as_v6 ip / 2 ^ host_bits)%Z.

(** The items of a list the panel sends that count: those that parse. *)
Definition listed {T} (parse : string -> option T) (raw : option string) (x : T) : Prop :=
  exists text item, raw = Some text /\ item ∈ split "," text /\
    trim item <> "" /\ parse (trim item) = Some x.

(** ** Lemmas on masks *)

Lemma shl_max_testbit w k i :
  (0 <= k <= w)%Z -> (0 <= i)%Z ->
  Z.testbit (shl_max w k) i = (k <=? i)%Z && (i <? w)%Z.
Proof.
  intros Hk Hi. unfold shl_max.
  replace (2 ^ w - 1)%Z with (Z.ones w) by (rewrite Z.ones_equiv; lia).
  rewrite Z.land_spec, Z.shiftl_spec by lia.
  destruct (Z.ltb_spec i w).
  - rewrite (Z.ones_spec_low w i), andb_true_r by lia.
    destruct (Z.leb_spec k i); [by rewrite Z.ones_spec_low by lia|].
    by rewrite Z.testbit_neg_r by lia.
  - by rewrite (Z.ones_spec_high w i), !andb_false_r by lia.
Qed.

Lemma masked_eq w k a b :
  (0 <= k <= w)%Z -> (0 <= a < 2 ^ w)%Z -> (0 <= b < 2 ^ w)%Z ->
  (Z.land a (shl_max w k) =? Z.land b (shl_max w k))%Z = (a / 2 ^ k =? b / 2 ^ k)%Z.
Proof.
  intros Hk Ha Hb. apply eq_true_iff_eq. rewrite !Z.eqb_eq.
  assert (forall n x, (0 <= x < 2 ^ w -> 0 <= n -> w <= n -> Z.testbit x n = false)%Z) as Hhigh.
  { intros n x Hx Hn Hw. destruct (decide (x = 0%Z)) as [->|]; [apply Z.bits_0|].
    apply Z.bits_above_log2; [lia|]. apply Z.log2_lt_pow2; [lia|].
    apply Z.lt_le_trans with (2 ^ w)%Z; [lia|]. apply Z.pow_le_mono_r; lia. }
  rewrite <- !Z.shiftr_div_pow2 by lia. split; intros Heq; apply Z.bits_inj'; intros n Hn.
  - rewrite !Z.shiftr_spec by lia.
    apply (f_equal (fun x => Z.testbit x (n + k))) in Heq. rewrite !Z.land_spec in Heq.
    rewrite !shl_max_testbit in Heq by lia.
    rewrite (proj2 (Z.leb_le k (n + k))) in Heq by lia. cbn [andb] in Heq.
    destruct (Z.ltb_spec (n + k) w).
    + by rewrite !andb_true_r in Heq.
    + by rewrite !Hhigh by lia.
  - rewrite !Z.land_spec, !shl_max_testbit by lia.
    destruct (Z.leb_spec k n); [|by rewrite !andb_false_r].
    apply (f_equal (fun x => Z.testbit x (n - k))) in Heq. rewrite !Z.shiftr_spec in Heq by lia.
    replace (n - k + k)%Z with n in Heq by lia. by rewrite Heq.
Qed.

Lemma v4_in_div base ip prefix :
  (0 <= base < 2 ^ 32)%Z -> (0 <= ip < 2 ^ 32)%Z -> (0 <= prefix <= 32)%Z ->
  v4_in base ip prefix = (base / 2 ^ (32 - prefix) =? ip / 2 ^ (32 - prefix))%Z.
Proof.
  intros Hb Hi Hp. unfold v4_in. destruct (Z.eqb_spec prefix 0) as [->|].
  - change (32 - 0)%Z with 32%Z. by rewrite !Z.div_small by lia.
  - cbv zeta. apply masked_eq; lia.
Qed.

Lemma v6_in_div base ip prefix :
  (0 <= base < 2 ^ 128)%Z -> (0 <= ip < 2 ^ 128)%Z -> (0 <= prefix <= 128)%Z ->
  v6_in base ip prefix = (base / 2 ^ (128 - prefix) =? ip / 2 ^ (128 - prefix))%Z.
Proof.
  intros Hb Hi Hp. unfold v6_in. destruct (Z.eqb_spec prefix 0) as [->|].
  - change (128 - 0)%Z with 128%Z. by rewrite !Z.div_small by lia.
  - cbv zeta. apply masked_eq; lia.
Qed.

(** ** Lemmas on mapped addresses *)

Lemma v4_to_ipv6_mapped_add a : (0 <= a < 2 ^ 32)%Z -> v4_to_ipv6_mapped a = (65535 * 2 ^ 32 + a)%Z.
Proof.
  intros Ha. unfold v4_to_ipv6_mapped. rewrite Z.shiftl_mul_pow2 by lia.
  rewrite <- Z.add_lor_land.
  assert (Z.land (65535 * 2 ^ 32) a = 0)%Z as ->; [|lia].
  apply Z.bits_inj'. intros n Hn. rewrite Z.land_spec, Z.bits_0.
  destruct (Z.ltb_spec n 32).
  - by rewrite Z.mul_pow2_bits_low by lia.
  - destruct (decide (a = 0%Z)) as [->|]; [by rewrite Z.bits_0, andb_false_r|].
    rewrite (Z.bits_above_log2 a n), andb_false_r; [done|lia|].
    apply Z.log2_lt_pow2; [lia|]. apply Z.lt_le_trans with (2 ^ 32)%Z; [lia|].
    apply Z.pow_le_mono_r; lia.
Qed.

Lemma v6_to_mapped_inv a v4 :
  (0 <= a < 2 ^ 128)%Z -> v6_to_ipv4_mapped a = Some v4 ->
  (0 <= v4 < 2 ^ 32)%Z /\ a = v4_to_ipv6_mapped v4.
Proof.
  intros Ha. unfold v6_to_ipv4_mapped. destruct (Z.eqb_spec (Z.shiftr a 32) 65535) as [Heq|]; [|done].
  intros [= <-]. change (2 ^ 32 - 1)%Z with (Z.ones 32). rewrite Z.land_ones by lia.
  pose proof (Z.mod_pos_bound a (2 ^ 32)). split; [lia|].
  rewrite v4_to_ipv6_mapped_add by lia. rewrite Z.shiftr_div_pow2 in Heq by lia.
  rewrite (Z.div_mod a (2 ^ 32)) at 1 by lia. lia.
Qed.

Lemma v6_to_mapped_none a :
  v6_to_ipv4_mapped a = None -> (a / 2 ^ 32 <> 65535)%Z.
Proof.
  unfold v6_to_ipv4_mapped. destruct (Z.eqb_spec (Z.shiftr a 32) 65535); [done|].
  by rewrite Z.shiftr_div_pow2 in * by lia.
Qed.

(** Adding the mapping prefix on both sides does not change the block. *)
Lemma mapped_block a b k :
  (0 <= k <= 32)%Z -> (0 <= a < 2 ^ 32)%Z -> (0 <= b < 2 ^ 32)%Z ->
  (v4_to_ipv6_mapped a / 2 ^ k =? v4_to_ipv6_mapped b / 2 ^ k)%Z = (a / 2 ^ k =? b / 2 ^ k)%Z.
Proof.
  intros Hk Ha Hb. rewrite !v4_to_ipv6_mapped_add by done.
  replace (2 ^ 32)%Z with (2 ^ (32 - k) * 2 ^ k)%Z by (rewrite <- Z.pow_add_r by lia; f_equal; lia).
  rewrite !Z.mul_assoc, !Z.div_add_l by (apply Z.pow_nonzero; lia).
  apply eq_true_iff_eq. rewrite !Z.eqb_eq. lia.
Qed.

Lemma div_div_pow2 a k : (0 <= k <= 32)%Z -> (a / 2 ^ 32 = a / 2 ^ k / 2 ^ (32 - k))%Z.
Proof.
  intros Hk. rewrite Z.div_div by (apply Z.pow_nonzero || apply Z.pow_pos_nonneg; lia).
  rewrite <- Z.pow_add_r by lia. do 2 f_equal. lia.
Qed.

Lemma cidr_contains_spec c ip : cidr_wf c -> ip_wf ip -> Cidr.contains c ip = cidr_spec c ip.
Proof.
  intros [Hb Hp] Hip. unfold Cidr.contains, cidr_spec.
  destruct (Cidr.base c) as [b|b] eqn:Hbase, ip as [a|a]; cbn [is_ipv4 ip_wf as_v6] in *.
  - rewrite v4_in_div, mapped_block by lia. done.
  - destruct (v6_to_ipv4_mapped a) as [a4|] eqn:Hm.
    + apply v6_to_mapped_inv in Hm as [H4 ->]; [|done]. rewrite v4_in_div, mapped_block by lia. done.
    + apply v6_to_mapped_none in Hm. symmetry. apply Z.eqb_neq. intros Heq. apply Hm.
      rewrite (div_div_pow2 a (32 - Cidr.prefix c)), <- Heq, <- div_div_pow2 by lia.
      rewrite v4_to_ipv6_mapped_add by done. rewrite Z.div_add_l, Z.div_small by lia. done.
  - apply v6_in_div; [lia| |lia]. rewrite v4_to_ipv6_mapped_add by done. lia.
  - apply v6_in_div; lia.
Qed.

(** ** Lemmas on parsing *)

Lemma cidr_parse_wf text c : Cidr.parse text = Some c -> cidr_wf c.
Proof.
  unfold Cidr.parse. case_match; [done|].
  destruct (match split_once _ _ with Some _ => _ | None => _ end) as [ap pp].
  intros (b & Hb%parse_ip_wf & (p & Hp & [= <-])%bind_Some)%bind_Some.
  split; [done|]. cbn [Cidr.prefix Cidr.base]. destruct pp as [pp|].
  - apply bind_Some in Hp as (n & Hn & Hp). apply parse_uint_bound in Hn; [|lia].
    revert Hp. destruct (Z.ltb_spec (if is_ipv4 b then 32 else 128) n); [done|]. intros [= <-].
    by destruct (is_ipv4 b); lia.
  - injection Hp as <-. by destruct (is_ipv4 b).
Qed.

Lemma parse_list_listed {T} (parse : string -> option T) raw x :
  x ∈ parse_list raw parse <-> listed parse raw x.
Proof.
  unfold parse_list, listed. destruct raw as [text|].
  - rewrite list_elem_of_omap. split.
    + intros (item & Hin & Hp). exists text, item. split_and!; [done|done| |].
      * intros Hnil. by rewrite Hnil in Hp.
      * by destruct (trim item).
    + intros (? & item & [= <-] & Hin & Hne & Hp). exists item. split; [done|].
      by destruct (trim item).
  - split; [by intros ?%not_elem_of_nil|]. by intros (? & ? & ? & _).
Qed.

Lemma existsb_listed {T} (parse : string -> option T) raw (f : T -> bool) :
  existsb f (parse_list raw parse) = true <-> exists x, listed parse raw x /\ f x = true.
Proof.
  rewrite existsb_exists. setoid_rewrite <- parse_list_listed.
  by setoid_rewrite list_elem_of_In.
Qed.

(** ** Properties *)

(** C37 Membership in a CIDR that [Cidr::parse] accepts is membership in
    its address block: the mask arithmetic on [u32] and [u128], the [/0]
    special case and the four combinations of families all mean that the
    two addresses agree above the host bits, IPv4 being the IPv4-mapped
    part of IPv6. *)
Theorem cidr_contains_block text c ip
    (Hc : Cidr.parse text = Some c) (Hip : ip_wf ip) :
  cidr_wf c /\ Cidr.contains c ip = cidr_spec c ip.
Proof.
  apply cidr_parse_wf in Hc. split; [done|]. by apply cidr_contains_spec.
Qed.

Lemma cidr_contains_block_witness :
  exists c, Cidr.parse " 10.0.0.0/8 " = Some c /\ Cidr.contains c (V6 281470849613569) = true.
Proof.
  eexists. split; [vm_compute; reflexivity|]. etransitivity.
  - apply (fun H => proj2 (cidr_contains_block " 10.0.0.0/8 " _ (V6 281470849613569) H
      ltac:(split; [lia|reflexivity]))). vm_compute. reflexivity.
  - vm_compute. reflexivity.
Defined.

(** The lists decide as written: a target address is forbidden exactly
    when some item of the panel's [forbidden_ip] parses to a block that
    holds it, a port exactly when some item of [forbidden_port] parses to a
    range that holds it; items that do not parse have no effect; and the
    derived caps are the panel's values (a missing or negative connector is
    no cap, a missing, negative or NaN speed is no limit). *)
Theorem policy_from_user_spec u port ip (Hip : ip_wf ip) :
  let p := UserPolicy.from_user u in
  (UserPolicy.ip_forbidden p ip = true <->
    exists c, listed Cidr.parse (pu_forbidden_ip u) c /\ cidr_spec c ip = true) /\
  (UserPolicy.port_forbidden p port = true <->
    exists r, listed PortRange.parse (pu_forbidden_port u) r /\
      (PortRange.start r <= port <= PortRange.end_ r)%Z) /\
  (forall n, default 0%Z (pu_node_connector u) = n -> (n < 2 ^ 32)%Z ->
    UserPolicy.conn_limit p = Z.max n 0) /\
  (0 <= UserPolicy.speed_limit_bps p <= U64_MAX)%Z /\
  (f64_ltb f64_zero (default f64_zero (pu_node_speedlimit u)) = false ->
    UserPolicy.speed_limit_bps p = 0%Z).
Proof.
  cbv zeta. split; [|split; [|split; [|split]]].
  - unfold UserPolicy.ip_forbidden, UserPolicy.from_user. cbn [UserPolicy.forbidden_ips].
    rewrite existsb_listed. split; intros (c & Hl & Hc); exists c; (split; [done|]);
      pose proof Hl as (? & ? & _ & _ & _ & Hp%cidr_parse_wf); revert Hc;
      by rewrite cidr_contains_spec.
  - unfold UserPolicy.port_forbidden, UserPolicy.from_user. cbn [UserPolicy.forbidden_ports].
    rewrite existsb_listed. unfold PortRange.contains.
    setoid_rewrite andb_true_iff. by setoid_rewrite Z.leb_le.
  - intros n <- Hn. cbn [UserPolicy.conn_limit UserPolicy.from_user].
    apply Z.mod_small. lia.
  - apply f64_as_u64_range.
  - intros Hs. unfold UserPolicy.from_user. cbv zeta. cbn [UserPolicy.speed_limit_bps].
    assert (exists s, f64_max (default f64_zero (pu_node_speedlimit u)) f64_zero = S754_zero s)
      as [s ->]; [|by destruct s].
    destruct (default f64_zero (pu_node_speedlimit u)) as [s|[]| |[] m e]; try done; by eexists.
Qed.

(** A rate is a [u64]. *)
Lemma speed_limit_range u :
  (0 <= UserPolicy.speed_limit_bps (UserPolicy.from_user u) <= U64_MAX)%Z.
Proof. apply f64_as_u64_range. Qed.

(** The row of the unit test. *)
Definition test_row : PanelUser :=
  {| pu_id := 1477; pu_user_id := None; pu_port := 558; pu_password := "x"; pu_method := None;
     pu_protocol := None; pu_protocol_param := None; pu_obfs := None; pu_obfs_param := None;
     pu_enable := Some 1%Z; pu_is_multi_user := 0; pu_node_speedlimit := None;
     pu_node_connector := Some 4%Z; pu_forbidden_ip := Some "127.0.0.0/8,::1/128";
     pu_forbidden_port := Some "" |}.

Lemma policy_from_user_spec_witness :
  UserPolicy.conn_limit (UserPolicy.from_user test_row) = 4%Z /\
  UserPolicy.ip_forbidden (UserPolicy.from_user test_row) (V6 1) = true.
Proof.
  split.
  - exact (proj1 (proj2 (proj2 (policy_from_user_spec test_row 0 (V4 0) ltac:(split; [lia|reflexivity]))))
      4%Z eq_refl ltac:(lia)).
  - apply (proj1 (policy_from_user_spec test_row 0 (V6 1) ltac:(split; [lia|reflexivity]))).
    exists {| Cidr.base := V6 1; Cidr.prefix := 128 |}. split; [|vm_compute; reflexivity].
    exists "127.0.0.0/8,::1/128", "::1/128". split_and!; [reflexivity| |discriminate|vm_compute; reflexivity].
    vm_compute. right. left.
Defined.

(** [needs_connection_policy] is the right gate for the relay: it does
    not depend on the speed limit, and a user for whom it is false has no
    control to enforce at connection time (every port and address allowed,
    no cap on devices). *)
Theorem needs_connection_policy_gate p speed :
  UserPolicy.needs_connection_policy
    {| UserPolicy.speed_limit_bps := speed; UserPolicy.conn_limit := UserPolicy.conn_limit p;
       UserPolicy.forbidden_ips := UserPolicy.forbidden_ips p;
       UserPolicy.forbidden_ports := UserPolicy.forbidden_ports p |} =
    UserPolicy.needs_connection_policy p /\
  (UserPolicy.needs_connection_policy p = false <->
    (UserPolicy.conn_limit p <= 0)%Z /\ UserPolicy.forbidden_ips p = [] /\
    UserPolicy.forbidden_ports p = []) /\
  (UserPolicy.needs_connection_policy p = false ->
    forall port ip, UserPolicy.port_forbidden p port = false /\ UserPolicy.ip_forbidden p ip = false).
Proof.
  assert (UserPolicy.needs_connection_policy p = false <->
    (UserPolicy.conn_limit p <= 0)%Z /\ UserPolicy.forbidden_ips p = [] /\
    UserPolicy.forbidden_ports p = []) as Hn.
  { unfold UserPolicy.needs_connection_policy. rewrite !orb_false_iff, Z.ltb_ge, !negb_false_iff.
    destruct (UserPolicy.forbidden_ips p), (UserPolicy.forbidden_ports p); naive_solver. }
  split_and!; [done|done|]. intros (_ & Hi & Ht)%Hn port ip.
  unfold UserPolicy.port_forbidden, UserPolicy.ip_forbidden. by rewrite Hi, Ht.
Qed.

Lemma needs_connection_policy_gate_witness :
  UserPolicy.port_forbidden UserPolicy.default_policy 25 = false.
Proof.
  exact (proj1 (proj2 (proj2 (needs_connection_policy_gate UserPolicy.default_policy 5)) eq_refl 25%Z (V4 0))).
Defined.

Example policy_examples :
  (c ← Cidr.parse "127.0.0.0/8"; Some (Cidr.contains c (V4 2130706433))) = Some true /\
  Cidr.parse "1.2.3.4/33" = None /\ PortRange.parse "2000-1000" =
    Some {| PortRange.start := 1000; PortRange.end_ := 2000 |} /\
  UserPolicy.conn_limit (UserPolicy.from_user
    {| pu_id := 1; pu_user_id := None; pu_port := 1; pu_password := "x"; pu_method := None;
       pu_protocol := None; pu_protocol_param := None; pu_obfs := None; pu_obfs_param := None;
       pu_enable := None; pu_is_multi_user := 0; pu_node_speedlimit := Some (f64_of_Z 1);
       pu_node_connector := Some 4294967296%Z; pu_forbidden_ip := None;
       pu_forbidden_port := None |}) = 0%Z.
Proof. vm_compute. done. Qed.
