(* ===== verification/Traffic.v ===== *)
(** * Traffic accounting ([TrafficLedger] in [src/src/traffic.rs])

    Counters are shared: the ledger and every relay of a user hold the same
    [Arc<UserCounters>], so a counter is a location of a heap and the relays
    add to it without the ledger's lock.  The main theorem is conservation
    under interleaving: what was recorded on a user's counters has been
    reported exactly once or is pending, whatever is recorded while deltas
    are being collected and reported, and however often a report fails. *)

From S2P Require Import Prelude.

Definition u64_modulus : Z := 18446744073709551616.

(** Iteration over a [HashMap] visits every entry once, in an order that
    the program does not control. *)
Class HashOrder : Type := {
  hash_iter {K V} `{Countable K} : gmap K V -> list (K * V);
  hash_iter_perm {K V} `{Countable K} (m : gmap K V) : hash_iter m ≡ₚ map_to_list m
}.

(** One concrete order. *)
Definition key_order : HashOrder :=
  {| hash_iter := fun K V _ _ m => map_to_list m; hash_iter_perm := fun K V _ _ m => reflexivity _ |}.

(** ** Counters *)

(** [struct UserCounters] (two [AtomicU64]) and [struct CounterSnapshot]. *)
Record UserCounters : Type := { upload : Z; download : Z }.
Record CounterSnapshot : Type := { snap_upload : Z; snap_download : Z }.

Definition zero_counters : UserCounters := {| upload := 0; download := 0 |}.
Definition zero_snapshot : CounterSnapshot := {| snap_upload := 0; snap_download := 0 |}.

(** [fetch_add] wraps. *)
Definition fetch_add (a n : Z) : Z := ((a + n) mod u64_modulus)%Z.

(** [record_upload] and [record_download]. *)
Definition record_upload (n : nat) (c : UserCounters) : UserCounters :=
  {| upload := fetch_add (upload c) (Z.of_nat n); download := download c |}.
Definition record_download (n : nat) (c : UserCounters) : UserCounters :=
  {| upload := upload c; download := fetch_add (download c) (Z.of_nat n) |}.

(** [u64::saturating_sub]. *)
Definition saturating_sub (a b : Z) : Z := Z.max 0 (a - b).

(** [struct TrafficDelta]. *)
Record TrafficDelta : Type := {
  td_user_id : Z; td_upload : Z; td_download : Z; td_checkpoint : CounterSnapshot
}.

(** ** The heap of counters *)

Abbreviation heap := (gmap nat UserCounters) (only parsing).

(** One atomic addition by a relay: on the counters at [loc], in one of the
    two directions. *)
Record addition : Set := { add_loc : nat; add_up : bool; add_bytes : nat }.

Definition add (a : addition) (h : heap) : heap :=
  alter (if add_up a then record_upload (add_bytes a) else record_download (add_bytes a)) (add_loc a) h.

Definition add_all (l : list addition) (h : heap) : heap := fold_left (fun h a => add a h) l h.

(** A relaxed load. *)
Definition load (field : UserCounters -> Z) (loc : nat) (h : heap) : Z :=
  match h !! loc with Some c => field c | None => 0 end.

(** ** The ledger *)

(** [struct TrafficState], with the heap its [Arc]s point to. *)
Record TrafficLedger : Type := {
  counters : gmap Z nat;
  checkpoints : gmap Z CounterSnapshot;
  objects : heap
}.

Definition new_ledger : TrafficLedger := {| counters := ∅; checkpoints := ∅; objects := ∅ |}.

(** [ensure_user]: the counters' location. *)
Definition ensure_user (user_id : Z) (s : TrafficLedger) : nat * TrafficLedger :=
  match counters s !! user_id with
  | Some loc => (loc, s)
  | None =>
      let cps := match checkpoints s !! user_id with
        | Some _ => checkpoints s
        | None => <[user_id := zero_snapshot]> (checkpoints s) end in
      let loc := fresh (dom (objects s)) in
      (loc, {| counters := <[user_id := loc]> (counters s); checkpoints := cps;
               objects := <[loc := zero_counters]> (objects s) |})
  end.

(** [remove_stale_users]. *)
Definition remove_stale_users (live : gset Z) (s : TrafficLedger) : TrafficLedger :=
  {| counters := filter (fun kv => kv.1 ∈ live) (counters s);
     checkpoints := filter (fun kv => kv.1 ∈ live) (checkpoints s);
     objects := objects s |}.

(** The loop of [pending_deltas].  [sched k] is what relays add before the
    [k]-th load: the ledger's lock does not cover the counters. *)
Fixpoint collect (sched : nat -> list addition) (k : nat) (cps : gmap Z CounterSnapshot)
    (entries : list (Z * nat)) (h : heap) : list TrafficDelta * heap :=
  match entries with
  | [] => ([], h)
  | (user_id, loc) :: entries =>
      let h := add_all (sched k) h in
      let cur_up := load upload loc h in
      let h := add_all (sched (S k)) h in
      let cur_down := load download loc h in
      let checkpoint := default zero_snapshot (cps !! user_id) in
      let up := saturating_sub cur_up (snap_upload checkpoint) in
      let down := saturating_sub cur_down (snap_download checkpoint) in
      let '(deltas, h) := collect sched (S (S k)) cps entries h in
      if (0 <? up)%Z || (0 <? down)%Z then
        ({| td_user_id := user_id; td_upload := up; td_download := down;
            td_checkpoint := {| snap_upload := cur_up; snap_download := cur_down |} |} :: deltas, h)
      else (deltas, h)
  end.

(** [pending_deltas] with no relay running at the same time, and in
    general. *)
Definition pending_deltas_during `{HashOrder} (sched : nat -> list addition) (s : TrafficLedger)
    : list TrafficDelta * TrafficLedger :=
  let '(deltas, h) := collect sched 0 (checkpoints s) (hash_iter (counters s)) (objects s) in
  (deltas, {| counters := counters s; checkpoints := checkpoints s; objects := h |}).

Definition pending_deltas `{HashOrder} (s : TrafficLedger) : list TrafficDelta :=
  (pending_deltas_during (fun _ => []) s).1.

(** [mark_reported]. *)
Definition mark_one (cts : gmap Z nat) (d : TrafficDelta) (cps : gmap Z CounterSnapshot)
    : gmap Z CounterSnapshot :=
  match cts !! td_user_id d with
  | Some _ => <[td_user_id d := td_checkpoint d]> cps
  | None => cps
  end.

Definition mark_reported (deltas : list TrafficDelta) (s : TrafficLedger) : TrafficLedger :=
  {| counters := counters s;
     checkpoints := fold_left (fun cps d => mark_one (counters s) d cps) deltas (checkpoints s);
     objects := objects s |}.

(** ** Runs *)

(** What happens to a ledger: the supervisor's calls, one after the other
    (it is one task), and the relays' additions at any time. *)
Inductive event : Type :=
  | Ensure (user_id : Z)
  | RemoveStale (live : gset Z)
  | Add (a : addition)
  | Report (sched : nat -> list addition) (meanwhile : list addition) (ok : bool).

(** The ledger with two ghost tallies: bytes added per counters object, and
    bytes of the successful reports per user since the user was created. *)
Record world : Type := {
  ledger : TrafficLedger;
  added : list addition;
  reported : Z -> Z * Z
}.

Definition tally (d : TrafficDelta) (r : Z -> Z * Z) : Z -> Z * Z :=
  fun u => if (u =? td_user_id d)%Z then ((r u).1 + td_upload d, (r u).2 + td_download d)%Z else r u.

(** The additions by holders of counters: no other location exists. *)
Definition live_adds (h : heap) (l : list addition) : list addition :=
  filter (fun a => add_loc a ∈ dom h) l.

(** The additions that [collect] lets happen: those of its [2 * n] loads. *)
Definition sched_adds (sched : nat -> list addition) (k n : nat) : list addition :=
  concat (map sched (seq k n)).

Definition exec `{HashOrder} (e : event) (w : world) : world :=
  match e with
  | Ensure u => {| ledger := (ensure_user u (ledger w)).2; added := added w; reported := reported w |}
  | RemoveStale live =>
      {| ledger := remove_stale_users live (ledger w); added := added w;
         reported := fun u => if decide (u ∈ live) then reported w u else (0, 0)%Z |}
  | Add a =>
      {| ledger := {| counters := counters (ledger w); checkpoints := checkpoints (ledger w);
                      objects := add a (objects (ledger w)) |};
         added := added w ++ live_adds (objects (ledger w)) [a]; reported := reported w |}
  | Report sched meanwhile ok =>
      let '(deltas, s) := pending_deltas_during sched (ledger w) in
      let all := added w ++ live_adds (objects s)
        (sched_adds sched 0 (2 * length (hash_iter (counters s))) ++ meanwhile) in
      let s' := {| counters := counters s; checkpoints := checkpoints s;
                   objects := add_all meanwhile (objects s) |} in
      if ok then {| ledger := mark_reported deltas s'; added := all;
                    reported := fold_left (fun r d => tally d r) deltas (reported w) |}
      else {| ledger := s'; added := all; reported := reported w |}
  end.

Definition run `{HashOrder} (es : list event) : world :=
  fold_left (fun w e => exec e w) es
    {| ledger := new_ledger; added := []; reported := fun _ => (0, 0)%Z |}.

(** Bytes added to the object [loc], in one direction. *)
Definition counts (up : bool) (loc : nat) (a : addition) : Z :=
  if (add_loc a =? loc) && Bool.eqb (add_up a) up then Z.of_nat (add_bytes a) else 0.

Fixpoint total (up : bool) (loc : nat) (l : list addition) : Z :=
  match l with [] => 0 | a :: l => counts up loc a + total up loc l end.

(** What [pending_deltas] would report for [u] now. *)
Definition pending_of (u : Z) (deltas : list TrafficDelta) : Z * Z :=
  match find (fun d => (td_user_id d =? u)%Z) deltas with
  | Some d => (td_upload d, td_download d)
  | None => (0, 0)%Z
  end.

(** ** Lemmas *)

Lemma counts_nonneg up loc a : (0 <= counts up loc a)%Z.
Proof. unfold counts. case_match; lia. Qed.

Lemma total_app up loc a b : total up loc (a ++ b) = (total up loc a + total up loc b)%Z.
Proof. induction a as [|x a IH]; cbn [total app]; lia. Qed.

Lemma total_nonneg up loc l : (0 <= total up loc l)%Z.
Proof. induction l as [|x l IH]; cbn [total]; [done|]. pose proof (counts_nonneg up loc x). lia. Qed.

Lemma counts_other up loc a : add_loc a <> loc -> counts up loc a = 0%Z.
Proof. intros Ha. unfold counts. by rewrite (proj2 (Nat.eqb_neq _ _)). Qed.

Lemma total_notin up loc l : Forall (fun a => add_loc a <> loc) l -> total up loc l = 0%Z.
Proof. induction 1 as [|a l Ha _ IH]; cbn [total]; [done|]. rewrite counts_other by done. lia. Qed.

(** The counters hold the tallies, modulo 2^64. *)
Definition obj_inv (h : heap) (l : list addition) : Prop :=
  forall loc,
    match h !! loc with
    | Some c => upload c = (total true loc l mod u64_modulus)%Z /\
        download c = (total false loc l mod u64_modulus)%Z
    | None => Forall (fun a => add_loc a <> loc) l
    end.

Lemma dom_add a h : dom (add a h) = dom h.
Proof. unfold add. by rewrite dom_alter_L. Qed.

Lemma dom_add_all l h : dom (add_all l h) = dom h.
Proof.
  revert h. induction l as [|a l IH]; intros h; [done|]. cbn. rewrite IH. apply dom_add.
Qed.

Lemma live_adds_dom h h' l : dom h = dom h' -> live_adds h l = live_adds h' l.
Proof. intros Hd. unfold live_adds. apply list_filter_iff. intros x. by rewrite Hd. Qed.

Lemma live_adds_app h a b : live_adds h (a ++ b) = live_adds h a ++ live_adds h b.
Proof. apply filter_app. Qed.

Lemma obj_inv_add h l a : obj_inv h l -> obj_inv (add a h) (l ++ live_adds h [a]).
Proof.
  intros Hi loc. specialize (Hi loc). unfold add, live_adds. rewrite filter_cons, filter_nil.
  destruct (decide (add_loc a = loc)) as [<-|Hne].
  - rewrite lookup_alter_eq. destruct (h !! add_loc a) as [c|] eqn:Hc; cbn.
    + rewrite decide_True by (apply elem_of_dom; by eexists). rewrite !total_app.
      cbn [total]. unfold counts. rewrite Nat.eqb_refl. destruct Hi as [Hu Hd].
      destruct (add_up a); cbn [andb Bool.eqb record_upload record_download upload download];
        unfold fetch_add; rewrite ?Hu, ?Hd, ?Zplus_mod_idemp_l; (split; f_equal; lia).
    + rewrite decide_False by by apply not_elem_of_dom. by rewrite app_nil_r.
  - rewrite lookup_alter_ne by done. destruct (h !! loc) as [c|].
    + case_decide; [|by rewrite app_nil_r]. rewrite !total_app. cbn [total].
      rewrite !counts_other by done. by rewrite !Z.add_0_r.
    + apply Forall_app. split; [done|]. case_decide; by repeat constructor.
Qed.

Lemma obj_inv_add_all h l ads : obj_inv h l -> obj_inv (add_all ads h) (l ++ live_adds h ads).
Proof.
  revert h l. induction ads as [|a ads IH]; intros h l Hi; cbn [add_all fold_left].
  - unfold live_adds. by rewrite filter_nil, app_nil_r.
  - change (a :: ads) with ([a] ++ ads). rewrite live_adds_app, app_assoc.
    rewrite (live_adds_dom h (add a h) ads) by by rewrite dom_add. by apply IH, obj_inv_add.
Qed.

(** Tallies that fit in a [u64]. *)
Definition fits (l : list addition) : Prop := forall up loc, (total up loc l < u64_modulus)%Z.

Lemma fits_prefix a b : fits (a ++ b) -> fits a.
Proof.
  intros Hf up loc. specialize (Hf up loc). rewrite total_app in Hf.
  pose proof (total_nonneg up loc b). lia.
Qed.

Lemma load_total h l loc :
  obj_inv h l -> fits l -> loc ∈ dom h ->
  load upload loc h = total true loc l /\ load download loc h = total false loc l.
Proof.
  intros Hi Hf Hl. specialize (Hi loc). unfold load.
  apply elem_of_dom in Hl as [c Hc]. rewrite Hc in *. destruct Hi as [-> ->].
  by rewrite !Z.mod_small by (split; [apply total_nonneg|apply Hf]).
Qed.

Lemma sched_adds_step sched k n :
  sched_adds sched k (S (S n)) = sched k ++ sched (S k) ++ sched_adds sched (S (S k)) n.
Proof. done. Qed.

(** ** What [collect] returns *)

(** The verdict on one user: a delta from the checkpoint to a value the
    counters had during the collection, or no difference. *)
Definition delta_ok (cp : CounterSnapshot) (loc : nat) (l l' : list addition)
    (o : option TrafficDelta) : Prop :=
  match o with
  | Some d =>
      td_upload d = (snap_upload (td_checkpoint d) - snap_upload cp)%Z /\
      td_download d = (snap_download (td_checkpoint d) - snap_download cp)%Z /\
      (total true loc l <= snap_upload (td_checkpoint d) <= total true loc l')%Z /\
      (total false loc l <= snap_download (td_checkpoint d) <= total false loc l')%Z
  | None => snap_upload cp = total true loc l /\ snap_download cp = total false loc l
  end.

Definition find_delta (u : Z) (ds : list TrafficDelta) : option TrafficDelta :=
  find (fun d => (td_user_id d =? u)%Z) ds.

Lemma delta_ok_widen cp loc l1 l2 l3 l4 o :
  delta_ok cp loc (l1 ++ l2) l3 o ->
  (snap_upload cp <= total true loc l1)%Z -> (snap_download cp <= total false loc l1)%Z ->
  delta_ok cp loc l1 (l3 ++ l4) o.
Proof.
  unfold delta_ok. intros Hd Hu Hw. rewrite !total_app in *.
  pose proof (total_nonneg true loc l2). pose proof (total_nonneg false loc l2).
  pose proof (total_nonneg true loc l4). pose proof (total_nonneg false loc l4).
  destruct o; lia.
Qed.

Lemma find_delta_cons u d ds :
  find_delta u (d :: ds) = if (td_user_id d =? u)%Z then Some d else find_delta u ds.
Proof. done. Qed.

Lemma find_delta_notin u ds : u ∉ (td_user_id <$> ds) -> find_delta u ds = None.
Proof.
  induction ds as [|d ds IH]; [done|]. rewrite fmap_cons, not_elem_of_cons. intros [Hne Hin].
  rewrite find_delta_cons, (proj2 (Z.eqb_neq _ _)) by congruence. by apply IH.
Qed.

Lemma total_live_le up loc h ads l : (total up loc l <= total up loc (l ++ live_adds h ads))%Z.
Proof. rewrite total_app. pose proof (total_nonneg up loc (live_adds h ads)). lia. Qed.

Lemma fits_live h ads tail l : fits ((l ++ live_adds h ads) ++ tail) -> fits l.
Proof. intros Hf. by eapply fits_prefix, fits_prefix. Qed.

(** What [collect] returned for the entries: every entry has its verdict,
    and only entries have deltas. *)
Definition collected (cps : gmap Z CounterSnapshot) (entries : list (Z * nat)) (l l' : list addition)
    (ds : list TrafficDelta) : Prop :=
  NoDup (td_user_id <$> ds) /\
  (forall d, d ∈ ds -> td_user_id d ∈ entries.*1) /\
  (forall u loc, (u, loc) ∈ entries ->
    delta_ok (default zero_snapshot (cps !! u)) loc l l' (find_delta u ds)).

(** The entry that is visited first: its delta, if there is one, is put
    before the others. *)
Lemma collected_cons cps u loc entries l l' ds (o : option TrafficDelta) :
  u ∉ entries.*1 -> collected cps entries l l' ds ->
  (forall d, o = Some d -> td_user_id d = u) ->
  delta_ok (default zero_snapshot (cps !! u)) loc l l' o ->
  collected cps ((u, loc) :: entries) l l' (match o with Some d => d :: ds | None => ds end).
Proof.
  intros Hnin (Hn & Hk & Hs) Ho Hok.
  assert (u ∉ (td_user_id <$> ds)) as Hu by (intros (d & -> & Hin)%list_elem_of_fmap; by apply Hnin, Hk).
  assert (forall d, d ∈ ds -> td_user_id d ∈ ((u, loc) :: entries).*1) as Hk'
    by (intros d Hin; right; by apply Hk).
  destruct o as [d|].
  - specialize (Ho d eq_refl). split_and!.
    + rewrite fmap_cons, Ho. by constructor.
    + intros d' [->|Hin]%elem_of_cons; [rewrite Ho; by left|by apply Hk'].
    + intros v loc' [[= -> ->]|Hin]%elem_of_cons; rewrite find_delta_cons, Ho; [by rewrite Z.eqb_refl|].
      rewrite (proj2 (Z.eqb_neq _ _)); [by apply Hs|].
      intros ->. destruct Hnin. apply list_elem_of_fmap. by exists (v, loc').
  - split_and!; [done|done|]. intros v loc' [[= -> ->]|Hin]%elem_of_cons; [|by apply Hs].
    by rewrite find_delta_notin.
Qed.

(** What was collected after more additions was collected since before
    them. *)
Lemma collected_widen cps entries l ext lm l' ds :
  collected cps entries lm l' ds -> lm = l ++ ext ->
  (forall u loc, (u, loc) ∈ entries ->
    (snap_upload (default zero_snapshot (cps !! u)) <= total true loc l)%Z /\
    (snap_download (default zero_snapshot (cps !! u)) <= total false loc l)%Z) ->
  collected cps entries l l' ds.
Proof.
  intros (Hn & Hk & Hs) -> He. split_and!; [done|done|]. intros u loc Hin. destruct (He u loc Hin).
  rewrite <- (app_nil_r l'). by eapply delta_ok_widen; [apply Hs|..].
Qed.

(** The delta of one entry, its counters read at two moments. *)
Lemma delta_read cp u loc l l1 l2 l' :
  (total true loc l <= total true loc l1)%Z -> (total true loc l1 <= total true loc l')%Z ->
  (total false loc l <= total false loc l2)%Z -> (total false loc l2 <= total false loc l')%Z ->
  (snap_upload cp <= total true loc l)%Z -> (snap_download cp <= total false loc l)%Z ->
  let up := saturating_sub (total true loc l1) (snap_upload cp) in
  let down := saturating_sub (total false loc l2) (snap_download cp) in
  delta_ok cp loc l l'
    (if (0 <? up)%Z || (0 <? down)%Z
     then Some {| td_user_id := u; td_upload := up; td_download := down;
        td_checkpoint := {| snap_upload := total true loc l1; snap_download := total false loc l2 |} |}
     else None).
Proof.
  intros H1 H2 H3 H4 H5 H6 up down. unfold up, down, saturating_sub. rewrite !Z.max_r by lia.
  destruct ((0 <? _)%Z || (0 <? _)%Z) eqn:Hpos; cbn; [lia|].
  apply orb_false_iff in Hpos as [?%Z.ltb_ge ?%Z.ltb_ge]. lia.
Qed.

Lemma collect_spec sched cps entries : forall k h l,
  obj_inv h l ->
  let l' := l ++ live_adds h (sched_adds sched k (2 * length entries)) in
  fits l' -> NoDup entries.*1 ->
  (forall u loc, (u, loc) ∈ entries -> loc ∈ dom h /\
    (snap_upload (default zero_snapshot (cps !! u)) <= total true loc l)%Z /\
    (snap_download (default zero_snapshot (cps !! u)) <= total false loc l)%Z) ->
  let r := collect sched k cps entries h in
  obj_inv r.2 l' /\ dom r.2 = dom h /\ collected cps entries l l' r.1.
Proof.
  induction entries as [|[u0 loc0] entries IH]; intros k h l Hi l' Hf Hnd He.
  { cbn [collect fst snd]. assert (l' = l) as -> by apply app_nil_r.
    split_and!; [done|done|]. split_and!; [constructor|by intros ? ?%not_elem_of_nil|by intros ? ? ?%not_elem_of_nil]. }
  unfold l' in *. clear l'.
  replace (2 * length ((u0, loc0) :: entries)) with (S (S (2 * length entries))) in * by (cbn; lia).
  rewrite sched_adds_step, !live_adds_app in *. cbn [collect].
  set (h1 := add_all (sched k) h). set (h2 := add_all (sched (S k)) h1).
  assert (dom h1 = dom h) as Hd1 by apply dom_add_all.
  assert (dom h2 = dom h) as Hd2 by (unfold h2; rewrite dom_add_all; done).
  pose proof (obj_inv_add_all h l (sched k) Hi) as Hi1.
  pose proof (obj_inv_add_all h1 _ (sched (S k)) Hi1) as Hi2.
  rewrite <- (live_adds_dom h h1) in Hi2 by done. fold h1 in Hi1. fold h2 in Hi2.
  rewrite !app_assoc in Hf |- *.
  pose proof (total_live_le true loc0 h (sched k) l) as Hg1.
  pose proof (total_live_le false loc0 h (sched k) l) as Hg2.
  set (l1 := l ++ live_adds h (sched k)) in *.
  pose proof (total_live_le true loc0 h (sched (S k)) l1) as Hg3.
  pose proof (total_live_le false loc0 h (sched (S k)) l1) as Hg4.
  pose proof (fits_live _ _ _ _ Hf) as Hf1. set (l2 := l1 ++ live_adds h (sched (S k))) in *.
  pose proof (total_live_le true loc0 h (sched_adds sched (S (S k)) (2 * length entries)) l2) as Hg5.
  pose proof (total_live_le false loc0 h (sched_adds sched (S (S k)) (2 * length entries)) l2) as Hg6.
  destruct (He u0 loc0 ltac:(by left)) as (Hdom & Hcu & Hcd).
  destruct (load_total h1 l1 loc0 Hi1 Hf1 ltac:(by rewrite Hd1)) as [-> _].
  destruct (load_total h2 l2 loc0 Hi2 (fits_prefix _ _ Hf) ltac:(by rewrite Hd2)) as [_ ->].
  rewrite fmap_cons in Hnd. apply NoDup_cons in Hnd as [Hnin Hnd].
  rewrite (live_adds_dom h h2) in Hf, Hg5, Hg6 |- * by done.
  destruct (IH (S (S k)) h2 l2 Hi2 Hf Hnd) as (Hri & Hrd & Hrs).
  { intros u loc Hin. destruct (He u loc ltac:(by right)) as (? & ? & ?). rewrite Hd2.
    pose proof (total_live_le true loc h (sched k) l) as ?. fold l1 in H2.
    pose proof (total_live_le false loc h (sched k) l) as ?. fold l1 in H3.
    pose proof (total_live_le true loc h (sched (S k)) l1) as ?. fold l2 in H4.
    pose proof (total_live_le false loc h (sched (S k)) l1) as ?. fold l2 in H5.
    split_and!; [done|lia|lia]. }
  destruct (collect sched (S (S k)) cps entries h2) as [ds h3]. cbn [fst snd] in *.
  eapply collected_widen in Hrs;
    [|unfold l2, l1; by rewrite <- app_assoc|intros u loc Hin; by destruct (He u loc ltac:(by right))].
  pose proof (fun o => collected_cons cps u0 loc0 entries l _ ds o Hnin Hrs) as Hc.
  unshelve epose proof (delta_read (default zero_snapshot (cps !! u0)) u0 loc0 l l1 l2
    (l2 ++ live_adds h2 (sched_adds sched (S (S k)) (2 * length entries))) _ _ _ _ _ _) as Hok; [lia..|].
  apply Hc in Hok; [|intros d; by case_match; intros [= <-]].
  destruct (_ || _); cbn [fst snd]; (split_and!; [done|by rewrite Hrd, Hd2|done]).
Qed.

(** ** Marking and tallying *)

Lemma fold_tally ds r u :
  NoDup (td_user_id <$> ds) ->
  fold_left (fun r d => tally d r) ds r u =
    match find_delta u ds with
    | Some d => ((r u).1 + td_upload d, (r u).2 + td_download d)%Z
    | None => r u
    end.
Proof.
  revert r. induction ds as [|d ds IH]; intros r; [done|].
  rewrite fmap_cons. intros [Hnin Hnd]%NoDup_cons. cbn [fold_left].
  rewrite IH, find_delta_cons by done. unfold tally. rewrite (Z.eqb_sym u).
  destruct (Z.eqb_spec (td_user_id d) u) as [<-|Hne]; [|done]. by rewrite find_delta_notin.
Qed.

Lemma fold_mark cts ds cps u :
  NoDup (td_user_id <$> ds) ->
  fold_left (fun cps d => mark_one cts d cps) ds cps !! u =
    match find_delta u ds, cts !! u with
    | Some d, Some _ => Some (td_checkpoint d)
    | _, _ => cps !! u
    end.
Proof.
  revert cps. induction ds as [|d ds IH]; intros cps; [done|].
  rewrite fmap_cons. intros [Hnin Hnd]%NoDup_cons. cbn [fold_left].
  rewrite IH, find_delta_cons by done. unfold mark_one.
  destruct (Z.eqb_spec (td_user_id d) u) as [<-|Hne].
  - rewrite find_delta_notin by done. destruct (cts !! td_user_id d); [by rewrite lookup_insert_eq|done].
  - destruct (cts !! td_user_id d); [by rewrite lookup_insert_ne|done].
Qed.

(** ** The invariant of runs *)

(** For every user in the table, the checkpoint is the reported tally, at
    most what was added to the user's counters. *)
Definition user_inv (w : world) : Prop :=
  forall u,
    match counters (ledger w) !! u with
    | Some loc =>
        let cp := default zero_snapshot (checkpoints (ledger w) !! u) in
        loc ∈ dom (objects (ledger w)) /\
        reported w u = (snap_upload cp, snap_download cp) /\
        (snap_upload cp <= total true loc (added w))%Z /\
        (snap_download cp <= total false loc (added w))%Z
    | None => checkpoints (ledger w) !! u = None /\ reported w u = (0, 0)%Z
    end.

Definition winv (w : world) : Prop := obj_inv (objects (ledger w)) (added w) /\ user_inv w.

Section Run.
Context `{HashOrder}.

Lemma hash_iter_elem `{Countable K} {V} (m : gmap K V) k v :
  (k, v) ∈ hash_iter m <-> m !! k = Some v.
Proof. by rewrite hash_iter_perm, elem_of_map_to_list. Qed.

Lemma hash_iter_NoDup `{Countable K} {V} (m : gmap K V) : NoDup (hash_iter m).*1.
Proof. rewrite hash_iter_perm. apply NoDup_fst_map_to_list. Qed.

Lemma exec_added e w : exists l, added (exec e w) = added w ++ l.
Proof.
  destruct e as [u|live|a|sched meanwhile ok]; cbn [exec added]; try by (exists []; rewrite app_nil_r).
  - by eexists.
  - destruct (pending_deltas_during sched (ledger w)) as [ds s]. destruct ok; by eexists.
Qed.

(** What a collection sees and leaves, from a world that satisfies the
    invariant. *)
Lemma pending_during_spec sched w ds s :
  winv w -> pending_deltas_during sched (ledger w) = (ds, s) ->
  let l' := added w ++ live_adds (objects (ledger w))
    (sched_adds sched 0 (2 * length (hash_iter (counters (ledger w))))) in
  fits l' ->
  counters s = counters (ledger w) /\ checkpoints s = checkpoints (ledger w) /\
  dom (objects s) = dom (objects (ledger w)) /\
  obj_inv (objects s) l' /\ NoDup (td_user_id <$> ds) /\
  forall u, match counters (ledger w) !! u with
    | Some loc => delta_ok (default zero_snapshot (checkpoints (ledger w) !! u)) loc (added w) l'
        (find_delta u ds)
    | None => find_delta u ds = None
    end.
Proof.
  intros [Hobj Hu] Hp l' Hf. unfold pending_deltas_during in Hp.
  destruct (collect_spec sched (checkpoints (ledger w)) (hash_iter (counters (ledger w))) 0
    (objects (ledger w)) (added w) Hobj Hf) as (Ho & Hd & Hn & Hk & Hs).
  { apply hash_iter_NoDup. }
  { intros u loc Hin%hash_iter_elem. specialize (Hu u). rewrite Hin in Hu.
    destruct Hu as (? & _ & ? & ?). done. }
  destruct (collect _ _ _ _ _) as [ds' h]. cbn [fst snd] in *. injection Hp as <- <-.
  split_and!; try done. intros u. destruct (counters (ledger w) !! u) as [loc|] eqn:Hc.
  - by apply Hs, hash_iter_elem.
  - apply find_delta_notin. intros (d & -> & Hin%Hk)%list_elem_of_fmap.
    apply list_elem_of_fmap in Hin as ([u loc] & Hu' & Hin%hash_iter_elem). cbn in Hu'.
    by rewrite Hu', Hin in Hc.
Qed.

Lemma collect_dom sched cps entries k h : dom (collect sched k cps entries h).2 = dom h.
Proof.
  revert k h. induction entries as [|[u loc] entries IH]; intros k h; [done|]. cbn [collect].
  specialize (IH (S (S k)) (add_all (sched (S k)) (add_all (sched k) h))).
  rewrite !dom_add_all in IH. destruct (collect _ _ _ entries _) as [ds h']. by case_match.
Qed.

Lemma pending_during_same sched l ds s :
  pending_deltas_during sched l = (ds, s) ->
  dom (objects s) = dom (objects l) /\ counters s = counters l.
Proof.
  unfold pending_deltas_during.
  pose proof (collect_dom sched (checkpoints l) (hash_iter (counters l)) 0 (objects l)) as Hd.
  destruct (collect _ _ _ _ _) as [ds' h]. by intros [= <- <-].
Qed.

(** The invariant after a collection, with or without the marks. *)
Lemma report_inv sched meanwhile ok w :
  winv w -> fits (added (exec (Report sched meanwhile ok) w)) -> winv (exec (Report sched meanwhile ok) w).
Proof.
  intros Hw. cbn [exec].
  destruct (pending_deltas_during sched (ledger w)) as [ds s] eqn:Hp.
  set (k := 2 * length (hash_iter (counters s))).
  intros Hf. assert (fits (added w ++ live_adds (objects s) (sched_adds sched 0 k ++ meanwhile))) as Hf'
    by (destruct ok; exact Hf).
  clear Hf. rewrite live_adds_app, app_assoc in Hf'. pose proof (fits_prefix _ _ Hf') as Hf.
  destruct (pending_during_same sched (ledger w) ds s Hp) as [Hds Hcs].
  rewrite (live_adds_dom (objects s) (objects (ledger w))) in Hf by done.
  unfold k in Hf. rewrite Hcs in Hf.
  destruct (pending_during_spec sched w ds s Hw Hp Hf) as (_ & Hcps & _ & Hobj & Hnd & Hdel).
  destruct Hw as [_ Hu]. clear Hf'.
  set (l1 := added w ++ live_adds (objects (ledger w))
    (sched_adds sched 0 (2 * length (hash_iter (counters (ledger w)))))) in *.
  assert (added w ++ live_adds (objects s) (sched_adds sched 0 k ++ meanwhile) =
    l1 ++ live_adds (objects s) meanwhile) as Hall.
  { rewrite live_adds_app, app_assoc. unfold l1, k. rewrite Hcs.
    by rewrite (live_adds_dom (objects s) (objects (ledger w)) (sched_adds _ _ _)). }
  assert (obj_inv (add_all meanwhile (objects s)) (l1 ++ live_adds (objects s) meanwhile)) as Hobj'
    by exact (obj_inv_add_all _ l1 meanwhile Hobj).
  assert (forall up loc, total up loc l1 <= total up loc (l1 ++ live_adds (objects s) meanwhile))%Z as Hg1.
  { intros up loc. rewrite total_app. pose proof (total_nonneg up loc (live_adds (objects s) meanwhile)). lia. }
  assert (forall up loc, total up loc (added w) <= total up loc l1)%Z as Hg0.
  { intros up loc. unfold l1. rewrite total_app.
    match goal with |- (_ <= _ + total ?u ?l ?x)%Z => pose proof (total_nonneg u l x) end. lia. }
  split; [by destruct ok; cbn [ledger objects mark_reported added]; rewrite Hall|].
  intros u. specialize (Hdel u). specialize (Hu u).
  specialize (Hg1 true) as G1. specialize (Hg1 false) as G2.
  specialize (Hg0 true) as G3. specialize (Hg0 false) as G4.
  destruct ok; cbn [ledger counters checkpoints objects mark_reported added reported];
    rewrite Hall, Hcs, Hcps, ?dom_add_all, Hds; rewrite ?fold_mark, ?fold_tally by done;
    destruct (counters (ledger w) !! u) as [loc|] eqn:Hc; try (rewrite Hdel; done); try done;
    destruct Hu as (Hl & Hr & Hcu & Hcd);
    specialize (G1 loc); specialize (G2 loc); specialize (G3 loc); specialize (G4 loc).
  - destruct (find_delta u ds) as [d|]; cbn [default from_option id delta_ok] in *.
    + rewrite Hr. cbn [fst snd]. split_and!; [done| |lia|lia]. f_equal; lia.
    + split_and!; [done|done|lia|lia].
  - split_and!; [done|done|lia|lia].
Qed.

Lemma exec_inv e w : winv w -> fits (added (exec e w)) -> winv (exec e w).
Proof.
  intros Hw Hf. destruct e as [u|live|a|sched meanwhile ok]; [| | |by apply report_inv].
  - destruct Hw as [Hobj Hu]. cbn [exec]. unfold ensure_user.
    destruct (counters (ledger w) !! u) as [loc|] eqn:Hc; [by split|].
    pose proof (Hu u) as Hnew. rewrite Hc in Hnew. destruct Hnew as [Hcp Hrep]. rewrite Hcp.
    set (loc := fresh (dom (objects (ledger w)))).
    assert (loc ∉ dom (objects (ledger w))) as Hfresh by apply is_fresh.
    split; cbn [ledger snd objects added].
    + intros loc'. specialize (Hobj loc'). destruct (decide (loc' = loc)) as [->|Hne].
      * rewrite lookup_insert_eq. apply not_elem_of_dom in Hfresh. rewrite Hfresh in Hobj.
        by rewrite !total_notin.
      * by rewrite lookup_insert_ne.
    + intros u'. specialize (Hu u'). cbn [ledger snd counters checkpoints objects reported added].
      destruct (decide (u' = u)) as [->|Hne].
      * rewrite !lookup_insert_eq. cbn. split_and!; [set_solver|done|apply total_nonneg..].
      * rewrite !lookup_insert_ne by done. destruct (counters (ledger w) !! u') as [loc'|]; [|done].
        destruct Hu as (? & ? & ? & ?). split_and!; try done. set_solver.
  - destruct Hw as [Hobj Hu]. split; [done|]. intros u. specialize (Hu u).
    cbn [exec ledger counters checkpoints objects reported added remove_stale_users].
    destruct (decide (u ∈ live)) as [Hl|Hl].
    + destruct (counters (ledger w) !! u) as [loc|] eqn:Hc.
      * rewrite (map_lookup_filter_Some_2 _ _ u loc) by done.
        destruct (checkpoints (ledger w) !! u) as [cp|] eqn:Hcp.
        -- by rewrite (map_lookup_filter_Some_2 _ _ u cp).
        -- rewrite map_lookup_filter_None_2 by by left. done.
      * rewrite map_lookup_filter_None_2 by by left. destruct Hu as [Hcp Hr].
        by rewrite map_lookup_filter_None_2 by by left.
    + rewrite !map_lookup_filter_None_2; [done|by right..].
  - destruct Hw as [Hobj Hu]. cbn [exec]. split; [by apply obj_inv_add|].
    intros u. specialize (Hu u). cbn [ledger counters checkpoints objects reported added].
    rewrite dom_add. destruct (counters (ledger w) !! u) as [loc|]; [|done].
    destruct Hu as (? & ? & ? & ?). rewrite !total_app.
    pose proof (total_nonneg true loc (live_adds (objects (ledger w)) [a])).
    pose proof (total_nonneg false loc (live_adds (objects (ledger w)) [a])).
    split_and!; [done|done|lia|lia].
Qed.

Lemma run_snoc es e : run (es ++ [e]) = exec e (run es).
Proof. unfold run. by rewrite fold_left_app. Qed.

Lemma run_inv es : fits (added (run es)) -> winv (run es).
Proof.
  induction es as [|e es IH] using rev_ind; intros Hf.
  - split; [intros loc; cbn; rewrite lookup_empty; constructor|]. intros u. cbn. by rewrite !lookup_empty.
  - rewrite run_snoc in *. apply exec_inv; [|done]. apply IH.
    destruct (exec_added e (run es)) as [l Hl]. rewrite Hl in Hf. by eapply fits_prefix.
Qed.

Lemma live_adds_nil h : live_adds h [] = [].
Proof. done. Qed.

Lemma sched_adds_nil k n : sched_adds (fun _ => []) k n = [].
Proof. unfold sched_adds. revert k. induction n as [|n IH]; intros k; [done|]. apply IH. Qed.

Lemma pending_exact w :
  winv w -> fits (added w) ->
  forall u loc, counters (ledger w) !! u = Some loc ->
    let p := pending_of u (pending_deltas (ledger w)) in
    total true loc (added w) = ((reported w u).1 + p.1)%Z /\
    total false loc (added w) = ((reported w u).2 + p.2)%Z.
Proof.
  intros Hw Hf u loc Hc. unfold pending_deltas.
  destruct (pending_deltas_during _ (ledger w)) as [ds s] eqn:Hp. cbn [fst].
  destruct (pending_during_spec _ w ds s Hw Hp) as (_ & _ & _ & _ & _ & Hd).
  { by rewrite sched_adds_nil, live_adds_nil, app_nil_r. }
  specialize (Hd u). destruct Hw as [_ Hu]. specialize (Hu u). rewrite Hc in Hd, Hu.
  destruct Hu as (_ & -> & _ & _). rewrite sched_adds_nil, live_adds_nil, app_nil_r in Hd.
  unfold pending_of. fold (find_delta u ds). destruct (find_delta u ds) as [d|]; cbn in *; lia.
Qed.

End Run.

(** ** Properties *)

(** C26 Traffic conservation.  Take any sequence of the supervisor's calls
    ([ensure_user], [remove_stale_users], report cycles that succeed or
    fail) with relays adding to the shared counters in between, while the
    deltas are being collected (between any two loads) and while a report
    is under way.  As long as a counter has not wrapped, every byte added to
    the counters of a user in the table has been reported exactly once since
    the user was created or is in the next [pending_deltas]. *)
Theorem traffic_conserved `{HashOrder} (es : list event)
    (Hf : fits (added (run es))) (u : Z) (loc : nat)
    (Hu : counters (ledger (run es)) !! u = Some loc) :
  let w := run es in
  let p := pending_of u (pending_deltas (ledger w)) in
  total true loc (added w) = ((reported w u).1 + p.1)%Z /\
  total false loc (added w) = ((reported w u).2 + p.2)%Z.
Proof. intros w p. apply pending_exact; [by apply run_inv|done|done]. Qed.

(** The run of the witness: two users, a failed report, a report during
    which both directions move, one user removed. *)
Definition example_events : list event :=
  [Ensure 1; Ensure 2; Add {| add_loc := 0; add_up := true; add_bytes := 10 |};
   Report (fun _ => []) [] false;
   Report (fun k => if k =? 1 then [{| add_loc := 0; add_up := false; add_bytes := 5 |}] else [])
     [{| add_loc := 0; add_up := true; add_bytes := 7 |}] true;
   RemoveStale {[ 1%Z ]}].

Lemma traffic_conserved_witness :
  let w := run (H:=key_order) example_events in
  pending_of 1 (pending_deltas (H:=key_order) (ledger w)) = (7, 0)%Z /\
  total true 0 (added w) = 17%Z /\
  total true 0 (added w) =
    ((reported w 1).1 + (pending_of 1 (pending_deltas (H:=key_order) (ledger w))).1)%Z.
Proof.
  split; [vm_compute; reflexivity|]. split; [vm_compute; reflexivity|].
  apply (traffic_conserved (H:=key_order) example_events).
  - assert (added (run (H:=key_order) example_events) =
      [{| add_loc := 0; add_up := true; add_bytes := 10 |};
       {| add_loc := 0; add_up := false; add_bytes := 5 |};
       {| add_loc := 0; add_up := true; add_bytes := 7 |}]) as -> by (vm_compute; reflexivity).
    intros up loc. cbn [total]. unfold counts, u64_modulus. cbn [add_loc add_up add_bytes].
    destruct (0 =? loc), up; cbn; lia.
  - vm_compute. reflexivity.
Defined.
