(* ===== verification/Conn.v ===== *)
(** * The device cap ([UserIpSet], [ConnLedger], [ConnGuard] in
      [src/src/traffic.rs])

    A user's set of client IPs with a reference count per IP is shared
    through an [Arc] by the ledger and every guard, so sets live in a heap.
    A guard is taken when a connection starts and dropped when it ends, in
    any order.  The theorems: the counts are exactly the live guards, so
    nothing leaks and no count underflows; and the cap is on distinct IPs. *)

From S2P Require Import Prelude Errors.

(** ** One set *)

(** The map in [UserIpSet]. *)
Definition UserIpSet : Type := gmap string nat.

(** [ConnGuard::acquire] on the set, with its [u32] limit. *)
Definition acquire (ips : gmap string nat) (ip : string) (limit : Z) : option (gmap string nat) :=
  match ips !! ip with
  | Some count => Some (<[ip := S count]> ips)
  | None =>
      if (0 <? limit)%Z && (limit <=? Z.of_nat (size ips))%Z then None
      else Some (<[ip := 1]> ips)
  end.

(** [Drop for ConnGuard].  [*count -= 1] panics on zero. *)
Definition drop_guard (ips : gmap string nat) (ip : string) : res error (gmap string nat) :=
  match ips !! ip with
  | None => Ok ips
  | Some 0 => Panic
  | Some (S count) => Ok (if count =? 0 then delete ip ips else <[ip := count]> ips)
  end.

(** ** The ledger, the sets and the live guards *)

(** [ConnGuard]: the shared set and the IP. *)
Definition guard : Type := (nat * string).

Record world : Type := {
  conn_ledger : gmap Z nat;
  sets : gmap nat (gmap string nat);
  guards : list guard
}.

Definition empty_world : world := {| conn_ledger := ∅; sets := ∅; guards := [] |}.

(** [ConnLedger::ensure_user]: [entry(..).or_default()]. *)
Definition ensure_user (user_id : Z) (w : world) : nat * world :=
  match conn_ledger w !! user_id with
  | Some loc => (loc, w)
  | None =>
      let loc := fresh (dom (sets w)) in
      (loc, {| conn_ledger := <[user_id := loc]> (conn_ledger w);
               sets := <[loc := ∅]> (sets w); guards := guards w |})
  end.

(** [ConnLedger::remove_stale_users]. *)
Definition remove_stale_users (live : gset Z) (w : world) : world :=
  {| conn_ledger := filter (fun kv => kv.1 ∈ live) (conn_ledger w);
     sets := sets w; guards := guards w |}.

(** Drop one occurrence of [g]. *)
Fixpoint remove_one (g : guard) (l : list guard) : list guard :=
  match l with
  | [] => []
  | x :: l => if decide (x = g) then l else x :: remove_one g l
  end.

(** The program's steps: the supervisor's calls, a connection that asks for
    a guard on a set it holds, and the end of a connection that has one. *)
Inductive event : Type :=
  | Ensure (user_id : Z)
  | RemoveStale (live : gset Z)
  | Acquire (loc : nat) (ip : string) (limit : Z)
  | DropGuard (g : guard).

Definition exec (e : event) (w : world) : res error world :=
  match e with
  | Ensure u => Ok (ensure_user u w).2
  | RemoveStale live => Ok (remove_stale_users live w)
  | Acquire loc ip limit =>
      match sets w !! loc with
      | None => Ok w
      | Some ips =>
          match acquire ips ip limit with
          | None => Ok w
          | Some ips => Ok {| conn_ledger := conn_ledger w; sets := <[loc := ips]> (sets w);
                              guards := (loc, ip) :: guards w |}
          end
      end
  | DropGuard g =>
      if decide (g ∈ guards w) then
        match sets w !! g.1 with
        | None => Ok w
        | Some ips =>
            ips ← drop_guard ips g.2;
            Ok {| conn_ledger := conn_ledger w; sets := <[g.1 := ips]> (sets w);
                  guards := remove_one g (guards w) |}
        end
      else Ok w
  end.

Fixpoint run (es : list event) (w : world) : res error world :=
  match es with
  | [] => Ok w
  | e :: es => w ← exec e w; run es w
  end.

(** ** Specification *)

Definition held (g : guard) (l : list guard) : nat := length (filter (fun x => x = g) l).

Definition count_of (n : nat) : option nat := match n with 0 => None | S _ => Some n end.

(** The counts of every set are the live guards on it. *)
Definition counts_ok (w : world) : Prop :=
  (forall loc ips, sets w !! loc = Some ips ->
    forall ip, ips !! ip = count_of (held (loc, ip) (guards w))) /\
  (forall g, g ∈ guards w -> is_Some (sets w !! g.1)) /\
  (forall u loc, conn_ledger w !! u = Some loc -> is_Some (sets w !! loc)).

(** The distinct IPs connected on a set. *)
Definition devices (loc : nat) (w : world) : gset string :=
  list_to_set (omap (fun g => if decide (g.1 = loc) then Some g.2 else None) (guards w)).

(** ** Lemmas *)

Lemma held_cons g x l : held g (x :: l) = if decide (x = g) then S (held g l) else held g l.
Proof. unfold held. rewrite filter_cons. by case_decide. Qed.

Lemma held_elem g l : 0 < held g l <-> g ∈ l.
Proof.
  induction l as [|x l IH]; [cbn; split; [lia|by intros ?%not_elem_of_nil]|].
  rewrite held_cons, elem_of_cons. destruct (decide (x = g)) as [->|Hne].
  - split; [by left|lia].
  - rewrite IH. split; [by right|by intros [->|]].
Qed.

Lemma held_remove_one g g' l :
  held g' (remove_one g l) =
    if decide (g' = g) then pred (held g' l) else held g' l.
Proof.
  induction l as [|x l IH]; cbn [remove_one]; [by case_decide|].
  rewrite held_cons. destruct (decide (x = g)) as [->|Hne].
  - destruct (decide (g' = g)) as [->|]; [by rewrite decide_True|]. by rewrite decide_False.
  - rewrite held_cons, IH. destruct (decide (g' = g)) as [->|]; [by rewrite !decide_False|done].
Qed.

Lemma elem_of_remove_one g g' l : g' ∈ remove_one g l -> g' ∈ l.
Proof.
  induction l as [|x l IH]; cbn; [done|]. case_decide; [by right|].
  intros [->|Hin]%elem_of_cons; [by left|right; by apply IH].
Qed.

Lemma ensure_ok u w : counts_ok w -> counts_ok (ensure_user u w).2.
Proof.
  intros (Hc & Hg & Hl). unfold ensure_user. destruct (conn_ledger w !! u) as [loc|] eqn:Hu; [done|].
  set (loc := fresh (dom (sets w))).
  assert (sets w !! loc = None) as Hf by (apply not_elem_of_dom, is_fresh).
  split_and!; cbn [sets guards conn_ledger snd].
  - intros loc' ips Hlk ip. destruct (decide (loc' = loc)) as [->|Hne].
    + rewrite lookup_insert_eq in Hlk. injection Hlk as <-. rewrite lookup_empty.
      destruct (held (loc, ip) (guards w)) as [|n] eqn:Hh; [done|].
      assert ((loc, ip) ∈ guards w) as Hin by (apply held_elem; lia).
      apply Hg in Hin as [? Hs]. cbn in Hs. by rewrite Hf in Hs.
    + rewrite lookup_insert_ne in Hlk by done. by apply Hc.
  - intros g Hin. apply lookup_insert_is_Some. destruct (decide (loc = g.1)); [by left|].
    right. split; [done|]. by apply Hg.
  - intros u' loc' Hlk. apply lookup_insert_is_Some. destruct (decide (loc = loc')); [by left|].
    right. split; [done|]. destruct (decide (u' = u)) as [->|].
    + rewrite lookup_insert_eq in Hlk. by injection Hlk as ->.
    + rewrite lookup_insert_ne in Hlk by done. by eapply Hl.
Qed.

Lemma acquire_ok loc ip limit w ips ips' :
  counts_ok w -> sets w !! loc = Some ips -> acquire ips ip limit = Some ips' ->
  counts_ok {| conn_ledger := conn_ledger w; sets := <[loc := ips']> (sets w);
               guards := (loc, ip) :: guards w |}.
Proof.
  intros (Hc & Hg & Hl) Hs Ha.
  assert (ips' = <[ip := S (held (loc, ip) (guards w))]> ips) as ->.
  { unfold acquire in Ha. rewrite (Hc loc ips Hs ip) in Ha.
    destruct (held (loc, ip) (guards w)); cbn in Ha; [|by injection Ha as <-].
    case_match; [done|]. by injection Ha as <-. }
  split_and!; cbn [sets guards conn_ledger].
  - intros loc' ips' Hlk ip'. rewrite held_cons. destruct (decide (loc' = loc)) as [->|Hne].
    + rewrite lookup_insert_eq in Hlk. injection Hlk as <-.
      destruct (decide (ip' = ip)) as [->|Hip].
      * rewrite lookup_insert_eq. by rewrite decide_True.
      * rewrite lookup_insert_ne, decide_False by congruence. by apply Hc.
    + rewrite lookup_insert_ne in Hlk by done. rewrite decide_False by congruence. by apply Hc.
  - intros g [->|Hin]%elem_of_cons; apply lookup_insert_is_Some; [by left|].
    destruct (decide (loc = g.1)); [by left|]. right. split; [done|]. by apply Hg.
  - intros u loc' Hlk. apply lookup_insert_is_Some. destruct (decide (loc = loc')); [by left|].
    right. split; [done|]. by eapply Hl.
Qed.

Lemma drop_ok g w ips :
  counts_ok w -> g ∈ guards w -> sets w !! g.1 = Some ips ->
  exists ips', drop_guard ips g.2 = Ok ips' /\
    counts_ok {| conn_ledger := conn_ledger w; sets := <[g.1 := ips']> (sets w);
                 guards := remove_one g (guards w) |}.
Proof.
  intros (Hc & Hg & Hl) Hin Hs. destruct g as [loc ip]. cbn [fst snd] in *.
  apply held_elem in Hin. pose proof (Hc loc ips Hs ip) as Hip.
  destruct (held (loc, ip) (guards w)) as [|n] eqn:Hh; [lia|]. cbn in Hip.
  unfold drop_guard. rewrite Hip. eexists. split; [done|].
  split_and!; cbn [sets guards conn_ledger].
  - intros loc' ips' Hlk ip'. rewrite held_remove_one. destruct (decide (loc' = loc)) as [->|Hne].
    + rewrite lookup_insert_eq in Hlk. injection Hlk as <-.
      destruct (decide (ip' = ip)) as [->|Hne].
      * rewrite decide_True by done. rewrite Hh. cbn [pred].
        destruct n; cbn; [by rewrite lookup_delete_eq|by rewrite lookup_insert_eq].
      * rewrite decide_False by congruence. rewrite <- (Hc loc ips Hs ip').
        case_match; [by rewrite lookup_delete_ne|by rewrite lookup_insert_ne].
    + rewrite lookup_insert_ne in Hlk by done. rewrite decide_False by congruence. by apply Hc.
  - intros g Hin'%elem_of_remove_one. apply lookup_insert_is_Some.
    destruct (decide (loc = g.1)); [by left|]. right. split; [done|]. by apply Hg.
  - intros u loc' Hlk. apply lookup_insert_is_Some. destruct (decide (loc = loc')); [by left|].
    right. split; [done|]. by eapply Hl.
Qed.

Lemma exec_ok e w : counts_ok w -> exists w', exec e w = Ok w' /\ counts_ok w'.
Proof.
  intros Hw. destruct e as [u|live|loc ip limit|g]; cbn [exec].
  - eexists. split; [done|]. by apply ensure_ok.
  - eexists. split; [done|]. destruct Hw as (Hc & Hg & Hl). split_and!; [done|done|].
    intros u loc Hlk. apply map_lookup_filter_Some in Hlk as [Hlk _]. by eapply Hl.
  - destruct (sets w !! loc) as [ips|] eqn:Hs; [|by eexists].
    destruct (acquire ips ip limit) as [ips'|] eqn:Ha; [|by eexists].
    eexists. split; [done|]. by eapply acquire_ok.
  - case_decide as Hin; [|by eexists]. destruct (sets w !! g.1) as [ips|] eqn:Hs; [|by eexists].
    destruct (drop_ok g w ips Hw Hin Hs) as (ips' & -> & Hok). by eexists.
Qed.

Lemma run_ok es w : counts_ok w -> exists w', run es w = Ok w' /\ counts_ok w'.
Proof.
  revert w. induction es as [|e es IH]; intros w Hw; [by eexists|]. cbn [run].
  destruct (exec_ok e w Hw) as (w1 & -> & Hw1). by apply IH.
Qed.

Lemma empty_ok : counts_ok empty_world.
Proof.
  split_and!; cbn; [by intros ? ? ?%lookup_empty_Some|by intros ? ?%not_elem_of_nil|
    by intros ? ? ?%lookup_empty_Some].
Qed.

Lemma devices_dom loc ips w : counts_ok w -> sets w !! loc = Some ips -> dom ips = devices loc w.
Proof.
  intros (Hc & _) Hs. apply set_eq. intros ip. rewrite elem_of_dom, (Hc loc ips Hs ip).
  unfold devices. rewrite elem_of_list_to_set, list_elem_of_omap. split.
  - intros [n Hn]. exists (loc, ip). cbn. rewrite decide_True by done. split; [|done].
    apply held_elem. destruct (held _ _); [done|lia].
  - intros ([loc' ip'] & Hin & Hd). cbn in Hd. case_decide; [|done]. simplify_eq.
    apply held_elem in Hin. destruct (held _ _); [lia|by eexists].
Qed.

Lemma devices_size loc ips w :
  counts_ok w -> sets w !! loc = Some ips -> size ips = size (devices loc w).
Proof. intros Hw Hs. by rewrite <- (devices_dom loc ips w), size_dom. Qed.

(** Guards on one set under one limit. *)
Definition same_limit (loc : nat) (limit : Z) (e : event) : Prop :=
  match e with Acquire loc' _ limit' => loc' = loc -> limit' = limit | _ => True end.

Lemma exec_cap loc limit e w w' :
  (0 < limit)%Z -> counts_ok w -> same_limit loc limit e -> exec e w = Ok w' ->
  (forall ips, sets w !! loc = Some ips -> Z.of_nat (size ips) <= limit)%Z ->
  (forall ips, sets w' !! loc = Some ips -> Z.of_nat (size ips) <= limit)%Z.
Proof.
  intros Hlim Hw Hsame He Hcap ips'. destruct e as [u|live|loc' ip limit'|g]; cbn [exec] in He.
  - injection He as <-. unfold ensure_user. destruct (conn_ledger w !! u); [by apply Hcap|].
    cbn. intros [[_ <-]|[_ Hs]]%lookup_insert_Some; [rewrite map_size_empty; lia|by apply Hcap].
  - injection He as <-. by apply Hcap.
  - destruct (sets w !! loc') as [ips|] eqn:Hs; [|injection He as <-; by apply Hcap].
    destruct (acquire ips ip limit') as [ips2|] eqn:Ha; injection He as <-; [|by apply Hcap].
    cbn. intros [[-> <-]|[_ Hs']]%lookup_insert_Some; [|by apply Hcap].
    specialize (Hcap ips Hs). rewrite Hsame in Ha by done. unfold acquire in Ha.
    destruct (ips !! ip) eqn:Hip.
    + injection Ha as <-. by rewrite map_size_insert_Some by by eexists.
    + destruct (Z.leb_spec limit (Z.of_nat (size ips))) as [Hle|Hle].
      * by rewrite (proj2 (Z.ltb_lt _ _)) in Ha by done.
      * rewrite andb_false_r in Ha. injection Ha as <-. rewrite map_size_insert_None by done. lia.
  - case_decide as Hin; [|injection He as <-; by apply Hcap].
    destruct (sets w !! g.1) as [ips|] eqn:Hs; [|injection He as <-; by apply Hcap].
    apply bind_inv_Ok in He as (ips2 & Hd & [= <-]). cbn.
    intros [[Hg <-]|[_ Hs']]%lookup_insert_Some; [|by apply Hcap].
    rewrite Hg in Hs. specialize (Hcap ips Hs). revert Hd. unfold drop_guard.
    destruct (ips !! g.2) as [[|n]|] eqn:Hip; [done| |by intros [= <-]].
    intros [= <-]. case_match.
    + rewrite map_size_delete_Some by by eexists. lia.
    + by rewrite map_size_insert_Some by by eexists.
Qed.

Lemma run_cap loc limit es w w' :
  (0 < limit)%Z -> counts_ok w -> Forall (same_limit loc limit) es -> run es w = Ok w' ->
  (forall ips, sets w !! loc = Some ips -> Z.of_nat (size ips) <= limit)%Z ->
  (forall ips, sets w' !! loc = Some ips -> Z.of_nat (size ips) <= limit)%Z.
Proof.
  intros Hlim. revert w. induction es as [|e es IH]; intros w Hw Hes Hr Hcap.
  - by injection Hr as <-.
  - apply Forall_cons in Hes as [He Hes]. cbn [run] in Hr.
    destruct (exec_ok e w Hw) as (w1 & He1 & Hw1). rewrite He1, bind_Ok in Hr.
    apply (IH w1); [done|done|done|]. exact (exec_cap loc limit e w w1 Hlim Hw He He1 Hcap).
Qed.

(** ** Properties *)

(** C27 Reference counts never leak and never underflow: after any sequence
    of acquires, drops (in any order) and supervisor calls, no step has
    panicked, the count of an IP in a set is exactly the number of live
    guards for it, and a set without live guards is empty. *)
Theorem conn_guard_counts es :
  exists w, run es empty_world = Ok w /\
    (forall loc ips ip, sets w !! loc = Some ips ->
      ips !! ip = count_of (held (loc, ip) (guards w))) /\
    (forall loc ips, sets w !! loc = Some ips ->
      (forall ip, (loc, ip) ∉ guards w) -> ips = ∅).
Proof.
  destruct (run_ok es empty_world empty_ok) as (w & Hr & Hc & Hrest). exists w. split_and!; [done| |].
  - intros loc ips ip Hs. by apply Hc.
  - intros loc ips Hs Hno. apply map_eq. intros ip. rewrite (Hc loc ips Hs ip), lookup_empty.
    destruct (held (loc, ip) (guards w)) eqn:Hh; [done|]. destruct (Hno ip). apply held_elem. lia.
Qed.

(** C30 The cap counts devices, not connections: in a reachable state a
    guard is refused exactly when its IP has no live connection, the limit
    is positive and as many distinct IPs as the limit are connected; and if
    every connection of a user asks under the same positive limit, at most
    that many distinct IPs are ever connected at once. *)
Theorem conn_guard_cap es w loc ips
    (Hr : run es empty_world = Ok w) (Hs : sets w !! loc = Some ips) :
  (forall ip limit, acquire ips ip limit = None <->
    ((ip ∉ devices loc w) /\ (0 < limit <= Z.of_nat (size (devices loc w)))%Z)) /\
  (forall limit, (0 < limit)%Z -> Forall (same_limit loc limit) es ->
    ((Z.of_nat (size (devices loc w)) <= limit)%Z)).
Proof.
  destruct (run_ok es empty_world empty_ok) as (w' & Hr' & Hw). rewrite Hr in Hr'. injection Hr' as <-.
  rewrite <- (devices_size loc ips w) by done. split.
  - intros ip limit. rewrite <- (devices_dom loc ips w), not_elem_of_dom by done. unfold acquire.
    destruct (ips !! ip); [by split; [|intros [? _]]|].
    destruct (Z.ltb_spec 0 limit), (Z.leb_spec limit (Z.of_nat (size ips)));
      cbn [andb]; (split; [by (intros; try split; try lia)|by (intros [_ ?]; try lia)]).
  - intros limit Hlim Hes. refine (run_cap loc limit es empty_world w Hlim empty_ok Hes Hr _ ips Hs).
    intros ips0 H0. cbn in H0. by rewrite lookup_empty in H0.
Qed.

Definition example_events : list event :=
  [Ensure 7; Acquire 0 "1.1.1.1" 2; Acquire 0 "1.1.1.1" 2; Acquire 0 "2.2.2.2" 2;
   Acquire 0 "3.3.3.3" 2; DropGuard (0, "1.1.1.1")].

Definition refused (r : res error world) (loc : nat) (ip : string) (limit : Z) : bool :=
  match r with
  | Ok w => match sets w !! loc with
            | Some ips => bool_decide (acquire ips ip limit = None)
            | None => false
            end
  | _ => false
  end.

Lemma conn_guard_cap_witness :
  refused (run example_events empty_world) 0 "3.3.3.3" 2 = true /\
  match run example_events empty_world with
  | Ok w => (Z.of_nat (size (devices 0 w)) <= 2)%Z
  | _ => False
  end.
Proof.
  split; [vm_compute; reflexivity|].
  assert (refused (run example_events empty_world) 0 "3.3.3.3" 2 = true) as Href
    by (vm_compute; reflexivity).
  destruct (run example_events empty_world) as [w| | |] eqn:Hr; [|discriminate..].
  cbn in Href. destruct (sets w !! 0) as [ips|] eqn:Hs; [|discriminate].
  refine (proj2 (conn_guard_cap example_events w 0 ips Hr Hs) 2%Z _ _); [lia|repeat constructor].
Defined.
