(* ===== verification/RateLimit.v ===== *)
(** * The rate limiter ([RateLimiter] and [SpeedLedger] in
      [src/src/traffic.rs])

    The token bucket with its [f64] arithmetic, one lock acquisition per
    step: [acquire_step] is one round of the [acquire] loop at a given
    instant, and [acquire] runs rounds at the instants at which the sleeps
    end.  Limiters are shared through [Arc]s, so the ledger maps users to
    locations of a heap of buckets. *)

From S2P Require Import Prelude Float FloatBounds.

(** [struct Bucket]. *)
Record Bucket : Type := { rate : f64; capacity : f64; tokens : f64; last : Instant }.

(** [refill]; [now] is [Instant::now()]. *)
Definition refill (now : Instant) (b : Bucket) : Bucket :=
  if f64_leb (rate b) f64_zero then
    {| rate := rate b; capacity := capacity b; tokens := tokens b; last := now |}
  else
    let elapsed := as_secs_f64 (duration_since now (last b)) in
    {| rate := rate b; capacity := capacity b;
       tokens := f64_min (f64_add (tokens b) (f64_mul elapsed (rate b))) (capacity b);
       last := now |}.

Definition MIN_BURST : f64 := f64_mul (f64_of_Z 256) (f64_of_Z 1024).

(** [capacity_for]. *)
Definition capacity_for (rate : f64) : f64 := f64_max rate MIN_BURST.

(** [RateLimiter::new]. *)
Definition new (now : Instant) (rate_bps : Z) : Bucket :=
  let rate := f64_of_Z rate_bps in
  let capacity := capacity_for rate in
  {| rate := rate; capacity := capacity; tokens := capacity; last := now |}.

(** [RateLimiter::set_rate]. *)
Definition set_rate (now : Instant) (rate_bps : Z) (b : Bucket) : Bucket :=
  let r := f64_of_Z rate_bps in
  if f64_ltb (f64_abs (f64_sub r (rate b))) f64_epsilon then b
  else
    let b := refill now b in
    let c := capacity_for r in
    {| rate := r; capacity := c;
       tokens := if f64_ltb c (tokens b) then c else tokens b; last := last b |}.

(** One round of [acquire]: granted, or the time to sleep. *)
Inductive verdict : Type := Granted | Sleep (wait : Duration).

Definition acquire_step {E} (now : Instant) (amount : Z) (b : Bucket) : res E (verdict * Bucket) :=
  let amount := f64_of_Z amount in
  if f64_leb (rate b) f64_zero then Ok (Granted, b)
  else
    let b := refill now b in
    let need := f64_min amount (capacity b) in
    if f64_leb need (tokens b) then
      Ok (Granted, {| rate := rate b; capacity := capacity b;
                      tokens := f64_sub (tokens b) need; last := last b |})
    else
      wait ← from_secs_f64 (f64_div (f64_sub need (tokens b)) (rate b));
      Ok (Sleep wait, b).

(** The loop of one caller, with no other caller in between: [late k] is
    how much later than asked the [k]-th sleep ends.  The result is the
    instant at which the call returns. *)
Fixpoint acquire {E} (fuel : nat) (late : nat -> Duration) (now : Instant) (amount : Z) (b : Bucket)
    : res E (Instant * Bucket) :=
  match fuel with
  | 0 => OutOfFuel
  | S fuel =>
      '(v, b) ← acquire_step now amount b;
      match v with
      | Granted => Ok (now, b)
      | Sleep wait => acquire fuel late (now + wait + late fuel)%Z amount b
      end
  end.

(** ** [SpeedLedger] *)

Record SpeedLedger : Type := { limiters : gmap Z nat; buckets : gmap nat Bucket }.

Definition empty_ledger : SpeedLedger := {| limiters := ∅; buckets := ∅ |}.

(** [SpeedLedger::ensure_user]: the limiter's location. *)
Definition ensure_user (now : Instant) (user_id rate_bps : Z) (s : SpeedLedger) : nat * SpeedLedger :=
  match limiters s !! user_id with
  | Some loc =>
      (loc, {| limiters := limiters s; buckets := alter (set_rate now rate_bps) loc (buckets s) |})
  | None =>
      let loc := fresh (dom (buckets s)) in
      (loc, {| limiters := <[user_id := loc]> (limiters s);
               buckets := <[loc := new now rate_bps]> (buckets s) |})
  end.

(** [SpeedLedger::remove_stale_users]. *)
Definition remove_stale_users (live : gset Z) (s : SpeedLedger) : SpeedLedger :=
  {| limiters := filter (fun kv => kv.1 ∈ live) (limiters s); buckets := buckets s |}.

(** One poll of the panel: every user's limiter is ensured. *)
Definition ensure_all (now : Instant) (us : list (Z * Z)) (s : SpeedLedger) : SpeedLedger :=
  fold_left (fun s u => (ensure_user now u.1 u.2 s).2) us s.

(** Locations are allocated, and no two users share one. *)
Definition ledger_wf (s : SpeedLedger) : Prop :=
  (forall u loc, limiters s !! u = Some loc -> is_Some (buckets s !! loc)) /\
  (forall u v loc, limiters s !! u = Some loc -> limiters s !! v = Some loc -> u = v).

(** ** Lemmas *)

Lemma MIN_BURST_val : MIN_BURST = f64_of_Z 262144.
Proof. vm_compute. reflexivity. Qed.

Lemma capacity_for_not_nan r : f64_is_nan (capacity_for r) = false.
Proof. apply f64_max_not_nan. vm_compute. reflexivity. Qed.

Lemma capacity_for_burst r : f64_leb (f64_of_Z 262144) (capacity_for r) = true.
Proof. rewrite <- MIN_BURST_val. apply f64_max_ge_r. vm_compute. reflexivity. Qed.

Lemma refill_capacity now b :
  f64_is_nan (capacity b) = false -> f64_leb (rate b) f64_zero = false ->
  f64_leb (tokens (refill now b)) (capacity (refill now b)) = true.
Proof. intros Hc Hr. unfold refill. rewrite Hr. cbn. by apply f64_min_le_r. Qed.

Lemma ensure_user_wf now u r s : ledger_wf s -> ledger_wf (ensure_user now u r s).2.
Proof.
  intros [Ha Hi]. unfold ensure_user. destruct (limiters s !! u) as [loc|] eqn:Hu.
  - split; cbn; [|done]. intros v loc' Hv. rewrite lookup_alter_is_Some. by eapply Ha.
  - set (loc := fresh (dom (buckets s))).
    assert (buckets s !! loc = None) as Hf by (apply not_elem_of_dom, is_fresh).
    assert (forall v, limiters s !! v <> Some loc) as Hno.
    { intros v [? Hs]%Ha. by rewrite Hf in Hs. }
    split; cbn.
    + intros v loc'. rewrite lookup_insert_is_Some. intros [[-> <-]|[Hne Hv]]%lookup_insert_Some; [by left|].
      destruct (decide (loc = loc')); [by left|]. right. split; [done|]. by eapply Ha.
    + intros v w loc' [[Hv1 Hv2]|[Hv1 Hv2]]%lookup_insert_Some
        [[Hw1 Hw2]|[Hw1 Hw2]]%lookup_insert_Some; subst; try done.
      * by destruct (Hno w).
      * by destruct (Hno v).
      * by eapply Hi.
Qed.

Lemma empty_ledger_wf : ledger_wf empty_ledger.
Proof. split; cbn; intros *; rewrite lookup_empty; done. Qed.

(** A user that stays keeps its limiter. *)
Lemma ensure_user_keeps now u r s v loc :
  limiters s !! v = Some loc -> limiters (ensure_user now u r s).2 !! v = Some loc.
Proof.
  intros Hv. unfold ensure_user. destruct (limiters s !! u) eqn:Hu; [done|]. cbn.
  rewrite lookup_insert_ne; [done|]. intros ->. by rewrite Hv in Hu.
Qed.

(** Ensuring one user does not touch another's bucket. *)
Lemma ensure_user_frame now u r s v loc :
  ledger_wf s -> limiters s !! v = Some loc -> v <> u ->
  buckets (ensure_user now u r s).2 !! loc = buckets s !! loc.
Proof.
  intros [Ha Hi] Hv Hne. unfold ensure_user. destruct (limiters s !! u) as [loc'|] eqn:Hu; cbn.
  - rewrite lookup_alter_ne; [done|]. intros ->. destruct Hne. by eapply Hi.
  - rewrite lookup_insert_ne; [done|]. intros Heq. apply Ha in Hv as [b Hb].
    rewrite <- Heq in Hb.
    assert (buckets s !! fresh (dom (buckets s)) = None) as Hn by (apply not_elem_of_dom, is_fresh).
    by rewrite Hn in Hb.
Qed.

Lemma ensure_all_wf now us s : ledger_wf s -> ledger_wf (ensure_all now us s).
Proof.
  revert s. induction us as [|u us IH]; intros s Hs; [done|]. apply IH. by apply ensure_user_wf.
Qed.

Lemma ensure_all_keeps now us s v loc :
  limiters s !! v = Some loc -> limiters (ensure_all now us s) !! v = Some loc.
Proof.
  revert s. induction us as [|u us IH]; intros s Hs; [done|]. apply IH. by apply ensure_user_keeps.
Qed.

Lemma ensure_all_bucket now us s v loc b :
  ledger_wf s -> limiters s !! v = Some loc -> buckets s !! loc = Some b ->
  NoDup us.*1 ->
  buckets (ensure_all now us s) !! loc =
    match find (fun u => (u.1 =? v)%Z) us with
    | Some u => Some (set_rate now u.2 b)
    | None => Some b
    end.
Proof.
  intros Hs Hv Hb. revert s Hs Hv Hb. induction us as [|[u r] us IH]; intros s Hs Hv Hb Hnd; [done|].
  rewrite fmap_cons in Hnd. apply NoDup_cons in Hnd as [Hnin Hnd]. cbn [ensure_all fold_left find fst snd].
  destruct (Z.eqb_spec u v) as [->|Hne].
  - set (s1 := (ensure_user now v r s).2).
    assert (buckets s1 !! loc = Some (set_rate now r b)) as Hb1.
    { unfold s1, ensure_user. rewrite Hv. cbn. by rewrite lookup_alter_eq, Hb. }
    assert (forall us s1, v ∉ us.*1 -> ledger_wf s1 -> limiters s1 !! v = Some loc ->
      buckets (ensure_all now us s1) !! loc = buckets s1 !! loc) as Hframe.
    { clear. induction us as [|[u r] us IH]; intros s1 Hn Hw Hl; [done|].
      rewrite fmap_cons, not_elem_of_cons in Hn. destruct Hn as [Hn1 Hn2].
      cbn [ensure_all fold_left fst snd]. etransitivity.
      - apply IH; [done|by apply ensure_user_wf|by apply ensure_user_keeps].
      - by eapply ensure_user_frame. }
    change (buckets (ensure_all now us s1) !! loc = Some (set_rate now r b)).
    rewrite Hframe; [done|done|by apply ensure_user_wf|by apply ensure_user_keeps].
  - apply (IH (ensure_user now u r s).2); [by apply ensure_user_wf|by apply ensure_user_keeps| |done].
    rewrite (ensure_user_frame now u r s v loc); [done|done|done|congruence].
Qed.

(** ** The invariant of a bucket *)

Lemma capacity_bound r :
  (0 <= r < 2 ^ 64)%Z ->
  let c := capacity_for (f64_of_Z r) in
  unsigned c /\ finite c /\ (order c <= 65)%Z /\ (order c <= Z.max 19 (order (f64_of_Z r)))%Z.
Proof.
  intros Hr. assert (Hm : unsigned MIN_BURST /\ finite MIN_BURST /\ order MIN_BURST = 19%Z)
    by (vm_compute; done). destruct Hm as (Hu & Hf & Ho).
  assert (Hn : f64_is_nan MIN_BURST = false) by by vm_compute.
  unfold capacity_for, f64_max. rewrite Hn.
  destruct (of_u64 r Hr) as [-> | (m & e & -> & Hc & Hd & Hre)]; [by split_and!; vm_compute|].
  cbn [f64_is_nan]. case_match; split_and!; try done; try lia; cbn [order]; lia.
Qed.

(** The rate is a [u64], the capacity goes with it, and the tokens are a
    non-negative finite number. *)
Record bucket_ok (b : Bucket) : Prop := {
  ok_rate : exists r, (0 <= r < 2 ^ 64)%Z /\ rate b = f64_of_Z r;
  ok_capacity : capacity b = capacity_for (rate b);
  ok_tokens : unsigned (tokens b);
  ok_finite : finite (tokens b)
}.

Lemma ok_capacity_bound b :
  bucket_ok b ->
  unsigned (capacity b) /\ finite (capacity b) /\ (order (capacity b) <= 65)%Z /\
  (order (capacity b) <= Z.max 19 (order (rate b)))%Z.
Proof. intros Hb. rewrite (ok_capacity b Hb). destruct (ok_rate b Hb) as (r & Hr & ->). by apply capacity_bound. Qed.

Lemma unsigned_not_nan x : unsigned x -> f64_is_nan x = false.
Proof. by destruct x. Qed.

Lemma refill_rate now b : rate (refill now b) = rate b.
Proof. unfold refill. by case_match. Qed.

(** A refill with a positive rate clamps to the capacity. *)
Lemma refill_ok now b :
  bucket_ok b -> bucket_ok (refill now b) /\
  (f64_leb (rate b) f64_zero = false -> f64_leb (tokens (refill now b)) (capacity (refill now b)) = true).
Proof.
  intros Hb. destruct (ok_capacity_bound b Hb) as (Hu & Hf & _).
  split; [|intros Hz; apply refill_capacity; [by apply unsigned_not_nan|done]].
  unfold refill. destruct (f64_leb (rate b) f64_zero) eqn:Hle; [by destruct Hb|]. cbv zeta.
  set (t := f64_min _ (capacity b)).
  assert (Ht : unsigned t).
  { assert (unsigned (f64_mul (as_secs_f64 (duration_since now (last b))) (rate b))) as Hmul.
    { destruct (ok_rate b Hb) as (r & Hr & Hrr). rewrite Hrr in *. destruct (of_u64 r Hr) as [Hz|(m & e & Hm & _ & Hd & _)];
        [by rewrite Hz in Hle|]. rewrite Hm.
      apply mul_unsigned; [|done]. apply as_secs_signless. unfold duration_since. lia. }
    pose proof (add_unsigned _ _ (ok_tokens b Hb) Hmul) as Hadd. subst t.
    match goal with |- unsigned (f64_min ?x ?y) => by destruct (min_cases x y) as [-> | ->] end. }
  split; cbn; [apply Hb..|done|]. apply (leb_finite t (capacity b)); try done.
  by apply f64_min_le_r, unsigned_not_nan.
Qed.

Lemma bucket_new_ok now r : (0 <= r < 2 ^ 64)%Z -> bucket_ok (new now r).
Proof. intros Hr. destruct (capacity_bound r Hr) as (Hu & Hf & _). split; cbn; [by exists r|done..]. Qed.

Lemma set_rate_ok now r b : (0 <= r < 2 ^ 64)%Z -> bucket_ok b -> bucket_ok (set_rate now r b).
Proof.
  intros Hr Hb. destruct (refill_ok now b Hb) as [Hf _]. destruct (capacity_bound r Hr) as (Hu & Hcf & _).
  unfold set_rate. case_match; [done|]. split; cbn [rate capacity tokens]; [by exists r|done|..].
  all: case_match; [done|apply Hf].
Qed.

(** Twelve days fill any bucket. *)
Definition PAUSE : Duration := from_secs (2 ^ 20).

Lemma pause_fills now b :
  bucket_ok b -> f64_leb (rate b) f64_zero = false ->
  (PAUSE <= now - last b < from_secs (2 ^ 64))%Z -> tokens (refill now b) = capacity b.
Proof.
  intros Hb Hz Hp. destruct (ok_capacity_bound b Hb) as (Hcu & Hcf & _ & Hco).
  unfold refill. rewrite Hz. cbn [tokens].
  replace (duration_since now (last b)) with (now - last b)%Z
    by (unfold duration_since, PAUSE, from_secs in *; cbn in *; lia).
  destruct (ok_rate b Hb) as (r & Hr & Hrr). rewrite Hrr in *.
  destruct (of_u64 r Hr) as [Hr0|(m & e & Hm & _ & Hd & Ho)]; [by rewrite Hr0 in Hz|]. rewrite Hm in *.
  cbn [order] in Hco. rewrite Hd in *.
  eapply (at_least_min (20 + (53 + e))%Z); [|done|done|lia].
  apply add_at_least; [lia|by apply unsigned_signless, Hb|].
  replace (20 + (53 + e))%Z with ((20 + 1) + (53 + e) - 1)%Z by lia.
  apply mul_at_least; [|done|lia]. by apply as_secs_at_least.
Qed.

Lemma acquire_paused {E} now amount b :
  bucket_ok b -> (PAUSE <= now - last b < from_secs (2 ^ 64))%Z ->
  exists b', acquire_step (E:=E) now amount b = Ok (Granted, b').
Proof.
  intros Hb Hp. unfold acquire_step. destruct (f64_leb (rate b) f64_zero) eqn:Hz; [by eexists|]. cbv zeta.
  rewrite (pause_fills now b Hb Hz Hp). unfold refill at 1. rewrite Hz. cbn [capacity].
  rewrite f64_min_le_r by by apply unsigned_not_nan, ok_capacity_bound. by eexists.
Qed.

(** The ledger hands out sound buckets. *)
Lemma ensure_user_ok now u r s :
  (0 <= r <= U64_MAX)%Z -> map_Forall (fun _ => bucket_ok) (buckets s) ->
  map_Forall (fun _ => bucket_ok) (buckets (ensure_user now u r s).2).
Proof.
  intros Hr Hb. assert (0 <= r < 2 ^ 64)%Z by (unfold U64_MAX in Hr; lia).
  unfold ensure_user. destruct (limiters s !! u) as [loc|]; cbn [snd buckets].
  - intros loc' b'. rewrite lookup_alter_Some. intros [(-> & b & Hl & ->)|[_ Hl]]; [|by eapply Hb].
    apply set_rate_ok; [done|by eapply Hb].
  - by apply map_Forall_insert_2; [apply bucket_new_ok|].
Qed.

Definition MAX_WAIT : Duration := from_secs (2 ^ 21).

Definition verdict_ok (v : verdict) : Prop :=
  match v with Granted => True | Sleep wait => (0 <= wait <= MAX_WAIT)%Z end.

(** The quotient of a shortage and a positive rate is a duration. *)
Lemma wait_bound {E} x y :
  (exists r, (0 <= r < 2 ^ 64)%Z /\ y = f64_of_Z r) -> f64_leb y f64_zero = false ->
  unsigned x -> finite x -> (order x <= Z.max 19 (order y) + 1)%Z ->
  exists d, from_secs_f64 (E:=E) (f64_div x y) = Ok d /\ (0 <= d <= MAX_WAIT)%Z.
Proof.
  intros (r & Hr & ->) Hz Hu Hf Ho.
  destruct (of_u64 r Hr) as [Hr0|(m & e & Hm & _ & Hd & Hre)]; [by rewrite Hr0 in Hz|].
  rewrite Hm in *. cbn [order] in Ho.
  destruct (div_bound x m e) as (mw & ew & Hmw & -> & Hw); [by apply unsigned_signless|done|by apply order_min|].
  destruct (from_secs_rounded (E:=E) mw ew 21 Hmw) as (d & -> & Hdd); [lia..|]. by exists d.
Qed.

(** A round never panics: what it sleeps is a valid duration. *)
Lemma acquire_step_ok {E} now amount b :
  (0 <= amount)%Z -> bucket_ok b -> exists v b', acquire_step (E:=E) now amount b = Ok (v, b') /\ bucket_ok b' /\ verdict_ok v.
Proof.
  intros Ha Hb. unfold acquire_step. case_match eqn:Hz; [by exists Granted, b|].
  destruct (refill_ok now b Hb) as [Hf Hfull]. specialize (Hfull Hz). pose proof (refill_rate now b) as Hrate.
  destruct (ok_capacity_bound _ Hf) as (Hcu & Hcf & Hc65 & Hcr). rewrite Hrate in Hcr.
  set (b1 := refill now b) in *. set (need := f64_min (f64_of_Z amount) (capacity b1)).
  assert (Hnu : unsigned need).
  { pose proof (of_Z_unsigned amount Ha).
    by destruct (min_cases (f64_of_Z amount) (capacity b1)) as [Hm|Hm]; unfold need; rewrite Hm. }
  assert (Hnc : f64_leb need (capacity b1) = true) by by apply f64_min_le_r, unsigned_not_nan.
  pose proof (leb_finite _ _ Hnu Hcu Hcf Hnc) as Hnf. pose proof (leb_order _ _ Hnu Hcu Hcf Hnc) as Hno.
  cbv zeta. destruct (f64_leb need (tokens b1)) eqn:Hle.
  - pose proof (leb_order _ _ (ok_tokens _ Hf) Hcu Hcf Hfull) as Hto.
    destruct (sub_unsigned (tokens b1) need (ok_tokens _ Hf) Hnu (ok_finite _ Hf) Hle) as (Hs & _ & Hsf).
    eexists Granted, _. split; [done|]. split; [|done].
    split; cbn; [apply Hf|apply Hf|done|]. apply Hsf. lia.
  - assert (Hlt : f64_leb (tokens b1) need = true).
    { apply f64_not_leb_leb; [apply unsigned_not_nan..|done]; [done|apply Hf]. }
    destruct (sub_unsigned need (tokens b1) Hnu (ok_tokens _ Hf) Hnf Hlt) as (Hsu & Hso & Hsf).
    destruct (wait_bound (E:=E) (f64_sub need (tokens b1)) (rate b)) as (d & Hd & Hdb).
    { apply Hb. }
    { done. }
    { done. }
    { apply Hsf. lia. }
    { lia. }
    rewrite Hrate, Hd. by exists (Sleep d), b1.
Qed.

(** ** Properties *)

(** Whoever holds a limiter, one at a time: a poll sets the rate, a
    connection runs a round of [acquire]. *)
Inductive turn : Type :=
  | SetRate (now : Instant) (rate_bps : Z)
  | Round (now : Instant) (amount : Z).

Definition turn_ok (t : turn) : Prop :=
  match t with SetRate _ r => (0 <= r <= U64_MAX)%Z | Round _ amount => (0 <= amount)%Z end.

(** The verdicts of the rounds, and the bucket in the end. *)
Fixpoint turns {E} (ts : list turn) (b : Bucket) : res E (list verdict * Bucket) :=
  match ts with
  | [] => Ok ([], b)
  | SetRate now r :: ts => turns ts (set_rate now r b)
  | Round now amount :: ts =>
      '(v, b) ← acquire_step now amount b;
      '(vs, b) ← turns ts b;
      Ok (v :: vs, b)
  end.

Lemma turns_ok {E} ts b :
  Forall turn_ok ts -> bucket_ok b ->
  exists vs b', turns (E:=E) ts b = Ok (vs, b') /\ bucket_ok b' /\ Forall verdict_ok vs.
Proof.
  intros Ht. revert b. induction Ht as [|[now r|now amount] ts Hr _ IH]; intros b Hb; [by exists [], b|..];
    cbn [turns].
  - apply IH, set_rate_ok; [|done]. cbn in Hr. unfold U64_MAX in Hr. lia.
  - destruct (acquire_step_ok (E:=E) now amount b Hr Hb) as (v & b1 & -> & Hb1 & Hv).
    destruct (IH b1 Hb1) as (vs & b2 & Hvs & Hb2 & Hvs2). cbn [mbind res_bind]. rewrite Hvs.
    exists (v :: vs), b2. split_and!; [done|done|by constructor].
Qed.

(** C35 The token bucket: from a new limiter, however polls set 64-bit rates
    and connections ask for tokens, at whatever instants (a clock that runs
    back included), no round panics ([from_secs_f64] gets a valid number)
    and no round asks for a sleep longer than 2^21 seconds.  At any
    such point the tokens are a non-negative finite number, the capacity is
    at least the 256 KiB of a relay chunk; a rate of zero grants at once; a
    refill with a positive rate leaves at most the capacity, and after a
    pause of 2^20 seconds (the least rate, the greatest amount) any request
    is granted. *)
Theorem bucket_bounds {E} start r ts (Hr : (0 <= r <= U64_MAX)%Z) (Ht : Forall turn_ok ts) :
  exists vs b, turns (E:=E) ts (new start r) = Ok (vs, b) /\
    Forall (fun v => match v with Granted => True | Sleep w => (0 <= w <= from_secs (2 ^ 21))%Z end) vs /\
    f64_leb f64_zero (tokens b) = true /\ finite (tokens b) /\
    f64_leb (f64_of_Z 262144) (capacity b) = true /\
    forall now amount,
      (f64_leb (rate b) f64_zero = true -> acquire_step (E:=E) now amount b = Ok (Granted, b)) /\
      (f64_leb (rate b) f64_zero = false ->
        f64_leb (tokens (refill now b)) (capacity b) = true /\
        ((PAUSE <= now - last b < from_secs (2 ^ 64))%Z ->
          exists b', acquire_step (E:=E) now amount b = Ok (Granted, b'))).
Proof.
  destruct (turns_ok (E:=E) ts (new start r) Ht) as (vs & b & Hb & Hok & Hv).
  { apply bucket_new_ok. unfold U64_MAX in Hr. lia. }
  exists vs, b. split_and!; [done|done|by apply unsigned_zero_leb, Hok|apply Hok|..].
  { rewrite (ok_capacity b Hok). apply capacity_for_burst. }
  intros now amount. destruct (refill_ok now b Hok) as [_ Hfull].
  assert (f64_leb (rate b) f64_zero = false -> capacity (refill now b) = capacity b) as Hc.
  { intros Hz. unfold refill. by rewrite Hz. }
  split; intros Hz; [unfold acquire_step; by rewrite Hz|]. rewrite <- (Hc Hz) at 1.
  split; [by apply Hfull|by apply acquire_paused].
Qed.

Lemma bucket_bounds_witness :
  exists vs b, turns (E:=()) [Round 5 900000; Round 6 900000; SetRate 7 0; SetRate 8 3;
                              Round 9 900000] (new 0 1048576) = Ok (vs, b) /\
    nth_error vs 0 = Some Granted /\ f64_leb f64_zero (tokens b) = true /\ finite (tokens b).
Proof.
  destruct (bucket_bounds (E:=()) 0 1048576 [Round 5 900000; Round 6 900000; SetRate 7 0;
    SetRate 8 3; Round 9 900000]) as (vs & b & Hb & _ & Hz & Hf & _).
  - by unfold U64_MAX.
  - repeat constructor; unfold turn_ok, U64_MAX; lia.
  - exists vs, b. split; [exact Hb|]. split; [|split; [exact Hz|exact Hf]].
    assert (Hg : (match turns (E:=()) [Round 5 900000; Round 6 900000; SetRate 7 0;
      SetRate 8 3; Round 9 900000] (new 0 1048576) with Ok (vs, _) => nth_error vs 0 | _ => None end)
      = Some Granted) by (vm_compute; reflexivity).
    rewrite Hb in Hg. exact Hg.
Defined.

(** Limiters are per user, shared and persistent: through any polls
    every user has one bucket and no two users share one; a user that stays
    keeps its location (so open connections keep limiting against it), its
    bucket changes by [set_rate] with its own new rate and by nothing that
    happens to other users. *)
Theorem speed_ledger_persistent now us s v loc b
    (Hs : ledger_wf s) (Hv : limiters s !! v = Some loc) (Hb : buckets s !! loc = Some b)
    (Hnd : NoDup us.*1) :
  let s' := ensure_all now us s in
  ledger_wf s' /\ limiters s' !! v = Some loc /\
  buckets s' !! loc =
    match find (fun u => (u.1 =? v)%Z) us with
    | Some u => Some (set_rate now u.2 b)
    | None => Some b
    end.
Proof.
  intros s'. split; [by apply ensure_all_wf|]. split; [by apply ensure_all_keeps|].
  by apply ensure_all_bucket.
Qed.

Lemma speed_ledger_persistent_witness :
  let s := ensure_all 0 [(1, 1048576)]%Z empty_ledger in
  limiters (ensure_all 5 [(2, 7); (1, 1024)]%Z s) !! 1%Z = Some 0.
Proof.
  cbv zeta. refine (proj1 (proj2 (speed_ledger_persistent 5 [(2, 7); (1, 1024)]%Z
    (ensure_all 0 [(1, 1048576)]%Z empty_ledger) 1 0 (new 0 1048576) _ _ _ _))).
  - apply ensure_all_wf, empty_ledger_wf.
  - reflexivity.
  - reflexivity.
  - repeat constructor; set_solver.
Defined.

(** The unit tests of the module: 1 MiB/s grants its burst at once and
    the next MiB one second later; an unlimited bucket grants anything; and
    [set_rate] from unlimited to 1 KiB/s clamps the tokens to 256 KiB. *)
Theorem rate_limiter_tests :
  (let mib := 1048576%Z in
   '(t1, b) ← acquire (E:=()) 5 (fun _ => 0%Z) 0 mib (new 0 1048576);
   '(t2, _) ← acquire 5 (fun _ => 0%Z) t1 mib b;
   Ok (t1, t2)) = Ok (0, 1000000000)%Z /\
  (let gb := 1000000000%Z in
   '(t, _) ← acquire (E:=()) 1 (fun _ => 0%Z) 3 gb (new 0 0); Ok t) = Ok 3%Z /\
  tokens (set_rate 0 1024 (set_rate 0 0 (new 0 10485760))) = f64_of_Z 262144.
Proof. vm_compute. done. Qed.
