(* ===== verification/TtlMap.v ===== *)
(** * The bounded map with expiry ([src/src/runtime/state.rs])

    [BoundedTtlMap] over a hash map, for any key and value types.  The
    clock is an argument of each operation.  The theorems: the capacity
    bound in every reachable state, and what each operation keeps: expired
    entries go, a full map gives up its least recently seen entry, and only
    for a new key. *)

From S2P Require Import Prelude Float Traffic.

(** [struct Entry]. *)
Record Entry (V : Type) : Type := { value : V; last_seen : Instant }.
Arguments value {V} _.
Arguments last_seen {V} _.
Arguments Build_Entry {V} _ _.

(** [Iterator::min_by_key]: the first of the minimal elements. *)
Fixpoint min_by_key {A} (f : A -> Z) (l : list A) : option A :=
  match l with
  | [] => None
  | x :: l =>
      match min_by_key f l with
      | Some y => if (f y <? f x)%Z then Some y else Some x
      | None => Some x
      end
  end.

Module BoundedTtlMap.
Section BoundedTtlMap.
Context {K V : Type} `{Countable K} `{HashOrder}.

(** [struct BoundedTtlMap]. *)
Record t : Type := { ttl : Duration; capacity : nat; map : gmap K (Entry V) }.

Definition set_map (m : gmap K (Entry V)) (s : t) : t :=
  {| ttl := ttl s; capacity := capacity s; map := m |}.

(** [new]. *)
Definition new (ttl : Duration) (capacity : nat) : t :=
  {| ttl := ttl; capacity := Nat.max capacity 1; map := ∅ |}.

(** [evict_expired]: the [retain] condition. *)
Definition is_live (now : Instant) (ttl : Duration) (e : Entry V) : bool :=
  (duration_since now (last_seen e) <? ttl)%Z.

Definition evict_expired (now : Instant) (s : t) : t :=
  set_map (filter (fun kv => is_live now (ttl s) kv.2 = true) (map s)) s.

(** [evict_oldest]. *)
Definition evict_oldest (s : t) : t :=
  match min_by_key (fun kv => last_seen kv.2) (hash_iter (map s)) with
  | Some kv => set_map (delete kv.1 (map s)) s
  | None => s
  end.

(** [touch_or_insert_with]. *)
Definition touch_or_insert_with (now : Instant) (key : K) (make_value : () -> V) (s : t) : t :=
  match map s !! key with
  | Some entry => set_map (<[key := {| value := value entry; last_seen := now |}]> (map s)) s
  | None =>
      let s := evict_expired now s in
      let s := if capacity s <=? size (map s) then evict_oldest s else s in
      set_map (<[key := {| value := make_value (); last_seen := now |}]> (map s)) s
  end.

(** [touch]: the value, if the key is present. *)
Definition touch (now : Instant) (key : K) (s : t) : option V * t :=
  match map s !! key with
  | Some entry =>
      (Some (value entry), set_map (<[key := {| value := value entry; last_seen := now |}]> (map s)) s)
  | None => (None, s)
  end.

(** [insert]. *)
Definition insert (now : Instant) (key : K) (v : V) (s : t) : t :=
  let s := evict_expired now s in
  let s := if bool_decide (map s !! key = None) && (capacity s <=? size (map s))
           then evict_oldest s else s in
  set_map (<[key := {| value := v; last_seen := now |}]> (map s)) s.

(** [expire], [retain], [len], [values], [keys]. *)
Definition expire (now : Instant) (s : t) : t := evict_expired now s.
Definition retain (keep : K -> V -> bool) (s : t) : t :=
  set_map (filter (fun kv => keep kv.1 (value kv.2) = true) (map s)) s.
Definition len (s : t) : nat := size (map s).
Definition values (s : t) : list V := List.map (fun kv => value kv.2) (hash_iter (map s)).
Definition keys (s : t) : list K := List.map fst (hash_iter (map s)).

(** Any sequence of operations; the clock does not go back. *)
Inductive op : Type :=
  | OTouchOrInsert (key : K) (v : V)
  | OTouch (key : K)
  | OInsert (key : K) (v : V)
  | OExpire
  | ORetain (keep : K -> V -> bool).

Definition exec (now : Instant) (o : op) (s : t) : t :=
  match o with
  | OTouchOrInsert k v => touch_or_insert_with now k (fun _ => v) s
  | OTouch k => (touch now k s).2
  | OInsert k v => insert now k v s
  | OExpire => expire now s
  | ORetain keep => retain keep s
  end.

Definition run (ops : list (Instant * op)) (s : t) : t :=
  fold_left (fun s o => exec o.1 o.2 s) ops s.

(** ** Specification *)

(** The entries that have not expired. *)
Definition live_map (now : Instant) (s : t) : gmap K (Entry V) :=
  filter (fun kv => is_live now (ttl s) kv.2 = true) (map s).

Definition bounded (s : t) : Prop := 1 <= capacity s /\ size (map s) <= capacity s.

(** ** Lemmas *)

Lemma min_by_key_none {A} (f : A -> Z) l : min_by_key f l = None -> l = [].
Proof. destruct l; cbn; [done|]. by repeat case_match. Qed.

Lemma min_by_key_some {A} (f : A -> Z) l x :
  min_by_key f l = Some x -> x ∈ l /\ forall y, y ∈ l -> (f x <= f y)%Z.
Proof.
  revert x. induction l as [|a l IH]; intros x; [done|]. cbn [min_by_key].
  destruct (min_by_key f l) as [m|] eqn:Hm.
  - destruct (IH m eq_refl) as [Hin Hle].
    destruct (Z.ltb_spec (f m) (f a)); intros [= <-].
    + split; [by right|]. intros y [->|Hy]%elem_of_cons; [lia|by apply Hle].
    + split; [by left|]. intros y [->|Hy]%elem_of_cons; [lia|]. specialize (Hle y Hy). lia.
  - apply min_by_key_none in Hm as ->. intros [= <-]. split; [by left|].
    intros y [->|?%not_elem_of_nil]%elem_of_cons; done.
Qed.

Lemma hash_iter_lookup (m : gmap K (Entry V)) k e : (k, e) ∈ hash_iter m <-> m !! k = Some e.
Proof. by rewrite hash_iter_perm, elem_of_map_to_list. Qed.

(** [evict_oldest] on a non-empty map removes one entry, a least recently
    seen one. *)
Lemma evict_oldest_spec s :
  map s <> ∅ ->
  exists k e, map s !! k = Some e /\ evict_oldest s = set_map (delete k (map s)) s /\
    forall k' e', map s !! k' = Some e' -> (last_seen e <= last_seen e')%Z.
Proof.
  intros Hne. unfold evict_oldest.
  destruct (min_by_key _ (hash_iter (map s))) as [[k e]|] eqn:Hm.
  - apply min_by_key_some in Hm as [Hin%hash_iter_lookup Hle]. exists k, e.
    split_and!; [done|done|]. intros k' e' Hk'%hash_iter_lookup. apply (Hle _ Hk').
  - apply min_by_key_none in Hm. destruct Hne. apply map_eq. intros k. rewrite lookup_empty.
    destruct (map s !! k) as [e|] eqn:Hk; [|done]. apply hash_iter_lookup in Hk.
    rewrite Hm in Hk. by apply not_elem_of_nil in Hk.
Qed.

Lemma size_filter_le (P : K * Entry V -> Prop) `{forall x, Decision (P x)} (m : gmap K (Entry V)) :
  size (filter P m) <= size m.
Proof. rewrite <- !size_dom. apply subseteq_size, dom_filter_subseteq. Qed.

Lemma set_map_insert_size k e (m : gmap K (Entry V)) :
  size (<[k := e]> m) <= S (size m).
Proof. destruct (m !! k) eqn:Hk; [rewrite map_size_insert_Some by (by eexists)|
  rewrite map_size_insert_None by done]; lia. Qed.

(** The eviction before an insertion leaves room. *)
Lemma evict_room s :
  bounded s -> capacity s <= size (map s) -> S (size (map (evict_oldest s))) <= capacity s.
Proof.
  intros [H1 Hb] Hfull. destruct (evict_oldest_spec s) as (k & e & Hk & -> & _).
  - intros He. rewrite He, map_size_empty in Hfull. lia.
  - cbn. rewrite map_size_delete_Some by by eexists.
    assert (size (map s) <> 0); [|lia]. lia.
Qed.

Lemma evict_expired_bounded now s : bounded s -> bounded (evict_expired now s).
Proof.
  intros [H1 Hb]. split; [done|]. cbn. etransitivity; [apply size_filter_le|done].
Qed.

Lemma evict_oldest_capacity s : capacity (evict_oldest s) = capacity s /\ ttl (evict_oldest s) = ttl s.
Proof. unfold evict_oldest. by case_match. Qed.

Lemma insert_room s k e (b : bool) :
  bounded s -> (b = true -> capacity s <= size (map s)) ->
  (b = false -> size (map s) < capacity s \/ is_Some (map s !! k)) ->
  let s' := if b then evict_oldest s else s in
  bounded (set_map (<[k := e]> (map s')) s').
Proof.
  intros Hb Ht Hf. destruct b; cbv zeta.
  - split; cbn; [rewrite (proj1 (evict_oldest_capacity s)); apply Hb|].
    rewrite (proj1 (evict_oldest_capacity s)). etransitivity; [apply set_map_insert_size|].
    by apply evict_room; [|apply Ht].
  - split; cbn; [apply Hb|]. destruct (Hf eq_refl) as [Hlt|Hk].
    + etransitivity; [apply set_map_insert_size|]. lia.
    + rewrite map_size_insert_Some by done. apply Hb.
Qed.

Lemma insert_bounded now k v s : bounded s -> bounded (insert now k v s).
Proof.
  intros Hb. apply (evict_expired_bounded now) in Hb. unfold insert.
  apply insert_room; [done| |].
  - intros [_ Hle%Nat.leb_le]%andb_true_iff. done.
  - intros [Hk%bool_decide_eq_false_1|Hlt%Nat.leb_gt]%andb_false_iff.
    + right. by apply not_eq_None_Some.
    + by left.
Qed.

Lemma touch_or_insert_bounded now k mk s : bounded s -> bounded (touch_or_insert_with now k mk s).
Proof.
  intros Hb. unfold touch_or_insert_with. destruct (map s !! k) as [e|] eqn:Hk.
  - split; cbn; [apply Hb|]. rewrite map_size_insert_Some by by eexists. apply Hb.
  - apply (evict_expired_bounded now) in Hb. apply insert_room; [done| |].
    + by intros Hle%Nat.leb_le.
    + intros Hlt%Nat.leb_gt. by left.
Qed.

Lemma exec_bounded now o s : bounded s -> bounded (exec now o s).
Proof.
  intros Hb. destruct o as [k v|k|k v| |keep]; cbn [exec].
  - by apply touch_or_insert_bounded.
  - unfold touch. destruct (map s !! k) as [e|] eqn:Hk; [|done]. split; cbn; [apply Hb|].
    rewrite map_size_insert_Some by by eexists. apply Hb.
  - by apply insert_bounded.
  - by apply evict_expired_bounded.
  - split; cbn; [apply Hb|]. etransitivity; [apply size_filter_le|apply Hb].
Qed.

Lemma exec_same now o s : capacity (exec now o s) = capacity s /\ ttl (exec now o s) = ttl s.
Proof.
  pose proof evict_oldest_capacity as He.
  destruct o as [k v|k|k v| |keep]; cbn [exec]; [| | |done|done].
  - unfold touch_or_insert_with. destruct (map s !! k); [done|]. cbv zeta.
    case_match; cbn; [apply (He (evict_expired now s))|done].
  - unfold touch. by destruct (map s !! k).
  - unfold insert. cbv zeta. case_match; cbn; [apply (He (evict_expired now s))|done].
Qed.

Lemma run_bounded ops s : bounded s -> bounded (run ops s) /\ capacity (run ops s) = capacity s.
Proof.
  revert s. induction ops as [|o ops IH]; intros s Hb; [done|].
  cbn [run fold_left]. destruct (IH (exec o.1 o.2 s)) as [H1 H2]; [by apply exec_bounded|].
  split; [done|]. unfold run in H2. rewrite H2. apply exec_same.
Qed.

(** What [insert] does to the other keys. *)
Lemma insert_spec now k v s :
  bounded s ->
  let live := live_map now s in
  map (insert now k v s) !! k = Some {| value := v; last_seen := now |} /\
  ((is_Some (live !! k) \/ size live < capacity s) ->
    forall k', k' <> k -> map (insert now k v s) !! k' = live !! k') /\
  ((live !! k = None /\ capacity s <= size live) ->
    exists old e, live !! old = Some e /\
      (forall k' e', live !! k' = Some e' -> (last_seen e <= last_seen e')%Z) /\
      forall k', k' <> k -> map (insert now k v s) !! k' = delete old live !! k').
Proof.
  intros Hb live. unfold insert. change (map (evict_expired now s)) with live.
  change (capacity (evict_expired now s)) with (capacity s). cbv zeta.
  split; [by apply lookup_insert_eq|]. split.
  - intros Hroom k' Hne. rewrite bool_decide_decide. destruct (decide (live !! k = None)) as [Hk|Hk].
    + destruct Hroom as [[? Hs]|Hlt]; [by rewrite Hk in Hs|].
      rewrite (proj2 (Nat.leb_gt _ _)) by done. cbn. by rewrite lookup_insert_ne.
    + cbn. by rewrite lookup_insert_ne.
  - intros [Hk Hfull]. rewrite bool_decide_true, (proj2 (Nat.leb_le _ _)) by done. cbn [andb].
    destruct (evict_oldest_spec (evict_expired now s)) as (old & e & Ho & -> & Hmin).
    { intros He. change (map (evict_expired now s)) with live in He.
      rewrite He, map_size_empty in Hfull. destruct Hb. lia. }
    exists old, e. split_and!; [done|done|]. intros k' Hne. cbn.
    by rewrite lookup_insert_ne.
Qed.

(** Where the value of an entry comes from. *)
Lemma evict_oldest_subset s k e : map (evict_oldest s) !! k = Some e -> map s !! k = Some e.
Proof.
  unfold evict_oldest. case_match; [|done]. cbn. by intros [_ ?]%lookup_delete_Some.
Qed.

Lemma expire_subset now s k e : map (expire now s) !! k = Some e -> map s !! k = Some e.
Proof. unfold expire, evict_expired. cbn. by intros [? _]%map_lookup_filter_Some. Qed.

Lemma touch_origin now key s k e :
  map (touch now key s).2 !! k = Some e -> exists e0, map s !! k = Some e0 /\ value e0 = value e.
Proof.
  unfold touch. destruct (map s !! key) as [e0|] eqn:Hk; cbn; [|by eauto].
  destruct (decide (key = k)) as [<-|Hne].
  - rewrite lookup_insert_eq. intros [= <-]. by exists e0.
  - rewrite lookup_insert_ne by done. by exists e.
Qed.

Lemma insert_origin now key v s k e :
  map (insert now key v s) !! k = Some e ->
  (k = key /\ value e = v) \/ map s !! k = Some e.
Proof.
  unfold insert. cbv zeta. cbn.
  destruct (decide (key = k)) as [<-|Hne].
  - rewrite lookup_insert_eq. intros [= <-]. by left.
  - rewrite lookup_insert_ne by done. intros He. right. apply (expire_subset now).
    case_match; [by apply evict_oldest_subset|done].
Qed.

End BoundedTtlMap.
End BoundedTtlMap.

#[global] Arguments BoundedTtlMap.t K V {_ _}.
#[global] Arguments BoundedTtlMap.op K V : clear implicits.

(** ** Properties *)

(** The memory bound: from an empty map of any requested capacity (0
    counts as 1), no sequence of operations, at any times, makes the map
    hold more entries than its capacity, whatever the iteration order of
    the hash map. *)
Theorem ttl_map_bounded {K V} `{Countable K} `{HashOrder} ttl cap
    (ops : list (Instant * BoundedTtlMap.op K V)) :
  BoundedTtlMap.len (BoundedTtlMap.run ops (BoundedTtlMap.new ttl cap)) <= Nat.max cap 1.
Proof.
  destruct (BoundedTtlMap.run_bounded ops (BoundedTtlMap.new ttl cap)) as [[_ Hb] Hc].
  - split; cbn; [lia|]. rewrite map_size_empty. lia.
  - unfold BoundedTtlMap.len. rewrite Hc in Hb. exact Hb.
Qed.

(** C36 Eviction: an insertion always stores the new entry; among the others
    exactly the expired ones disappear, except that when the key is new and
    the unexpired entries fill the map one more goes, and it is one that no
    unexpired entry was seen before. *)
Theorem ttl_map_insert {K V} `{Countable K} `{HashOrder} now (k : K) (v : V)
    (s : BoundedTtlMap.t K V) (Hs : BoundedTtlMap.bounded s) :
  let live := BoundedTtlMap.live_map now s in
  let s' := BoundedTtlMap.insert now k v s in
  BoundedTtlMap.map s' !! k = Some {| value := v; last_seen := now |} /\
  ((is_Some (live !! k) \/ size live < BoundedTtlMap.capacity s) ->
    forall k', k' <> k -> BoundedTtlMap.map s' !! k' = live !! k') /\
  ((live !! k = None /\ BoundedTtlMap.capacity s <= size live) ->
    exists old e, live !! old = Some e /\
      (forall k' e', live !! k' = Some e' -> (last_seen e <= last_seen e')%Z) /\
      forall k', k' <> k -> BoundedTtlMap.map s' !! k' = delete old live !! k').
Proof. by apply BoundedTtlMap.insert_spec. Qed.

(** A map with two entries, for the witness. *)
Definition two : BoundedTtlMap.t Z nat :=
  BoundedTtlMap.insert (H0:=key_order) 2 20%Z 2
    (BoundedTtlMap.insert (H0:=key_order) 1 10%Z 1 (BoundedTtlMap.new 100 2)).

Lemma ttl_map_insert_witness :
  (exists old e, BoundedTtlMap.live_map 3 two !! old = Some e /\
    forall k', k' <> 30%Z ->
      BoundedTtlMap.map (BoundedTtlMap.insert (H0:=key_order) 3 30%Z 3 two) !! k' =
        delete old (BoundedTtlMap.live_map 3 two) !! k') /\
  BoundedTtlMap.map (BoundedTtlMap.insert (H0:=key_order) 3 30%Z 3 two) !! 10%Z = None.
Proof.
  split; [|vm_compute; reflexivity].
  assert (BoundedTtlMap.bounded two) as Hb by (split; vm_compute; lia).
  destruct (proj2 (proj2 (ttl_map_insert (H0:=key_order) 3 30%Z 3 two Hb))) as (old & e & Ho & _ & Hk).
  - split; [vm_compute; reflexivity|vm_compute; lia].
  - exists old, e. split; [exact Ho|exact Hk].
Defined.
