(* ===== verification/RelayAudit.v ===== *)
(** * Auditing ([src/src/audit.rs]) and the shared tables
      ([src/src/user_tables.rs])

    Rules are compiled from the panel's rows, payloads are scanned against
    them, and observations go to the supervisor over a bounded channel.  The
    regex engine is third-party: a class of its operations.  The channel is
    the queue of events that wait for the supervisor. *)

From S2P Require Import Prelude Str Panel Policy Traffic.

(** [regex::bytes::Regex]: [new] and [is_match]. *)
Class RegexEngine : Type := {
  Regex : Type;
  regex_new : string -> option Regex;
  regex_is_match : Regex -> bytes -> bool
}.

(** [enum RelayEvent]. *)
Inductive RelayEvent : Type :=
  | Connect (user_id : Z) (ip peer : string)
  | Detect (user_id list_id : Z) (ip : string).

#[export] Instance relay_event_eq_dec : EqDecision RelayEvent.
Proof. solve_decision. Defined.

Definition EVENT_CHANNEL_CAPACITY : nat := 1024.

(** [mpsc::Sender::try_send]: an event that does not fit is dropped. *)
Definition try_send (ev : RelayEvent) (queue : list RelayEvent) : list RelayEvent :=
  if length queue <? EVENT_CHANNEL_CAPACITY then queue ++ [ev] else queue.

Section Audit.
Context `{RegexEngine}.

(** [struct CompiledRule]. *)
Record CompiledRule : Type := { rule_id : Z; rule_re : Regex }.

Definition RuleSet : Type := list CompiledRule.

(** [CompiledRule::is_match]. *)
Definition is_match (r : CompiledRule) (data : bytes) : bool := regex_is_match (rule_re r) data.

Definition empty_rules : RuleSet := [].

(** [compile_rules]. *)
Fixpoint compile_rules (rules : list DetectRule) : RuleSet :=
  match rules with
  | [] => []
  | rule :: rules =>
      if str_is_empty (trim (dr_regex rule)) then compile_rules rules
      else match regex_new (dr_regex rule) with
           | Some re => {| rule_id := dr_id rule; rule_re := re |} :: compile_rules rules
           | None => compile_rules rules
           end
  end.

(** [report_connect]. *)
Definition report_connect (user_id : Z) (ip peer : string) (queue : list RelayEvent) : list RelayEvent :=
  try_send (Connect user_id ip peer) queue.

(** The loop of [scan_payload]. *)
Fixpoint scan_rules (rules : RuleSet) (user_id : Z) (ip : string) (data : bytes) (matched : bool)
    (queue : list RelayEvent) : bool * list RelayEvent :=
  match rules with
  | [] => (matched, queue)
  | rule :: rules =>
      if is_match rule data
      then scan_rules rules user_id ip data true (try_send (Detect user_id (rule_id rule) ip) queue)
      else scan_rules rules user_id ip data matched queue
  end.

(** [scan_payload]. *)
Definition scan_payload (rules : RuleSet) (user_id : Z) (ip : string) (data : bytes)
    (queue : list RelayEvent) : bool * list RelayEvent :=
  if (length data =? 0) || (length rules =? 0) then (false, queue)
  else scan_rules rules user_id ip data false queue.

(** [struct ConnectionAuditor], without the channel and the watch. *)
Record ConnectionAuditor : Type := {
  ca_user_id : Z; ca_ip : string; ca_peer : string; ca_matched : gset Z
}.

Definition new_auditor (user_id : Z) (ip peer : string) : ConnectionAuditor :=
  {| ca_user_id := user_id; ca_ip := ip; ca_peer := peer; ca_matched := ∅ |}.

Definition mark_matched (id : Z) (a : ConnectionAuditor) : ConnectionAuditor :=
  {| ca_user_id := ca_user_id a; ca_ip := ca_ip a; ca_peer := ca_peer a;
     ca_matched := {[ id ]} ∪ ca_matched a |}.

Definition auditor_report_connect (a : ConnectionAuditor) (queue : list RelayEvent) : list RelayEvent :=
  report_connect (ca_user_id a) (ca_ip a) (ca_peer a) queue.

(** The loop of [ConnectionAuditor::scan]; [matched.insert] is true for a
    new id. *)
Fixpoint auditor_scan_rules (rules : RuleSet) (data : bytes) (matched_now : bool)
    (a : ConnectionAuditor) (queue : list RelayEvent)
    : bool * ConnectionAuditor * list RelayEvent :=
  match rules with
  | [] => (matched_now, a, queue)
  | rule :: rules =>
      if is_match rule data then
        if bool_decide (rule_id rule ∈ ca_matched a) then auditor_scan_rules rules data true a queue
        else auditor_scan_rules rules data true (mark_matched (rule_id rule) a)
               (try_send (Detect (ca_user_id a) (rule_id rule) (ca_ip a)) queue)
      else auditor_scan_rules rules data matched_now a queue
  end.

(** [ConnectionAuditor::scan] under the rules currently published. *)
Definition scan (rules : RuleSet) (data : bytes) (a : ConnectionAuditor) (queue : list RelayEvent)
    : bool * ConnectionAuditor * list RelayEvent :=
  if length data =? 0 then (false, a, queue)
  else if length rules =? 0 then (false, a, queue)
  else auditor_scan_rules rules data false a queue.

(** A connection's scans; the rule set may be republished in between. *)
Fixpoint scan_all (chunks : list (RuleSet * bytes)) (a : ConnectionAuditor) (queue : list RelayEvent)
    : ConnectionAuditor * list RelayEvent :=
  match chunks with
  | [] => (a, queue)
  | (rules, data) :: chunks =>
      let '(_, a, queue) := scan rules data a queue in
      scan_all chunks a queue
  end.

(** ** Specification *)

(** Some rule matches. *)
Definition any_match (rules : RuleSet) (data : bytes) : bool :=
  negb (length data =? 0) && existsb (fun r => is_match r data) rules.

(** A rule id that matched some chunk. *)
Definition hit (chunks : list (RuleSet * bytes)) (id : Z) : Prop :=
  exists rules data r, (rules, data) ∈ chunks /\ data <> [] /\ r ∈ rules /\
    is_match r data = true /\ rule_id r = id.

(** ** Lemmas *)

Lemma try_send_bound ev q : length q <= EVENT_CHANNEL_CAPACITY ->
  length (try_send ev q) <= EVENT_CHANNEL_CAPACITY.
Proof.
  unfold try_send. destruct (Nat.ltb_spec (length q) EVENT_CHANNEL_CAPACITY) as [H1|H1]; [|done].
  rewrite length_app. cbn [length]. lia.
Qed.

Lemma scan_rules_result rules uid ip data m q :
  (scan_rules rules uid ip data m q).1 = m || existsb (fun r => is_match r data) rules.
Proof.
  revert m q. induction rules as [|r rules IH]; intros m q; cbn [scan_rules existsb]; [by rewrite orb_false_r|].
  destruct (is_match r data); rewrite IH; [|done]. by rewrite orb_true_r.
Qed.

Lemma auditor_scan_result rules data m a q :
  (auditor_scan_rules rules data m a q).1.1 = m || existsb (fun r => is_match r data) rules.
Proof.
  revert m a q. induction rules as [|r rules IH]; intros m a q; cbn [auditor_scan_rules existsb];
    [by rewrite orb_false_r|].
  destruct (is_match r data); [case_bool_decide|]; rewrite IH; rewrite ?orb_true_r; done.
Qed.

(** What a run of scans may add to the queue. *)
Definition adds_ok (a a' : ConnectionAuditor) (q q' : list RelayEvent) : Prop :=
  ca_user_id a' = ca_user_id a /\ ca_ip a' = ca_ip a /\
  exists ids, q' = q ++ map (fun id => Detect (ca_user_id a) id (ca_ip a)) ids /\
    NoDup ids /\ (forall id, id ∈ ids -> id ∉ ca_matched a /\ id ∈ ca_matched a') /\
    ca_matched a ⊆ ca_matched a' /\
    (length q' < EVENT_CHANNEL_CAPACITY ->
      forall id, id ∈ ca_matched a' -> id ∈ ca_matched a \/ id ∈ ids).

Lemma adds_ok_refl a q : adds_ok a a q q.
Proof.
  split_and!; [done|done|]. exists []. rewrite app_nil_r. split_and!; [done|constructor| |done|by left].
  by intros ? ?%not_elem_of_nil.
Qed.

Lemma adds_ok_trans a1 a2 a3 q1 q2 q3 :
  adds_ok a1 a2 q1 q2 -> adds_ok a2 a3 q2 q3 -> adds_ok a1 a3 q1 q3.
Proof.
  intros (Hu & Hi & ids & -> & Hn & Hm & Hs & Hf) (Hu' & Hi' & ids' & -> & Hn' & Hm' & Hs' & Hf').
  split_and!; [congruence|congruence|]. exists (ids ++ ids').
  rewrite Hu, Hi in Hf' |- *. rewrite map_app, app_assoc.
  split_and!; [done| | |set_solver|].
  - apply NoDup_app. split_and!; [done| |done]. intros id H1 H2. by apply (Hm' id H2), Hm.
  - intros id [Hin|Hin]%elem_of_app.
    + destruct (Hm id Hin). set_solver.
    + destruct (Hm' id Hin). set_solver.
  - intros Hroom id Hin. destruct (Hf' Hroom id Hin) as [H2|H2]; [|right; set_solver].
    rewrite length_app in Hroom. destruct (Hf ltac:(lia) id H2); [by left|right; set_solver].
Qed.

Lemma auditor_scan_adds rules data m a q :
  adds_ok a (auditor_scan_rules rules data m a q).1.2 q (auditor_scan_rules rules data m a q).2.
Proof.
  revert m a q. induction rules as [|r rules IH]; intros m a q; [apply adds_ok_refl|].
  cbn [auditor_scan_rules]. destruct (is_match r data); [|apply IH].
  case_bool_decide as Hin; [apply IH|]. eapply adds_ok_trans; [|apply IH].
  split_and!; [done|done|]. unfold try_send.
  destruct (Nat.ltb_spec (length q) EVENT_CHANNEL_CAPACITY) as [Hl|Hl].
  - exists [rule_id r]. split_and!; [done|apply NoDup_singleton| |set_solver|].
    + intros id ->%list_elem_of_singleton. split; [done|]. cbn. set_solver.
    + intros _ id. cbn. set_solver.
  - exists []. rewrite app_nil_r. split_and!; [done|constructor| |set_solver|lia].
    by intros ? ?%not_elem_of_nil.
Qed.

Lemma auditor_scan_matched rules data m a q id :
  id ∈ ca_matched (auditor_scan_rules rules data m a q).1.2 <->
    id ∈ ca_matched a \/ exists r, r ∈ rules /\ is_match r data = true /\ rule_id r = id.
Proof.
  revert m a q. induction rules as [|r rules IH]; intros m a q.
  { cbn. split; [by left|]. intros [?|(? & ?%not_elem_of_nil & _)]; done. }
  cbn [auditor_scan_rules]. setoid_rewrite elem_of_cons.
  destruct (is_match r data) eqn:Hm; [case_bool_decide as Hin|]; rewrite IH.
  - split; [naive_solver|]. intros [?|(x & [->|Hx] & ? & ?)]; [by left|left; congruence|naive_solver].
  - cbn. rewrite elem_of_union, elem_of_singleton. naive_solver.
  - split; [naive_solver|]. intros [?|(x & [->|Hx] & ? & ?)]; [by left|congruence|naive_solver].
Qed.

Lemma scan_adds rules data a q : adds_ok a (scan rules data a q).1.2 q (scan rules data a q).2.
Proof.
  unfold scan. repeat case_match; [apply adds_ok_refl..|apply auditor_scan_adds].
Qed.

Lemma scan_matched rules data a q id :
  id ∈ ca_matched (scan rules data a q).1.2 <->
    id ∈ ca_matched a \/ hit [(rules, data)] id.
Proof.
  unfold hit, scan. setoid_rewrite list_elem_of_singleton.
  destruct data as [|b data]; cbn [length Nat.eqb].
  { split; [by left|]. intros [?|(? & ? & ? & [= -> ->] & ? & _)]; done. }
  destruct rules as [|r rules]; cbn [length Nat.eqb].
  { split; [by left|]. intros [?|(? & ? & ? & [= -> ->] & _ & ?%not_elem_of_nil & _)]; done. }
  rewrite auditor_scan_matched. split.
  - intros [?|(x & Hx & Hm & Hid)]; [by left|]. right. by exists (r :: rules), (b :: data), x.
  - intros [?|(? & ? & x & [= -> ->] & _ & Hx & Hm & Hid)]; [by left|]. right. by exists x.
Qed.

Lemma scan_all_adds chunks a q :
  adds_ok a (scan_all chunks a q).1 q (scan_all chunks a q).2.
Proof.
  revert a q. induction chunks as [|[rules data] chunks IH]; intros a q; [apply adds_ok_refl|].
  cbn [scan_all]. pose proof (scan_adds rules data a q) as Hs.
  destruct (scan rules data a q) as [[m a1] q1]. eapply adds_ok_trans; [exact Hs|apply IH].
Qed.

Lemma scan_all_matched chunks a q id :
  id ∈ ca_matched (scan_all chunks a q).1 <-> id ∈ ca_matched a \/ hit chunks id.
Proof.
  revert a q. induction chunks as [|[rules data] chunks IH]; intros a q.
  { cbn. split; [by left|]. intros [?|(? & ? & ? & ?%not_elem_of_nil & _)]; done. }
  cbn [scan_all]. pose proof (scan_matched rules data a q id) as Hs.
  destruct (scan rules data a q) as [[m a1] q1]. cbn [fst snd] in Hs. rewrite IH, Hs.
  unfold hit. setoid_rewrite elem_of_cons. split.
  - intros [[?|(rs & d & r & [Heq|?%not_elem_of_nil] & Hr)]|(rs & d & r & ? & Hr)]; [by left| |done|].
    + right. exists rs, d, r. by split; [left|].
    + right. exists rs, d, r. by split; [right|].
  - intros [?|(rs & d & r & [Heq|Hin] & Hr)]; [by left; left| |].
    + left. right. exists rs, d, r. by split; [left|].
    + right. by exists rs, d, r.
Qed.

Lemma compile_rules_elem rules r :
  r ∈ compile_rules rules <->
    exists row, row ∈ rules /\ trim (dr_regex row) <> "" /\
      regex_new (dr_regex row) = Some (rule_re r) /\ rule_id r = dr_id row.
Proof.
  induction rules as [|row rules IH]; cbn [compile_rules].
  { split; [by intros ?%not_elem_of_nil|]. by intros (? & ?%not_elem_of_nil & _). }
  setoid_rewrite elem_of_cons. destruct (str_is_empty (trim (dr_regex row))) eqn:He.
  - rewrite IH. split; [naive_solver|]. intros (x & [->|Hx] & Hne & Hrest); [|naive_solver].
    by destruct (trim (dr_regex row)).
  - assert (trim (dr_regex row) <> "") as Hne by by destruct (trim (dr_regex row)).
    destruct (regex_new (dr_regex row)) as [re|] eqn:Hre.
    + rewrite elem_of_cons, IH. split.
      * intros [->|(x & ? & ?)]; [by exists row; split_and!; [left| | |]|]. exists x. naive_solver.
      * intros (x & [->|Hx] & ? & Hr & Hid); [left|naive_solver].
        destruct r. cbn in *. by simplify_eq.
    + rewrite IH. split; [naive_solver|]. intros (x & [->|Hx] & ? & Hr & Hid); [congruence|naive_solver].
Qed.

(** [q'] is the channel after some events were sent on [q]. *)
Definition sent (q q' : list RelayEvent) : Prop :=
  exists evs, q' = fold_left (fun q ev => try_send ev q) evs q.

Lemma sent_refl q : sent q q.
Proof. by exists []. Qed.

Lemma sent_one ev q : sent q (try_send ev q).
Proof. by exists [ev]. Qed.

Lemma sent_trans q1 q2 q3 : sent q1 q2 -> sent q2 q3 -> sent q1 q3.
Proof. intros [e1 ->] [e2 ->]. exists (e1 ++ e2). by rewrite fold_left_app. Qed.

Lemma scan_rules_sent rules uid ip data m q : sent q (scan_rules rules uid ip data m q).2.
Proof.
  revert m q. induction rules as [|r rules IH]; intros m q; cbn [scan_rules]; [apply sent_refl|].
  destruct (is_match r data); [|apply IH]. eapply sent_trans; [apply sent_one|apply IH].
Qed.

Lemma scan_payload_sent rules uid ip data q : sent q (scan_payload rules uid ip data q).2.
Proof. unfold scan_payload. case_match; [apply sent_refl|apply scan_rules_sent]. Qed.

Lemma scan_sent rules data a q : sent q (scan rules data a q).2.
Proof.
  unfold scan. destruct (length data =? 0); [apply sent_refl|].
  destruct (length rules =? 0); [apply sent_refl|]. generalize false. revert a q. induction rules as [|r rules IH]; intros a q m; cbn [auditor_scan_rules];
    [apply sent_refl|].
  destruct (is_match r data); [case_bool_decide; [apply IH|]|apply IH].
  eapply sent_trans; [apply sent_one|apply IH].
Qed.

End Audit.

(** ** The tables ([struct UserTables])

    The [Arc]s of counters, IP sets and limiters are locations. *)
Record UserTables : Type := {
  auth_users : gmap Z bytes;
  counters_by_user : gmap Z nat;
  conns_by_user : gmap Z nat;
  speeds_by_user : gmap Z nat;
  policies : gmap Z UserPolicy.t
}.

Definition default_tables : UserTables :=
  {| auth_users := ∅; counters_by_user := ∅; conns_by_user := ∅; speeds_by_user := ∅;
     policies := ∅ |}.

(** ** A regex engine for the witnesses: the pattern as a substring. *)
Module ToyRegex.

Fixpoint is_prefix (p l : bytes) : bool :=
  match p, l with
  | [], _ => true
  | a :: p, b :: l => Byte.eqb a b && is_prefix p l
  | _ :: _, [] => false
  end.

Fixpoint contains (p l : bytes) : bool :=
  is_prefix p l || match l with [] => false | _ :: l => contains p l end.

#[export] Instance engine : RegexEngine := {|
  Regex := bytes;
  regex_new := fun s => if bool_decide (s = "(") then None else Some (string_bytes s);
  regex_is_match := contains
|}.

End ToyRegex.

(** ** Properties *)

(** C38 Auditing a connection, whatever chunks arrive and however often the
    rules are republished: a rule is reported at most once per connection,
    only rules that matched are reported, nothing that was queued is lost,
    and as long as the channel has room every rule that matched is
    reported. *)
Theorem auditor_reports_once `{RegexEngine} uid ip peer chunks queue :
  let a := new_auditor uid ip peer in
  exists ids, (scan_all chunks a queue).2 = queue ++ map (fun id => Detect uid id ip) ids /\
    NoDup ids /\ (forall id, id ∈ ids -> hit chunks id) /\
    (length (scan_all chunks a queue).2 < EVENT_CHANNEL_CAPACITY ->
      forall id, hit chunks id -> id ∈ ids).
Proof.
  intros a. destruct (scan_all_adds chunks a queue) as (_ & _ & ids & Hq & Hn & Hm & _ & Hf).
  exists ids. split_and!; [done|done| |].
  - intros id [_ Hin]%Hm. apply scan_all_matched in Hin as [Hin|?]; [|done].
    by apply not_elem_of_empty in Hin.
  - intros Hroom id Hhit. destruct (Hf Hroom id) as [Hin|?]; [|by apply not_elem_of_empty in Hin|done].
    apply scan_all_matched. by right.
Qed.

(** [compile_rules] keeps exactly the rows with a non-blank regex that
    compiles; the result of a scan (TCP and UDP) is whether some rule
    matches a non-empty payload; and the queue never exceeds its capacity. *)
Theorem scan_verdict `{RegexEngine} rows data uid ip a queue :
  (forall r, r ∈ compile_rules rows <->
    exists row, row ∈ rows /\ trim (dr_regex row) <> "" /\
      regex_new (dr_regex row) = Some (rule_re r) /\ rule_id r = dr_id row) /\
  (let rules := compile_rules rows in
   (scan rules data a queue).1.1 = any_match rules data /\
   (scan_payload rules uid ip data queue).1 = any_match rules data) /\
  (forall ev, length queue <= EVENT_CHANNEL_CAPACITY ->
    length (try_send ev queue) <= EVENT_CHANNEL_CAPACITY).
Proof.
  split; [intros r; apply compile_rules_elem|]. split; [|intros ev; apply try_send_bound].
  cbv zeta. set (rules := compile_rules rows). unfold any_match, scan, scan_payload.
  destruct data as [|b data]; [done|]. cbn [length Nat.eqb negb andb orb].
  destruct rules as [|r rules]; [done|]. cbn [length Nat.eqb].
  by rewrite auditor_scan_result, scan_rules_result.
Qed.

Example audit_example :
  let rules := compile_rules (H:=ToyRegex.engine)
    [{| dr_id := 5; dr_name := "bt"; dr_regex := "BitTorrent" |};
     {| dr_id := 6; dr_name := "blank"; dr_regex := "  " |};
     {| dr_id := 7; dr_name := "broken"; dr_regex := "(" |}] in
  let data := string_bytes "xxBitTorrent protocol" in
  scan_all [(rules, data); (rules, data)] (new_auditor 1 "1.1.1.1" "1.1.1.1:5") [] =
    (mark_matched 5 (new_auditor 1 "1.1.1.1" "1.1.1.1:5"), [Detect 1 5 "1.1.1.1"]).
Proof. vm_compute. done. Qed.
