(* ===== verification/Task.v ===== *)
(** * Asynchronous tasks in an arbitrary environment

    An [async fn] that owns some local state, shares objects with other
    tasks and awaits I/O.  The environment answers every await: it decides
    what arrives, which branch of a [select!] fires, what a write or a
    connect returns, and how the other tasks have changed the shared
    objects in the meantime; an await it never answers leaves the task
    unfinished ([OutOfFuel]).  The environment sees the task's log and the
    shared objects; a part of the shared state (the moment of a [Clock]) is
    the environment's own, the code never reads or writes it, and so it can
    tell any two awaits apart ([scripted]): a theorem for all environments
    is a theorem for all executions.  The code between two awaits runs in
    one step.

    [wp m Q s] says that running [m] from [s] ends, in whatever way, in a
    result and a state that satisfy [Q]. *)

From S2P Require Import Prelude Errors.

(** What a task holds: its local variables, the objects it shares with
    other tasks, and the log of what it did. *)
Record task (L Sh Lab : Type) : Type := { local : L; shared : Sh; log : list Lab }.
Arguments local {L Sh Lab} t.
Arguments shared {L Sh Lab} t.
Arguments log {L Sh Lab} t.

(** The environment, for the awaits [Await], by the type of their result. *)
Class Env (Await : Set -> Type) (Sh Lab : Type) : Type :=
  react : forall {X : Set}, Await X -> list Lab -> Sh -> option (X * Sh).

(** Every entry of a log with what came before it. *)
Definition each_at {A} (P : list A -> A -> Prop) (l : list A) : Prop :=
  forall l1 x l2, l = l1 ++ x :: l2 -> P l1 x.

Lemma each_at_nil {A} (P : list A -> A -> Prop) : each_at P [].
Proof. by intros [|] x l2 [=]. Qed.

Lemma each_at_snoc {A} (P : list A -> A -> Prop) l x : each_at P l -> P l x -> each_at P (l ++ [x]).
Proof.
  intros Hl Hx l1 y l2. destruct l2 as [|z l2 _] using rev_ind.
  - by intros [-> ->]%app_inj_tail.
  - rewrite app_comm_cons, app_assoc. intros [-> _]%app_inj_tail. by eapply Hl.
Qed.

Section Task.
Context {L Sh Lab : Type} {Await : Set -> Type} `{!Env Await Sh Lab}.

Abbreviation IO := (ST (task L Sh Lab) error).

(** [.await]. *)
Definition await {X : Set} (c : Await X) : IO X := fun s =>
  match react c (log s) (shared s) with
  | Some (x, sh) => (Ok x, {| local := local s; shared := sh; log := log s |})
  | None => (OutOfFuel, s)
  end.

(** Add to the log. *)
Definition emit (l : Lab) : IO () :=
  modify (fun s => {| local := local s; shared := shared s; log := log s ++ [l] |}).

(** A synchronous operation on a shared object. *)
Definition on_shared {A} (f : Sh -> A * Sh) : IO A := fun s =>
  let '(a, sh) := f (shared s) in (Ok a, {| local := local s; shared := sh; log := log s |}).

(** A method of the local state. *)
Definition on_local {A} (m : ST L error A) : IO A := fun s =>
  let '(r, l) := m (local s) in (r, {| local := l; shared := shared s; log := log s |}).

(** [m] with a destructor that runs however [m] ends, unwinding included. *)
Definition finally {A} (m : IO A) (drop : IO ()) : IO A := fun s =>
  match m s with
  | (OutOfFuel, s) => (OutOfFuel, s)
  | (r, s) => match drop s with (Ok _, s) => (r, s) | (Err e, s) => (Err e, s)
              | (Panic, s) => (Panic, s) | (OutOfFuel, s) => (OutOfFuel, s) end
  end.

(** A method of the local state that also works on a shared object. *)
Definition on_both {A} (f : L -> Sh -> A * L * Sh) : IO A := fun s =>
  let '(a, l, sh) := f (local s) (shared s) in (Ok a, {| local := l; shared := sh; log := log s |}).

(** [if let Err(err) = m] with a body that only logs. *)
Definition dropped {A} (m : IO A) : IO () := fun s =>
  match m s with
  | (Ok _, s) | (Err _, s) => (Ok (), s)
  | (Panic, s) => (Panic, s)
  | (OutOfFuel, s) => (OutOfFuel, s)
  end.

(** [match m]: the error is a value. *)
Definition attempt {A} (m : IO A) : IO (option A) := fun s =>
  match m s with
  | (Ok a, s) => (Ok (Some a), s)
  | (Err _, s) => (Ok None, s)
  | (Panic, s) => (Panic, s)
  | (OutOfFuel, s) => (OutOfFuel, s)
  end.

End Task.

(** ** Scripted environments *)

(** The part of the shared state that is the environment's own. *)
Class Clock (Sh : Type) : Type := { moment_of : Sh -> nat; move_to : nat -> Sh -> Sh }.

(** Any sequence of answers is an environment's, the n-th for the n-th await
    whatever the task has done: the clock moves at every await. *)
Definition scripted {Await : Set -> Type} {Sh Lab : Type} `{Clock Sh}
    (answer : nat -> forall X : Set, Await X -> Sh -> option (X * Sh)) : Env Await Sh Lab :=
  fun X c _ sh =>
    match answer (moment_of sh) X c sh with
    | Some (x, sh') => Some (x, move_to (S (moment_of sh)) sh')
    | None => None
    end.

(** ** Weakest preconditions *)

Definition wp {S E A} (m : ST S E A) (Q : res E A -> S -> Prop) (s : S) : Prop :=
  Q (m s).1 (m s).2.

(** The postcondition of a computation that continues with [f]. *)
Definition then_ {S E A B} (f : A -> ST S E B) (Q : res E B -> S -> Prop)
    (r : res E A) (s : S) : Prop :=
  match r with
  | Ok a => wp (f a) Q s
  | Err e => Q (Err e) s
  | Panic => Q Panic s
  | OutOfFuel => Q OutOfFuel s
  end.

Section WP.
Context {S E : Type}.

Lemma wp_bind {A B} (m : ST S E A) (f : A -> ST S E B) Q s :
  wp m (then_ f Q) s -> wp (m ≫= f) Q s.
Proof. unfold wp, then_, mbind, ST_bind. destruct (m s) as [[] ?]; done. Qed.

Lemma wp_mono {A} (m : ST S E A) (Q R : res E A -> S -> Prop) s :
  wp m Q s -> (forall r s', Q r s' -> R r s') -> wp m R s.
Proof. unfold wp. auto. Qed.

Lemma wp_same {A} (m m' : ST S E A) (Q : res E A -> S -> Prop) s : m s = m' s -> wp m' Q s -> wp m Q s.
Proof. unfold wp. by intros ->. Qed.

Lemma wp_ret {A} (a : A) (Q : res E A -> S -> Prop) s : Q (Ok a) s -> wp (mret a) Q s.
Proof. done. Qed.

Lemma wp_lift {A} (r : res E A) (Q : res E A -> S -> Prop) s : Q r s -> wp (lift r) Q s.
Proof. done. Qed.

Lemma wp_get (Q : res E S -> S -> Prop) s : Q (Ok s) s -> wp get Q s.
Proof. done. Qed.

Lemma wp_outcome {A} (m : ST S E A) (Q : res E A -> S -> Prop) s :
  match outcome m s with
  | Ok (a, s') => Q (Ok a) s'
  | Err e => forall s', Q (Err e) s'
  | Panic => forall s', Q Panic s'
  | OutOfFuel => forall s', Q OutOfFuel s'
  end -> wp m Q s.
Proof. unfold wp, outcome. destruct (m s) as [[] ?]; auto. Qed.

Lemma wp_and {A} (m : ST S E A) Q R s : wp m Q s -> wp m R s -> wp m (fun r s' => Q r s' /\ R r s') s.
Proof. by split. Qed.

End WP.

Section TaskWP.
Context {L Sh Lab : Type} {Await : Set -> Type} `{!Env Await Sh Lab}.

Lemma wp_await {X : Set} (c : Await X) (Q : res error X -> task L Sh Lab -> Prop) s :
  (forall x sh, Q (Ok x) {| local := local s; shared := sh; log := log s |}) ->
  Q OutOfFuel s -> wp (await c) Q s.
Proof. intros H1 H2. unfold wp, await. destruct (react c _ _) as [[x sh]|]; [apply H1|apply H2]. Qed.

Lemma wp_await_eq {X : Set} (c : Await X) (Q : res error X -> task L Sh Lab -> Prop) s :
  (forall x sh, react c (log s) (shared s) = Some (x, sh) ->
    Q (Ok x) {| local := local s; shared := sh; log := log s |}) ->
  Q OutOfFuel s -> wp (await c) Q s.
Proof. intros H1 H2. unfold wp, await. destruct (react c _ _) as [[x sh]|] eqn:Hr; [by apply H1|apply H2]. Qed.

Lemma wp_emit l (Q : res error () -> task L Sh Lab -> Prop) s :
  Q (Ok ()) {| local := local s; shared := shared s; log := log s ++ [l] |} -> wp (emit l) Q s.
Proof. done. Qed.

Lemma wp_on_shared {A} (f : Sh -> A * Sh) (Q : res error A -> task L Sh Lab -> Prop) s :
  Q (Ok (f (shared s)).1) {| local := local s; shared := (f (shared s)).2; log := log s |} ->
  wp (on_shared f) Q s.
Proof. unfold wp, on_shared. by destruct (f (shared s)) as [a sh]; cbn; intros Hq. Qed.

Lemma wp_on_local {A} (m : ST L error A) (Q : res error A -> task L Sh Lab -> Prop) s :
  wp m (fun r l => Q r {| local := l; shared := shared s; log := log s |}) (local s) ->
  wp (on_local m) Q s.
Proof. unfold wp, on_local. by destruct (m (local s)) as [r l]; cbn; intros Hq. Qed.

Lemma wp_finally {A} (m : ST (task L Sh Lab) error A) d (Q : res error A -> task L Sh Lab -> Prop) s :
  wp m (fun r s' =>
    match r with
    | OutOfFuel => Q OutOfFuel s'
    | _ => wp d (fun r' s'' => match r' with
                  | Ok _ => Q r s'' | Err e => Q (Err e) s''
                  | Panic => Q Panic s'' | OutOfFuel => Q OutOfFuel s'' end) s'
    end) s ->
  wp (finally m d) Q s.
Proof.
  unfold wp, finally. destruct (m s) as [[a|e| |] s']; cbn; try done.
  all: by destruct (d s') as [[] ?].
Qed.

Lemma wp_on_both {A} (f : L -> Sh -> A * L * Sh) (Q : res error A -> task L Sh Lab -> Prop) s :
  Q (Ok (f (local s) (shared s)).1.1) {| local := (f (local s) (shared s)).1.2;
    shared := (f (local s) (shared s)).2; log := log s |} ->
  wp (on_both f) Q s.
Proof. unfold wp, on_both. by destruct (f _ _) as [[a l] sh]. Qed.

Lemma wp_dropped {A} (m : ST (task L Sh Lab) error A) (Q : res error () -> task L Sh Lab -> Prop) s :
  wp m (fun r s' => match r with
    | Ok _ | Err _ => Q (Ok ()) s' | Panic => Q Panic s' | OutOfFuel => Q OutOfFuel s' end) s ->
  wp (dropped m) Q s.
Proof. unfold wp, dropped. by destruct (m s) as [[] s']. Qed.

Lemma wp_attempt {A} (m : ST (task L Sh Lab) error A) (Q : res error (option A) -> task L Sh Lab -> Prop) s :
  wp m (fun r s' => match r with
    | Ok a => Q (Ok (Some a)) s' | Err _ => Q (Ok None) s'
    | Panic => Q Panic s' | OutOfFuel => Q OutOfFuel s' end) s ->
  wp (attempt m) Q s.
Proof. unfold wp, attempt. by destruct (m s) as [[] s']. Qed.

End TaskWP.

(** Symbolic execution. *)
Ltac wp_step :=
  lazymatch goal with
  | |- wp (mbind _ _) _ _ => apply wp_bind
  | |- wp (mret _) _ _ => apply wp_ret
  | |- wp (lift _) _ _ => apply wp_lift
  | |- wp get _ _ => apply wp_get
  | |- wp (emit _) _ _ => apply wp_emit
  | |- wp (on_shared _) _ _ => apply wp_on_shared
  | |- wp (await _) _ _ => apply wp_await; [intros ? ?|]
  | |- then_ _ _ (Ok _) _ => cbn [then_]
  | |- then_ _ _ (Err _) _ => cbn [then_]
  | |- then_ _ _ Panic _ => cbn [then_]
  | |- then_ _ _ OutOfFuel _ => cbn [then_]
  end.
Ltac wp_run := repeat (wp_step; cbv beta).

(** ** The labels an operation adds to the log *)

Section Labels.
Context {L Sh Lab : Type} {Await : Set -> Type} `{!Env Await Sh Lab}.

Abbreviation IO := (ST (task L Sh Lab) error).


Definition emits (P : Lab -> Prop) {A} (m : IO A) : Prop :=
  forall s, wp m (fun _ s' => exists ext, log s' = log s ++ ext /\ Forall P ext) s.

Section Emits.
Context (P : Lab -> Prop).

Lemma emits_none {A} (m : IO A) : (forall s, log (m s).2 = log s) -> emits P m.
Proof. intros Hm s. exists []. by rewrite app_nil_r, Hm. Qed.

Lemma emits_bind {A B} (m : IO A) (f : A -> IO B) :
  emits P m -> (forall a, emits P (f a)) -> emits P (m ≫= f).
Proof.
  intros Hm Hf s. apply wp_bind. eapply wp_mono; [apply Hm|].
  intros r s1 (e1 & H1 & HP1). destruct r as [a|e| |]; cbn [then_]; [|by exists e1..].
  eapply wp_mono; [apply Hf|]. intros r s2 (e2 & H2 & HP2). cbn beta.
  exists (e1 ++ e2). rewrite H2, H1, app_assoc. split; [done|by apply Forall_app].
Qed.

Lemma emits_ret {A} (a : A) : emits P (mret (M:=ST (task L Sh Lab) error) a).
Proof. by apply emits_none. Qed.
Lemma emits_lift {A} (r : res error A) : emits P (lift r : IO A).
Proof. by apply emits_none. Qed.
Lemma emits_await {X : Set} (a : Await X) : emits P (await a : IO X).
Proof. apply emits_none. intros s. unfold await. by destruct (react _ _ _) as [[??]|]. Qed.
Lemma emits_on_local {A} (m : ST L error A) : emits P (on_local m : IO A).
Proof. apply emits_none. intros s. unfold on_local. by destruct (m _). Qed.
Lemma emits_on_shared {A} (f : Sh -> A * Sh) : emits P (on_shared f : IO A).
Proof. apply emits_none. intros s. unfold on_shared. by destruct (f _). Qed.
Lemma emits_emit l : P l -> emits P (emit l : IO ()).
Proof. intros Hl s. exists [l]. split; [done|by constructor]. Qed.

End Emits.

Lemma emits_mono (P R : Lab -> Prop) {A} (m : IO A) :
  emits P m -> (forall l, P l -> R l) -> emits R m.
Proof.
  intros Hm HPR s. eapply wp_mono; [apply Hm|]. intros r s' (ext & Hl & HP). exists ext.
  split; [done|]. by eapply Forall_impl.
Qed.

Lemma wp_both {A} (P : Lab -> Prop) (m : IO A) (Q R : res error A -> task L Sh Lab -> Prop) s :
  emits P m -> wp m Q s ->
  (forall r s' ext, Q r s' -> log s' = log s ++ ext -> Forall P ext -> R r s') ->
  wp m R s.
Proof. intros Hm HQ HR. destruct (Hm s) as (ext & Hl & HP). by eapply HR. Qed.

End Labels.

(** Follow the code; what is left are the labels. *)
Ltac emits_step :=
  lazymatch goal with
  | |- emits _ (mbind _ _) => apply emits_bind; [|intros ?]
  | |- emits _ (mret _) => apply emits_ret
  | |- emits _ (lift _) => apply emits_lift
  | |- emits _ (await _) => apply emits_await
  | |- emits _ (on_local _) => apply emits_on_local
  | |- emits _ (on_shared _) => apply emits_on_shared
  | |- emits _ (emit _) => apply emits_emit
  | |- emits _ (match ?x with _ => _ end) => destruct x
  end.

(** ** Invariants of a task *)

Section Preserves.
Context {L Sh Lab : Type} {Await : Set -> Type} `{!Env Await Sh Lab}.

Abbreviation state := (task L Sh Lab).
Abbreviation IO := (ST state error).

Context (J : state -> Prop).

(** [m] keeps [J], however it ends. *)
Definition preserves {A} (m : IO A) : Prop := forall s, J s -> wp m (fun _ s' => J s') s.

Lemma preserves_bind {A B} (m : IO A) (f : A -> IO B) :
  preserves m -> (forall a, preserves (f a)) -> preserves (m ≫= f).
Proof.
  intros Hm Hf s Hs. apply wp_bind. eapply wp_mono; [by apply Hm|].
  intros r s1 H1. destruct r; cbn [then_]; [by apply Hf|done..].
Qed.

(** The continuation may use what [m] returns and leaves. *)
Lemma preserves_bind_spec {A B} (m : IO A) (f : A -> IO B) (R : A -> state -> Prop) :
  (forall s, J s -> wp m (fun r s' => J s' /\ forall a, r = Ok a -> R a s') s) ->
  (forall a s, J s -> R a s -> wp (f a) (fun _ s' => J s') s) -> preserves (m ≫= f).
Proof.
  intros Hm Hf s Hs. apply wp_bind. eapply wp_mono; [by apply Hm|].
  intros r s1 [H1 HR]. destruct r; cbn [then_]; [apply Hf; auto|done..].
Qed.

(** Group two operations that keep [J] only together. *)
Lemma preserves_assoc {A B D} (m : IO A) (f : A -> IO B) (g : B -> IO D) :
  preserves ((m ≫= f) ≫= g) -> preserves (m ≫= fun a => f a ≫= g).
Proof.
  intros H s Hs. specialize (H s Hs). unfold wp, mbind, ST_bind in *. by destruct (m s) as [[] ?].
Qed.

Lemma preserves_ret {A} (a : A) : preserves (mret a).
Proof. by intros s. Qed.
Lemma preserves_lift {A} (r : res error A) : preserves (lift r).
Proof. by intros s. Qed.
Lemma preserves_get : preserves get.
Proof. by intros s. Qed.
Lemma preserves_dropped {A} (m : IO A) : preserves m -> preserves (dropped m).
Proof. intros Hm s Hs. apply wp_dropped. eapply wp_mono; [by apply Hm|]. by intros [] s'. Qed.

Lemma preserves_attempt {A} (m : IO A) : preserves m -> preserves (attempt m).
Proof. intros Hm s Hs. apply wp_attempt. eapply wp_mono; [by apply Hm|]. by intros [] s'. Qed.

Lemma preserves_finally {A} (m : IO A) (d : IO ()) :
  preserves m -> preserves d -> preserves (finally m d).
Proof.
  intros Hm Hd s Hs. specialize (Hm s Hs). unfold wp, finally in *.
  destruct (m s) as [[a|e| |] s1]; cbn [fst snd] in *; [..|done];
    specialize (Hd s1 Hm); unfold wp in Hd; by destruct (d s1) as [[] ?].
Qed.

Lemma preserves_await {X : Set} (c : Await X) :
  (forall s x sh, J s -> react c (log s) (shared s) = Some (x, sh) ->
    J {| local := local s; shared := sh; log := log s |}) -> preserves (await c).
Proof. intros H s Hs. apply wp_await_eq; [|done]. intros x sh. by apply H. Qed.

Lemma preserves_emit l :
  (forall s, J s -> J {| local := local s; shared := shared s; log := log s ++ [l] |}) ->
  preserves (emit l).
Proof. intros H s Hs. by apply wp_emit, H. Qed.

Lemma preserves_on_local {A} (m : ST L error A) :
  (forall s, J s -> J {| local := (m (local s)).2; shared := shared s; log := log s |}) ->
  preserves (on_local m).
Proof.
  intros H s Hs. apply wp_on_local. specialize (H s Hs). unfold wp. by destruct (m (local s)).
Qed.

Lemma preserves_on_shared {A} (f : Sh -> A * Sh) :
  (forall s, J s -> J {| local := local s; shared := (f (shared s)).2; log := log s |}) ->
  preserves (on_shared f).
Proof. intros H s Hs. by apply wp_on_shared, H. Qed.

Lemma preserves_on_both {A} (f : L -> Sh -> A * L * Sh) :
  (forall s, J s -> J {| local := (f (local s) (shared s)).1.2;
    shared := (f (local s) (shared s)).2; log := log s |}) ->
  preserves (on_both f).
Proof. intros H s Hs. by apply wp_on_both, H. Qed.

End Preserves.

(** Follow the code; what is left are the primitive operations. *)
Ltac preserves_step :=
  lazymatch goal with
  | |- preserves _ (mbind _ _) => apply preserves_bind; [|intros ?]
  | |- preserves _ (mret _) => apply preserves_ret
  | |- preserves _ (lift _) => apply preserves_lift
  | |- preserves _ get => apply preserves_get
  | |- preserves _ (dropped _) => apply preserves_dropped
  | |- preserves _ (attempt _) => apply preserves_attempt
  | |- preserves _ (match ?x with _ => _ end) => destruct x
  end.

(** ** How an operation may end *)

Section Returns.
Context {L Sh Lab : Type} {Await : Set -> Type} `{!Env Await Sh Lab}.

Abbreviation IO := (ST (task L Sh Lab) error).

(** An await that the environment never answers. *)
Definition unanswered : Prop :=
  exists (X : Set) (c : Await X) (l : list Lab) (sh : Sh), react c l sh = None.

(** [m] never panics, fails only if [fails], and is left unfinished only if
    [loops] or if some await is never answered. *)
Definition returns (fails loops : bool) {A} (m : IO A) : Prop :=
  forall s, wp m (fun r _ =>
    match r with
    | Ok _ => True
    | Err _ => fails = true
    | Panic => False
    | OutOfFuel => loops = true \/ unanswered
    end) s.

Lemma returns_bind {A B} b l (m : IO A) (f : A -> IO B) :
  returns b l m -> (forall a, returns b l (f a)) -> returns b l (m ≫= f).
Proof.
  intros Hm Hf s. apply wp_bind. eapply wp_mono; [apply Hm|].
  intros [a|e| |] s1 H1; cbn [then_]; [apply Hf|done..].
Qed.

Lemma returns_weaken {A} b l (m : IO A) : returns false false m -> returns b l m.
Proof. intros Hm s. eapply wp_mono; [apply Hm|]. intros [] s'; try done. intros [|]; [done|by right]. Qed.

Lemma returns_loops {A} b l (m : IO A) : returns b false m -> returns b l m.
Proof. intros Hm s. eapply wp_mono; [apply Hm|]. intros [] s'; try done. intros [|]; [done|by right]. Qed.

Lemma returns_fails {A} b l (m : IO A) : returns false l m -> returns b l m.
Proof. intros Hm s. eapply wp_mono; [apply Hm|]. by intros [] s'. Qed.

Lemma returns_ret {A} b l (a : A) : returns b l (mret a).
Proof. by intros s. Qed.
Lemma returns_get b l : returns b l get.
Proof. by intros s. Qed.
Lemma returns_lift {A} l (r : res error A) : safe (fun _ => True) r -> returns true l (lift r).
Proof. intros Hr s. by destruct r. Qed.
Lemma returns_fuel {A} b : returns b true (lift OutOfFuel : IO A).
Proof. intros s. by left. Qed.
Lemma returns_dropped {A} b l (m : IO A) : returns true l m -> returns b l (dropped m).
Proof. intros Hm s. apply wp_dropped. eapply wp_mono; [apply Hm|]. by intros [] s'. Qed.
Lemma returns_attempt {A} b l (m : IO A) : returns true l m -> returns b l (attempt m).
Proof. intros Hm s. apply wp_attempt. eapply wp_mono; [apply Hm|]. by intros [] s'. Qed.
Lemma returns_await {X : Set} b l (c : Await X) : returns b l (await c).
Proof.
  intros s. unfold wp, await. destruct (react c _ _) as [[x sh]|] eqn:Hr; [done|].
  right. by exists X, c, (log s), (shared s).
Qed.
Lemma returns_emit b l x : returns b l (emit x : IO ()).
Proof. by intros s. Qed.
Lemma returns_on_shared {A} b l (f : Sh -> A * Sh) : returns b l (on_shared f).
Proof. intros s. by apply wp_on_shared. Qed.
Lemma returns_on_both {A} b l (f : L -> Sh -> A * L * Sh) : returns b l (on_both f).
Proof. intros s. by apply wp_on_both. Qed.

End Returns.

Ltac returns_step :=
  lazymatch goal with
  | |- returns _ _ (mbind _ _) => apply returns_bind; [|intros ?]
  | |- returns _ _ (mret _) => apply returns_ret
  | |- returns _ _ get => apply returns_get
  | |- returns _ true (lift OutOfFuel) => apply returns_fuel
  | |- returns true _ (lift _) => apply returns_lift
  | |- returns _ _ (await _) => apply returns_await
  | |- returns _ _ (emit _) => apply returns_emit
  | |- returns _ _ (on_shared _) => apply returns_on_shared
  | |- returns _ _ (on_both _) => apply returns_on_both
  | |- returns _ _ (dropped _) => apply returns_dropped
  | |- returns _ _ (attempt _) => apply returns_attempt
  | |- returns _ _ (match ?x with _ => _ end) => destruct x
  end.
