(* ===== verification/Listeners.v ===== *)
(** * The handles of the listeners ([TcpListenerTask] in [src/src/tcp.rs],
      [UdpListenerTask] in [src/src/udp.rs])

    The supervisor holds a handle per listener; a handle is modelled as the
    arguments its task was spawned with. *)

From S2P Require Import Prelude Float Profile Policy.

(** What a running listener was spawned with, without the channels:
    [tcp::spawn_user_listener] and [udp::spawn_user_listener]. *)
Record ListenerArgs : Type := {
  la_listen_host : string; la_user_id : Z; la_port : Z; la_password : string;
  la_profile : Profile.t; la_enforcement : EnforcementConfig; la_is_multi_user : Z
}.
Record TcpListenerTask : Type := { tcp_args : ListenerArgs; tcp_max_accepts : nat }.
Record UdpListenerTask : Type := {
  udp_args : ListenerArgs; ut_association_ttl : Duration; ut_max_associations : nat
}.
