(* ===== verification/TcpRelay.v ===== *)
(** * One TCP session ([src/src/tcp.rs])

    [handle_stream] decodes the handshake, looks the user's tables up,
    enforces the connection-time policy, connects to the target and relays
    both directions until one side closes; [connect_target_checked] is the
    connection under the forbidden lists; the accept loop is in
    [TcpListener.v].
    The session runs as a task of [Task.v]: sockets, name resolution, timers,
    the clock and the lock of a limiter are awaits; the counters, IP sets,
    buckets and the event channel are shared. *)

From S2P Require Import Prelude Errors Kdf Str Cipher Protocol Session.
From S2P Require Import Net Address Float Policy RateLimit Traffic Conn RelayAudit Task.

(** [READ_CHUNK], [MAX_HANDSHAKE_BYTES]. *)
Definition READ_CHUNK : nat := Z.to_nat 16384.
Definition MAX_HANDSHAKE_BYTES : nat := Z.to_nat 65536.

(** ** What a session awaits *)

(** A [read] of at most [READ_CHUNK] bytes; no bytes at the end of the
    stream. *)
Inductive read_result : Set := ReadOk (b : bytes) | ReadErr.

(** A [write_all]; the count is how many bytes were written before it
    failed. *)
Inductive write_result : Set := WriteOk | WriteErr (n : nat) | WriteTimeout (n : nat).

(** The branch of the relay's [select!] that fires. *)
Inductive ready : Set := IdleFired | ClientReadable (r : read_result) | RemoteReadable (r : read_result).

Inductive Await : Set -> Type :=
  | ReadClient : Await (option read_result)                            (* [None]: the timeout *)
  | Select : Await ready
  | LockLimiter (loc : nat) : Await Instant                            (* and the time it is *)
  | SleepFor (wait : Duration) : Await ()
  | WriteInitial (b : bytes) : Await (option nat)                      (* no timeout *)
  | WriteRemote (b : bytes) : Await write_result
  | WriteClient (b : bytes) : Await write_result
  | ConnectHost (host : string) (port : Z) : Await bool
  | LookupHost (host : string) (port : Z) : Await (option (list SocketAddr))
  | ConnectAddr (a : SocketAddr) : Await bool
  | ShutdownRemote : Await ()
  | ShutdownClient : Await ().

(** ** The log of a session *)
Inductive label : Type :=
  | Received (b : bytes)                  (* read from the client *)
  | RemoteReceived (b : bytes)            (* read from the target *)
  | SentRemote (b : bytes)                (* written to the target *)
  | SentClient (b : bytes)                (* written to the client *)
  | Counted (a : addition)                (* added to a traffic counter *)
  | Asked (loc : nat) (now : Instant) (n : nat) (v : verdict)  (* a round of a limiter *)
  | Acquired (loc : nat) (ip : string) (limit : Z)
  | Released (loc : nat) (ip : string)
  | TriedHost (host : string) (port : Z)  (* a connection attempt by name *)
  | TriedAddr (a : SocketAddr)            (* a connection attempt *)
  | LookedUp (host : string) (port : Z) (answer : option (list SocketAddr))
  | Closed.                               (* both write halves shut down *)

Section TcpRelay.
Context `{Crypto} `{RegexEngine}.

(** What sessions share. *)
Record Shared : Type := {
  counter_cells : gmap nat UserCounters;
  ip_sets : gmap nat (gmap string nat);     (* the [UserIpSet]s *)
  limit_buckets : gmap nat Bucket;          (* the [RateLimiter]s *)
  events : list RelayEvent;
  rules : RuleSet;
  moment : nat                              (* the environment's, see [Task] *)
}.

Definition set_counter_cells (v : gmap nat UserCounters) (s : Shared) : Shared :=
  {| counter_cells := v; ip_sets := ip_sets s; limit_buckets := limit_buckets s; events := events s;
     rules := rules s; moment := moment s |}.
Definition set_ip_sets (v : gmap nat (gmap string nat)) (s : Shared) : Shared :=
  {| counter_cells := counter_cells s; ip_sets := v; limit_buckets := limit_buckets s; events := events s;
     rules := rules s; moment := moment s |}.
Definition set_events (v : list RelayEvent) (s : Shared) : Shared :=
  {| counter_cells := counter_cells s; ip_sets := ip_sets s; limit_buckets := limit_buckets s; events := v;
     rules := rules s; moment := moment s |}.
Definition set_limit_buckets (v : gmap nat Bucket) (s : Shared) : Shared :=
  {| counter_cells := counter_cells s; ip_sets := ip_sets s; limit_buckets := v; events := events s;
     rules := rules s; moment := moment s |}.

Context `{!Env Await Shared label}.

(** [struct StreamContext]. *)
Record StreamContext : Type := {
  password : string;
  fallback_user_id : Z;
  tables : UserTables;
  enforcement : EnforcementConfig;
  sc_is_multi_user : Z;
  cipher_kind : CipherKind;
  peer_ip : string;
  peer : string
}.

Abbreviation IO := (ST (task ServerSession.t Shared label) error).

(** ** I/O *)

Definition received (r : read_result) (l : bytes -> label) : IO bytes :=
  match r with
  | ReadErr => lift (Err ReadFailed)
  | ReadOk b => emit (l b);; mret b
  end.

(** [write_all], with its [??] or [?]. *)
Definition written (w : write_result) (b : bytes) (l : bytes -> label) (timeout : error) : IO () :=
  match w with
  | WriteOk => emit (l b)
  | WriteErr n => emit (l (take n b));; lift (Err WriteFailed)
  | WriteTimeout n => emit (l (take n b));; lift (Err timeout)
  end.

Definition write_initial (b : bytes) : IO () :=
  w ← await (WriteInitial b);
  written (match w with None => WriteOk | Some n => WriteErr n end) b SentRemote WriteFailed.
Definition write_remote (b : bytes) : IO () :=
  w ← await (WriteRemote b);
  written w b SentRemote RemoteWriteTimeout.
Definition write_client (b : bytes) : IO () :=
  w ← await (WriteClient b);
  written w b SentClient ClientWriteTimeout.

(** [counters.record_upload(n)], [counters.record_download(n)]. *)
Definition count (loc : nat) (up : bool) (n : nat) : IO () :=
  let a := {| add_loc := loc; add_up := up; add_bytes := n |} in
  on_shared (fun sh => ((), set_counter_cells (add a (counter_cells sh)) sh));;
  emit (Counted a).

(** One round of [RateLimiter::acquire] at the bucket [loc], under its lock.
    The limiters of the tables exist; one that does not would not limit. *)
Definition limiter_round (loc : nat) (now : Instant) (n : nat) (sh : Shared) : res error verdict * Shared :=
  match limit_buckets sh !! loc with
  | Some b =>
      match acquire_step now (Z.of_nat n) b with
      | Ok (v, b) => (Ok v, set_limit_buckets (<[loc := b]> (limit_buckets sh)) sh)
      | Err e => (Err e, sh) | Panic => (Panic, sh) | OutOfFuel => (OutOfFuel, sh)
      end
  | None => (Ok Granted, sh)
  end.

(** [RateLimiter::acquire]: the lock is never held across the sleep. *)
Fixpoint acquire_tokens (fuel : nat) (loc n : nat) : IO () :=
  match fuel with
  | 0 => lift OutOfFuel
  | S fuel =>
      now ← await (LockLimiter loc);
      v ← on_shared (limiter_round loc now n);
      v ← lift v;
      emit (Asked loc now n v);;
      match v with
      | Granted => mret ()
      | Sleep wait => await (SleepFor wait);; acquire_tokens fuel loc n
      end
  end.

(** [if let Some(l) = &limiter { l.acquire(n).await }]. *)
Definition limit (fuel : nat) (limiter : option nat) (n : nat) : IO () :=
  match limiter with
  | Some l => acquire_tokens fuel l n
  | None => mret ()
  end.

(** ** The handshake

    [None]: the client closed before completing it.  Else the target, the
    payload behind the header and the bytes read so far. *)
Fixpoint handshake (fuel : nat) (app_buf : bytes) (pre_auth_upload : Z)
    : IO (option (Address * bytes * Z)) :=
  match fuel with
  | 0 => lift OutOfFuel
  | S fuel =>
      r ← await ReadClient;
      match r with
      | None => lift (Err HandshakeIdleTimeout)
      | Some r =>
          b ← received r Received;
          if length b =? 0 then mret None
          else
            let pre_auth_upload := Z.min (pre_auth_upload + Z.of_nat (length b)) U64_MAX in
            decoded ← on_local (ServerSession.decrypt b);
            if length decoded =? 0 then handshake fuel app_buf pre_auth_upload
            else
              let app_buf := app_buf ++ decoded in
              a ← lift (parse app_buf);
              match a with
              | Some (addr, consumed) =>
                  initial ← lift (slice_from app_buf consumed);
                  mret (Some (addr, initial, pre_auth_upload))
              | None =>
                  lift (bail_if (MAX_HANDSHAKE_BYTES <? length app_buf) HandshakeTooLong);;
                  handshake fuel app_buf pre_auth_upload
              end
      end
  end.

(** ** The connection to the target *)

(** The loop over the allowed addresses. *)
Fixpoint connect_first (allowed : list SocketAddr) : IO () :=
  match allowed with
  | [] => lift (Err ConnectFailed)
  | a :: allowed =>
      ok ← await (ConnectAddr a);
      emit (TriedAddr a);;
      if (ok : bool) then mret () else connect_first allowed
  end.

Definition connect_target_checked (target : Address) (policy : option UserPolicy.t)
    (e : EnforcementConfig) : IO () :=
  let '(host, port) := connect_target target in
  lift (bail_if
    (ec_forbidden e && match policy with Some p => UserPolicy.port_forbidden p port | None => false end)
    (PortForbidden port));;
  let ip_check := ec_forbidden e &&
    match policy with Some p => UserPolicy.has_forbidden_ip p | None => false end in
  if negb ip_check then
    ok ← await (ConnectHost host port);
    emit (TriedHost host port);;
    if (ok : bool) then mret () else lift (Err ConnectFailed)
  else
    policy ← lift (expect policy);
    resolved ← await (LookupHost host port);
    emit (LookedUp host port resolved);;
    match resolved with
    | None => lift (Err ResolveFailed)
    | Some resolved =>
        lift (bail_if (length resolved =? 0) NotResolved);;
        let allowed := base.filter (fun a => UserPolicy.ip_forbidden policy (sa_ip a) = false) resolved in
        lift (bail_if (length allowed =? 0) OnlyForbiddenAddresses);;
        connect_first allowed
    end.

(** ** The device cap *)

Inductive admission : Type := Refused | Entered (g : option guard).

Definition try_acquire (loc : nat) (ip : string) (limit : Z) (sh : Shared) : bool * Shared :=
  match Conn.acquire (default ∅ (ip_sets sh !! loc)) ip limit with
  | Some ips => (true, set_ip_sets (<[loc := ips]> (ip_sets sh)) sh)
  | None => (false, sh)
  end.

(** [_conn_guard] of [handle_stream]. *)
Definition acquire_guard (c : StreamContext) (user_id : Z) (policy : option UserPolicy.t)
    : IO admission :=
  match policy, ec_conn_limit (enforcement c) with
  | Some policy, true =>
      if (0 <? UserPolicy.conn_limit policy)%Z then
        match conns_by_user (tables c) !! user_id with
        | None => lift (Err (NoConnectionCounter user_id))
        | Some loc =>
            ok ← on_shared (try_acquire loc (peer_ip c) (UserPolicy.conn_limit policy));
            if (ok : bool) then
              emit (Acquired loc (peer_ip c) (UserPolicy.conn_limit policy));;
              mret (Entered (Some (loc, peer_ip c)))
            else mret Refused
        end
      else mret (Entered None)
  | _, _ => mret (Entered None)
  end.

(** The drop of the guard. *)
Definition release (g : guard) : IO () :=
  r ← on_shared (fun sh =>
    match drop_guard (default ∅ (ip_sets sh !! g.1)) g.2 with
    | Ok ips => (Ok (), set_ip_sets (<[g.1 := ips]> (ip_sets sh)) sh)
    | Err e => (Err e, sh) | Panic => (Panic, sh) | OutOfFuel => (OutOfFuel, sh)
    end);
  lift r;;
  emit (Released g.1 g.2).

Definition with_guard {A} (g : option guard) (m : IO A) : IO A :=
  match g with Some g => finally m (release g) | None => m end.

(** ** The relay *)

(** The [select!] loop. *)
Fixpoint relay (fuel : nat) (loc : nat) (limiter : option nat) : IO () :=
  match fuel with
  | 0 => lift OutOfFuel
  | S fuel =>
      e ← await Select;
      match e with
      | IdleFired => lift (Err SessionIdleTimeout)
      | ClientReadable r =>
          b ← received r Received;
          if length b =? 0 then mret ()
          else
            count loc true (length b);;
            data ← on_local (ServerSession.decrypt b);
            (if length data =? 0 then mret ()
             else limit (S fuel) limiter (length data);; write_remote data);;
            relay fuel loc limiter
      | RemoteReadable r =>
          b ← received r RemoteReceived;
          if length b =? 0 then mret ()
          else
            wire ← on_local (ServerSession.encrypt b);
            count loc false (length wire);;
            limit (S fuel) limiter (length wire);;
            write_client wire;;
            relay fuel loc limiter
      end
  end.

(** ** The session behind an admitted handshake (lines 265-348) *)
Definition serve (fuel : nat) (c : StreamContext) (user_id : Z) (loc : nat) (limiter : option nat)
    (policy : option UserPolicy.t) (target : Address) (initial : bytes) : IO () :=
  let auditor := new_auditor user_id (peer_ip c) (peer c) in
  on_shared (fun sh => ((), set_events (auditor_report_connect auditor (events sh)) sh));;
  matched ← on_shared (fun sh =>
    let '(m, _, q) := scan (rules sh) initial auditor (events sh) in (m, set_events q sh));
  lift (bail_if (matched && ec_audit_block (enforcement c)) InitialPayloadMatched);;
  connect_target_checked target policy (enforcement c);;
  (if length initial =? 0 then mret ()
   else limit fuel limiter (length initial);; write_initial initial);;
  relay fuel loc limiter;;
  await ShutdownRemote;;
  await ShutdownClient;;
  emit Closed.

(** [counters] of [handle_stream]. *)
Definition counters_for (c : StreamContext) (user_id : Z) : res error nat :=
  match counters_by_user (tables c) !! user_id with
  | Some loc => Ok loc
  | None =>
      match counters_by_user (tables c) !! fallback_user_id c with
      | Some loc => Ok loc
      | None => Err (NoTrafficCounter user_id)
      end
  end.

(** [handle_stream] once the session exists. *)
Definition handle_session (fuel : nat) (c : StreamContext) : IO () :=
  h ← handshake fuel [] 0;
  match h with
  | None => mret ()
  | Some (target, initial, pre_auth_upload) =>
      s ← get;
      let user_id := default (fallback_user_id c) (ServerSession.user_id (local s)) in
      loc ← lift (counters_for c user_id);
      count loc true (Z.to_nat pre_auth_upload);;
      let policy := policies (tables c) !! user_id in
      let limiter := if ec_speed (enforcement c) then speeds_by_user (tables c) !! user_id else None in
      a ← acquire_guard c user_id policy;
      match a with
      | Refused => mret ()
      | Entered g => with_guard g (serve fuel c user_id loc limiter policy target initial)
      end
  end.

(** [handle_stream], with the bytes of the generator [rnd]. *)
Definition handle_stream (rnd : nat -> option bytes) (fuel : nat) (c : StreamContext) (sh : Shared)
    : res error () * list label * Shared :=
  match ServerSession.new rnd (password c) (auth_users (tables c)) (sc_is_multi_user c)
          (cipher_kind c) with
  | Ok s =>
      let '(r, s) := handle_session fuel c {| local := s; shared := sh; log := [] |} in
      (r, log s, shared s)
  | Err e => (Err e, [], sh)
  | Panic => (Panic, [], sh)
  | OutOfFuel => (OutOfFuel, [], sh)
  end.

End TcpRelay.
