(* ===== verification/UdpRelay.v ===== *)
(** * The UDP relay of a port ([src/src/udp.rs])

    [handle_inbound] treats one datagram of a client: decode, count, check,
    find or open the association, forward.  An association is the outbound
    socket of one client peer and user, with a pump task that sends the
    target's answers back ([pump]).  [run_listener] is the listener with the
    pumps of its associations: the environment picks who acts next.
    The associations live in the bounded map of [TtlMap.v]; an association
    that leaves the map loses its socket and its pump. *)

From S2P Require Import Prelude Errors Kdf Str Cipher Protocol Session.
From S2P Require Import Net Address Float Policy Traffic TtlMap RelayAudit Task Listeners Profile.

(** [BUF_SIZE]: a longer datagram is cut when it is received. *)
Definition BUF_SIZE : nat := Z.to_nat 65536.

(** [struct AssociationKey]. *)
Record AssociationKey : Set := { ak_peer : SocketAddr; ak_user_id : Z }.

#[export] Instance association_key_eq_dec : EqDecision AssociationKey.
Proof. solve_decision. Defined.

#[export] Instance association_key_countable : Countable AssociationKey.
Proof.
  refine (inj_countable' (fun k => (ak_peer k, ak_user_id k))
    (fun x => {| ak_peer := x.1; ak_user_id := x.2 |}) _).
  by intros [].
Defined.

(** [struct Association]: the outbound socket, and what its pump captured;
    [pump_done]: the pump has left its loop. *)
Record Association : Type := {
  outbound : nat;
  response_key : bytes;
  pump_counters : nat;
  pump_peer : SocketAddr;
  pump_done : bool
}.

(** [enum UdpDest]. *)
Inductive UdpDest : Set :=
  | DestAddr (a : SocketAddr)
  | DestHostPort (host : string) (port : Z).

(** What happens next at the port. *)
Inductive turn : Set :=
  | Stop
  | Inbound (datagram : bytes) (peer : SocketAddr)                       (* [socket.recv_from] *)
  | InboundError
  | Answer (sock : nat) (data : bytes) (from : SocketAddr)     (* [outbound.recv_from] *)
  | AnswerError (sock : nat).

Inductive UdpAwait : Set -> Type :=
  | BindListener (host : string) (port : Z) : UdpAwait bool
  | NextTurn : UdpAwait turn
  | Now : UdpAwait Instant
  | UdpLookup (host : string) (port : Z) : UdpAwait (option (list SocketAddr))
  | Bind : UdpAwait (option nat)
  | SendTo (sock : nat) (payload : bytes) (dest : UdpDest) : UdpAwait bool
  | GetRandom (n : nat) : UdpAwait (option bytes)
  | SendPeer (pkt : bytes) (peer : SocketAddr) : UdpAwait bool.

Inductive udp_label : Type :=
  | UCounted (a : addition)
  | ULookedUp (host : string) (port : Z) (answer : option (list SocketAddr))
  | Opened (key : AssociationKey) (sock : nat)
  | Forwarded (key : AssociationKey) (sock : nat) (payload : bytes) (dest : UdpDest)
  | Replied (sock : nat) (pkt : bytes) (peer : SocketAddr).

Section UdpRelay.
Context `{Crypto} `{RegexEngine} `{HashOrder}.

(** What the port shares with the rest of the program. *)
Record UShared : Type := {
  u_cells : gmap nat UserCounters;
  u_events : list RelayEvent;
  u_rules : RuleSet;
  u_published : UserTables;
  u_moment : nat                             (* the environment's, see [Task] *)
}.

Definition set_u_cells (v : gmap nat UserCounters) (s : UShared) : UShared :=
  {| u_cells := v; u_events := u_events s; u_rules := u_rules s; u_published := u_published s; u_moment := u_moment s |}.
Definition set_u_events (v : list RelayEvent) (s : UShared) : UShared :=
  {| u_cells := u_cells s; u_events := v; u_rules := u_rules s; u_published := u_published s; u_moment := u_moment s |}.

Context `{!Env UdpAwait UShared udp_label}.

Definition Associations : Type := BoundedTtlMap.t AssociationKey Association.

(** The arguments of the listener. *)
Record UdpContext : Type := {
  uc_user_id : Z;
  uc_master_key : bytes;
  uc_enforcement : EnforcementConfig;
  uc_is_multi_user : Z;
  uc_cipher_kind : CipherKind
}.

Abbreviation IO := (ST (task Associations UShared udp_label) error).

Definition u_count (loc : nat) (up : bool) (n : nat) : IO () :=
  let a := {| add_loc := loc; add_up := up; add_bytes := n |} in
  on_shared (fun sh => ((), set_u_cells (add a (u_cells sh)) sh));;
  emit (UCounted a).

(** A method of the association map that does not fail. *)
Definition on_map {A} (f : Associations -> A * Associations) : IO A :=
  on_local (fun m => let '(a, m) := f m in (Ok a, m)).

(** ** [resolve_udp_dest] *)
Definition resolve_udp_dest (target : Address) (policy : option UserPolicy.t)
    (e : EnforcementConfig) : IO UdpDest :=
  let ip_check := ec_forbidden e &&
    match policy with Some p => UserPolicy.has_forbidden_ip p | None => false end in
  if negb ip_check then mret (DestHostPort (host target) (port target))
  else
    policy ← lift (expect policy);
    resolved ← await (UdpLookup (host target) (port target));
    emit (ULookedUp (host target) (port target) resolved);;
    match resolved with
    | None => lift (Err ResolveFailed)
    | Some resolved =>
        lift (bail_if (length resolved =? 0) NotResolved);;
        match find (fun a => negb (UserPolicy.ip_forbidden policy (sa_ip a))) resolved with
        | Some a => mret (DestAddr a)
        | None => lift (Err OnlyForbiddenAddresses)
        end
    end.

(** [counters] of [handle_inbound]. *)
Definition udp_counters_for (tables : UserTables) (real_user_id user_id : Z) : res error nat :=
  match counters_by_user tables !! real_user_id with
  | Some loc => Ok loc
  | None =>
      match counters_by_user tables !! user_id with
      | Some loc => Ok loc
      | None => Err (NoTrafficCounter real_user_id)
      end
  end.

(** [response_key] of [handle_inbound]. *)
Definition response_key_for (c : UdpContext) (tables : UserTables) (auth : option Z) : bytes :=
  match auth with
  | Some uid => default (uc_master_key c) (auth_users tables !! uid)
  | None => uc_master_key c
  end.

(** The association of the datagram's peer (lines 238-274). *)
Definition find_association (key : AssociationKey) (rkey : bytes) (loc : nat) : IO nat :=
  now ← await Now;
  a ← on_map (BoundedTtlMap.touch now key);
  match a with
  | Some a => mret (outbound a)
  | None =>
      on_shared (fun sh => ((), set_u_events
        (report_connect (ak_user_id key) (ip_to_string (sa_ip (ak_peer key)))
          (socket_to_string (ak_peer key)) (u_events sh)) sh));;
      sock ← await Bind;
      match sock with
      | None => lift (Err BindFailed)
      | Some sock =>
          now ← await Now;
          on_map (fun m => ((), BoundedTtlMap.insert now key
            {| outbound := sock; response_key := rkey; pump_counters := loc;
               pump_peer := ak_peer key; pump_done := false |} m));;
          emit (Opened key sock);;
          mret sock
      end
  end.

(** ** [handle_inbound] *)
Definition handle_inbound (c : UdpContext) (tables : UserTables) (datagram : bytes)
    (peer : SocketAddr) : IO () :=
  '(plain, auth) ← lift (udp_decrypt_packet (uc_master_key c) (auth_users tables)
    (uc_is_multi_user c) datagram (uc_cipher_kind c));
  let real_user_id := default (uc_user_id c) auth in
  let rkey := response_key_for c tables auth in
  loc ← lift (udp_counters_for tables real_user_id (uc_user_id c));
  u_count loc true (length datagram);;
  a ← lift (parse plain);
  match a with
  | None => lift (Err AddressIncomplete)
  | Some (target, consumed) =>
      payload ← lift (slice_from plain consumed);
      let policy := policies tables !! real_user_id in
      lift (bail_if (ec_forbidden (uc_enforcement c) && match policy with
        | Some p => UserPolicy.port_forbidden p (port target) | None => false end)
        (PortForbidden (port target)));;
      on_shared (fun sh => ((), set_u_events
        (scan_payload (u_rules sh) real_user_id (ip_to_string (sa_ip peer)) payload (u_events sh)).2 sh));;
      dest ← resolve_udp_dest target policy (uc_enforcement c);
      let key := {| ak_peer := peer; ak_user_id := real_user_id |} in
      sock ← find_association key rkey loc;
      ok ← await (SendTo sock payload dest);
      emit (Forwarded key sock payload dest);;
      if (ok : bool) then mret () else lift (Err SendFailed)
  end.

(** ** [spawn_response_pump] *)

(** The live association with the outbound socket [sock]. *)
Definition pump_of (sock : nat) (m : Associations) : option (AssociationKey * Association) :=
  match find (fun kv => outbound (value kv.2) =? sock) (map_to_list (BoundedTtlMap.map m)) with
  | Some (k, e) => if pump_done (value e) then None else Some (k, value e)
  | None => None
  end.

(** The pump of [k] leaves its loop. *)
Definition finish_pump (k : AssociationKey) (m : Associations) : Associations :=
  BoundedTtlMap.set_map (alter (fun e => {| value :=
    {| outbound := outbound (value e); response_key := response_key (value e);
       pump_counters := pump_counters (value e); pump_peer := pump_peer (value e);
       pump_done := true |}; last_seen := last_seen e |}) k (BoundedTtlMap.map m)) m.

(** One turn of the loop of the pump [a] with an answer. *)
Definition pump (c : UdpContext) (k : AssociationKey) (a : Association) (data : bytes)
    (from : SocketAddr) : IO () :=
  let header := pack_socket_addr (sa_ip from) (sa_port from) ++ data in
  iv ← await (GetRandom (CipherKind.iv_len (uc_cipher_kind c)));
  match udp_encrypt_packet (fun _ => iv) (uc_master_key c) (response_key a) header (uc_cipher_kind c) with
  | Ok pkt =>
      u_count (pump_counters a) false (length pkt);;
      ok ← await (SendPeer pkt (pump_peer a));
      emit (Replied (outbound a) pkt (pump_peer a));;
      if (ok : bool) then mret () else on_map (fun m => ((), finish_pump k m))
  | Err _ => mret ()
  | Panic => lift Panic
  | OutOfFuel => lift OutOfFuel
  end.

(** ** [run_listener], with the pumps *)

(** An error of [handle_inbound] is logged and dropped. *)
Fixpoint listen_loop (fuel : nat) (c : UdpContext) : IO () :=
  match fuel with
  | 0 => lift OutOfFuel
  | S fuel =>
      t ← await NextTurn;
      match t with
      | Stop => mret ()
      | InboundError => lift (Err ReadFailed)
      | Inbound datagram peer =>
          now ← await Now;
          on_map (fun m => ((), BoundedTtlMap.expire now m));;
          tables ← on_shared (fun sh => (u_published sh, sh));
          dropped (handle_inbound c tables (take BUF_SIZE datagram) peer);;
          listen_loop fuel c
      | Answer sock data from =>
          s ← get;
          (match pump_of sock (local s) with
           | Some (k, a) => pump c k a (take BUF_SIZE data) from
           | None => mret ()
           end);;
          listen_loop fuel c
      | AnswerError sock =>
          s ← get;
          (match pump_of sock (local s) with
           | Some (k, a) => on_map (fun m => ((), finish_pump k m))
           | None => mret ()
           end);;
          listen_loop fuel c
      end
  end.

(** [run_listener]: the socket, the cipher, the master key, then the loop. *)
Definition run_listener (fuel : nat) (t : UdpListenerTask) : IO () :=
  let args := udp_args t in
  bound ← await (BindListener (la_listen_host args) (la_port args));
  if negb bound then lift (Err ListenFailed)
  else
    k ← lift (Profile.cipher_kind (la_profile args));
    listen_loop fuel
      {| uc_user_id := la_user_id args; uc_master_key := derive_master_key (la_password args) k;
         uc_enforcement := la_enforcement args; uc_is_multi_user := la_is_multi_user args;
         uc_cipher_kind := k |}.

(** [spawn_user_listener]: the task from its start, with the empty map. *)
Definition start_listener (fuel : nat) (t : UdpListenerTask) (sh : UShared)
    : res error () * task Associations UShared udp_label :=
  run_listener fuel t
    {| local := BoundedTtlMap.new (ut_association_ttl t) (Nat.max (ut_max_associations t) 1);
       shared := sh; log := [] |}.

End UdpRelay.
