(* ===== verification/Interleave.v ===== *)
(** * The two directions of a session are independent

    The TCP relay runs both directions on one [ServerSession], in one task:
    "encrypt/decrypt are disjoint state".  This file proves it: once the
    handshake is through, any interleaving of [decrypt] and [encrypt] calls
    gives the payload of the [decrypt]s alone and the wire bytes of the
    [encrypt]s alone. *)

From S2P Require Import Prelude Errors Kdf Str Cipher Protocol ProtocolSpec.
From S2P Require Import ProtocolPackets Session SessionSpec Client EndToEnd.
Import ServerSession.

(** One call on the session. *)
Inductive io : Type := Dec (raw : bytes) | Enc (plaintext : bytes).

Definition decs (ops : list io) : list bytes :=
  omap (fun o => match o with Dec c => Some c | Enc _ => None end) ops.
Definition encs (ops : list io) : list bytes :=
  omap (fun o => match o with Dec _ => None | Enc m => Some m end) ops.

Section Code.
Context `{Crypto}.

(** The calls in order; the payload received and the wire bytes sent. *)
Fixpoint run_io (ops : list io) : ST t error (bytes * bytes) :=
  match ops with
  | [] => mret ([], [])
  | Dec c :: ops => o ← decrypt c; '(a, b) ← run_io ops; mret (o ++ a, b)
  | Enc m :: ops => w ← encrypt m; '(a, b) ← run_io ops; mret (a, w ++ b)
  end.

(** The handshake is through. *)
Definition established (s : t) (key : bytes) : Prop :=
  exists p, protocol s = Some p /\ AuthAes128Md5.has_recv_header p = true /\
    AuthAes128Md5.user_key p = key.

(** [s] with another send side. *)
Definition with_send (e : StreamCipher) (em : bool) (pid : Z) (s : t) : t :=
  {| cipher := cipher s; master_key := master_key s; recv_iv_buf := recv_iv_buf s;
     decryptor := decryptor s;
     protocol := option_map (AuthAes128Md5.set_pack_id pid) (protocol s);
     users := users s; is_multi_user := is_multi_user s; send_iv := send_iv s; encryptor := e;
     send_iv_emitted := em |}.

End Code.

Section Lemmas.
Context `{HL : CryptoLaws}.

(** ** Receiving does not look at the send side *)

Lemma selected_set_pack_id pid u p :
  selected u (AuthAes128Md5.set_pack_id pid p) = AuthAes128Md5.set_pack_id pid (selected u p).
Proof.
  unfold selected. cbn [AuthAes128Md5.users AuthAes128Md5.set_pack_id AuthAes128Md5.is_multi_user].
  by repeat case_match.
Qed.

Lemma auth_frame_set_pack_id pid p buf :
  auth_frame (AuthAes128Md5.set_pack_id pid p) buf = auth_frame p buf.
Proof. unfold auth_frame, auth_head. by rewrite selected_set_pack_id. Qed.

Lemma decode_set_pack_id pid p buf :
  decode (AuthAes128Md5.set_pack_id pid p) buf =
    ('(o, p') ← decode p buf; Ok (o, AuthAes128Md5.set_pack_id pid p')).
Proof.
  unfold decode. rewrite auth_frame_set_pack_id, selected_set_pack_id.
  change (AuthAes128Md5.has_recv_header (AuthAes128Md5.set_pack_id pid p))
    with (AuthAes128Md5.has_recv_header p).
  destruct (AuthAes128Md5.has_recv_header p).
  - unfold after_frames. cbn [AuthAes128Md5.user_key AuthAes128Md5.recv_id AuthAes128Md5.set_pack_id].
    by destruct (data_frames _ _ _ _ _) as [[[o i] r]| | |].
  - destruct (auth_frame p buf) as [|e|q n]; [by case_match|done|].
    unfold after_frames. cbn [AuthAes128Md5.user_key AuthAes128Md5.recv_id
      AuthAes128Md5.set_pack_id AuthAes128Md5.set_has_recv_header].
    by destruct (data_frames _ _ _ _ _) as [[[o i] r]| | |].
Qed.

Lemma decode_established p buf o p' :
  AuthAes128Md5.has_recv_header p = true -> decode p buf = Ok (o, p') ->
  AuthAes128Md5.has_recv_header p' = true /\ AuthAes128Md5.user_key p' = AuthAes128Md5.user_key p.
Proof.
  intros Hh. unfold decode. rewrite Hh. unfold after_frames.
  intros ([[o1 i1] r1] & _ & [= <- <-])%bind_inv_Ok. done.
Qed.

Lemma sdecode_with_send e em pid s key bs :
  swf s -> established s key ->
  sdecode (with_send e em pid s) bs =
    ('(o, s') ← sdecode s bs; Ok (o, with_send e em pid s')).
Proof.
  intros [_ Hs] (p & Hp & Hh & _). unfold sdecode.
  cbn [decryptor protocol with_send]. rewrite Hp in *.
  destruct (decryptor s) as [d|]; [|done]. cbn [option_map]. unfold continue.
  destruct (StreamCipher.process d bs) as [pl d'].
  change (AuthAes128Md5.recv_buf (AuthAes128Md5.set_pack_id pid p)) with (AuthAes128Md5.recv_buf p).
  rewrite decode_set_pack_id. by destruct (decode p _) as [[o p']| | |].
Qed.

Lemma sdecode_established s key bs o s' :
  swf s -> established s key -> sdecode s bs = Ok (o, s') ->
  swf s' /\ established s' key /\ send_iv s' = send_iv s.
Proof.
  intros Hs (p & Hp & Hh & Hk) Hd. split; [by eapply sdecode_swf|].
  destruct Hs as [_ Hs]. unfold sdecode in Hd. rewrite Hp in *.
  destruct (decryptor s) as [d|]; [|done]. unfold continue in Hd.
  destruct (StreamCipher.process d bs) as [pl d'].
  apply bind_inv_Ok in Hd as ([o1 p1] & Hdec & [= <- <-]). split; [|done].
  destruct (decode_established _ _ _ _ Hh Hdec) as [H1 H2].
  exists p1. cbn. split_and!; [done|done|congruence].
Qed.

Lemma with_send_swf e em pid s : swf s -> swf (with_send e em pid s).
Proof.
  intros [Hk Hs]. split; [done|]. cbn.
  destruct (decryptor s), (protocol s) as [p|]; try done. destruct Hs as [Hw Hset]. split; [done|].
  unfold settled in *. cbn [option_map].
  change (AuthAes128Md5.recv_buf (AuthAes128Md5.set_pack_id pid p)) with (AuthAes128Md5.recv_buf p).
  rewrite decode_set_pack_id. by rewrite Hset.
Qed.

(** ** Sending does not look at the receive side *)

(** The result of [encrypt]: wire bytes and the new send side. *)
Definition sealed (e : StreamCipher) (em : bool) (pid : Z) (iv key m : bytes)
    : bytes * StreamCipher * Z :=
  let us := units (S (length m)) m in
  let r := StreamCipher.process e (data_packets key pid us) in
  ((if em then [] else iv) ++ r.1, r.2, id_after (length us) pid).

Lemma encrypt_sealed e em pid s p m :
  protocol s = Some p ->
  outcome (encrypt m) (with_send e em pid s) =
    let r := sealed e em pid (send_iv s) (AuthAes128Md5.user_key p) m in
    Ok (r.1.1, with_send r.1.2 true r.2 s).
Proof.
  intros Hp. unfold encrypt, sealed. run.
  cbn [protocol with_send]. rewrite Hp. cbn [option_map].
  rewrite bool_decide_false by done. run.
  rewrite outcome_with_protocol. cbn [protocol with_send]. rewrite Hp. cbn [option_map expect].
  rewrite bind_Ok, server_pre_encrypt_spec, !bind_Ok.
  cbn [AuthAes128Md5.user_key AuthAes128Md5.pack_id AuthAes128Md5.set_pack_id]. run.
  set (us := units _ m). cbn [encryptor set_protocol with_send].
  destruct (StreamCipher.process e _) as [b enc]. run.
  cbn [send_iv_emitted set_encryptor set_protocol with_send send_iv].
  destruct em; run; unfold with_send; cbn; rewrite Hp; reflexivity.
Qed.

Lemma encrypt_with_send e em pid s key m :
  established s key ->
  outcome (encrypt m) (with_send e em pid s) =
    let r := sealed e em pid (send_iv s) key m in
    Ok (r.1.1, with_send r.1.2 true r.2 s).
Proof. intros (p & Hp & _ & <-). by apply encrypt_sealed. Qed.

Lemma send_all_with_send msgs e em pid s s' key :
  established s key -> established s' key -> send_iv s' = send_iv s ->
  exists b e' em' pid',
    outcome (send_all msgs) (with_send e em pid s) = Ok (b, with_send e' em' pid' s) /\
    outcome (send_all msgs) (with_send e em pid s') = Ok (b, with_send e' em' pid' s').
Proof.
  intros Hs Hs' Hiv. revert e em pid. induction msgs as [|m msgs IH]; intros e em pid.
  { by exists [], e, em, pid. }
  cbn [send_all]. rewrite !outcome_bind.
  rewrite (encrypt_with_send e em pid s key), (encrypt_with_send e em pid s' key), Hiv by done.
  cbv zeta. rewrite !bind_Ok. cbv beta iota.
  set (r := sealed e em pid (send_iv s) key m).
  destruct (IH r.1.2 true r.2) as (b & e' & em' & pid' & H1 & H2).
  exists (r.1.1 ++ b), e', em', pid'. split; run; [by rewrite H1|by rewrite H2].
Qed.

(** ** Both *)

Lemma feed_cons_sdecode c cs s :
  swf s ->
  outcome (feed (c :: cs)) s =
    ('(o, s1) ← sdecode s c; '(a, s2) ← outcome (feed cs) s1; Ok (o ++ a, s2)).
Proof.
  intros Hs. cbn [feed]. run. rewrite decrypt_outcome by done.
  destruct (sdecode s c) as [[o s1]| | |]; [|done..]. run.
  by destruct (outcome (feed cs) s1) as [[a s2]| | |].
Qed.

Lemma with_send_inj e em pid e' em' pid' (b b' : bytes) s key :
  established s key ->
  Ok (E:=error) (b, with_send e em pid s) = Ok (b', with_send e' em' pid' s) ->
  b = b' /\ e = e' /\ em = em' /\ pid = pid'.
Proof. intros (p & Hp & _). unfold with_send. rewrite Hp. cbn. by intros [= -> -> -> ->]. Qed.

Lemma run_io_split ops e em pid s key :
  swf s -> established s key ->
  match outcome (feed (decs ops)) s with
  | Ok (a, s') => exists b e' em' pid',
      outcome (run_io ops) (with_send e em pid s) = Ok ((a, b), with_send e' em' pid' s') /\
      outcome (send_all (encs ops)) (with_send e em pid s) = Ok (b, with_send e' em' pid' s)
  | Err err => outcome (run_io ops) (with_send e em pid s) = Err err
  | Panic => outcome (run_io ops) (with_send e em pid s) = Panic
  | OutOfFuel => outcome (run_io ops) (with_send e em pid s) = OutOfFuel
  end.
Proof.
  revert e em pid s. induction ops as [|[c|m] ops IH]; intros e em pid s Hs He.
  - cbn. by exists [], e, em, pid.
  - change (decs (Dec c :: ops)) with (c :: decs ops).
    change (encs (Dec c :: ops)) with (encs ops).
    rewrite feed_cons_sdecode by done. cbn [run_io]. rewrite outcome_bind.
    rewrite decrypt_outcome by by apply with_send_swf.
    rewrite (sdecode_with_send _ _ _ _ key) by done.
    destruct (sdecode s c) as [[o s1]| | |] eqn:Hd; [|done..]. rewrite !bind_Ok. cbv beta iota.
    destruct (sdecode_established s key c o s1 Hs He Hd) as (Hs1 & He1 & Hiv).
    rewrite outcome_bind. specialize (IH e em pid s1 Hs1 He1).
    destruct (outcome (feed (decs ops)) s1) as [[a s2]| | |]; [|by rewrite IH..].
    destruct IH as (b & e' & em' & pid' & H1 & H2). rewrite bind_Ok. cbv beta iota.
    destruct (send_all_with_send (encs ops) e em pid s1 s key He1 He ltac:(done))
      as (b2 & e2 & em2 & pid2 & H3 & H4).
    rewrite H2 in H3. destruct (with_send_inj _ _ _ _ _ _ _ _ _ _ He1 H3) as (<- & <- & <- & <-).
    exists b, e', em', pid'. by rewrite H1, H4.
  - change (decs (Enc m :: ops)) with (decs ops).
    change (encs (Enc m :: ops)) with (m :: encs ops).
    cbn [run_io send_all]. rewrite !outcome_bind, (encrypt_with_send e em pid s key m He).
    cbv zeta. rewrite !bind_Ok. cbv beta iota. set (r := sealed _ _ _ _ _ _).
    specialize (IH r.1.2 true r.2 s Hs He). rewrite outcome_bind.
    destruct (outcome (feed (decs ops)) s) as [[a s2]| | |]; [|by rewrite IH..].
    destruct IH as (b & e' & em' & pid' & H1 & H2).
    exists (r.1.1 ++ b), e', em', pid'. run. rewrite H1, H2. done.
Qed.

Lemma with_send_same s p :
  protocol s = Some p ->
  with_send (encryptor s) (send_iv_emitted s) (AuthAes128Md5.pack_id p) s = s.
Proof. destruct s. cbn. intros ->. unfold with_send. cbn. by destruct p. Qed.

(** [encrypt] from any state. *)
Lemma encrypt_outcome m s :
  match protocol s with
  | Some p =>
      let r := sealed (encryptor s) (send_iv_emitted s) (AuthAes128Md5.pack_id p) (send_iv s)
                 (AuthAes128Md5.user_key p) m in
      outcome (encrypt m) s = Ok (r.1.1, with_send r.1.2 true r.2 s)
  | None => outcome (encrypt m) s = Err EncryptBeforeHandshake
  end.
Proof.
  destruct (protocol s) as [p|] eqn:Hp.
  - pose proof (encrypt_sealed (encryptor s) (send_iv_emitted s) (AuthAes128Md5.pack_id p) s p m Hp) as Ho.
    by rewrite (with_send_same s p Hp) in Ho.
  - unfold encrypt. run. rewrite Hp. by rewrite bool_decide_true.
Qed.

Lemma run_io_independent ops s key :
  swf s -> established s key ->
  match outcome (feed (decs ops)) s with
  | Ok (a, _) => exists b s1 s2,
      outcome (send_all (encs ops)) s = Ok (b, s1) /\ outcome (run_io ops) s = Ok ((a, b), s2)
  | Err err => outcome (run_io ops) s = Err err
  | _ => False
  end.
Proof.
  intros Hs He. destruct He as (p & Hp & He).
  pose proof (run_io_split ops (encryptor s) (send_iv_emitted s) (AuthAes128Md5.pack_id p) s key Hs
    ltac:(by exists p)) as Hr.
  rewrite (with_send_same s p Hp) in Hr.
  assert (safe (fun _ => True) (outcome (feed (decs ops)) s)) as Hsafe.
  { destruct (decs ops) as [|c cs]; [done|]. rewrite feed_outcome by done. by apply sdecode_safe. }
  destruct (outcome (feed (decs ops)) s) as [[a s']| | |]; [|done..].
  destruct Hr as (b & e' & em' & pid' & H1 & H2). eauto.
Qed.

(** ** From the handshake on *)

Lemma decode_opens p buf o p' :
  decode p buf = Ok (o, p') -> o <> [] -> AuthAes128Md5.has_recv_header p' = true.
Proof.
  unfold decode, after_frames. destruct (AuthAes128Md5.has_recv_header p) eqn:Hh.
  - by intros ([[o1 i1] r1] & _ & [= <- <-])%bind_inv_Ok.
  - destruct (auth_frame p buf) as [|e|q n]; [by intros [= <- <-]|done|].
    by intros ([[o1 i1] r1] & _ & [= <- <-])%bind_inv_Ok.
Qed.

Lemma continue_opens s d p bs o s' :
  continue s d p bs = Ok (o, s') -> o <> [] -> exists key, established s' key.
Proof.
  unfold continue. destruct (StreamCipher.process d bs) as [pl d'].
  intros ([o1 p1] & Hdec & [= <- <-])%bind_inv_Ok Hne. eexists _, p1.
  split_and!; [done|by eapply decode_opens|done].
Qed.

Lemma sdecode_opens s bs o s' :
  sdecode s bs = Ok (o, s') -> o <> [] -> exists key, established s' key.
Proof.
  unfold sdecode. intros Hd Hne.
  destruct (decryptor s), (protocol s); try (by eapply continue_opens).
  all: case_match; [by injection Hd as <- <-|].
  all: apply bind_inv_Ok in Hd as (d & _ & Hc); by eapply continue_opens.
Qed.

(** Decoding changes neither the send side nor the identity. *)
Lemma sdecode_send_side s key bs o s' :
  swf s -> established s key -> sdecode s bs = Ok (o, s') ->
  ServerSession.user_id s' = ServerSession.user_id s /\
  exists e em pid, s = with_send e em pid s /\ s' = with_send e em pid s'.
Proof.
  intros [_ Hs] (p & Hp & Hh & _) Hd. unfold sdecode in Hd. rewrite Hp in *.
  destruct (decryptor s) as [d|]; [|done]. unfold continue in Hd.
  destruct (StreamCipher.process d bs) as [pl d'].
  apply bind_inv_Ok in Hd as ([o1 p1] & Hdec & [= <- <-]).
  unfold decode, after_frames in Hdec. rewrite Hh in Hdec.
  apply bind_inv_Ok in Hdec as ([[o2 i2] r2] & _ & [= <- <-]).
  unfold ServerSession.user_id. cbn. rewrite Hp. split; [done|].
  exists (encryptor s), (send_iv_emitted s), (AuthAes128Md5.pack_id p).
  split; [by rewrite with_send_same|]. unfold with_send. cbn. by destruct p.
Qed.

End Lemmas.

(** ** Properties *)

Import Toy.

(** C34 The directions do not interfere: from a session whose handshake is
    through, any interleaving of received chunks and sent messages delivers
    the payload of the chunks alone and emits the wire bytes of the
    messages alone; an error is the error of the received chunks, and there
    is no panic. *)
Theorem directions_independent `{HL : CryptoLaws} ops s key
    (Hs : swf s) (He : established s key) :
  match outcome (feed (decs ops)) s with
  | Ok (a, _) => exists b s1 s2,
      outcome (send_all (encs ops)) s = Ok (b, s1) /\ outcome (run_io ops) s = Ok ((a, b), s2)
  | Err err => outcome (run_io ops) s = Err err
  | _ => False
  end.
Proof. by apply (run_io_independent ops s key). Qed.

(** A session after the client's first packet. *)
Lemma toy_session :
  exists s, swf s /\ established s (digest [Byte.x70]).
Proof.
  destruct (new_fresh (HL:=crypto_laws) toy_rnd "carrier" toy_users 2 CipherKind.Chacha20Ietf
    (repeat Byte.x0a 12) eq_refl eq_refl) as (enc & _ & Henc).
  destruct (new_stream_ok (HL:=crypto_laws) (E:=error) CipherKind.Chacha20Ietf
    (evp_bytes_to_key (string_bytes "carrier") 32) (ClientCodec.client_iv CipherKind.Chacha20Ietf))
    as [cenc Hc]; [apply length_evp_bytes_to_key|reflexivity|].
  set (mk := evp_bytes_to_key (string_bytes "carrier") 32).
  set (civ := ClientCodec.client_iv CipherKind.Chacha20Ietf).
  destruct (decode_packets (HL:=crypto_laws) mk civ toy_users 2 Byte.x11 42 (repeat Byte.x00 12) []
    [Byte.x01] []) as (p & Hd & Hh & Hb & Hk & _); [lia|done|compute_done|constructor|].
  exists (set_protocol (Some p) (set_decryptor (Some cenc)
    (fresh CipherKind.Chacha20Ietf "carrier" toy_users 2 (repeat Byte.x0a 12) enc))).
  split.
  - split; [apply length_evp_bytes_to_key|]. cbn. split.
    + eapply decode_wf, Hd. apply initial_wf.
    + by eapply decode_settled, Hd.
  - exists p. split_and!; [done|done|]. pose proof (f_equal fst Hk) as Hk1. exact Hk1.
Qed.

Lemma directions_independent_witness :
  exists s : ServerSession.t,
    match outcome (feed (decs [Enc [Byte.x05]; Dec []; Enc [Byte.x06]])) s with
    | Ok (a, _) => exists b s1 s2,
        outcome (send_all (encs [Enc [Byte.x05]; Dec []; Enc [Byte.x06]])) s = Ok (b, s1) /\
        outcome (run_io [Enc [Byte.x05]; Dec []; Enc [Byte.x06]]) s = Ok ((a, b), s2)
    | Err err => outcome (run_io [Enc [Byte.x05]; Dec []; Enc [Byte.x06]]) s = Err err
    | _ => False
    end.
Proof.
  destruct toy_session as (s & Hs & He). exists s.
  exact (directions_independent (HL:=crypto_laws) [Enc [Byte.x05]; Dec []; Enc [Byte.x06]] s _ Hs He).
Defined.
