(* ===== verification/SessionTypes.v ===== *)
(** * The invariant of a session's state

    [typed] says what the fields of a [ServerSession] hold at every moment
    of a connection: key and IV lengths, the cipher's variant, the bounded
    buffers, the range of the packet counters and the agreement of the
    protocol layer's fields with the session's.  [new] establishes it and
    every [decrypt] and [encrypt] preserves it, in any order. *)

From S2P Require Import Prelude Errors Kdf Str Cipher Protocol ProtocolSpec.
From S2P Require Import ProtocolPackets Session SessionSpec Client EndToEnd Interleave.
Import ServerSession.

Definition is_u32 (n : Z) : Prop := (0 <= n < 2 ^ 32)%Z.

Section Code.
Context `{Crypto}.

(** The variant of a stream agrees with the configured cipher. *)
Definition variant (c : StreamCipher) : CipherKind :=
  match c with
  | StreamCipher.Rc4 _ => CipherKind.Rc4Md5
  | StreamCipher.Chacha20 _ => CipherKind.Chacha20Ietf
  end.

(** The key packets are authenticated with: the selected user's, or, with no
    user, the master key or (multi-user mode 2) the connection's IV. *)
Definition identified (p : AuthAes128Md5.t) : Prop :=
  match AuthAes128Md5.user_id p with
  | Some uid => AuthAes128Md5.users p !! uid = Some (AuthAes128Md5.user_key p)
  | None =>
      AuthAes128Md5.user_key p = AuthAes128Md5.master_key p \/
      AuthAes128Md5.is_multi_user p = 2%Z /\
      AuthAes128Md5.user_key p = AuthAes128Md5.recv_iv p
  end.

(** The protocol layer of the session [s]. *)
Record protocol_typed (s : t) (p : AuthAes128Md5.t) : Prop := {
  p_master : AuthAes128Md5.master_key p = master_key s;
  p_users : AuthAes128Md5.users p = users s;
  p_multi : AuthAes128Md5.is_multi_user p = is_multi_user s;
  p_iv : length (AuthAes128Md5.recv_iv p) = CipherKind.iv_len (cipher s);
  p_aes : length (AuthAes128Md5.aes_key p) = 16;
  p_id : identified p;
  p_recv_id : is_u32 (AuthAes128Md5.recv_id p);
  p_pack_id : is_u32 (AuthAes128Md5.pack_id p);
  p_first : AuthAes128Md5.has_recv_header p = false -> AuthAes128Md5.recv_id p = 1%Z;
  p_buf : length (AuthAes128Md5.recv_buf p) < MAX_PACKET
}.

Record typed (s : t) : Prop := {
  t_key : length (master_key s) = CipherKind.key_len (cipher s);
  t_iv : length (send_iv s) = CipherKind.iv_len (cipher s);
  t_enc : variant (encryptor s) = cipher s;
  t_recv : match decryptor s, protocol s with
    | None, None =>
        length (recv_iv_buf s) < CipherKind.iv_len (cipher s) /\ send_iv_emitted s = false
    | Some d, Some p => recv_iv_buf s = [] /\ variant d = cipher s /\ protocol_typed s p
    | _, _ => False
    end
}.

(** What no call assigns. *)
Definition same_setup (s s' : t) : Prop :=
  cipher s' = cipher s /\ master_key s' = master_key s /\ users s' = users s /\
  is_multi_user s' = is_multi_user s /\ send_iv s' = send_iv s.

End Code.

Section Lemmas.
Context `{HL : CryptoLaws}.

(** ** Counters and variants *)

Lemma u32_succ_range n : is_u32 (u32_succ n).
Proof. unfold is_u32, u32_succ. apply Z.mod_pos_bound. lia. Qed.

Lemma id_after_range n id : is_u32 id -> is_u32 (id_after n id).
Proof.
  revert id. induction n as [|n IH]; intros id Hid; [done|]. apply IH, u32_succ_range.
Qed.

Lemma process_variant c data : variant (StreamCipher.process c data).2 = variant c.
Proof.
  destruct c as [c|c]; cbn; [by destruct (Rc4.Rc4Md5_process c data)|
    by destruct (chacha20_apply c data)].
Qed.

Lemma new_stream_variant k mk iv c :
  StreamCipher.new_stream (E:=error) k mk iv = Ok c -> variant c = k.
Proof. by destruct k; cbn; intros (r & _ & [= <-])%bind_inv_Ok. Qed.

(** ** The protocol layer *)

Lemma MAX_PACKET_31 : 31 < MAX_PACKET.
Proof. unfold MAX_PACKET. lia. Qed.

Lemma data_frame_rest key id buf : data_frame key id buf = NeedMore -> length buf < MAX_PACKET.
Proof.
  pose proof MAX_PACKET_31. unfold data_frame. intros Hf. cbv zeta in Hf.
  destruct (Nat.leb_spec (length buf) 4); [lia|].
  destruct (negb (mac_ok _ _ _ _)); [done|].
  destruct (negb (_ && _)) eqn:Hl; [done|].
  apply negb_false_iff, andb_prop in Hl as [_ Hl%Nat.ltb_lt].
  destruct (Nat.ltb_spec (length buf) (u16_at buf 0)); [lia|].
  by repeat case_match.
Qed.

Lemma auth_frame_rest p buf : auth_frame p buf = NeedMore -> length buf < MAX_PACKET.
Proof.
  pose proof MAX_PACKET_31. unfold auth_frame. intros Hf. cbv zeta in Hf.
  destruct (Nat.ltb_spec (length buf) 7); [lia|].
  destruct (negb (mac_ok _ _ _ _)); [done|].
  destruct (Nat.ltb_spec (length buf) 31); [lia|].
  destruct (negb (mac_ok _ _ _ _)); [done|].
  destruct (negb (_ && _)) eqn:Hl; [done|].
  apply negb_false_iff, andb_prop in Hl as [_ Hl%Nat.ltb_lt].
  destruct (Nat.ltb_spec (length buf) (u16_at (auth_head p buf) 12)); [lia|].
  by repeat case_match.
Qed.

Lemma data_frames_typed fuel key id buf out o i r :
  is_u32 id -> data_frames fuel key id buf out = Ok (o, i, r) ->
  is_u32 i /\ length r < MAX_PACKET.
Proof.
  revert id buf out. induction fuel as [|fuel IH]; intros id buf out Hid; [done|]. cbn.
  destruct (data_frame key id buf) as [|e|p n] eqn:Hf; [|done|].
  - intros [= <- <- <-]. split; [done|]. by eapply data_frame_rest.
  - apply IH, u32_succ_range.
Qed.

Lemma selected_typed s u p : protocol_typed s p -> protocol_typed s (selected u p).
Proof.
  intros [Hm Hu Hmu Hiv Ha Hid Hr Hp H1 Hb]. unfold selected.
  destruct (AuthAes128Md5.users p !! u) as [key|] eqn:Hk.
  { split; cbn; try done. apply length_aes_key_of. }
  destruct (Z.eqb_spec (AuthAes128Md5.is_multi_user p) 2) as [H2|]; [|done].
  split; cbn; try done; [apply length_aes_key_of|]. by right.
Qed.

Lemma set_recv_buf_typed s p b :
  protocol_typed s p -> length b < MAX_PACKET ->
  protocol_typed s (AuthAes128Md5.set_recv_buf b p).
Proof. by intros [] ?; split. Qed.

Lemma after_frames_typed s p fuel key id buf out o p' :
  protocol_typed s p -> AuthAes128Md5.has_recv_header p = true -> is_u32 id ->
  after_frames p (data_frames fuel key id buf out) = Ok (o, p') -> protocol_typed s p'.
Proof.
  intros [] Hh Hid. unfold after_frames.
  intros ([[o1 i1] r1] & Hd & [= <- <-])%bind_inv_Ok.
  destruct (data_frames_typed _ _ _ _ _ _ _ _ Hid Hd). split; try done. cbn. by rewrite Hh.
Qed.

Lemma decode_typed s p buf o p' :
  protocol_typed s p -> decode p buf = Ok (o, p') -> protocol_typed s p'.
Proof.
  intros Hp. unfold decode. destruct (AuthAes128Md5.has_recv_header p) eqn:Hh.
  { apply after_frames_typed; [done|done|apply Hp]. }
  destruct (auth_frame p buf) as [|e|q n] eqn:Hf; [|done|].
  - intros [= <- <-]. apply set_recv_buf_typed; [|by eapply auth_frame_rest].
    case_match; [done|]. by apply selected_typed.
  - pose proof (selected_typed s (frame_uid buf) p Hp) as Hs. apply after_frames_typed; [|done|apply Hs].
    by destruct Hs; split.
Qed.

Lemma set_pack_id_typed s p i :
  protocol_typed s p -> is_u32 i -> protocol_typed s (AuthAes128Md5.set_pack_id i p).
Proof. by intros [] ?; split. Qed.

Lemma initial_typed s iv :
  length iv = CipherKind.iv_len (cipher s) ->
  protocol_typed s (initial (master_key s) iv (users s) (is_multi_user s)).
Proof.
  intros Hiv. pose proof MAX_PACKET_31.
  split; try done; [apply length_aes_key_of|by left|cbn; lia].
Qed.

(** ** The session *)

Lemma fresh_typed k password us multi iv enc :
  length iv = CipherKind.iv_len k -> variant enc = k ->
  typed (fresh k password us multi iv enc).
Proof.
  intros Hiv He. split; [apply length_evp_bytes_to_key|done|done|].
  cbn. split; [|done]. destruct k; cbn; lia.
Qed.

Lemma continue_typed s d p bs o s' :
  length (master_key s) = CipherKind.key_len (cipher s) ->
  length (send_iv s) = CipherKind.iv_len (cipher s) -> variant (encryptor s) = cipher s ->
  recv_iv_buf s = [] -> variant d = cipher s -> protocol_typed s p ->
  continue s d p bs = Ok (o, s') -> typed s' /\ same_setup s s'.
Proof.
  intros Hk Hiv He Hb Hd Hp. unfold continue. pose proof (process_variant d bs) as Hv.
  destruct (StreamCipher.process d bs) as [pl d']. cbn in Hv.
  intros ([o1 p1] & Hdec & [= <- <-])%bind_inv_Ok. split; [|done]. split; [done..|]. cbn.
  split_and!; [done|congruence|]. by destruct (decode_typed s p _ _ _ Hp Hdec); split.
Qed.

Lemma sdecode_typed s bs o s' :
  typed s -> sdecode s bs = Ok (o, s') -> typed s' /\ same_setup s s'.
Proof.
  intros [Hk Hiv He Hr]. unfold sdecode.
  destruct (decryptor s) as [d|] eqn:Hd, (protocol s) as [p|] eqn:Hp; try done.
  { destruct Hr as (Hb & Hv & Hpt). by apply continue_typed. }
  destruct Hr as [Hb Hem].
  destruct (Nat.ltb_spec (length (recv_iv_buf s ++ bs)) (CipherKind.iv_len (cipher s))) as [Hl|Hl].
  - intros [= <- <-]. split; [|done]. split; [done..|]. cbn. by rewrite Hd, Hp.
  - intros (d & Hn & Hc)%bind_inv_Ok.
    eapply (continue_typed (set_recv_iv_buf [] s)) in Hc; [done|done..| |].
    + by eapply new_stream_variant.
    + apply (initial_typed (set_recv_iv_buf [] s)). rewrite length_take. cbn. lia.
Qed.

Lemma encrypt_typed s m :
  swf s -> typed s ->
  match outcome (encrypt m) s with
  | Ok (_, s') => swf s' /\ typed s' /\ same_setup s s'
  | Err e => e = EncryptBeforeHandshake /\ protocol s = None
  | _ => False
  end.
Proof.
  intros Hs [Hk Hiv He Hr]. pose proof (encrypt_outcome m s) as Hout.
  destruct (protocol s) as [p|] eqn:Hp; [|by rewrite Hout]. cbv zeta in Hout. rewrite Hout.
  split; [by apply with_send_swf|]. split; [|done].
  destruct (decryptor s) as [d|] eqn:Hd; [|done]. destruct Hr as (Hb & Hv & Hpt).
  unfold sealed. cbn [fst snd]. split; [done..| |].
  - cbn. by rewrite process_variant.
  - cbn. rewrite Hd, Hp. cbn. split_and!; [done|done|].
    destruct (set_pack_id_typed s p (id_after (length (units (S (length m)) m))
      (AuthAes128Md5.pack_id p)) Hpt ltac:(apply id_after_range, Hpt)). by split.
Qed.

Lemma same_setup_trans s1 s2 s3 : same_setup s1 s2 -> same_setup s2 s3 -> same_setup s1 s3.
Proof. unfold same_setup. intuition congruence. Qed.

Lemma run_io_typed ops s :
  swf s -> typed s ->
  safe (fun r => swf r.2 /\ typed r.2 /\ same_setup s r.2) (outcome (run_io ops) s).
Proof.
  revert s. induction ops as [|[c|m] ops IH]; intros s Hs Ht; cbn [run_io]; [done| |].
  - run. rewrite decrypt_outcome by done. pose proof (sdecode_safe s c Hs) as Hsafe.
    destruct (sdecode s c) as [[o s1]| | |] eqn:Hd; [|done..]. run.
    destruct (sdecode_typed s c o s1 Ht Hd) as [Ht1 Hset].
    specialize (IH s1 (sdecode_swf _ _ _ _ Hs Hd) Ht1).
    destruct (outcome (run_io ops) s1) as [[[a b] s2]| | |]; [|done..].
    destruct IH as (? & ? & ?). run. split_and!; [done|done|by eapply same_setup_trans].
  - run. pose proof (encrypt_typed s m Hs Ht) as He.
    destruct (outcome (encrypt m) s) as [[o s1]| | |]; [|done..].
    destruct He as (Hs1 & Ht1 & Hset). run. specialize (IH s1 Hs1 Ht1).
    destruct (outcome (run_io ops) s1) as [[[a b] s2]| | |]; [|done..].
    destruct IH as (? & ? & ?). run. split_and!; [done|done|by eapply same_setup_trans].
Qed.

End Lemmas.

(** ** Properties *)

Import Toy.

(** C14 The state of a session is well typed at every moment of a
    connection: whatever chunks are received and messages sent, in any
    order, from [new] on, no call panics, and as long as none has failed
    the keys and IVs have the lengths of the configured cipher, both streams
    are of its variant, an IV that is not complete yet is buffered below its
    length and dropped afterwards, undecoded bytes stay below the largest
    packet (8192), the two packet counters are 32-bit, the protocol layer
    holds the session's own keys and user table, and its authentication key
    is the one of the user it names; the set-up fields never change. *)
Theorem session_well_typed `{HL : CryptoLaws} rnd password us multi k iv
    (Hr : rnd (CipherKind.iv_len k) = Some iv) (Hiv : length iv = CipherKind.iv_len k) :
  exists s, ServerSession.new rnd password us multi k = Ok s /\ typed s /\
    cipher s = k /\ users s = us /\ is_multi_user s = multi /\
    forall ops, safe (fun r => typed r.2 /\ same_setup s r.2) (outcome (run_io ops) s).
Proof.
  destruct (new_fresh rnd password us multi k iv Hr Hiv) as (enc & Hnew & Henc).
  assert (typed (fresh k password us multi iv enc)) as Ht.
  { apply fresh_typed; [done|]. by eapply new_stream_variant. }
  rewrite Hnew. eexists. split; [done|]. split_and!; [done..|]. intros ops.
  pose proof (run_io_typed ops _ (fresh_swf k password us multi iv enc) Ht) as Hs.
  destruct (outcome (run_io ops) _) as [[w s']| | |]; [|done..]. by destruct Hs as (_ & ? & ?).
Qed.

Lemma session_well_typed_witness :
  exists s, ServerSession.new (H:=crypto) toy_rnd "pw" toy_users 2 CipherKind.Chacha20Ietf = Ok s /\
    typed s /\ cipher s = CipherKind.Chacha20Ietf /\ users s = toy_users /\ is_multi_user s = 2%Z /\
    forall ops, safe (fun r => typed r.2 /\ same_setup s r.2) (outcome (run_io ops) s).
Proof.
  exact (session_well_typed (HL:=crypto_laws) toy_rnd "pw" toy_users 2 CipherKind.Chacha20Ietf
    (repeat Byte.x0a 12) eq_refl eq_refl).
Defined.
