(* ===== verification/TcpSpec.v ===== *)
(** * What a TCP session does, in every environment

    The judgement of a session is its log: which bytes it read on each side,
    which it wrote, what it counted, which targets it tried, which slots it
    held.  The lemmas follow the structure of the code ([handshake],
    [connect_target_checked], [relay], [serve]); the theorems read the log of
    [handle_stream] for every environment of [Task.v]. *)

From S2P Require Import Prelude Errors Kdf Str Cipher Protocol ProtocolSpec.
From S2P Require Import ProtocolPackets Session SessionSpec Client EndToEnd Interleave.
From S2P Require Import Net Address Float Policy RateLimit Traffic Conn RelayAudit Task TcpRelay.
Import ServerSession.

(** ** Reading a log *)

Definition received_of (l : label) : option bytes :=
  match l with Received b => Some b | _ => None end.
Definition sent_remote_of (l : label) : option bytes :=
  match l with SentRemote b => Some b | _ => None end.
Definition sent_client_of (l : label) : option bytes :=
  match l with SentClient b => Some b | _ => None end.
Definition remote_of (l : label) : option bytes :=
  match l with RemoteReceived (b :: bs) => Some (b :: bs) | _ => None end.
Definition counted_of (l : label) : option addition :=
  match l with Counted a => Some a | _ => None end.

(** The bytes read from the client, written to the target, written to the
    client; the non-empty chunks read from the target; the additions. *)
Definition received_bytes (l : list label) : bytes := concat (omap received_of l).
Definition sent_remote (l : list label) : bytes := concat (omap sent_remote_of l).
Definition sent_client (l : list label) : bytes := concat (omap sent_client_of l).
Definition remote_chunks (l : list label) : list bytes := omap remote_of l.
Definition counted (l : list label) : list addition := omap counted_of l.

(** A label of the handshake. *)
Definition is_received (l : label) : Prop := exists b, l = Received b.

(** The guard's labels. *)
Definition is_guard (l : label) : bool :=
  match l with Acquired _ _ _ | Released _ _ => true | _ => false end.

(** The attempts that the forbidden lists allow. *)
Definition attempt_ok (e : EnforcementConfig) (policy : option UserPolicy.t) (target : Address)
    (l : label) : Prop :=
  match l with
  | TriedHost h p =>
      (h, p) = connect_target target /\
      (ec_forbidden e = true -> forall po, policy = Some po ->
        UserPolicy.port_forbidden po p = false /\ UserPolicy.has_forbidden_ip po = false)
  | LookedUp h p _ => (h, p) = connect_target target
  | TriedAddr a =>
      ec_forbidden e = true /\ exists po, policy = Some po /\
        UserPolicy.port_forbidden po (port target) = false /\
        UserPolicy.ip_forbidden po (sa_ip a) = false
  | _ => True
  end.

Lemma omap_snoc {A B} (f : A -> option B) l x :
  omap f (l ++ [x]) = omap f l ++ match f x with Some y => [y] | None => [] end.
Proof. rewrite omap_app. cbn. by destruct (f x). Qed.

(** Push the projections through the last label. *)
Ltac logs :=
  unfold received_bytes, sent_remote, sent_client, remote_chunks, counted in *;
  rewrite ?omap_snoc, ?concat_app in *;
  cbn [received_of sent_remote_of sent_client_of remote_of counted_of concat] in *;
  rewrite ?app_nil_r in *.

Section Session.
Context `{HL : CryptoLaws} `{RE : RegexEngine} `{!Env Await Shared label}.

Abbreviation IO := (ST (task ServerSession.t Shared label) error).
Abbreviation state := (task ServerSession.t Shared label).

Lemma wp_decrypt b (Q : res error bytes -> state -> Prop) s :
  swf (local s) ->
  (forall o t, sdecode (local s) b = Ok (o, t) ->
    Q (Ok o) {| local := t; shared := shared s; log := log s |}) ->
  (forall e t, sdecode (local s) b = Err e ->
    Q (Err e) {| local := t; shared := shared s; log := log s |}) ->
  wp (on_local (decrypt b)) Q s.
Proof.
  intros Hs Hok Herr. apply wp_on_local, wp_outcome. rewrite decrypt_outcome by done.
  pose proof (sdecode_safe (local s) b Hs) as Hsafe.
  destruct (sdecode (local s) b) as [[o t]|e| |]; [by apply Hok|intros; by apply Herr|done|done].
Qed.

Lemma wp_received r l (Q : res error bytes -> state -> Prop) s :
  (forall b, r = ReadOk b -> Q (Ok b) {| local := local s; shared := shared s; log := log s ++ [l b] |}) ->
  Q (Err ReadFailed) s -> wp (received r l) Q s.
Proof. intros H1 H2. destruct r as [b|]; [by apply (H1 b)|done]. Qed.

Lemma send_all_snoc msgs m s w t :
  outcome (send_all msgs) s = Ok (w, t) ->
  outcome (send_all (msgs ++ [m])) s = ('(w', t') ← outcome (encrypt m) t; Ok (w ++ w', t')).
Proof.
  revert s w. induction msgs as [|x msgs IH]; intros s w; cbn [send_all app].
  - intros [= <- <-]. run. destruct (outcome (encrypt m) s) as [[w' t']| | |]; [|done..].
    run. by rewrite app_nil_r.
  - run. destruct (outcome (encrypt x) s) as [[w1 s1]| | |]; [|done..]. run.
    destruct (outcome (send_all msgs) s1) as [[w2 s2]| | |] eqn:Hs; [|done..]. run.
    intros [= <- <-]. rewrite (IH s1 w2 Hs).
    destruct (outcome (encrypt m) s2) as [[w' t']| | |]; [|done..]. run. by rewrite app_assoc.
Qed.

(** ** The handshake *)

(** The handshake decoded [payload] so far, and it holds no header. *)
Definition no_header (payload : bytes) : Prop := forall a, parse payload <> Ok (Some a).

(** The header is complete: [target], and the payload from [n] on. *)
Definition opened (s0 : ServerSession.t) (l : list label) (t : ServerSession.t)
    (target : Address) (n : nat) (payload : bytes) : Prop :=
  sdecode s0 (received_bytes l) = Ok (payload, t) /\ parse payload = Ok (Some (target, n)).

(** What was read does not decode, or not to a complete header. *)
Definition unopened (s0 : ServerSession.t) (l : list label) : Prop :=
  forall t target n payload, ~ opened s0 l t target n payload.

(** Closed before the header was complete. *)
Definition closed_early (s0 : ServerSession.t) (l : list label) : Prop :=
  Forall is_received l /\
  (exists up payload s1, up `prefix_of` received_bytes l /\ sdecode s0 up = Ok (payload, s1) /\
    no_header payload) /\
  unopened s0 l.

Lemma received_only l : Forall is_received l ->
  sent_remote l = [] /\ sent_client l = [] /\ remote_chunks l = [] /\ counted l = [].
Proof.
  unfold sent_remote, sent_client, remote_chunks, counted.
  induction 1 as [|x l [b ->] _ IH]; [done|]. cbn. naive_solver.
Qed.

Lemma parse_never_panics buf : safe (fun _ => True) (parse buf).
Proof. rewrite parse_eq. unfold parse_spec. repeat case_match; done. Qed.

Lemma received_snoc l b : received_bytes (l ++ [Received b]) = received_bytes l ++ b.
Proof. by logs. Qed.

(** The handshake so far: [app] is decoded, without a complete header. *)
Definition handshaking (s0 : ServerSession.t) (app : bytes) (s : state) : Prop :=
  Forall is_received (log s) /\ sdecode s0 (received_bytes (log s)) = Ok (app, local s) /\
  parse app = Ok None.

Lemma sdecode_snoc s0 l app t b o t' :
  swf s0 -> sdecode s0 (received_bytes l) = Ok (app, t) -> sdecode t b = Ok (o, t') ->
  sdecode s0 (received_bytes (l ++ [Received b])) = Ok (app ++ o, t').
Proof. intros Hs Hd Ho. by rewrite received_snoc, sdecode_app, Hd, bind_Ok, Ho. Qed.

Lemma handshaking_closed s0 app s : handshaking s0 app s -> closed_early s0 (log s).
Proof.
  intros (Hl & Hd & Hp). split_and!; [done| |].
  - exists (received_bytes (log s)), app, (local s). split_and!; [done|done|intros a; by rewrite Hp].
  - intros t target n payload [Hd' Hp']. congruence.
Qed.

(** Nothing more to read, or nothing that decodes. *)
Lemma handshaking_closed_by s0 app s b :
  swf s0 -> handshaking s0 app s -> b = [] \/ (exists e, sdecode (local s) b = Err e) ->
  closed_early s0 (log s ++ [Received b]).
Proof.
  intros Hs0 Hh Hb. pose proof (handshaking_closed s0 app s Hh) as (_ & Hup & Hun).
  destruct Hh as (Hl & Hd & Hp). split_and!.
  - apply Forall_app. split; [done|by repeat econstructor].
  - destruct Hup as (up & payload & s1 & Hpre & Hrest). exists up, payload, s1. split; [|done].
    rewrite received_snoc. by apply prefix_app_r.
  - destruct Hb as [->|[e He]].
    + unfold unopened, opened in *. by rewrite received_snoc, app_nil_r.
    + intros t target n payload [Hd' _]. by rewrite received_snoc, sdecode_app, Hd, bind_Ok, He in Hd'.
Qed.

Lemma handshake_wp fuel s0 app pre s (Q : res error (option (Address * bytes * Z)) -> state -> Prop) :
  swf s0 -> handshaking s0 app s ->
  pre = Z.min (Z.of_nat (length (received_bytes (log s)))) U64_MAX ->
  (forall r s', closed_early s0 (log s') -> (forall h, r <> Ok (Some h)) -> r <> Panic -> Q r s') ->
  (forall target n payload s', Forall is_received (log s') ->
    opened s0 (log s') (local s') target n payload -> payload <> [] ->
    Q (Ok (Some (target, drop n payload,
      Z.min (Z.of_nat (length (received_bytes (log s')))) U64_MAX))) s') ->
  wp (handshake fuel app pre) Q s.
Proof.
  intros Hs0. revert app pre s.
  induction fuel as [|fuel IH]; intros app pre s Hh Hpre Hearly Hopen; cbn [handshake].
  all: pose proof (handshaking_closed s0 app s Hh) as Hc.
  { by apply Hearly. }
  wp_run; [|by apply Hearly]. destruct x as [r|]; [|by apply Hearly].
  apply wp_bind, wp_received; [intros b ->|by apply Hearly]. cbn [then_ local shared log].
  pose proof (handshaking_closed_by s0 app s b Hs0 Hh) as Hcb.
  destruct (Nat.eqb_spec (length b) 0) as [Hb0%nil_length_inv|_]; [by apply Hearly; [apply Hcb; left|..]|].
  destruct Hh as (Hl & Hd & Hp).
  assert (Forall is_received (log s ++ [Received b])) as Hl'
    by (apply Forall_app; split; [done|by repeat econstructor]).
  apply wp_bind, wp_decrypt; cbn [local shared log then_].
  { by eapply sdecode_swf. }
  2:{ intros e t He. by apply Hearly; [apply Hcb; right; exists e|..]. }
  intros o t Ho. pose proof (sdecode_snoc _ _ _ _ _ _ _ Hs0 Hd Ho) as Hd'.
  assert (Z.min (pre + Z.of_nat (length b)) U64_MAX =
    Z.min (Z.of_nat (length (received_bytes (log s ++ [Received b])))) U64_MAX) as Hpre'.
  { rewrite Hpre, received_snoc, length_app. unfold U64_MAX. lia. }
  destruct o as [|o0 o]; cbn [length Nat.eqb].
  { rewrite app_nil_r in Hd'. by apply IH. }
  set (o' := o0 :: o) in *. wp_run.
  pose proof (parse_never_panics (app ++ o')) as Hsafe.
  destruct (parse (app ++ o')) as [[[target n]|]|e| |] eqn:Hpa; cbn [then_]; [| | |done..].
  - pose proof (parse_consumed _ _ _ Hpa) as Hn. rewrite slice_from_ok by lia. wp_run.
    rewrite Hpre'.
    match goal with |- Q _ ?s' => apply (Hopen target n (app ++ o') s') end; [done|done|].
    by intros [_ ?]%app_nil.
  - unfold bail_if. case_match; wp_run; [|by apply IH]. apply Hearly; [|done..].
    by apply (handshaking_closed s0 (app ++ o') {| local := t; shared := sh; log := log s ++ [Received b] |}).
  - apply Hearly; [|done..]. split_and!; [done| |].
    + exists (received_bytes (log s ++ [Received b])), (app ++ o'), t. split_and!; [done|done|].
      intros a. by rewrite Hpa.
    + intros t' target n payload [Hd2 Hp2]. cbn [log] in Hd2. rewrite Hd' in Hd2. injection Hd2 as <- <-. by rewrite Hpa in Hp2.
Qed.

(** ** The flow of data behind the handshake

    [flow l t rest wrest]: the session decoded all it read, sent the target
    all of the payload behind the header but [rest], and sent the client all
    the wire bytes of the chunks it read from the target but [wrest]; the
    codec's state is [t]. *)

Section Flow.
Context (s0 : ServerSession.t) (Hs0 : swf s0) (target : Address) (n loc : nat) (uid : option Z).

(** Every byte read is counted as upload (up to the saturation of the
    handshake's [u64] count), every wire byte as download. *)
Definition accounted (l : list label) (wire : bytes) : Prop :=
  Forall (fun a => add_loc a = loc) (counted l) /\
  ((Z.of_nat (length (received_bytes l)) <= U64_MAX)%Z ->
    total true loc (counted l) = Z.of_nat (length (received_bytes l))) /\
  total false loc (counted l) = Z.of_nat (length wire).

Definition flow (l : list label) (t : ServerSession.t) (rest wrest : bytes) : Prop :=
  exists payload s1 key wire,
    sdecode s0 (received_bytes l) = Ok (payload, s1) /\ parse payload = Ok (Some (target, n)) /\
    established s1 key /\ ServerSession.user_id s1 = uid /\
    (exists e em pid, t = with_send e em pid s1) /\
    outcome (send_all (remote_chunks l)) s1 = Ok (wire, t) /\
    sent_remote l ++ rest = drop n payload /\ sent_client l ++ wrest = wire /\
    accounted l wire.

(** What remains true when the session ends in the middle of something. *)
Definition carried (l : list label) : Prop :=
  exists up payload s1 wire s2,
    up `prefix_of` received_bytes l /\ sdecode s0 up = Ok (payload, s1) /\
    parse payload = Ok (Some (target, n)) /\ ServerSession.user_id s1 = uid /\
    sent_remote l `prefix_of` drop n payload /\
    outcome (send_all (remote_chunks l)) s1 = Ok (wire, s2) /\ sent_client l `prefix_of` wire /\
    accounted l wire.

Lemma flow_carried l t rest wrest : flow l t rest wrest -> carried l.
Proof.
  intros (payload & s1 & key & wire & Hd & Hp & He & Hu & _ & Hsend & Hr & Hw & Ha).
  exists (received_bytes l), payload, s1, wire, t.
  split_and!; try done; [by exists rest|by exists wrest].
Qed.

(** A label that says nothing about the data. *)
Definition silent (x : label) : Prop :=
  received_of x = None /\ sent_remote_of x = None /\ sent_client_of x = None /\
  remote_of x = None /\ counted_of x = None.

Lemma silent_logs l x : silent x ->
  received_bytes (l ++ [x]) = received_bytes l /\ sent_remote (l ++ [x]) = sent_remote l /\
  sent_client (l ++ [x]) = sent_client l /\ remote_chunks (l ++ [x]) = remote_chunks l /\
  counted (l ++ [x]) = counted l.
Proof.
  intros (H1 & H2 & H3 & H4 & H5).
  unfold received_bytes, sent_remote, sent_client, remote_chunks, counted.
  by rewrite !omap_snoc, H1, H2, H3, H4, H5, !app_nil_r.
Qed.

Lemma flow_silent l t rest wrest x :
  silent x -> flow l t rest wrest -> flow (l ++ [x]) t rest wrest.
Proof.
  intros Hx. destruct (silent_logs l x Hx) as (H1 & H2 & H3 & H4 & H5).
  unfold flow, accounted. by rewrite H1, H2, H3, H4, H5.
Qed.

Lemma carried_silent l x : silent x -> carried l -> carried (l ++ [x]).
Proof.
  intros Hx. destruct (silent_logs l x Hx) as (H1 & H2 & H3 & H4 & H5).
  unfold carried, accounted. by rewrite H1, H2, H3, H4, H5.
Qed.

Lemma flow_silents l t rest wrest ext :
  Forall silent ext -> flow l t rest wrest -> flow (l ++ ext) t rest wrest.
Proof.
  intros He. revert l. induction He as [|x ext Hx _ IH]; intros l Hf; [by rewrite app_nil_r|].
  change (x :: ext) with ([x] ++ ext). rewrite app_assoc. by apply IH, flow_silent.
Qed.

Lemma flow_sent_remote l t a rest wrest :
  flow l t (a ++ rest) wrest -> flow (l ++ [SentRemote a]) t rest wrest.
Proof.
  intros (payload & s1 & key & wire & Hd & Hp & He & Hu & Ht & Hsend & Hr & Hw & Ha).
  exists payload, s1, key, wire. unfold accounted in *. logs. rewrite <- app_assoc.
  by split_and!; try apply Ha.
Qed.

Lemma flow_sent_client l t a rest wrest :
  flow l t rest (a ++ wrest) -> flow (l ++ [SentClient a]) t rest wrest.
Proof.
  intros (payload & s1 & key & wire & Hd & Hp & He & Hu & Ht & Hsend & Hr & Hw & Ha).
  exists payload, s1, key, wire. unfold accounted in *. logs. rewrite <- app_assoc.
  by split_and!; try apply Ha.
Qed.

Definition upload (k : nat) : label := Counted {| add_loc := loc; add_up := true; add_bytes := k |}.
Definition download (k : nat) : label := Counted {| add_loc := loc; add_up := false; add_bytes := k |}.

Lemma accounted_upload l wire b :
  accounted l wire -> accounted ((l ++ [Received b]) ++ [upload (length b)]) wire.
Proof.
  intros (Hl & Hu & Hd). unfold accounted, upload. logs. rewrite !total_app, length_app.
  cbn [total]. unfold counts. cbn [add_loc add_up add_bytes].
  rewrite Nat.eqb_refl. cbn [Bool.eqb andb]. split_and!; [|lia|lia].
  apply Forall_app. split; [done|]. by constructor.
Qed.

Lemma accounted_download l wire m w :
  m <> [] -> accounted l wire ->
  accounted ((l ++ [RemoteReceived m]) ++ [download (length w)]) (wire ++ w).
Proof.
  intros Hm (Hl & Hu & Hd). destruct m as [|x m]; [done|]. unfold accounted, download. logs.
  rewrite !total_app, length_app. cbn [total]. unfold counts. cbn [add_loc add_up add_bytes]. rewrite Nat.eqb_refl. cbn [Bool.eqb andb].
  split_and!; [|lia|lia]. apply Forall_app. split; [done|]. by constructor.
Qed.

Lemma upload_logs l b :
  received_bytes ((l ++ [Received b]) ++ [upload (length b)]) = received_bytes l ++ b /\
  sent_remote ((l ++ [Received b]) ++ [upload (length b)]) = sent_remote l /\
  sent_client ((l ++ [Received b]) ++ [upload (length b)]) = sent_client l /\
  remote_chunks ((l ++ [Received b]) ++ [upload (length b)]) = remote_chunks l.
Proof. unfold upload. by logs. Qed.

Lemma download_logs l m k : m <> [] ->
  received_bytes ((l ++ [RemoteReceived m]) ++ [download k]) = received_bytes l /\
  sent_remote ((l ++ [RemoteReceived m]) ++ [download k]) = sent_remote l /\
  sent_client ((l ++ [RemoteReceived m]) ++ [download k]) = sent_client l /\
  remote_chunks ((l ++ [RemoteReceived m]) ++ [download k]) = remote_chunks l ++ [m].
Proof. destruct m as [|x m]; [done|]. unfold download. by logs. Qed.

(** The session's state in a flow decodes further chunks. *)
Lemma flow_sdecode l t rest wrest b :
  flow l t rest wrest ->
  swf t /\
  match sdecode t b with
  | Ok (o, t') => flow ((l ++ [Received b]) ++ [upload (length b)]) t' (rest ++ o) wrest
  | Err _ => carried ((l ++ [Received b]) ++ [upload (length b)])
  | _ => False
  end.
Proof.
  intros Hf. pose proof Hf as
    (payload & s1 & key & wire & Hd & Hp & He & Hu & (e & em & pid & ->) & Hsend & Hr & Hw & Ha).
  assert (Hs1 : swf s1) by by eapply sdecode_swf.
  split; [by eapply with_send_swf|].
  rewrite (sdecode_with_send e em pid s1 key) by done.
  pose proof (sdecode_safe s1 b Hs1) as Hsafe.
  destruct (upload_logs l b) as (Hl1 & Hl2 & Hl3 & Hl4).
  pose proof (accounted_upload l wire b Ha) as Ha'.
  destruct (sdecode s1 b) as [[o s2]|e1| |] eqn:Hb; [|cbn|done..].
  - rewrite bind_Ok.
    destruct (sdecode_established s1 key b o s2 Hs1 He Hb) as (Hs2 & He2 & Hiv).
    destruct (sdecode_send_side s1 key b o s2 Hs1 He Hb) as (Hu2 & e0 & em0 & pid0 & H1 & H2).
    destruct (send_all_with_send (remote_chunks l) e0 em0 pid0 s1 s2 key He He2 ltac:(done))
      as (w & e' & em' & pid' & Hw1 & Hw2).
    rewrite <- H1, Hsend in Hw1. rewrite <- H2 in Hw2.
    destruct (with_send_inj _ _ _ _ _ _ _ _ _ _ He Hw1) as (<- & <- & <- & <-).
    exists (payload ++ o), s2, key, wire. rewrite Hl1, Hl2, Hl3, Hl4. split_and!; try done.
    + by rewrite sdecode_app, Hd, bind_Ok, Hb.
    + by rewrite parse_app by by rewrite Hp.
    + congruence.
    + by exists e, em, pid.
    + rewrite app_assoc, Hr, drop_app_le; [done|]. apply (parse_consumed _ _ _ Hp).
  - destruct (flow_carried _ _ _ _ Hf) as (up & pl & s1' & w & s2 & Hc1 & Hc2 & Hc3 & Hcu & Hc4 & Hc5 & Hc6 & Hc7).
    exists (received_bytes l), payload, s1, wire, (with_send e em pid s1).
    rewrite Hl1, Hl2, Hl3, Hl4. split_and!; try done; [by exists b|by exists rest|by exists wrest].
Qed.

Lemma flow_encrypt l t rest wrest m :
  m <> [] -> flow l t rest wrest ->
  exists w t', outcome (encrypt m) t = Ok (w, t') /\
    flow ((l ++ [RemoteReceived m]) ++ [download (length w)]) t' rest (wrest ++ w).
Proof.
  intros Hm
    (payload & s1 & key & wire & Hd & Hp & He & Hu & (e & em & pid & ->) & Hsend & Hr & Hw & Ha).
  pose proof (encrypt_with_send e em pid s1 key m He) as Henc. cbv zeta in Henc.
  set (r := sealed _ _ _ _ _ _) in Henc.
  exists r.1.1, (with_send r.1.2 true r.2 s1). split; [done|].
  destruct (download_logs l m (length r.1.1) Hm) as (Hl1 & Hl2 & Hl3 & Hl4).
  exists payload, s1, key, (wire ++ r.1.1). rewrite Hl1, Hl2, Hl3, Hl4. split_and!; try done.
  - by exists r.1.2, true, r.2.
  - by rewrite (send_all_snoc _ _ _ _ _ Hsend), Henc.
  - by rewrite app_assoc, Hw.
  - by apply accounted_download.
Qed.

(** ** The operations of the relay *)

(** An end of the session that is not the regular one. *)
Definition broken {A} (r : res error A) : Prop := forall a, r <> Ok a.

Lemma wp_limit fuel limiter k rest wrest (Q : res error () -> state -> Prop) s :
  flow (log s) (local s) rest wrest ->
  (forall s', flow (log s') (local s') rest wrest -> Q (Ok ()) s') ->
  (forall r s', carried (log s') -> broken r -> Q r s') ->
  wp (limit fuel limiter k) Q s.
Proof.
  intros Hf Hok Hend. destruct limiter as [l|]; cbn [limit]; [|by wp_run; apply Hok].
  revert s Hf. induction fuel as [|fuel IH]; intros s Hf; cbn [acquire_tokens];
    pose proof (flow_carried _ _ _ _ Hf) as Hc; [by apply Hend|].
  wp_run; [|by apply Hend]. destruct (limiter_round _ _ _ _).1 as [v|e| |]; cbn [then_]; try by apply Hend.
  wp_run. match goal with |- wp _ _ ?s1 => assert (Hf' : flow (log s1) (local s1) rest wrest) by by apply flow_silent end.
  destruct v as [|wait]; wp_run; [by apply Hok|by apply IH|]. apply Hend; [|done]. by eapply flow_carried.
Qed.

Lemma wp_written_remote w b wrest timeout (Q : res error () -> state -> Prop) s :
  flow (log s) (local s) b wrest ->
  (forall s', flow (log s') (local s') [] wrest -> Q (Ok ()) s') ->
  (forall r s', carried (log s') -> broken r -> Q r s') ->
  wp (written w b SentRemote timeout) Q s.
Proof.
  intros Hf Hok Hend. destruct w as [|k|k]; cbn [written]; wp_run.
  - apply Hok. cbn. apply flow_sent_remote. by rewrite app_nil_r.
  - apply Hend; [|done]. cbn. eapply flow_carried, flow_sent_remote. by rewrite (take_drop k b).
  - apply Hend; [|done]. cbn. eapply flow_carried, flow_sent_remote. by rewrite (take_drop k b).
Qed.

Lemma wp_write_remote b wrest (Q : res error () -> state -> Prop) s :
  flow (log s) (local s) b wrest ->
  (forall s', flow (log s') (local s') [] wrest -> Q (Ok ()) s') ->
  (forall r s', carried (log s') -> broken r -> Q r s') ->
  wp (write_remote b) Q s.
Proof.
  intros Hf Hok Hend. unfold write_remote. wp_run.
  - by eapply wp_written_remote.
  - apply Hend; [by eapply flow_carried|done].
Qed.

Lemma wp_write_initial b wrest (Q : res error () -> state -> Prop) s :
  flow (log s) (local s) b wrest ->
  (forall s', flow (log s') (local s') [] wrest -> Q (Ok ()) s') ->
  (forall r s', carried (log s') -> broken r -> Q r s') ->
  wp (write_initial b) Q s.
Proof.
  intros Hf Hok Hend. unfold write_initial. wp_run.
  - by eapply wp_written_remote.
  - apply Hend; [by eapply flow_carried|done].
Qed.

Lemma wp_write_client b rest (Q : res error () -> state -> Prop) s :
  flow (log s) (local s) rest b ->
  (forall s', flow (log s') (local s') rest [] -> Q (Ok ()) s') ->
  (forall r s', carried (log s') -> broken r -> Q r s') ->
  wp (write_client b) Q s.
Proof.
  intros Hf Hok Hend. unfold write_client. wp_run; [|apply Hend; [by eapply flow_carried|done]].
  destruct x as [|k|k]; cbn [written]; wp_run.
  - apply Hok. cbn. apply flow_sent_client. by rewrite app_nil_r.
  - apply Hend; [|done]. cbn. eapply flow_carried, flow_sent_client. by rewrite (take_drop k b).
  - apply Hend; [|done]. cbn. eapply flow_carried, flow_sent_client. by rewrite (take_drop k b).
Qed.

(** An upload to the target, or nothing. *)
Lemma wp_forward fuel limiter b wrest (m : IO ()) (Q : res error () -> state -> Prop) s :
  flow (log s) (local s) b wrest ->
  (forall s' (R : res error () -> state -> Prop), flow (log s') (local s') b wrest ->
    (forall s', flow (log s') (local s') [] wrest -> R (Ok ()) s') ->
    (forall r s', carried (log s') -> broken r -> R r s') -> wp m R s') ->
  (forall s', flow (log s') (local s') [] wrest -> Q (Ok ()) s') ->
  (forall r s', carried (log s') -> broken r -> Q r s') ->
  wp (if length b =? 0 then mret () else limit fuel limiter (length b);; m) Q s.
Proof.
  intros Hf Hm Hok Hend. destruct b as [|x b]; cbn [length Nat.eqb]; [by wp_run; apply Hok|].
  apply wp_bind. apply (wp_limit _ _ _ (x :: b) wrest); [done| |]; cbn [then_].
  - intros s' Hf'. by apply Hm.
  - intros r s' Hc Hb. destruct r; [by destruct (Hb a)|by apply Hend..].
Qed.

Lemma relay_wp fuel limiter (Q : res error () -> state -> Prop) s :
  flow (log s) (local s) [] [] ->
  (forall s', flow (log s') (local s') [] [] -> Q (Ok ()) s') ->
  (forall r s', carried (log s') -> broken r -> Q r s') ->
  wp (relay fuel loc limiter) Q s.
Proof.
  intros Hf Hok Hend. revert s Hf. induction fuel as [|fuel IH]; intros s Hf; cbn [relay].
  { apply Hend; [by eapply flow_carried|done]. }
  wp_run; [|apply Hend; [by eapply flow_carried|done]].
  pose proof (flow_carried _ _ _ _ Hf) as Hc.
  destruct x as [|r|r]; [by apply Hend|apply wp_bind, wp_received; [intros b ->|by apply Hend]..];
    cbn [then_ local shared log].
  - destruct b as [|x b']; cbn [length Nat.eqb]; [apply Hok; cbn; revert Hf|].
    { unfold flow, accounted. by logs. }
    set (b := x :: b'). change (S (length b')) with (length b).
    unfold count. wp_run. cbn [local shared log].
    destruct (flow_sdecode (log s) (local s) [] [] b Hf) as [Hsw Hdec].
    apply wp_decrypt; cbn [local shared log then_]; [done| |].
    + intros o t Ho. rewrite Ho in Hdec. apply wp_bind.
      apply (wp_forward _ _ o []); [done|by intros; eapply wp_write_remote| |]; cbn [then_].
      * intros s' Hf'. by apply IH.
      * intros r s' Hc' Hb. destruct r; [by destruct (Hb a)|by apply Hend..].
    + intros e t He. rewrite He in Hdec. by apply Hend.
  - destruct b as [|x b']; cbn [length Nat.eqb]; [apply Hok; cbn; revert Hf|].
    { unfold flow, accounted. by logs. }
    set (b := x :: b').
    destruct (flow_encrypt (log s) (local s) [] [] b ltac:(done) Hf) as (w & t' & Henc & Hf').
    apply wp_bind, wp_on_local, wp_outcome. cbn [local shared log]. rewrite Henc. cbn [then_].
    unfold count. wp_run. cbn [local shared log].
    apply (wp_limit _ _ _ [] w); [done| |]; cbn [then_].
    + intros s' Hs'. apply wp_bind, (wp_write_client w []); [done| |]; cbn [then_].
      * intros s2 Hs2. by apply IH.
      * intros r s2 Hc2 Hb. destruct r; [by destruct (Hb a)|by apply Hend..].
    + intros r s' Hc' Hb. destruct r; [by destruct (Hb a)|by apply Hend..].
Qed.

End Flow.

(** Labels of the data transfer, of the connection. *)
Definition transfer (l : label) : Prop :=
  match l with
  | Received _ | RemoteReceived _ | SentRemote _ | SentClient _ | Counted _ | Asked _ _ _ _ => True
  | _ => False
  end.

Lemma limit_emits fuel limiter k : emits transfer (limit fuel limiter k).
Proof.
  destruct limiter as [l|]; cbn [limit]; [|emits_step].
  induction fuel as [|fuel IH]; cbn [acquire_tokens]; repeat (emits_step || exact IH); done.
Qed.

Lemma relay_emits fuel loc limiter : emits transfer (relay fuel loc limiter).
Proof.
  induction fuel as [|fuel IH]; cbn [relay];
    unfold received, count, write_remote, write_client, written;
    repeat (apply limit_emits || emits_step || exact IH); done.
Qed.

Definition attempt (e : EnforcementConfig) (policy : option UserPolicy.t) (target : Address)
    (l : label) : Prop :=
  match l with
  | TriedHost _ _ | LookedUp _ _ _ | TriedAddr _ => attempt_ok e policy target l
  | _ => False
  end.

Lemma attempt_silent e policy target l : attempt e policy target l -> silent l.
Proof. by destruct l. Qed.

Lemma connect_first_wp (P : label -> Prop) allowed (Q : res error () -> state -> Prop) s :
  Forall (fun a => P (TriedAddr a)) allowed ->
  (forall r s' ext, local s' = local s -> log s' = log s ++ ext -> Forall P ext ->
    r <> Panic -> Q r s') ->
  wp (connect_first allowed) Q s.
Proof.
  intros Ha. revert s. induction Ha as [|a allowed Ha _ IH]; intros s HQ; cbn [connect_first].
  { by apply (HQ _ _ []); [|rewrite app_nil_r|..]. }
  wp_run; [|by apply (HQ _ _ []); [|rewrite app_nil_r|..]].
  destruct x; wp_run.
  { by apply (HQ _ _ [TriedAddr a]); [| |constructor|]. }
  apply IH. cbn. intros r s' ext Hl Hlog HP Hr. apply (HQ _ _ (TriedAddr a :: ext)); [done| | |done].
  - rewrite Hlog. by rewrite <- app_assoc.
  - by constructor.
Qed.

Lemma connect_wp target policy e (Q : res error () -> state -> Prop) s :
  (forall r s' ext, local s' = local s -> log s' = log s ++ ext ->
    Forall (attempt e policy target) ext -> r <> Panic -> Q r s') ->
  wp (connect_target_checked target policy e) Q s.
Proof.
  intros HQ. assert (Hnil : forall r : res error (), r <> Panic -> Q r s).
  { intros r Hr. by apply (HQ _ _ []); [|rewrite app_nil_r|..]. }
  unfold connect_target_checked, connect_target. wp_run. unfold bail_if.
  destruct (ec_forbidden e && match policy with
    | Some p => UserPolicy.port_forbidden p (port target) | None => false end) eqn:Hport; wp_run;
    [by apply Hnil|].
  destruct (ec_forbidden e && match policy with Some p => UserPolicy.has_forbidden_ip p | None => false end)
    eqn:Hip; cbn [negb].
  - wp_run. apply andb_true_iff in Hip as [He Hip]. destruct policy as [po|]; [|done].
    rewrite He in Hport. cbn [andb] in Hport. cbn [expect]. wp_run; [|by apply Hnil].
    set (look := LookedUp (host target) (port target) x).
    assert (attempt e (Some po) target look) as Hlook by done.
    destruct x as [resolved|]; wp_run; [|by apply (HQ _ _ [look]); [| |constructor|]].
    destruct (length resolved =? 0); wp_run; [by apply (HQ _ _ [look]); [| |constructor|]|].
    destruct (length (base.filter _ resolved) =? 0); wp_run;
      [by apply (HQ _ _ [look]); [| |constructor|]|].
    apply (connect_first_wp (attempt e (Some po) target)).
    + apply Forall_forall. intros a [Ha _]%list_elem_of_filter. split; [done|]. by exists po.
    + cbn. intros r s' ext Hl Hlog HP Hr. apply (HQ _ _ (look :: ext)); [done| | |done].
      * rewrite Hlog. by rewrite <- app_assoc.
      * by constructor.
  - assert (attempt e policy target (TriedHost (host target) (port target))) as Hat.
    { split; [done|]. intros He po ->. rewrite He in *. by cbn [andb] in *. }
    wp_run; [|by apply Hnil].
    destruct x; wp_run; by apply (HQ _ _ [TriedHost (host target) (port target)]); [| |constructor|].
Qed.

(** ** The session behind the handshake *)

Section Serve.
Context (s0 : ServerSession.t) (Hs0 : swf s0).

(** What [serve] leaves: the labels it added, and a regular end exactly
    when both sides were shut down. *)
Definition served_log (e : EnforcementConfig) (policy : option UserPolicy.t) (target : Address)
    (n loc : nat) (u : option Z) (l0 : list label) (r : res error ()) (s' : state) : Prop :=
  carried s0 target n loc u (log s') /\
  exists ext, log s' = l0 ++ ext /\
    Forall (fun l => transfer l \/ attempt e policy target l \/ l = Closed) ext /\
    (Closed ∈ ext -> flow s0 target n loc u (log s') (local s') [] []) /\
    (r = Ok () -> Closed ∈ ext).

Lemma served_broken e policy target n loc u l0 ext r s' :
  carried s0 target n loc u (log s') -> r <> Ok () -> log s' = l0 ++ ext ->
  Forall (fun l => transfer l \/ attempt e policy target l) ext ->
  served_log e policy target n loc u l0 r s'.
Proof.
  intros Hc Hr Hl Hext. split; [done|]. exists ext. split_and!; try done.
  - eapply Forall_impl; [done|]. naive_solver.
  - intros Hin. rewrite Forall_forall in Hext. by destruct (Hext _ Hin).
Qed.

Lemma Forall_either {A} (P P' Q : A -> Prop) l :
  Forall P l -> (forall x, P x -> Q x \/ P' x) -> Forall (fun x => Q x \/ P' x) l.
Proof. intros Hl HP. eapply Forall_impl; [exact Hl|]. auto. Qed.

(** A phase of [serve] that only transfers: it carries on with both buffers
    empty, or the session breaks. *)
Lemma served_phase e policy target n loc u l0 ext0 (m : IO ()) (k : () -> IO ()) s :
  emits transfer m ->
  wp m (fun r s' => (r = Ok () /\ flow s0 target n loc u (log s') (local s') [] []) \/
    (broken r /\ carried s0 target n loc u (log s'))) s ->
  log s = l0 ++ ext0 -> Forall (fun l => transfer l \/ attempt e policy target l) ext0 ->
  (forall s' ext, flow s0 target n loc u (log s') (local s') [] [] -> log s' = l0 ++ ext ->
    Forall (fun l => transfer l \/ attempt e policy target l) ext ->
    wp (k ()) (served_log e policy target n loc u l0) s') ->
  wp (mbind k m) (served_log e policy target n loc u l0) s.
Proof.
  intros Hem Hm Hl0 He0 Hk. apply wp_bind. eapply (wp_both transfer); [exact Hem|exact Hm|].
  intros r s' ext Hq Hlog He.
  assert (Hl : log s' = l0 ++ (ext0 ++ ext)) by by rewrite Hlog, Hl0, app_assoc.
  assert (Hext : Forall (fun l => transfer l \/ attempt e policy target l) (ext0 ++ ext))
    by (apply Forall_app; split; [done|by eapply Forall_either; [|left]]).
  destruct Hq as [[-> Hf]|[Hb Hc]]; cbn [then_]; [by eapply Hk|].
  destruct r as [[]|er| |]; [by destruct (Hb ())|by eapply served_broken..].
Qed.

(** The end of [serve]: both sides are shut down, or one fails to. *)
Lemma served_closed e policy target n loc u l0 ext s :
  flow s0 target n loc u (log s) (local s) [] [] -> log s = l0 ++ ext ->
  Forall (fun l => transfer l \/ attempt e policy target l) ext ->
  wp (await ShutdownRemote;; await ShutdownClient;; emit Closed)
    (served_log e policy target n loc u l0) s.
Proof.
  intros Hf Hl He. assert (Hc : carried s0 target n loc u (log s)) by by eapply flow_carried.
  wp_run; try by eapply served_broken.
  assert (Hf' : flow s0 target n loc u (log s ++ [Closed]) (local s) [] []) by by apply flow_silent.
  split; [by eapply flow_carried|].
  exists (ext ++ [Closed]). cbn [log local]. split_and!.
  - by rewrite Hl, <- app_assoc.
  - apply Forall_app. split; [eapply Forall_impl; [exact He|]; naive_solver|]. constructor; [tauto|done].
  - done.
  - intros _. apply elem_of_app. right. by apply list_elem_of_singleton.
Qed.

Lemma serve_wp fuel c user_id loc limiter policy target n u initial s :
  flow s0 target n loc u (log s) (local s) initial [] ->
  wp (serve fuel c user_id loc limiter policy target initial)
    (served_log (enforcement c) policy target n loc u (log s)) s.
Proof.
  intros Hf. unfold serve. cbv zeta.
  set (auditor := new_auditor user_id (peer_ip c) (peer c)).
  apply wp_bind, wp_on_shared. cbn [then_ shared log local].
  apply wp_bind, wp_on_shared. cbn [then_ shared log local]. wp_run. unfold bail_if.
  pose proof (flow_carried _ _ _ _ _ _ _ _ _ Hf) as Hc.
  match goal with |- then_ _ _ (if ?b then _ else _) _ => destruct b end; cbn [then_].
  { by apply (served_broken _ _ _ _ _ _ _ []); [| |rewrite app_nil_r|]. }
  wp_run. apply connect_wp. cbn [local log]. intros r s1 e1 Hloc Hlog1 He1 Hr1.
  assert (Hf1 : flow s0 target n loc u (log s1) (local s1) initial []).
  { rewrite Hlog1, Hloc. apply flow_silents; [|done].
    eapply Forall_impl; [exact He1|]. intros l. apply attempt_silent. }
  assert (He1' : Forall (fun l => transfer l \/ attempt (enforcement c) policy target l) e1)
    by (eapply Forall_either; [exact He1|by right]).
  destruct r as [[]|e| |]; cbn [then_]; [|by eapply served_broken; [eapply flow_carried|..]|done|
    by eapply served_broken; [eapply flow_carried|..]].
  eapply served_phase; [| |exact Hlog1|exact He1'|].
  { destruct (length initial =? 0); unfold write_initial, written; repeat (apply limit_emits || emits_step); done. }
  { apply (wp_forward s0 target n loc u fuel limiter initial [] (write_initial initial)
      (fun r s' => (r = Ok () /\ flow s0 target n loc u (log s') (local s') [] []) \/
                   (broken r /\ carried s0 target n loc u (log s')))); [done| |auto|auto].
    intros. by eapply wp_write_initial. }
  intros s2 e2 Hf2 Hlog2 He2. eapply served_phase; [apply relay_emits| |exact Hlog2|exact He2|].
  { apply (relay_wp s0 Hs0 target n loc u); [done|auto|auto]. }
  intros s3 e3 Hf3 Hlog3 He3. by eapply served_closed.
Qed.

End Serve.

(** ** The shared objects while the session runs

    No IP set holds an IP with a count of zero (this is [counts_ok] of the
    ledger), and every bucket satisfies its invariant.  The environment
    keeps that, so does the session. *)

Definition positive (sh : Shared) : Prop :=
  forall loc (ips : gmap string nat) ip, ip_sets sh !! loc = Some ips -> ips !! ip <> Some 0.

Definition buckets_ok (sh : Shared) : Prop := map_Forall (fun _ => bucket_ok) (limit_buckets sh).

Definition sound (sh : Shared) : Prop := positive sh /\ buckets_ok sh.

Definition env_ok : Prop :=
  forall (X : Set) (a : Await X) l sh x sh',
    react a l sh = Some (x, sh') -> sound sh -> sound sh'.

Lemma drop_guard_positive (ips : gmap string nat) ip :
  (forall i, ips !! i <> Some 0) ->
  exists ips', drop_guard ips ip = Ok ips' /\ forall i, ips' !! i <> Some 0.
Proof.
  intros Hp. unfold drop_guard. destruct (ips !! ip) as [[|k]|] eqn:Hi; [by destruct (Hp ip)| |by exists ips].
  eexists. split; [done|]. intros i. destruct (Nat.eqb_spec k 0) as [->|Hk].
  - destruct (decide (i = ip)) as [->|]; by simplify_map_eq.
  - destruct (decide (i = ip)) as [->|]; simplify_map_eq; [|done]. by intros [= ?].
Qed.

Lemma set_positive sh loc (ips : gmap string nat) :
  positive sh -> (forall i, ips !! i <> Some 0) -> positive (set_ip_sets (<[loc := ips]> (ip_sets sh)) sh).
Proof.
  intros Hp Hi loc' ips' ip. cbn. destruct (decide (loc = loc')) as [<-|Hne].
  - rewrite lookup_insert_eq. intros [= <-]. apply Hi.
  - rewrite lookup_insert_ne by done. apply Hp.
Qed.

Lemma default_positive sh loc : positive sh -> forall i, default ∅ (ip_sets sh !! loc) !! i <> Some 0.
Proof.
  intros Hp i. destruct (ip_sets sh !! loc) as [ips|] eqn:Hl; cbn; [by eapply Hp|].
  by rewrite lookup_empty.
Qed.

Lemma try_acquire_positive loc ip limit sh : positive sh -> positive (try_acquire loc ip limit sh).2.
Proof.
  intros Hp. unfold try_acquire, Conn.acquire. pose proof (default_positive sh loc Hp) as Hd.
  set (ips := default ∅ (ip_sets sh !! loc)) in *.
  destruct (ips !! ip) as [k|] eqn:Hi;
    [|destruct ((0 <? limit)%Z && (limit <=? Z.of_nat (size ips))%Z); [exact Hp|]]; cbn.
  all: apply set_positive; [done|]; intros i.
  all: destruct (decide (i = ip)) as [->|]; simplify_map_eq; [by intros [= ?]|apply Hd].
Qed.

Lemma try_acquire_sound loc ip limit sh : sound sh -> sound (try_acquire loc ip limit sh).2.
Proof.
  intros [Hp Hb]. split; [by apply try_acquire_positive|].
  unfold try_acquire. by destruct (Conn.acquire _ _ _).
Qed.

Lemma limiter_round_sound loc now n sh :
  sound sh -> (exists v, (limiter_round loc now n sh).1 = Ok v) /\ sound (limiter_round loc now n sh).2.
Proof.
  intros [Hp Hb]. unfold limiter_round. destruct (limit_buckets sh !! loc) as [b|] eqn:Hl;
    [|split; [by eexists|by split]].
  destruct (acquire_step_ok (E:=error) now (Z.of_nat n) b) as (v & b' & -> & Hb' & _); [lia|by eapply Hb|].
  split; [by eexists|]. split; [exact Hp|]. by apply map_Forall_insert_2.
Qed.

(** ** What a session does to the shared objects

    Properties of the shared objects that survive the additions and the
    events of a session, and the environment; those of the slots come with
    the guard. *)

Section Keeps.
Context (K : Shared -> Prop).

Record stable : Prop := {
  stable_count a sh : K sh -> K (set_counter_cells (add a (counter_cells sh)) sh);
  stable_send ev sh : K sh -> K (set_events (try_send ev (events sh)) sh);
  stable_limit loc now n sh : K sh -> K (limiter_round loc now n sh).2;
  stable_env (X : Set) (a : Await X) l sh x sh' : react a l sh = Some (x, sh') -> K sh -> K sh'
}.

Lemma stable_sent sh q : stable -> sent (events sh) q -> K sh -> K (set_events q sh).
Proof.
  intros Hst [evs ->]. revert sh. induction evs as [|ev evs IH]; intros sh Hk; cbn [fold_left];
    [by destruct sh|].
  by apply (IH (set_events (try_send ev (events sh)) sh)), stable_send.
Qed.

(** An operation that keeps [K]. *)
Abbreviation keeps := (preserves (fun s : state => K (shared s))).

Lemma keeps_emit l : keeps (emit l : IO ()).
Proof. by intros s. Qed.
Lemma keeps_on_local {A} (m : ST ServerSession.t error A) : keeps (on_local m : IO A).
Proof. intros s Hs. unfold wp, on_local. by destruct (m _). Qed.
Lemma keeps_on_shared {A} (f : Shared -> A * Shared) :
  (forall sh, K sh -> K (f sh).2) -> keeps (on_shared f : IO A).
Proof. intros Hf s Hs. apply wp_on_shared. cbn. by apply Hf. Qed.
Lemma keeps_await {X : Set} (a : Await X) : stable -> keeps (await a : IO X).
Proof.
  intros He s Hs. unfold wp, await. destruct (react _ _ _) as [[x sh]|] eqn:Hr; [|done].
  by eapply stable_env.
Qed.
Lemma keeps_count loc up n : stable -> keeps (count loc up n).
Proof.
  intros He. unfold count. apply preserves_bind; [|intros; apply keeps_emit].
  apply keeps_on_shared. intros sh. by apply stable_count.
Qed.

Lemma keeps_limit fuel limiter k : stable -> keeps (limit fuel limiter k).
Proof.
  intros He. destruct limiter as [l|]; cbn [limit]; [|apply preserves_ret].
  induction fuel as [|fuel IH]; cbn [acquire_tokens]; [apply preserves_lift|].
  repeat (preserves_step || (apply keeps_await; exact He) || exact IH || apply keeps_emit).
  apply keeps_on_shared. intros sh. by apply stable_limit.
Qed.

Ltac keeps_step :=
  first
    [ preserves_step
    | apply keeps_limit
    | apply keeps_count
    | apply keeps_await
    | apply keeps_on_local
    | apply keeps_on_shared
    | apply keeps_emit ].

Lemma relay_keeps fuel loc limiter : stable -> keeps (relay fuel loc limiter).
Proof.
  intros He. induction fuel as [|fuel IH]; cbn [relay];
    unfold received, write_remote, write_client, written;
    repeat (keeps_step || exact IH || exact He).
Qed.

Lemma handshake_keeps fuel app pre : stable -> keeps (handshake fuel app pre).
Proof.
  intros He. revert app pre. induction fuel as [|fuel IH]; intros app pre; cbn [handshake];
    unfold received; repeat (keeps_step || apply IH || exact He).
Qed.

Lemma connect_keeps target policy e : stable -> keeps (connect_target_checked target policy e).
Proof.
  intros He. assert (forall l, keeps (connect_first l)) as Hf.
  { induction l as [|a l IH]; cbn [connect_first]; repeat (keeps_step || exact IH || exact He). }
  unfold connect_target_checked, connect_target. repeat (keeps_step || apply Hf || exact He).
Qed.

Lemma serve_keeps fuel c uid loc limiter policy target initial :
  stable -> keeps (serve fuel c uid loc limiter policy target initial).
Proof.
  intros He. unfold serve, write_initial, written. cbv zeta.
  repeat (keeps_step || exact He || (apply relay_keeps; exact He) || (apply connect_keeps; exact He)).
  - intros sh. apply stable_sent; [done|apply sent_one].
  - intros sh Hp. pose proof (scan_sent (rules sh) initial (new_auditor uid (peer_ip c) (peer c)) (events sh)).
    destruct (scan _ _ _ _) as [[??]?]. by apply stable_sent.
Qed.

(** ** The slots *)

(** [K] also survives taking and giving back a slot of the set [loc]. *)
Definition stable_slots (loc : nat) : Prop :=
  (forall ip limit sh, K sh -> K (try_acquire loc ip limit sh).2) /\
  (forall ip ips sh, K sh -> drop_guard (default ∅ (ip_sets sh !! loc)) ip = Ok ips ->
     K (set_ip_sets (<[loc := ips]> (ip_sets sh)) sh)).

Lemma release_keeps (g : guard) : stable_slots g.1 -> keeps (release g).
Proof.
  intros [_ Hr]. unfold release. repeat keeps_step. intros sh Hp.
  destruct (drop_guard _ _) as [ips| | |] eqn:Hd; [by eapply Hr|done..].
Qed.

Lemma with_guard_keeps {A} (g : option guard) (m : IO A) :
  (forall g', g = Some g' -> stable_slots g'.1) -> keeps m -> keeps (with_guard g m).
Proof.
  intros Hg Hm. destruct g as [g|]; [|exact Hm]. cbn [with_guard].
  by apply preserves_finally; [|apply release_keeps, Hg].
Qed.

(** The guard is of the user's set. *)
Lemma acquire_guard_keeps c uid policy s :
  (forall loc, conns_by_user (tables c) !! uid = Some loc -> stable_slots loc) -> K (shared s) ->
  wp (acquire_guard c uid policy) (fun r s' => K (shared s') /\
    forall g, r = Ok (Entered (Some g)) -> conns_by_user (tables c) !! uid = Some g.1) s.
Proof.
  intros Hs Hk. unfold acquire_guard.
  destruct policy as [po|]; [|by wp_run]. destruct (ec_conn_limit (enforcement c)); [|by wp_run].
  destruct (0 <? UserPolicy.conn_limit po)%Z; [|by wp_run].
  destruct (conns_by_user (tables c) !! uid) as [loc|]; [|by wp_run].
  apply wp_bind, wp_on_shared.
  pose proof (proj1 (Hs loc eq_refl) (peer_ip c) (UserPolicy.conn_limit po) (shared s) Hk) as Hk'.
  destruct (try_acquire _ _ _ _) as [[] sh]; cbn [fst snd then_] in *; wp_run; [|done].
  split; [done|]. by intros g [= <-].
Qed.

Lemma handle_session_keeps fuel c :
  stable -> (forall uid loc, conns_by_user (tables c) !! uid = Some loc -> stable_slots loc) ->
  keeps (handle_session fuel c).
Proof.
  intros He Hs. unfold handle_session. apply preserves_bind; [by apply handshake_keeps|].
  intros [[[target initial] pre]|]; [|apply preserves_ret].
  apply preserves_bind; [apply preserves_get|]. intros s.
  apply preserves_bind; [apply preserves_lift|]. intros loc.
  apply preserves_bind; [by apply keeps_count|]. intros _.
  set (uid := default (fallback_user_id c) (ServerSession.user_id (local s))).
  apply (preserves_bind_spec _ _ _ (fun a _ => forall g, a = Entered (Some g) ->
    conns_by_user (tables c) !! uid = Some g.1)).
  - intros s1 H1. eapply wp_mono; [apply acquire_guard_keeps; [apply Hs|done]|].
    cbn. intros r s2 [H2 Hg]. split; [done|]. intros a -> g ->. by apply Hg.
  - intros [|g] s1 H1 Hg; [by wp_run|].
    apply (with_guard_keeps g); [|by apply serve_keeps|done]. intros g' ->. by eapply Hs, Hg.
Qed.

End Keeps.

Abbreviation keeps := (preserves (fun s : state => sound (shared s))).

Lemma sound_stable : env_ok -> stable sound.
Proof. intros He. split; [by intros|by intros|intros; by apply limiter_round_sound|by eauto]. Qed.

(** ** The whole session *)

(** The user a session is accounted to. *)
Definition user_of (c : StreamContext) (u : option Z) : Z := default (fallback_user_id c) u.

(** The cap the user's policy puts on the session. *)
Definition needs_slot (c : StreamContext) (uid : Z) : option Z :=
  match policies (tables c) !! uid with
  | Some po => if ec_conn_limit (enforcement c) && (0 <? UserPolicy.conn_limit po)%Z
               then Some (UserPolicy.conn_limit po) else None
  | None => None
  end.

(** The slot of a session behind the handshake: [acq] and [rel] around the
    labels [ext] of the connection and the relay. *)
Definition slot (c : StreamContext) (uid : Z) (r : res error ()) (acq ext rel : list label) : Prop :=
  match needs_slot c uid with
  | None => acq = [] /\ rel = []
  | Some limit =>
      (acq = [] /\ ext = [] /\ rel = []) \/
      exists loc, conns_by_user (tables c) !! uid = Some loc /\
        acq = [Acquired loc (peer_ip c) limit] /\
        rel = match r with OutOfFuel => [] | _ => [Released loc (peer_ip c)] end
  end.

Definition relayed (c : StreamContext) (uid : Z) (target : Address) (l : label) : Prop :=
  transfer l \/ attempt (enforcement c) (policies (tables c) !! uid) target l \/ l = Closed.

(** The upload counted for the handshake. *)
Definition handshake_upload (hs : list label) : nat :=
  Z.to_nat (Z.min (Z.of_nat (length (received_bytes hs))) U64_MAX).

Inductive ending (c : StreamContext) (s0 : ServerSession.t) (r : res error ()) (l : list label) : Prop :=
  | EndedEarly : closed_early s0 l -> ending c s0 r l
  | EndedUncounted target n payload t :
      Forall is_received l -> opened s0 l t target n payload ->
      counters_for c (user_of c (ServerSession.user_id t)) = Err (NoTrafficCounter (user_of c (ServerSession.user_id t))) ->
      r = Err (NoTrafficCounter (user_of c (ServerSession.user_id t))) -> ending c s0 r l
  | Ended target n loc u hs acq ext rel :
      counters_for c (user_of c u) = Ok loc -> carried s0 target n loc u l ->
      l = (hs ++ [upload loc (handshake_upload hs)]) ++ acq ++ ext ++ rel ->
      Forall is_received hs -> slot c (user_of c u) r acq ext rel ->
      Forall (relayed c (user_of c u) target) ext ->
      (Closed ∈ ext -> exists t, flow s0 target n loc u l t [] []) ->
      (r = Ok () -> acq = [] /\ ext = [] /\ rel = [] \/ Closed ∈ ext) ->
      ending c s0 r l.

Lemma opened_flow s0 target n loc payload hs t :
  swf s0 -> Forall is_received hs -> opened s0 hs t target n payload -> payload <> [] ->
  flow s0 target n loc (ServerSession.user_id t)
    (hs ++ [upload loc (handshake_upload hs)]) t (drop n payload) [].
Proof.
  intros Hs0 Hl [Hd Hp] Hne. destruct (sdecode_opens _ _ _ _ Hd Hne) as [key He].
  destruct (received_only hs Hl) as (H1 & H2 & H3 & H4).
  set (k := handshake_upload hs).
  assert (received_bytes (hs ++ [upload loc k]) = received_bytes hs) as L1 by (unfold upload; by logs).
  assert (sent_remote (hs ++ [upload loc k]) = []) as L2 by (rewrite <- H1; unfold upload; by logs).
  assert (sent_client (hs ++ [upload loc k]) = []) as L3 by (rewrite <- H2; unfold upload; by logs).
  assert (remote_chunks (hs ++ [upload loc k]) = []) as L4 by (rewrite <- H3; unfold upload; by logs).
  assert (counted (hs ++ [upload loc k]) = [{| add_loc := loc; add_up := true; add_bytes := k |}])
    as L5 by (unfold upload; logs; by rewrite H4).
  exists payload, t, key, []. unfold accounted. rewrite L1, L2, L3, L4, L5.
  cbn [total send_all app length]. unfold counts. cbn [add_loc add_up add_bytes].
  rewrite Nat.eqb_refl. cbn [Bool.eqb andb].
  split_and!; try done; [|by constructor|unfold k, handshake_upload; lia].
  destruct He as (p & Hpp & _). exists (encryptor t), (send_iv_emitted t), (AuthAes128Md5.pack_id p).
  by rewrite with_send_same.
Qed.

Lemma guarded_wp (g : guard) (m : IO ()) (Q : res error () -> list label -> Prop) s :
  env_ok -> sound (shared s) -> keeps m ->
  wp m (fun r s' => (r = OutOfFuel -> Q r (log s')) /\
    (r <> OutOfFuel -> Q r (log s' ++ [Released g.1 g.2]))) s ->
  wp (with_guard (Some g) m) (fun r s' => Q r (log s')) s.
Proof.
  intros He Hs Hk Hm. cbn [with_guard]. apply wp_finally.
  eapply wp_mono; [apply wp_and; [exact Hm|by apply Hk]|].
  intros r s' [[HQ1 HQ2] [Hpos _]]. cbn beta in *.
  destruct (drop_guard_positive _ g.2 (default_positive (shared s') g.1 Hpos)) as (ips & Hd & _).
  assert (wp (release g) (fun r' s'' => r' = Ok () /\ log s'' = log s' ++ [Released g.1 g.2]) s') as Hrel.
  { unfold release. apply wp_bind, wp_on_shared. cbn [shared]. rewrite Hd. cbn [then_ fst snd].
    wp_run. done. }
  destruct r as [[]|e| |]; [..|by auto];
    (eapply wp_mono; [exact Hrel|]; cbn beta; intros r2 s2 [-> Hl2]; rewrite Hl2; by auto).
Qed.

(** What [acquire_guard] may answer. *)
Lemma acquire_guard_wp c uid (Q : res error admission -> state -> Prop) s :
  sound (shared s) ->
  (needs_slot c uid = None -> Q (Ok (Entered None)) s) ->
  (forall limit, needs_slot c uid = Some limit ->
    Q (Err (NoConnectionCounter uid)) s /\ Q (Ok Refused) s /\
    forall loc s', conns_by_user (tables c) !! uid = Some loc -> local s' = local s ->
      log s' = log s ++ [Acquired loc (peer_ip c) limit] -> sound (shared s') ->
      Q (Ok (Entered (Some (loc, peer_ip c)))) s') ->
  wp (acquire_guard c uid (policies (tables c) !! uid)) Q s.
Proof.
  intros Hp Hno Hyes. unfold acquire_guard, needs_slot in *.
  destruct (policies (tables c) !! uid) as [po|]; [|by apply Hno].
  destruct (ec_conn_limit (enforcement c)); cbn [andb] in *; [|by apply Hno].
  destruct (0 <? UserPolicy.conn_limit po)%Z; [|by apply Hno].
  destruct (Hyes _ eq_refl) as (H1 & H2 & H3).
  destruct (conns_by_user (tables c) !! uid) as [loc|]; [|done].
  apply wp_bind, wp_on_shared. cbn [then_].
  pose proof (try_acquire_sound loc (peer_ip c) (UserPolicy.conn_limit po) _ Hp) as Hp'.
  unfold try_acquire in *.
  destruct (Conn.acquire _ _ _); cbn [fst snd] in *; [|by destruct s].
  wp_run. by apply H3.
Qed.

(** From the log of [serve] to that of the session; [rel] is what the drop
    of the guard adds. *)
Lemma served_ending c s0 target n loc u hs acq rel r s' :
  counters_for c (user_of c u) = Ok loc -> Forall is_received hs ->
  served_log s0 (enforcement c) (policies (tables c) !! user_of c u) target n loc u
    ((hs ++ [upload loc (handshake_upload hs)]) ++ acq) r s' ->
  (rel = [] \/ exists x, silent x /\ rel = [x]) ->
  (forall ext, slot c (user_of c u) r acq ext rel) ->
  ending c s0 r (log s' ++ rel).
Proof.
  intros Hcf Hhs (Hc & ext & Hl & Hext & Hcl & Hok) Hrel Hslot.
  apply (Ended c s0 r _ target n loc u hs acq ext rel); try done.
  - destruct Hrel as [->|(x & Hx & ->)]; [by rewrite app_nil_r|by apply carried_silent].
  - rewrite Hl. by rewrite <- !app_assoc.
  - intros Hin. exists (local s').
    destruct Hrel as [->|(x & Hx & ->)]; [rewrite app_nil_r; by apply Hcl|].
    apply flow_silent; [done|by apply Hcl].
  - intros Hr0. right. by apply Hok.
Qed.

Lemma refused_ending c s0 target n loc u hs r limit :
  counters_for c (user_of c u) = Ok loc -> Forall is_received hs ->
  carried s0 target n loc u (hs ++ [upload loc (handshake_upload hs)]) ->
  needs_slot c (user_of c u) = Some limit ->
  ending c s0 r (hs ++ [upload loc (handshake_upload hs)]).
Proof.
  intros Hcf Hhs Hc Hlim. apply (Ended c s0 r _ target n loc u hs [] [] []); try done.
  - by rewrite !app_nil_r.
  - unfold slot. rewrite Hlim. by left.
  - by intros ?%not_elem_of_nil.
  - by left.
Qed.

(** The admission and [serve] behind it. *)
Lemma admitted_wp fuel c s0 target n loc u hs payload limiter s :
  swf s0 -> env_ok -> sound (shared s) ->
  counters_for c (user_of c u) = Ok loc -> Forall is_received hs ->
  log s = hs ++ [upload loc (handshake_upload hs)] ->
  flow s0 target n loc u (log s) (local s) (drop n payload) [] ->
  wp (a ← acquire_guard c (user_of c u) (policies (tables c) !! user_of c u);
      match a with
      | Refused => mret ()
      | Entered g => with_guard g (serve fuel c (user_of c u) loc limiter
          (policies (tables c) !! user_of c u) target (drop n payload))
      end) (fun r s' => ending c s0 r (log s')) s.
Proof.
  intros Hs0 He Hpos Hcf Hhs Hl Hf. set (uid := user_of c u) in *.
  assert (Hc : carried s0 target n loc u (log s)) by by eapply flow_carried.
  apply wp_bind, acquire_guard_wp; [done| |].
  - intros Hno. cbn [then_ with_guard].
    eapply wp_mono; [by apply (serve_wp s0 Hs0 _ _ _ _ _ _ _ n u)|].
    intros r s2 Hserved. rewrite <- (app_nil_r (log s2)).
    eapply (served_ending c s0 target n loc u hs []); [done|done| |by left|].
    + by rewrite app_nil_r, <- Hl.
    + intros ext. unfold slot. fold uid. by rewrite Hno.
  - intros limit Hlim. rewrite Hl in Hc.
    pose proof (fun r => refused_ending c s0 target n loc u hs r limit Hcf Hhs Hc Hlim) as Href.
    rewrite <- Hl in Href. split_and!; [apply Href..|].
    intros sloc s2 Hconn Hlocal Hlog2 Hp2. cbn [then_].
    assert (Hf2 : flow s0 target n loc u (log s2) (local s2) (drop n payload) []).
    { rewrite Hlog2, Hlocal. by apply flow_silent. }
    apply (guarded_wp (sloc, peer_ip c) _ (ending c s0)); [done|done|by apply serve_keeps, sound_stable|].
    eapply wp_mono; [by apply (serve_wp s0 Hs0 _ _ _ _ _ _ _ n u)|].
    intros r s3 Hserved. rewrite Hlog2, Hl in Hserved.
    pose proof (fun rel => served_ending c s0 target n loc u hs _ rel r s3 Hcf Hhs Hserved) as Hend.
    split; intros Hout.
    + rewrite <- (app_nil_r (log s3)). apply Hend; [by left|]. intros ext. subst r.
      unfold slot. fold uid. rewrite Hlim. right. by exists sloc.
    + apply (Hend [Released sloc (peer_ip c)]).
      { right. exists (Released sloc (peer_ip c)). by split. }
       intros ext. unfold slot. fold uid. rewrite Hlim. right.
      exists sloc. by destruct r.
Qed.

Lemma handle_session_wp fuel c s0 sh :
  swf s0 -> sdecode s0 [] = Ok ([], s0) -> env_ok -> sound sh ->
  wp (handle_session fuel c) (fun r s' => ending c s0 r (log s'))
    {| local := s0; shared := sh; log := [] |}.
Proof.
  intros Hs0 Hnil He Hpos. unfold handle_session.
  apply wp_bind. eapply wp_mono.
  { apply wp_and; [|by apply (handshake_keeps sound); [apply sound_stable|]].
    apply (handshake_wp fuel s0 [] 0%Z _ (fun r s' =>
      (closed_early s0 (log s') /\ r <> Panic /\ forall h, r <> Ok (Some h)) \/
      exists target n payload, Forall is_received (log s') /\
        opened s0 (log s') (local s') target n payload /\ payload <> [] /\
        r = Ok (Some (target, drop n payload,
          Z.min (Z.of_nat (length (received_bytes (log s')))) U64_MAX)))); [done| | |auto|eauto 10].
    - by split_and!; [constructor| |].
    - done. }
  intros r s1 [[(Hc & Hr1 & Hr2)|(target & n & payload & Hl & Ho & Hne & ->)] Hp1]; cbn beta in *.
  { destruct r as [[h|]|e| |]; cbn [then_]; [by destruct (Hr2 h)|..|done|];
      by apply EndedEarly. }
  cbn [then_]. wp_run. set (u := ServerSession.user_id (local s1)).
  change (default (fallback_user_id c) u) with (user_of c u).
  destruct (counters_for c (user_of c u)) as [loc|e| |] eqn:Hcf.
  2: { assert (e = NoTrafficCounter (user_of c u)) as ->.
    { unfold counters_for in Hcf. by repeat case_match; simplify_eq. }
    by eapply EndedUncounted. }
  2,3: unfold counters_for in Hcf; by repeat case_match.
  pose proof (opened_flow s0 target n loc payload (log s1) (local s1) Hs0 Hl Ho Hne) as Hf.
  unfold count. apply wp_bind, wp_bind, wp_on_shared. cbn [then_]. apply wp_emit. cbn [then_].
  by apply (admitted_wp _ _ _ _ _ _ _ (log s1)).
Qed.

End Session.
