(* ===== verification/TcpHistory.v ===== *)
(** * The history of a TCP session

    What the log of a session says happened to the shared objects did
    happen: [history R clock l sh sh'] leads from [sh] to [sh'] by the
    effects of the labels of [l], in their order, and between them by steps
    of the others ([R]) and events sent to the supervisor.  An addition is
    on the counter, a slot was given by the [UserIpSet] itself and a round
    of a limiter has the verdict of its bucket at an instant the clock
    showed.  Every session has such a history in every environment
    ([session_history]), so a theorem about its log is one about the
    objects. *)

From S2P Require Import Prelude Errors Kdf Str Cipher Protocol ProtocolSpec.
From S2P Require Import ProtocolPackets Session SessionSpec Client EndToEnd Interleave.
From S2P Require Import Net Address Float Policy RateLimit Traffic Conn RelayAudit Task TcpRelay TcpSpec.
Import ServerSession.

Section History.
Context `{C : Crypto} `{RE : RegexEngine}.

(** A label that is about a shared object. *)
Definition about_shared (x : label) : bool :=
  match x with Counted _ | Asked _ _ _ _ | Acquired _ _ _ | Released _ _ => true | _ => false end.

Section Steps.
Context (R : Shared -> Shared -> Prop) (clock : Instant -> Prop).

(** The set of the IPs at [loc]. *)
Definition ips_at (loc : nat) (sh : Shared) : gmap string nat := default ∅ (ip_sets sh !! loc).

Inductive effect : label -> Shared -> Shared -> Prop :=
  | EffCounted a sh : effect (Counted a) sh (set_counter_cells (add a (counter_cells sh)) sh)
  | EffAsked loc now n v b b' sh :
      clock now -> limit_buckets sh !! loc = Some b -> acquire_step (E:=error) now (Z.of_nat n) b = Ok (v, b') ->
      effect (Asked loc now n v) sh (set_limit_buckets (<[loc := b']> (limit_buckets sh)) sh)
  | EffUnlimited loc now n sh :
      clock now -> limit_buckets sh !! loc = None -> effect (Asked loc now n Granted) sh sh
  | EffAcquired loc ip limit ips sh :
      Conn.acquire (ips_at loc sh) ip limit = Some ips ->
      effect (Acquired loc ip limit) sh (set_ip_sets (<[loc := ips]> (ip_sets sh)) sh)
  | EffReleased loc ip ips sh :
      drop_guard (ips_at loc sh) ip = Ok ips ->
      effect (Released loc ip) sh (set_ip_sets (<[loc := ips]> (ip_sets sh)) sh)
  | EffNone x sh : about_shared x = false -> effect x sh sh.

Inductive history (sh : Shared) : list label -> Shared -> Prop :=
  | HistStart : history sh [] sh
  | HistOthers l sh1 sh2 : history sh l sh1 -> R sh1 sh2 -> history sh l sh2
  | HistSent l sh1 q : history sh l sh1 -> sent (events sh1) q -> history sh l (set_events q sh1)
  | HistDid l x sh1 sh2 : history sh l sh1 -> effect x sh1 sh2 -> history sh (l ++ [x]) sh2.

(** An environment whose steps are in [R], with the clock [clock]. *)
Definition env_within `{!Env Await Shared label} : Prop :=
  (forall (X : Set) (a : Await X) l sh x sh', react a l sh = Some (x, sh') -> R sh sh') /\
  (forall loc l sh now sh', react (LockLimiter loc) l sh = Some (now, sh') -> clock now).

End Steps.

(** ** Every session has a history *)

Section Session.
Context `{!Env Await Shared label}.
Context (R : Shared -> Shared -> Prop) (clock : Instant -> Prop) (He : env_within R clock) (sh0 : Shared).

Abbreviation IO := (ST (task ServerSession.t Shared label) error).
Abbreviation state := (task ServerSession.t Shared label).

Definition told (s : state) : Prop := history R clock sh0 (log s) (shared s).
Abbreviation tells := (preserves told).

Lemma tells_emit x : about_shared x = false -> tells (emit x).
Proof. intros Hx. apply preserves_emit. intros s Hs. eapply HistDid; [exact Hs|by apply EffNone]. Qed.

Lemma tells_await {X : Set} (a : Await X) : tells (await a).
Proof. apply preserves_await. intros s x sh Hs Hr. eapply HistOthers; [exact Hs|]. by eapply (proj1 He). Qed.

Lemma tells_on_local {A} (m : ST ServerSession.t error A) : tells (on_local m).
Proof. by apply preserves_on_local. Qed.

Lemma tells_events (f : Shared -> list RelayEvent) :
  (forall sh, sent (events sh) (f sh)) -> tells (on_shared (fun sh => ((), set_events (f sh) sh))).
Proof. intros Hf. apply preserves_on_shared. intros s Hs. by eapply HistSent. Qed.

Lemma tells_count loc up n : tells (count loc up n).
Proof.
  intros s Hs. unfold count. apply wp_bind, wp_on_shared. cbn [then_]. apply wp_emit.
  eapply HistDid; [exact Hs|apply EffCounted].
Qed.

(** A round and its label. *)
Lemma tells_round loc now n (k : verdict -> IO ()) :
  clock now -> (forall v, tells (k v)) ->
  tells (v ← on_shared (limiter_round loc now n); v ← lift v; emit (Asked loc now n v);; k v).
Proof.
  intros Hc Hk s Hs. apply wp_bind, wp_on_shared. cbn [then_]. unfold limiter_round.
  destruct (limit_buckets (shared s) !! loc) as [b|] eqn:Hl.
  - destruct (acquire_step now (Z.of_nat n) b) as [[v b']|e| |] eqn:Ha; cbn [fst snd]; wp_run;
      cbn [local shared log]; [|by destruct s..].
    apply Hk. eapply HistDid; [exact Hs|]. by eapply EffAsked.
  - cbn [fst snd]. wp_run. cbn [local shared log]. apply Hk. eapply HistDid; [exact Hs|]. by apply EffUnlimited.
Qed.

Lemma tells_limit fuel limiter n : tells (limit fuel limiter n).
Proof.
  destruct limiter as [loc|]; cbn [limit]; [|apply preserves_ret].
  induction fuel as [|fuel IH]; cbn [acquire_tokens]; [apply preserves_lift|].
  apply preserves_bind_spec with (R := fun now _ => clock now).
  - intros s Hs. apply wp_await_eq; [|done]. intros now sh Hr. split.
    + eapply HistOthers; [exact Hs|]. by eapply (proj1 He).
    + intros a [= <-]. by eapply (proj2 He).
  - intros now s Hs Hc. apply (tells_round loc now n
      (fun v => match v with Granted => mret () | Sleep wait => await (SleepFor wait);; acquire_tokens fuel loc n end));
      [done| |done].
    intros [|wait]; [apply preserves_ret|]. by apply preserves_bind; [apply tells_await|].
Qed.

Ltac tells_step :=
  first
    [ preserves_step
    | apply tells_limit
    | apply tells_count
    | apply tells_await
    | apply tells_on_local
    | apply tells_events
    | apply tells_emit; done ].

Lemma tells_written w b (l : bytes -> label) timeout :
  (forall c, about_shared (l c) = false) -> tells (written w b l timeout).
Proof.
  intros Hl. destruct w; cbn [written]; repeat tells_step; by apply tells_emit.
Qed.

Lemma relay_tells fuel loc limiter : tells (relay fuel loc limiter).
Proof.
  induction fuel as [|fuel IH]; cbn [relay]; unfold received, write_remote, write_client;
    repeat (exact IH || tells_step || (apply tells_written; done)).
Qed.

Lemma handshake_tells fuel app pre : tells (handshake fuel app pre).
Proof.
  revert app pre. induction fuel as [|fuel IH]; intros app pre; cbn [handshake]; unfold received;
    repeat (apply IH || tells_step).
Qed.

Lemma connect_tells target policy e : tells (connect_target_checked target policy e).
Proof.
  assert (Hf : forall l, tells (connect_first l)).
  { induction l as [|a l IH]; cbn [connect_first]; repeat (exact IH || tells_step). }
  unfold connect_target_checked, connect_target. repeat (apply Hf || tells_step).
Qed.

Lemma serve_tells fuel c uid loc limiter policy target initial :
  tells (serve fuel c uid loc limiter policy target initial).
Proof.
  unfold serve, write_initial. cbv zeta. apply preserves_bind.
  { apply tells_events. intros sh. apply sent_one. }
  intros _. apply preserves_bind.
  { apply preserves_on_shared. intros s Hs.
    pose proof (scan_sent (rules (shared s)) initial (new_auditor uid (peer_ip c) (peer c)) (events (shared s))).
    destruct (scan _ _ _ _) as [[??]?]. by eapply HistSent. }
  intros matched. repeat (apply relay_tells || apply connect_tells || tells_step || (apply tells_written; done)).
Qed.

Lemma release_tells g : tells (release g).
Proof.
  intros s Hs. unfold release. apply wp_bind, wp_on_shared. cbn [then_].
  destruct (drop_guard _ _) as [ips|e| |] eqn:Hd; cbn [fst snd]; wp_run; cbn [local shared log]; [|by destruct s..].
  eapply HistDid; [exact Hs|]. by apply EffReleased.
Qed.

Lemma with_guard_tells {A} g (m : IO A) : tells m -> tells (with_guard g m).
Proof.
  intros Hm. destruct g as [g|]; [|done]. by apply preserves_finally; [|apply release_tells].
Qed.

(** The guard: [Acquired] is what the set answered. *)
Lemma acquire_guard_tells c uid policy : tells (acquire_guard c uid policy).
Proof.
  unfold acquire_guard. destruct policy as [po|]; [|apply preserves_ret].
  destruct (ec_conn_limit _); [|apply preserves_ret]. destruct (0 <? _)%Z; [|apply preserves_ret].
  destruct (_ !! uid) as [loc|]; [|apply preserves_lift].
  intros s Hs. apply wp_bind, wp_on_shared. unfold try_acquire.
  destruct (Conn.acquire _ _ _) as [ips|] eqn:Ha; cbn [fst snd then_]; wp_run; [|by destruct s].
  eapply HistDid; [exact Hs|]. by apply EffAcquired.
Qed.

Lemma handle_session_tells fuel c : tells (handle_session fuel c).
Proof.
  unfold handle_session.
  repeat (apply handshake_tells || apply acquire_guard_tells || apply with_guard_tells || apply serve_tells || tells_step).
Qed.

End Session.

(** [l] accounts for what became of the shared objects, whatever the
    environment is. *)
Definition accounts_for `{!Env Await Shared label} (l : list label) (sh sh' : Shared) : Prop :=
  forall R clock, env_within R clock -> history R clock sh l sh'.

Lemma session_history `{!Env Await Shared label} rnd fuel c sh :
  let '(_, l, sh') := handle_stream rnd fuel c sh in accounts_for l sh sh'.
Proof.
  unfold handle_stream. destruct (ServerSession.new _ _ _ _ _) as [s| | |]; [|intros R clock _; constructor..].
  destruct (handle_session fuel c _) as [r s1] eqn:Hs. intros R clock He.
  pose proof (handle_session_tells R clock He sh fuel c {| local := s; shared := sh; log := [] |}
    (HistStart R clock sh)) as Hw. unfold wp in Hw. by rewrite Hs in Hw.
Qed.

(** ** Reading a history *)

(** In an environment that leaves the shared objects alone. *)
Lemma history_alone clock l sh sh' :
  history eq clock sh l sh' -> counter_cells sh' = add_all (counted l) (counter_cells sh).
Proof.
  induction 1 as [|l sh1 sh2 _ IH <-|l sh1 q _ IH _|l x sh1 sh2 _ IH Hx]; [done|done|exact IH|].
  unfold counted in *. rewrite omap_snoc. unfold add_all in *. rewrite fold_left_app, <- IH.
  by destruct Hx as [| | | | |x ? Hx]; [..|destruct x].
Qed.

End History.
