(* ===== verification/TcpSafety.v ===== *)
(** * A TCP session never panics

    [calm m]: from a sound state (a codec in order, sound shared objects)
    [m] does not panic and leaves the state sound, as long as the
    environment does.  The judgement follows the code from the primitives
    up to [handle_session]; what could panic are the codec, the round of a
    limiter, the slices of the handshake and the drop of the guard. *)

From S2P Require Import Prelude Errors Kdf Str Cipher Protocol ProtocolSpec.
From S2P Require Import ProtocolPackets Session SessionSpec Client EndToEnd Interleave.
From S2P Require Import Net Address Float Policy RateLimit Traffic Conn RelayAudit Task TcpRelay TcpSpec.
Import ServerSession.

Section Session.
Context `{HL : CryptoLaws} `{RE : RegexEngine} `{!Env Await Shared label}.

Abbreviation IO := (ST (task ServerSession.t Shared label) error).

Definition calm {A} (m : IO A) : Prop :=
  forall s, swf (local s) -> sound (shared s) ->
  wp m (fun r s' => r <> Panic /\ (forall a, r = Ok a -> swf (local s')) /\ sound (shared s')) s.

Lemma calm_bind {A B} (m : IO A) (f : A -> IO B) : calm m -> (forall a, calm (f a)) -> calm (m ≫= f).
Proof.
  intros Hm Hf s Hs Hp. apply wp_bind. eapply wp_mono; [by apply Hm|].
  intros [a|e| |] s1 (Hr & Hw & Hp1); cbn [then_]; [by apply Hf; [eapply Hw|]|done..].
Qed.

Lemma calm_ret {A} (a : A) : calm (mret a).
Proof. by intros s. Qed.
Lemma calm_lift {A} (r : res error A) : r <> Panic -> calm (lift r).
Proof. intros Hr s Hs Hp. by apply wp_lift. Qed.
Lemma calm_get : calm get.
Proof. by intros s. Qed.
Lemma calm_emit l : calm (emit l).
Proof. by intros s. Qed.
Lemma calm_await {X : Set} (a : Await X) : env_ok -> calm (await a).
Proof. intros He s Hs Hp. apply wp_await_eq; [|done]. intros x sh Hr. split_and!; [done|done|by eapply He]. Qed.
Lemma calm_on_shared {A} (f : Shared -> A * Shared) :
  (forall sh, sound sh -> sound (f sh).2) -> calm (on_shared f).
Proof. intros Hf s Hs Hp. apply wp_on_shared. split_and!; [done|done|by apply Hf]. Qed.

Lemma calm_decrypt b : calm (on_local (decrypt b)).
Proof.
  intros s Hs Hp. apply wp_decrypt; [done| |by intros].
  intros o t Ho. split_and!; [done| |done]. intros _ _. by eapply sdecode_swf.
Qed.

Lemma calm_encrypt m : calm (on_local (encrypt m)).
Proof.
  intros s Hs Hp. apply wp_on_local, wp_outcome. pose proof (encrypt_outcome m (local s)) as Ho.
  destruct (protocol (local s)) as [p|]; rewrite Ho; [|by intros].
  split_and!; [done| |done]. intros _ _. by apply with_send_swf.
Qed.

(** A result that decides how to go on. *)
Lemma calm_round loc now n :
  calm (v ← on_shared (limiter_round loc now n); lift v).
Proof.
  intros s Hs Hp. apply wp_bind, wp_on_shared.
  destruct (limiter_round_sound loc now n (shared s) Hp) as [[v Hv] Hp']. cbn [then_]. rewrite Hv. by wp_run.
Qed.

Lemma calm_assoc {A B D} (m : IO A) (f : A -> IO B) (g : B -> IO D) :
  calm ((m ≫= f) ≫= g) -> calm (m ≫= fun a => f a ≫= g).
Proof.
  intros H s Hs Hp. specialize (H s Hs Hp). unfold wp, mbind, ST_bind in *. by destruct (m s) as [[] ?].
Qed.

Lemma calm_finally {A} (m : IO A) (d : IO ()) :
  calm m -> (forall s, sound (shared s) -> wp d (fun r s' => (exists u, r = Ok u) /\ local s' = local s /\ sound (shared s')) s) ->
  calm (finally m d).
Proof.
  intros Hm Hd s Hs Hp. apply wp_finally. eapply wp_mono; [by apply Hm|].
  intros r s1 (Hr & Hw & Hp1). destruct r as [a|e| |]; [..|done]; try done;
    (eapply wp_mono; [by apply Hd|]; intros r2 s2 ([u ->] & Hl & Hp2); cbn beta; rewrite Hl; by split_and!).
Qed.

Section Calm.
Context (He : env_ok).

Lemma calm_limit fuel limiter k : calm (limit fuel limiter k).
Proof.
  destruct limiter as [l|]; cbn [limit]; [|apply calm_ret].
  induction fuel as [|fuel IH]; cbn [acquire_tokens]; [by apply calm_lift|].
  apply calm_bind; [by apply calm_await|]. intros now. apply calm_assoc, calm_bind; [apply calm_round|].
  intros v. apply calm_bind; [apply calm_emit|]. intros _.
  destruct v as [|wait]; [apply calm_ret|]. apply calm_bind; [by apply calm_await|done].
Qed.

Lemma calm_count loc up n : calm (count loc up n).
Proof. unfold count. apply calm_bind; [apply calm_on_shared; by intros sh [??]|intros; apply calm_emit]. Qed.

Ltac calm_step :=
  first
    [ apply calm_bind; [|intros ?]
    | apply calm_ret
    | apply calm_limit
    | apply calm_count
    | apply calm_get
    | apply calm_emit
    | apply calm_decrypt
    | apply calm_encrypt
    | apply calm_await; exact He
    | apply calm_lift; done
    | match goal with |- calm (match ?x with _ => _ end) => destruct x end ].

Lemma relay_calm fuel loc limiter : calm (relay fuel loc limiter).
Proof.
  induction fuel as [|fuel IH]; cbn [relay]; unfold received, write_remote, write_client, written;
    repeat (exact IH || calm_step).
Qed.

Lemma calm_parsed {A B} (r : res error A) (f : A -> IO B) :
  r <> Panic -> (forall a, r = Ok a -> calm (f a)) -> calm (a ← lift r; f a).
Proof. intros Hr Hf s Hs Hp. apply wp_bind, wp_lift. destruct r; cbn [then_]; [by apply Hf|done..]. Qed.

Lemma calm_bail (b : bool) e : calm (lift (bail_if b e)).
Proof. apply calm_lift. by destruct b. Qed.

Lemma calm_parse buf (f : option (Address * nat) -> IO (option (Address * bytes * Z))) :
  (forall addr n, n <= length buf -> calm (f (Some (addr, n)))) -> calm (f None) -> calm (a ← lift (parse buf); f a).
Proof.
  intros H1 H2. apply calm_parsed; [pose proof (parse_never_panics buf); by destruct (parse buf)|].
  intros [[addr n]|] Hpa; [|done]. apply H1. pose proof (parse_consumed _ _ _ Hpa). lia.
Qed.

Lemma handshake_calm fuel app pre : calm (handshake fuel app pre).
Proof.
  revert app pre. induction fuel as [|fuel IH]; intros app pre; cbn [handshake]; unfold received;
    repeat (apply IH || apply calm_bail || (apply calm_parse; [intros addr consumed Hn|]) || calm_step).
  rewrite slice_from_ok by done. repeat calm_step.
Qed.

Lemma connect_calm target policy e : calm (connect_target_checked target policy e).
Proof.
  assert (Hf : forall l, calm (connect_first l)).
  { induction l as [|a l IH]; cbn [connect_first]; repeat (exact IH || calm_step). }
  unfold connect_target_checked, connect_target. apply calm_bind; [apply calm_bail|]. intros _.
  destruct policy as [po|]; cbn [expect]; rewrite ?andb_false_r; cbn [negb];
    repeat (apply Hf || apply calm_bail || calm_step).
Qed.

Lemma calm_events (f : Shared -> list RelayEvent) : calm (on_shared (fun sh => ((), set_events (f sh) sh))).
Proof. apply calm_on_shared. by intros sh [??]. Qed.

Lemma serve_calm fuel c uid loc limiter policy target initial :
  calm (serve fuel c uid loc limiter policy target initial).
Proof.
  unfold serve, write_initial, written. cbv zeta.
  apply calm_bind; [apply calm_events|]. intros _. apply calm_bind.
  { apply calm_on_shared. intros sh [??]. by destruct (scan _ _ _ _) as [[??]?]. }
  intros matched. repeat (apply relay_calm || apply connect_calm || apply calm_bail || calm_step).
Qed.

Lemma release_calm (g : guard) s :
  sound (shared s) -> wp (release g) (fun r s' => (exists u, r = Ok u) /\ local s' = local s /\ sound (shared s')) s.
Proof.
  intros [Hp Hb]. unfold release. apply wp_bind, wp_on_shared.
  destruct (drop_guard_positive _ g.2 (default_positive (shared s) g.1 Hp)) as (ips & -> & Hi).
  cbn [then_ fst snd]. wp_run. split_and!; [by eexists|done|]. split; [by apply set_positive|exact Hb].
Qed.

Lemma acquire_guard_calm c uid policy : calm (acquire_guard c uid policy).
Proof.
  unfold acquire_guard. repeat (calm_step || (apply calm_on_shared; intros; by apply try_acquire_sound)).
Qed.

Lemma handle_session_calm fuel c : calm (handle_session fuel c).
Proof.
  unfold handle_session. apply calm_bind; [apply handshake_calm|].
  intros [[[target initial] pre]|]; [|apply calm_ret]. apply calm_bind; [apply calm_get|]. intros s.
  apply calm_bind; [apply calm_lift; unfold counters_for; by repeat case_match|]. intros loc.
  apply calm_bind; [apply calm_count|]. intros _. apply calm_bind; [apply acquire_guard_calm|].
  intros [|[g|]]; [apply calm_ret| |apply serve_calm]. cbn [with_guard].
  apply calm_finally; [apply serve_calm|by apply release_calm].
Qed.

End Calm.
End Session.
