(* ===== verification/UdpSpec.v ===== *)
(** * What the UDP relay does, in every environment

    [inbound_spec]: what one datagram leads to, on every branch.
    [listener_inv]: what holds of the associations and the log through any
    turns of the listener and its pumps. *)

From S2P Require Import Prelude Errors Kdf Str Cipher Protocol ProtocolSpec.
From S2P Require Import ProtocolPackets Session SessionSpec Client EndToEnd.
From S2P Require Import Net Address Float Profile Policy Traffic TtlMap RelayAudit Task Listeners TcpRelay TcpSpec UdpRelay.

Section Spec.
Context `{HL : CryptoLaws} `{RE : RegexEngine} `{HO : HashOrder} `{!Env UdpAwait UShared udp_label}.

Abbreviation IO := (ST (task Associations UShared udp_label) error).
Abbreviation state := (task Associations UShared udp_label).

(** ** One datagram *)

(** The destinations the forbidden lists allow. *)
Definition dest_ok (e : EnforcementConfig) (policy : option UserPolicy.t) (target : Address)
    (d : UdpDest) : Prop :=
  (ec_forbidden e = true -> forall po, policy = Some po ->
    UserPolicy.port_forbidden po (port target) = false) /\
  match d with
  | DestHostPort h p =>
      (h, p) = (host target, port target) /\
      (ec_forbidden e = true -> forall po, policy = Some po -> UserPolicy.has_forbidden_ip po = false)
  | DestAddr a =>
      exists po, policy = Some po /\ UserPolicy.ip_forbidden po (sa_ip a) = false
  end.

(** The labels behind the header: the look-up, the association, and at most
    one datagram to an allowed destination. *)
Definition after_header (c : UdpContext) (tables : UserTables) (peer : SocketAddr) (uid : Z)
    (target : Address) (payload : bytes) (x : udp_label) : Prop :=
  match x with
  | ULookedUp h p _ => (h, p) = (host target, port target)
  | Opened key _ => key = {| ak_peer := peer; ak_user_id := uid |}
  | Forwarded key _ b d =>
      key = {| ak_peer := peer; ak_user_id := uid |} /\ b = payload /\
      dest_ok (uc_enforcement c) (policies tables !! uid) target d
  | UCounted _ | Replied _ _ _ => False
  end.

Definition inbound_spec (c : UdpContext) (tables : UserTables) (datagram : bytes)
    (peer : SocketAddr) (r : res error ()) (ext : list udp_label) : Prop :=
  match udp_decrypt_packet (uc_master_key c) (auth_users tables) (uc_is_multi_user c) datagram
          (uc_cipher_kind c) with
  | Ok (plain, auth) =>
      let uid := default (uc_user_id c) auth in
      match udp_counters_for tables uid (uc_user_id c) with
      | Ok loc => exists ext',
          ext = UCounted {| add_loc := loc; add_up := true; add_bytes := length datagram |} :: ext' /\
          match parse plain with
          | Ok (Some (target, n)) =>
              Forall (after_header c tables peer uid target (drop n plain)) ext' /\
              (r = Ok () -> exists l sock d, ext' = l ++
                [Forwarded {| ak_peer := peer; ak_user_id := uid |} sock (drop n plain) d])
          | Ok None => ext' = [] /\ r = Err AddressIncomplete
          | Err e => ext' = [] /\ r = Err e
          | _ => False
          end
      | Err e => ext = [] /\ r = Err e
      | _ => False
      end
  | Err e => ext = [] /\ r = Err e
  | _ => False
  end.

Lemma wp_on_map {A} (f : Associations -> A * Associations) (Q : res error A -> state -> Prop) s :
  Q (Ok (f (local s)).1) {| local := (f (local s)).2; shared := shared s; log := log s |} ->
  wp (on_map f) Q s.
Proof. unfold wp, on_map, on_local. by destruct (f (local s)) as [a m]; cbn; intros Hq. Qed.

Section Behind.
Context (c : UdpContext) (tables : UserTables) (peer : SocketAddr) (uid : Z) (target : Address)
  (payload : bytes).
Let P := after_header c tables peer uid target payload.

Lemma resolve_wp (Q : res error UdpDest -> state -> Prop) s :
  (ec_forbidden (uc_enforcement c) = true -> forall po, policies tables !! uid = Some po ->
    UserPolicy.port_forbidden po (port target) = false) ->
  (forall r s' ext, log s' = log s ++ ext -> Forall P ext -> r <> Panic ->
    (forall d, r = Ok d -> dest_ok (uc_enforcement c) (policies tables !! uid) target d) -> Q r s') ->
  wp (resolve_udp_dest target (policies tables !! uid) (uc_enforcement c)) Q s.
Proof.
  intros Hport HQ. unfold resolve_udp_dest.
  assert (Hnil : forall r : res error UdpDest, r <> Panic -> (forall d, r = Ok d ->
    dest_ok (uc_enforcement c) (policies tables !! uid) target d) -> Q r s).
  { intros r Hr Hd. by apply (HQ r s []); [rewrite app_nil_r|..]. }
  set (policy := policies tables !! uid) in *.
  destruct (ec_forbidden (uc_enforcement c) && _) eqn:Hip; cbn [negb].
  - apply andb_true_iff in Hip as [He Hip]. destruct policy as [po|]; [|done]. cbn [expect]. wp_run.
    2:{ by apply Hnil. }
    set (look := ULookedUp (host target) (port target) x).
    assert (Hlook : forall (r : res error UdpDest) s', log s' = log s ++ [look] -> r <> Panic ->
      (forall d, r = Ok d -> dest_ok (uc_enforcement c) (Some po) target d) -> Q r s').
    { intros r s' Hl Hr Hd. by apply (HQ r s' [look]); [|repeat constructor|..]. }
    destruct x as [resolved|]; wp_run; [|by apply Hlook].
    unfold bail_if. destruct (length resolved =? 0); wp_run; [by apply Hlook|].
    destruct (find _ resolved) as [a|] eqn:Hf; wp_run; [|by apply Hlook].
    apply Hlook; [done|done|]. intros d [= <-]. apply find_some in Hf as [_ Hf].
    split; [by apply Hport|]. exists po. split; [done|]. by apply negb_true_iff.
  - wp_run. apply Hnil; [done|]. intros d [= <-]. split; [by apply Hport|]. split; [done|].
    intros He po Hpo. rewrite He, Hpo in Hip. exact Hip.
Qed.

Lemma find_association_emits key rkey loc :
  key = {| ak_peer := peer; ak_user_id := uid |} -> emits P (find_association key rkey loc).
Proof.
  intros ->. unfold find_association, on_map. repeat emits_step. done.
Qed.

(** Behind the header. *)
Lemma forward_wp key rkey loc s :
  key = {| ak_peer := peer; ak_user_id := uid |} ->
  (ec_forbidden (uc_enforcement c) = true -> forall po, policies tables !! uid = Some po ->
    UserPolicy.port_forbidden po (port target) = false) ->
  wp (dest ← resolve_udp_dest target (policies tables !! uid) (uc_enforcement c);
      sock ← find_association key rkey loc;
      ok ← await (SendTo sock payload dest);
      emit (Forwarded key sock payload dest);;
      if (ok : bool) then mret () else lift (Err SendFailed))
    (fun r s' => exists ext, log s' = log s ++ ext /\ Forall P ext /\
      (r = Ok () -> exists l sock d, ext = l ++ [Forwarded key sock payload d])) s.
Proof.
  intros Hkey Hport. apply wp_bind, resolve_wp; [done|].
  intros r s1 e1 Hl1 He1 Hr Hd. destruct r as [d|e| |]; cbn [then_]; [|by exists e1..].
  apply wp_bind. eapply wp_mono; [by apply find_association_emits|].
  intros r2 s2 (e2 & Hl2 & He2). cbn beta.
  assert (Hl : log s2 = log s ++ (e1 ++ e2)) by by rewrite Hl2, Hl1, app_assoc.
  assert (He : Forall P (e1 ++ e2)) by by apply Forall_app.
  destruct r2 as [sock|e| |]; cbn [then_]; [|by exists (e1 ++ e2)..].
  wp_run; [|by exists (e1 ++ e2)].
  assert (Hfin : log s2 ++ [Forwarded key sock payload d] =
    log s ++ ((e1 ++ e2) ++ [Forwarded key sock payload d])) by by rewrite Hl, <- app_assoc.
  assert (Hfp : Forall P ((e1 ++ e2) ++ [Forwarded key sock payload d])).
  { apply Forall_app. split; [done|]. constructor; [|done]. split; [done|]. split; [done|by apply Hd]. }
  destruct x; wp_run; (eexists; split; [exact Hfin|]; split; [exact Hfp|]); [|done].
  intros _. by exists (e1 ++ e2), sock, d.
Qed.

End Behind.

Lemma inbound_wp c tables datagram peer s :
  length (uc_master_key c) = CipherKind.key_len (uc_cipher_kind c) ->
  wp (handle_inbound c tables datagram peer) (fun r s' =>
    exists ext, log s' = log s ++ ext /\ inbound_spec c tables datagram peer r ext) s.
Proof.
  intros Hmk. unfold handle_inbound, inbound_spec. wp_run.
  pose proof (udp_decrypt_safe (uc_master_key c) (auth_users tables) (uc_is_multi_user c) datagram
    (uc_cipher_kind c) Hmk) as Hsafe.
  destruct (udp_decrypt_packet _ _ _ _ _) as [[plain auth]|e| |]; cbn [then_]; [|by exists []; rewrite app_nil_r|done..].
  set (uid := default (uc_user_id c) auth). wp_run.
  destruct (udp_counters_for tables uid (uc_user_id c)) as [loc|e| |] eqn:Hcf; cbn [then_];
    [|by exists []; rewrite app_nil_r|by unfold udp_counters_for in Hcf; repeat case_match..].
  unfold u_count. apply wp_bind, wp_bind, wp_on_shared. cbn [then_]. wp_run. cbn [log].
  set (up := UCounted _). pose proof (parse_never_panics plain) as Hps.
  destruct (parse plain) as [[[target n]|]|e| |] eqn:Hp; cbn [then_]; [| | |done..].
  2,3: exists [up]; split; [done|]; by exists [].
  rewrite slice_from_ok by apply (parse_consumed _ _ _ Hp). cbn [then_]. wp_run. unfold bail_if.
  destruct (ec_forbidden (uc_enforcement c) && match policies tables !! uid with
    | Some p => UserPolicy.port_forbidden p (port target) | None => false end) eqn:Hport; cbn [then_].
  { exists [up]. split; [done|]. exists []. by split_and!; [|constructor|]. }
  apply wp_bind, wp_on_shared. cbn [then_].
  eapply wp_mono; [apply (forward_wp c tables peer uid target (drop n plain)); [done|]|].
  { intros He po Hpo. by rewrite He, Hpo in Hport. }
  cbn [log]. intros r s' (ext & Hl & Hext & Hok). cbn beta. exists (up :: ext).
  split; [rewrite Hl; by rewrite <- app_assoc|]. by exists ext.
Qed.

(** ** The listener and its pumps *)

(** The generator fills its buffer; a new socket is not one opened before. *)
Definition udp_env_ok : Prop :=
  (forall n l sh b sh', react (GetRandom n) l sh = Some (Some b, sh') -> length b = n) /\
  (forall l sh sock sh', react Bind l sh = Some (Some sock, sh') -> forall k, Opened k sock ∉ l).

(** Associations are in the log with their peer. *)
Definition owned (m : Associations) (l : list udp_label) : Prop :=
  forall k e, BoundedTtlMap.map m !! k = Some e ->
    Opened k (outbound (value e)) ∈ l /\ pump_peer (value e) = ak_peer k.

(** Who a socket belongs to, and what goes through it. *)
Definition isolated (l : list udp_label) : Prop :=
  (forall k1 k2 sock, Opened k1 sock ∈ l -> Opened k2 sock ∈ l -> k1 = k2) /\
  (forall sock pkt p, Replied sock pkt p ∈ l -> exists k, Opened k sock ∈ l /\ ak_peer k = p) /\
  (forall k sock b d, Forwarded k sock b d ∈ l -> Opened k sock ∈ l).

Definition listener_inv (cap : nat) (s : state) : Prop :=
  BoundedTtlMap.bounded (local s) /\ BoundedTtlMap.capacity (local s) = cap /\
  owned (local s) (log s) /\ isolated (log s).

Definition quiet (x : udp_label) : Prop :=
  match x with UCounted _ | ULookedUp _ _ _ => True | _ => False end.

Lemma isolated_snoc l x :
  isolated l ->
  match x with
  | Opened _ sock => forall k', Opened k' sock ∉ l
  | Replied sock _ p => exists k, Opened k sock ∈ l /\ ak_peer k = p
  | Forwarded k sock _ _ => Opened k sock ∈ l
  | _ => True
  end -> isolated (l ++ [x]).
Proof.
  intros (H1 & H2 & H3) Hx. split_and!.
  - intros k1 k2 sock. rewrite !elem_of_app, !list_elem_of_singleton.
    intros [Ha|Ha] [Hb|Hb]; subst; [by eapply H1|by destruct (Hx k1)|by destruct (Hx k2)|congruence].
  - intros sock pkt p. rewrite elem_of_app, list_elem_of_singleton. intros [Ha|Ha].
    + destruct (H2 _ _ _ Ha) as (k & Hk & Hp). exists k. split; [apply elem_of_app; by left|done].
    + subst x. destruct Hx as (k & Hk & Hp). exists k. split; [apply elem_of_app; by left|done].
  - intros k sock b d. rewrite elem_of_app, list_elem_of_singleton. intros [Ha|Ha].
    + apply elem_of_app. left. by eapply H3.
    + subst x. apply elem_of_app. by left.
Qed.

Lemma owned_app m l x : owned m l -> owned m (l ++ [x]).
Proof. intros Ho k e He. destruct (Ho k e He). split; [apply elem_of_app; by left|done]. Qed.

(** Maps whose entries come from owned ones. *)
Lemma owned_origin m m' l :
  owned m l ->
  (forall k e, BoundedTtlMap.map m' !! k = Some e ->
    exists e0, BoundedTtlMap.map m !! k = Some e0 /\
      outbound (value e0) = outbound (value e) /\ pump_peer (value e0) = pump_peer (value e)) ->
  owned m' l.
Proof.
  intros Ho Hm k e He. destruct (Hm k e He) as (e0 & He0 & Hout & Hpeer).
  rewrite <- Hout, <- Hpeer. by apply Ho.
Qed.

Section Inv.
Context (cap : nat).
Let inv := listener_inv cap.

(** Steps of the map and of the log that keep the invariant. *)
Lemma inv_log s x sh :
  inv s -> isolated (log s ++ [x]) ->
  inv {| local := local s; shared := sh; log := log s ++ [x] |}.
Proof. intros (Hb & Hc & Ho & _) Hi. split_and!; [done|done|by apply owned_app|done]. Qed.

Lemma inv_map (m : Associations) s sh :
  inv s -> BoundedTtlMap.bounded m -> BoundedTtlMap.capacity m = cap -> owned m (log s) ->
  inv {| local := m; shared := sh; log := log s |}.
Proof. by intros (_ & _ & _ & Hi) Hb Hc Ho. Qed.

Lemma inv_op now o s sh :
  inv s -> owned (BoundedTtlMap.exec now o (local s)) (log s) ->
  inv {| local := BoundedTtlMap.exec now o (local s); shared := sh; log := log s |}.
Proof.
  intros Hi Ho. pose proof Hi as (Hb & Hc & _). apply inv_map; [done| | |done].
  - by apply BoundedTtlMap.exec_bounded.
  - by rewrite (proj1 (BoundedTtlMap.exec_same now o (local s))).
Qed.

Lemma inv_shared s sh : inv s -> inv {| local := local s; shared := sh; log := log s |}.
Proof. done. Qed.

Lemma inv_quiet s x sh : inv s -> quiet x ->
  inv {| local := local s; shared := sh; log := log s ++ [x] |}.
Proof.
  intros Hi Hx. apply inv_log; [done|]. destruct Hi as (_ & _ & _ & Hi).
  apply isolated_snoc; [done|]. by destruct x.
Qed.

Lemma touch_inv now key s sh : inv s ->
  inv {| local := (BoundedTtlMap.touch now key (local s)).2; shared := sh; log := log s |}.
Proof.
  intros Hi. apply (inv_op now (BoundedTtlMap.OTouch key) s sh Hi).
  apply (owned_origin (local s)); [apply Hi|]. intros k e He.
  destruct (BoundedTtlMap.touch_origin _ _ _ _ _ He) as (e0 & He0 & Hv). exists e0. by rewrite Hv.
Qed.

Lemma expire_inv now s sh : inv s ->
  inv {| local := BoundedTtlMap.expire now (local s); shared := sh; log := log s |}.
Proof.
  intros Hi. apply (inv_op now BoundedTtlMap.OExpire s sh Hi).
  apply (owned_origin (local s)); [apply Hi|]. intros k e He.
  exists e. split; [by eapply BoundedTtlMap.expire_subset|done].
Qed.

Lemma finish_inv k s sh : inv s ->
  inv {| local := finish_pump k (local s); shared := sh; log := log s |}.
Proof.
  intros Hi. pose proof Hi as ((H1 & Hb) & Hc & Ho & _). apply inv_map; [done| |done|].
  - split; [done|]. unfold finish_pump. cbn. rewrite <- size_dom, dom_alter_L, size_dom. done.
  - apply (owned_origin (local s)); [done|]. intros k' e. unfold finish_pump. cbn.
    destruct (decide (k = k')) as [<-|Hne].
    + rewrite lookup_alter_eq. destruct (BoundedTtlMap.map (local s) !! k) as [e0|]; [|done].
      cbn. intros [= <-]. by exists e0.
    + rewrite lookup_alter_ne by done. intros He. by exists e.
Qed.

(** Opening an association. *)
Lemma open_inv now key a s sh :
  inv s -> pump_peer a = ak_peer key -> (forall k, Opened k (outbound a) ∉ log s) ->
  inv {| local := BoundedTtlMap.insert now key a (local s); shared := sh;
         log := log s ++ [Opened key (outbound a)] |}.
Proof.
  intros Hi Hp Hnew. pose proof Hi as (Hb & Hc & Ho & His). split_and!.
  - by apply BoundedTtlMap.insert_bounded.
  - cbn [local]. rewrite <- Hc.
    apply (BoundedTtlMap.exec_same now (BoundedTtlMap.OInsert key a) (local s)).
  - cbn [local log]. intros k e He.
    destruct (BoundedTtlMap.insert_origin _ _ _ _ _ _ He) as [[-> ->]|He0].
    + split; [|done]. apply elem_of_app. right. by apply list_elem_of_singleton.
    + destruct (Ho k e He0). split; [apply elem_of_app; by left|done].
  - by apply isolated_snoc.
Qed.

Lemma find_association_inv key rkey loc s :
  udp_env_ok -> inv s ->
  wp (find_association key rkey loc) (fun r s' => inv s' /\ r <> Panic /\
    forall sock, r = Ok sock -> Opened key sock ∈ log s') s.
Proof.
  intros [_ Hbind] Hi. unfold find_association. wp_run; [|done].
  apply wp_on_map. cbn [then_ local shared log].
  pose proof (touch_inv x key s sh Hi) as Hi2.
  assert (Ht : forall a, (BoundedTtlMap.touch x key (local s)).1 = Some a ->
    Opened key (outbound a) ∈ log s).
  { intros a. unfold BoundedTtlMap.touch. destruct (BoundedTtlMap.map (local s) !! key) as [e|] eqn:He; [|done].
    intros [= <-]. by apply Hi. }
  destruct (BoundedTtlMap.touch x key (local s)) as [[a|] m2]; cbn [fst snd] in *; cbn [then_].
  { wp_run. split_and!; [done|done|]. intros sock [= <-]. by apply Ht. }
  apply wp_bind, wp_on_shared. cbn [then_]. apply wp_bind, wp_await_eq; [|done].
  cbn [log local shared]. intros sock sh2 Hsock. cbn [then_].
  destruct sock as [sock|]; [|done]. wp_run; [|done]. apply wp_on_map. cbn [then_ local shared log fst snd].
  wp_run. split_and!; [|done|].
  - apply (open_inv _ key {| outbound := sock; response_key := rkey; pump_counters := loc;
      pump_peer := ak_peer key; pump_done := false |} _ _ Hi2); [done|]. cbn [outbound log].
    by eapply Hbind.
  - intros sock' [= <-]. apply elem_of_app. right. by apply list_elem_of_singleton.
Qed.

Lemma resolve_inv target policy e s :
  inv s -> wp (resolve_udp_dest target policy e) (fun r s' => inv s' /\ r <> Panic) s.
Proof.
  intros Hi. unfold resolve_udp_dest.
  destruct (ec_forbidden e && _) eqn:Hip; cbn [negb]; [|by wp_run].
  apply andb_true_iff in Hip as [_ Hip]. destruct policy as [po|]; [|done]. cbn [expect]. wp_run; [|done].
  assert (Hi2 : forall sh, inv {| local := local s; shared := sh;
    log := log s ++ [ULookedUp (host target) (port target) x] |}) by (intros; by apply inv_quiet).
  destruct x as [resolved|]; wp_run; [|by split; [apply Hi2|]].
  unfold bail_if. destruct (length resolved =? 0); wp_run; [by split; [apply Hi2|]|].
  destruct (find _ resolved); wp_run; by split; [apply Hi2|].
Qed.

Lemma handle_inbound_inv c tables datagram peer s :
  length (uc_master_key c) = CipherKind.key_len (uc_cipher_kind c) ->
  udp_env_ok -> inv s ->
  wp (handle_inbound c tables datagram peer) (fun r s' => inv s' /\ r <> Panic) s.
Proof.
  intros Hmk He Hi. unfold handle_inbound. wp_run.
  pose proof (udp_decrypt_safe (uc_master_key c) (auth_users tables) (uc_is_multi_user c) datagram
    (uc_cipher_kind c) Hmk) as Hsafe.
  destruct (udp_decrypt_packet _ _ _ _ _) as [[plain auth]|e| |]; cbn [then_]; [|done..]. wp_run.
  destruct (udp_counters_for tables _ (uc_user_id c)) as [loc|e| |] eqn:Hcf; cbn [then_];
    [|done|by unfold udp_counters_for in Hcf; repeat case_match..].
  unfold u_count. apply wp_bind, wp_bind, wp_on_shared. cbn [then_]. wp_run. cbn [local shared log].
  pose proof (parse_never_panics plain) as Hps.
  assert (Hi2 : forall sh, inv {| local := local s; shared := sh; log := log s ++
    [UCounted {| add_loc := loc; add_up := true; add_bytes := length datagram |}] |})
    by (intros; by apply inv_quiet).
  destruct (parse plain) as [[[target n]|]|e| |] eqn:Hp; cbn [then_]; [|by split; [apply Hi2|]..|done|done].
  rewrite slice_from_ok by apply (parse_consumed _ _ _ Hp). cbn [then_]. wp_run. unfold bail_if.
  destruct (ec_forbidden (uc_enforcement c) && match policies tables !! default (uc_user_id c) auth with
    | Some p => UserPolicy.port_forbidden p (port target) | None => false end);
    cbn [then_]; [by split; [apply Hi2|]|].
  apply wp_bind, wp_on_shared. cbn [then_ local shared log]. apply wp_bind.
  eapply wp_mono; [apply resolve_inv, Hi2|]. intros r s2 [Hi3 Hr]. cbn beta.
  destruct r as [dest|e| |]; cbn [then_]; [|done..]. apply wp_bind.
  eapply wp_mono; [by apply find_association_inv|]. intros r3 s3 (Hi4 & Hr3 & Hop). cbn beta.
  destruct r3 as [sock|e| |]; cbn [then_]; [|done..]. wp_run; [|done].
  assert (Hi5 : forall sh d, inv {| local := local s3; shared := sh; log := log s3 ++
    [Forwarded {| ak_peer := peer; ak_user_id := default (uc_user_id c) auth |} sock (drop n plain) d] |}).
  { intros sh9 d. apply inv_log; [done|]. apply isolated_snoc; [apply Hi4|by apply Hop]. }
  destruct x; wp_run; by split; [apply Hi5|].
Qed.

Lemma udp_encrypt_ok mk key data k iv :
  length mk = CipherKind.key_len k -> length iv = CipherKind.iv_len k ->
  exists pkt, udp_encrypt_packet (fun _ => Some iv) mk key data k = Ok pkt.
Proof.
  intros Hmk Hiv.
  destruct (udp_server_to_client (fun _ => Some iv) mk key data k iv Hmk eq_refl Hiv)
    as (pkt & _ & Hpkt & _). by exists pkt.
Qed.

Lemma pump_inv c k a data from s :
  length (uc_master_key c) = CipherKind.key_len (uc_cipher_kind c) -> udp_env_ok -> inv s ->
  Opened k (outbound a) ∈ log s -> pump_peer a = ak_peer k ->
  wp (pump c k a data from) (fun r s' => inv s' /\ r <> Panic /\ forall e, r <> Err e) s.
Proof.
  intros Hmk [Hrnd _] Hi Hop Hpeer. unfold pump. apply wp_bind, wp_await_eq; [|done].
  intros iv sh Hiv. cbn [then_]. destruct iv as [iv|].
  2:{ unfold udp_encrypt_packet, getrandom. cbn. by wp_run. }
  destruct (udp_encrypt_ok (uc_master_key c) (response_key a)
    (pack_socket_addr (sa_ip from) (sa_port from) ++ data) (uc_cipher_kind c) iv Hmk
    (Hrnd _ _ _ _ _ Hiv)) as [pkt ->].
  unfold u_count. apply wp_bind, wp_bind, wp_on_shared. cbn [then_]. apply wp_emit. cbn [then_].
  match goal with |- wp _ _ ?s1 =>
    assert (inv s1) as Hi1 by (by apply inv_quiet);
    assert (Opened k (outbound a) ∈ log s1) as Hop1 by (apply elem_of_app; by left);
    generalize dependent s1 end.
  intros s1 Hi1 Hop1. apply wp_bind, wp_await; [|done]. intros ok sh1. cbn [then_].
  apply wp_bind, wp_emit. cbn [then_ local shared log].
  assert (Hi3 : inv {| local := local s1; shared := sh1;
    log := log s1 ++ [Replied (outbound a) pkt (pump_peer a)] |}).
  { apply inv_log; [done|]. apply isolated_snoc; [apply Hi1|]. by exists k. }
  destruct ok; [by wp_run|]. apply wp_on_map. cbn [local shared log fst snd].
  split; [|by split]. by apply (finish_inv k _ _ Hi3).
Qed.

Lemma pump_of_some sock m k a : pump_of sock m = Some (k, a) ->
  exists e, BoundedTtlMap.map m !! k = Some e /\ value e = a /\ outbound a = sock /\ pump_done a = false.
Proof.
  unfold pump_of. destruct (find _ _) as [[k' e]|] eqn:Hf; [|done].
  destruct (pump_done (value e)) eqn:Hd; [done|]. intros [= <- <-].
  apply find_some in Hf as [Hin Hout]. exists e.
  apply list_elem_of_In, elem_of_map_to_list in Hin. by apply Nat.eqb_eq in Hout.
Qed.

(** How the listener ends: it is stopped, or its socket fails. *)
Definition listener_end (r : res error ()) : Prop :=
  r <> Panic /\ forall e, r = Err e -> e = ListenFailed \/ e = ReadFailed.

Lemma listen_loop_inv fuel c s :
  length (uc_master_key c) = CipherKind.key_len (uc_cipher_kind c) -> udp_env_ok -> inv s ->
  wp (listen_loop fuel c) (fun r s' => inv s' /\ listener_end r) s.
Proof.
  intros Hmk He. revert s. induction fuel as [|fuel IH]; intros s Hi; cbn [listen_loop].
  { by split_and!. }
  assert (Hnext : forall (r : res error ()) s', inv s' /\ r <> Panic /\ (forall e, r <> Err e) ->
    then_ (fun _ => listen_loop fuel c) (fun r s' => inv s' /\ listener_end r) r s').
  { intros r s' (Hi' & Hr & Hre). destruct r as [[]|e| |]; cbn [then_];
      [by apply IH|by destruct (Hre e)|done|by split_and!]. }
  wp_run; [|by split_and!]. destruct x as [|datagram peer| |sock data from|sock].
  - by wp_run; split_and!.
  - wp_run; [|by split_and!]. apply wp_on_map. cbn [then_ local shared log fst snd].
    apply wp_bind, wp_on_shared. cbn [then_ local shared log fst snd]. apply wp_bind.
    pose proof (handle_inbound_inv c (u_published sh0) (take BUF_SIZE datagram) peer _ Hmk He
      (expire_inv x s sh0 Hi)) as Hw.
    unfold wp, dropped in *. destruct (handle_inbound _ _ _ _ _) as [[[]|e| |] s'];
      apply Hnext; destruct Hw as [Hw1 Hw2]; by split_and!.
  - wp_run. split; [done|]. split; [done|]. intros e [= <-]. by right.
  - wp_run. cbn [local]. destruct (pump_of sock (local s)) as [[k a]|] eqn:Hpump.
    + apply pump_of_some in Hpump as (e & Hk & <- & _ & _).
      destruct Hi as (Hb & Hc & Ho & His) eqn:Heq. destruct (Ho k e Hk) as [Hop Hpeer].
      eapply wp_mono; [by apply pump_inv|]. cbn. intros r s' Hr. by apply Hnext.
    + wp_run. by apply IH.
  - wp_run. cbn [local]. destruct (pump_of sock (local s)) as [[k a]|].
    + apply wp_on_map. cbn [local shared log fst snd]. apply Hnext. split; [by apply (finish_inv k s)|by split].
    + wp_run. by apply IH.
Qed.

End Inv.

(** The listener from its start: the empty map satisfies the invariant. *)
Lemma start_listener_inv fuel t sh k :
  Profile.cipher_kind (la_profile (udp_args t)) = Ok k -> udp_env_ok ->
  wp (run_listener fuel t)
    (fun r s' => listener_inv (Nat.max (ut_max_associations t) 1) s' /\ listener_end r)
    {| local := BoundedTtlMap.new (ut_association_ttl t) (Nat.max (ut_max_associations t) 1);
       shared := sh; log := [] |}.
Proof.
  intros Hk He. assert (Hi : forall sh', listener_inv (Nat.max (ut_max_associations t) 1)
    {| local := BoundedTtlMap.new (ut_association_ttl t) (Nat.max (ut_max_associations t) 1);
       shared := sh'; log := [] |}).
  { intros sh'. split_and!.
    - split; cbn -[Nat.max]; [lia|]. rewrite map_size_empty. lia.
    - cbn -[Nat.max]. lia.
    - intros k' e'. cbn. by rewrite lookup_empty.
    - split_and!; intros *; by intros ?%not_elem_of_nil. }
  unfold run_listener. wp_run; [|by split_and!]. destruct x; cbn [negb].
  - rewrite Hk. wp_run. apply listen_loop_inv; [apply length_evp_bytes_to_key|done|done].
  - wp_run. split; [done|]. split; [done|]. intros e [= <-]. by left.
Qed.

End Spec.

(** ** Properties *)

(** C18 One client datagram, on every branch and in every environment: if it
    does not decrypt, or no counter exists, nothing happens; else exactly its
    length is counted as upload at the counter of the user it is accounted
    to; an incomplete or bad address header ends it there; and otherwise the
    only datagrams sent carry the payload behind the header, out of a socket
    of this peer and this user, to a destination the user's forbidden lists
    allow; one is sent when the call succeeds. *)
Theorem udp_inbound_branches `{HL : CryptoLaws} `{RE : RegexEngine} `{HO : HashOrder}
    (E : Env UdpAwait UShared udp_label) c tables datagram peer s
    (Hmk : length (uc_master_key c) = CipherKind.key_len (uc_cipher_kind c)) :
  let '(r, s') := handle_inbound c tables datagram peer s in
  exists ext, log s' = log s ++ ext /\ inbound_spec c tables datagram peer r ext.
Proof.
  pose proof (inbound_wp c tables datagram peer s Hmk) as Hw. unfold wp in Hw.
  by destruct (handle_inbound c tables datagram peer s) as [r s'].
Qed.

(** C9 The listener of a supported profile and its pumps, through any turns
    and in every environment whose generator fills its buffer and whose
    sockets are new: no panic, and no end but a stop, a failed bind or a
    failed receive; never more associations than configured; every socket
    belongs to one peer and user; what comes back on it goes to that peer
    only, and only datagrams of that peer and user go out of it. *)
Theorem udp_listener_isolated `{HL : CryptoLaws} `{RE : RegexEngine} `{HO : HashOrder}
    (E : Env UdpAwait UShared udp_label) fuel t sh k
    (Hk : Profile.cipher_kind (la_profile (udp_args t)) = Ok k) (He : udp_env_ok) :
  let '(r, s) := start_listener fuel t sh in
  listener_end r /\
  BoundedTtlMap.len (local s) <= Nat.max (ut_max_associations t) 1 /\
  isolated (log s).
Proof.
  pose proof (start_listener_inv fuel t sh k Hk He) as Hw. unfold wp in Hw. unfold start_listener.
  destruct (run_listener fuel t _) as [r s]. cbn [fst snd] in Hw.
  destruct Hw as [((Hcap & Hb) & Hc & _ & Hi) Hr]. split_and!; [done| |done].
  unfold BoundedTtlMap.len. lia.
Qed.

(** C24 The pump, in every environment whose generator fills its buffer: the
    reply to the peer opens, under the IV it carries and the port's key, to
    the address header of the sender, the sender's data, and their MAC
    under the association's response key; the header parses back to the
    sender; and its length is what is counted as download. *)
Theorem udp_reply_opens `{HL : CryptoLaws} `{RE : RegexEngine} `{HO : HashOrder}
    (E : Env UdpAwait UShared udp_label) c k a data from s
    (Hmk : length (uc_master_key c) = CipherKind.key_len (uc_cipher_kind c)) (He : udp_env_ok)
    (Hip : ip_wf (sa_ip from)) (Hport : (0 <= sa_port from < 2 ^ 16)%Z) :
  let '(r, s') := pump c k a data from s in
  log s' = log s \/
  exists pkt iv stream,
    let plain := pack_socket_addr (sa_ip from) (sa_port from) ++ data in
    let up := UCounted {| add_loc := pump_counters a; add_up := false; add_bytes := length pkt |} in
    (log s' = log s ++ [up] \/ log s' = (log s ++ [up]) ++ [Replied (outbound a) pkt (pump_peer a)]) /\
    take (CipherKind.iv_len (uc_cipher_kind c)) pkt = iv /\
    StreamCipher.new_stream (E:=error) (uc_cipher_kind c) (uc_master_key c) iv = Ok stream /\
    (StreamCipher.process stream (drop (CipherKind.iv_len (uc_cipher_kind c)) pkt)).1 =
      plain ++ hmac_md5_prefix (response_key a) plain 4 /\
    parse plain = Ok (Some ({| host := ip_to_string (sa_ip from); port := sa_port from |},
      length (pack_socket_addr (sa_ip from) (sa_port from)))).
Proof.
  destruct He as [Hrnd _]. unfold pump, await, mbind, ST_bind. cbv zeta.
  destruct (react (GetRandom _) _ _) as [[iv sh1]|] eqn:Hiv; [|by left].
  destruct iv as [iv|]; [|by left].
  destruct (udp_server_to_client (fun _ => Some iv) (uc_master_key c) (response_key a)
    (pack_socket_addr (sa_ip from) (sa_port from) ++ data) (uc_cipher_kind c) iv Hmk eq_refl
    (Hrnd _ _ _ _ _ Hiv)) as (pkt & stream & -> & Htake & Hnew & Hopen).
  pose proof (parse_packed_ip (sa_ip from) (sa_port from) data Hip Hport) as Hparse.
  unfold u_count, on_shared, emit, modify, on_map, on_local, mret, ST_ret, mbind, ST_bind. cbn.
  destruct (react (SendPeer _ _) _ _) as [[[] sh2]|]; cbn; right; exists pkt, iv, stream; split_and!;
    try done; first [by left|by right].
Qed.

(** C39 An association is reused as it is: a further datagram of the same
    peer and user changes neither the key its replies are signed with nor
    its counter, whatever the tables say by now (a changed password, a new
    counter), nor does it revive a pump that has ended; it only keeps the
    association from expiring. *)
Theorem association_reused `{RE : RegexEngine} `{HO : HashOrder}
    (E : Env UdpAwait UShared udp_label) key rkey loc s e
    (Hk : BoundedTtlMap.map (local s) !! key = Some e) :
  let '(r, s') := find_association key rkey loc s in
  (r = OutOfFuel /\ s' = s) \/
  (r = Ok (outbound (value e)) /\ log s' = log s /\
   exists now, BoundedTtlMap.map (local s') =
     <[key := {| value := value e; last_seen := now |}]> (BoundedTtlMap.map (local s))).
Proof.
  unfold find_association, await, on_map, on_local, mret, ST_ret, mbind, ST_bind.
  destruct (react Now _ _) as [[now sh]|]; [|by left]. cbn [local shared log].
  unfold BoundedTtlMap.touch, Associations in *. rewrite Hk.
  right. split_and!; [done|done|]. by exists now.
Qed.

(** ** Witnesses *)

Import Toy.

Definition toy_master : bytes := derive_master_key "carrier" CipherKind.Rc4Md5.

(** A datagram of user 42 to port 53 of "a". *)
Definition toy_datagram : bytes :=
  match StreamCipher.new_stream (E:=error) CipherKind.Rc4Md5 toy_master toy_iv with
  | Ok st => client_datagram st toy_iv (digest [Byte.x70]) 42 (pack_domain [Byte.x61] 53 ++ [Byte.x05])
  | _ => []
  end.

Definition toy_udp_context : UdpContext :=
  {| uc_user_id := 1; uc_master_key := toy_master;
     uc_enforcement := {| ec_forbidden := true; ec_conn_limit := true; ec_audit_block := true;
                          ec_speed := true |};
     uc_is_multi_user := 2; uc_cipher_kind := CipherKind.Rc4Md5 |}.

Definition toy_udp_task : UdpListenerTask :=
  {| udp_args := {| la_listen_host := "0.0.0.0"; la_user_id := 1; la_port := 558; la_password := "carrier";
       la_profile := {| Profile.method := "rc4-md5"; Profile.protocol := "auth_aes128_md5";
                        Profile.obfs := "plain"; Profile.timeout := from_secs 300 |};
       la_enforcement := uc_enforcement toy_udp_context; la_is_multi_user := 2 |};
     ut_association_ttl := 60; ut_max_associations := 4 |}.

Definition toy_udp_tables : UserTables :=
  {| auth_users := toy_users; counters_by_user := {[42%Z := 0]}; conns_by_user := ∅;
     speeds_by_user := ∅; policies := ∅ |}.

Definition toy_udp_shared : @UShared ToyRegex.engine :=
  {| u_cells := {[0 := zero_counters]}; u_events := []; u_rules := []; u_published := toy_udp_tables; u_moment := 0 |}.

Definition toy_peer (n : Z) : SocketAddr :=
  {| sa_ip := V4 167772161; sa_port := n |}.

(** The sockets a log opened. *)
Definition opened (l : list udp_label) : list nat :=
  omap (fun x => match x with Opened _ sock => Some sock | _ => None end) l.

(** Two peers send the datagram, the first socket is answered, and the
    listener is stopped.  Sockets are numbered. *)
#[local] Instance toy_udp_env : Env UdpAwait (@UShared ToyRegex.engine) udp_label :=
  fun X c l sh =>
    match c with
    | BindListener _ _ => Some (true, sh)
    | NextTurn => Some (match length l with
        | 0 => Inbound toy_datagram (toy_peer 4000)
        | 3 => Inbound toy_datagram (toy_peer 4001)
        | 6 => Answer 1 [Byte.x09] (toy_peer 53)
        | _ => Stop
        end, sh)
    | Now => Some (0, sh)%Z
    | UdpLookup _ _ => Some (Some [toy_peer 53], sh)
    | Bind => Some (Some (S (list_max (opened l))), sh)
    | SendTo _ _ _ => Some (true, sh)
    | GetRandom n => Some (Some (repeat Byte.x0a n), sh)
    | SendPeer _ _ => Some (true, sh)
    end.

Lemma toy_udp_env_ok : @udp_env_ok ToyRegex.engine toy_udp_env.
Proof.
  split; [by intros n l sh b sh' [= <- <-]; apply repeat_length|].
  intros l sh sock sh' [= <- <-] k Hin.
  assert (H : S (list_max (opened l)) ∈ opened l).
  { apply list_elem_of_omap; by exists (Opened k (S (list_max (opened l)))). }
  apply list_elem_of_In in H. pose proof (proj1 (list_max_le (opened l) _) (le_n _)) as Hm.
  rewrite List.Forall_forall in Hm. specialize (Hm _ H). lia.
Qed.

(** What the run is: the kinds of its labels. *)
#[local] Existing Instance key_order.

Example toy_udp_run :
  let '(r, s) := start_listener (Env0:=toy_udp_env) 6 toy_udp_task toy_udp_shared in
  (r, opened (log s), length (log s)) = (Ok (), [1; 2], 8).
Proof. by vm_compute. Qed.

Definition toy_task : task Associations (@UShared ToyRegex.engine) udp_label :=
  {| local := BoundedTtlMap.new 60 4; shared := toy_udp_shared; log := [] |}.

Lemma udp_inbound_branches_witness :
  exists ext,
    log (handle_inbound (H0:=ToyRegex.engine) (Env0:=toy_udp_env) toy_udp_context toy_udp_tables
      toy_datagram (toy_peer 4000) toy_task).2 = [] ++ ext /\ length ext = 3 /\
    @inbound_spec crypto toy_udp_context toy_udp_tables toy_datagram (toy_peer 4000)
      (Ok ()) ext.
Proof.
  pose proof (udp_inbound_branches (HL:=crypto_laws) (RE:=ToyRegex.engine) toy_udp_env toy_udp_context
    toy_udp_tables toy_datagram (toy_peer 4000) toy_task eq_refl) as Hw.
  assert (Hl : length (log (handle_inbound (H0:=ToyRegex.engine) (Env0:=toy_udp_env) toy_udp_context
    toy_udp_tables toy_datagram (toy_peer 4000) toy_task).2) = 3) by by vm_compute.
  assert (Hr : (handle_inbound (H0:=ToyRegex.engine) (Env0:=toy_udp_env) toy_udp_context
    toy_udp_tables toy_datagram (toy_peer 4000) toy_task).1 = Ok ()) by by vm_compute.
  destruct (handle_inbound _ _ _ _ _) as [r s']. cbn in Hl, Hr. subst r.
  destruct Hw as (ext & Hlog & Hspec). exists ext. split; [exact Hlog|]. split; [|exact Hspec].
  by rewrite <- Hl, Hlog.
Defined.

Lemma udp_listener_isolated_witness :
  isolated (log (start_listener (Env0:=toy_udp_env) 6 toy_udp_task toy_udp_shared).2).
Proof.
  pose proof (udp_listener_isolated (HL:=crypto_laws) (RE:=ToyRegex.engine) toy_udp_env 6 toy_udp_task
    toy_udp_shared CipherKind.Rc4Md5 eq_refl toy_udp_env_ok) as Hw.
  destruct (start_listener _ _ _) as [r s]. apply Hw.
Defined.

Definition toy_key : AssociationKey := {| ak_peer := toy_peer 4000; ak_user_id := 42 |}.
Definition toy_association : Association :=
  {| outbound := 1; response_key := toy_master; pump_counters := 0; pump_peer := toy_peer 4000;
     pump_done := true |}.

Lemma udp_reply_opens_witness :
  let '(r, s') := pump (Env0:=toy_udp_env) toy_udp_context toy_key toy_association [Byte.x09]
    (toy_peer 53) toy_task in
  log s' = [] \/ exists pkt, log s' = [UCounted {| add_loc := 0; add_up := false; add_bytes := length pkt |};
    Replied 1 pkt (toy_peer 4000)] \/ length (log s') = 1.
Proof.
  pose proof (udp_reply_opens (HL:=crypto_laws) (RE:=ToyRegex.engine) toy_udp_env toy_udp_context toy_key
    toy_association [Byte.x09] (toy_peer 53) toy_task eq_refl toy_udp_env_ok ltac:(done) ltac:(done)) as Hw.
  destruct (pump _ _ _ _ _ _) as [r s'].
  destruct Hw as [Hw|(pkt & iv & st & [Hl|Hl] & _)]; [by left|right..]; exists pkt; rewrite Hl; [by right|by left].
Defined.

(** The association whose pump has ended. *)
Definition toy_dead : task Associations (@UShared ToyRegex.engine) udp_label :=
  {| local := BoundedTtlMap.insert 0 toy_key toy_association (BoundedTtlMap.new 60 4);
     shared := toy_udp_shared; log := [] |}.

Lemma association_reused_witness :
  let '(r, s') := find_association (Env0:=toy_udp_env) toy_key [] 7 toy_dead in
  r = OutOfFuel \/ (r = Ok 1 /\ exists now, BoundedTtlMap.map (local s') =
    <[toy_key := {| value := toy_association; last_seen := now |}]> (BoundedTtlMap.map (local toy_dead))).
Proof.
  pose proof (association_reused (RE:=ToyRegex.engine) toy_udp_env toy_key [] 7 toy_dead
    {| value := toy_association; last_seen := 0 |} (lookup_insert_eq _ _ _)) as Hw.
  destruct (find_association _ _ _ _) as [r s'].
  destruct Hw as [[Hw _]|(Hw & _ & Hm)]; [by left|right]. by split.
Defined.
