(* ===== verification/TcpTheorems.v ===== *)
(** * The theorems about a TCP session

    For every environment: what reaches the target and the client
    ([relay_transparent]), which targets are tried ([forbidden_never_tried]),
    that the device slot is held around the connection and given back
    ([slot_held]), that every byte is counted ([session_accounted]).  For an
    environment that plays a script ([Script]): the session ends, having
    delivered what it read, and everything if no end of a side comes early
    ([session_delivers]).  What the log says about slots and counters is
    tied to the shared objects by [TcpHistory.accounts_for]. *)

From S2P Require Import Prelude Errors Kdf Str Cipher Protocol ProtocolSpec.
From S2P Require Import ProtocolPackets Session SessionSpec Client EndToEnd Interleave.
From S2P Require Import Net Address Float Policy RateLimit Traffic Conn RelayAudit Task TcpRelay TcpSpec.
From S2P Require Import TcpHistory TcpSafety.
Import ServerSession.

Section Generic.
Context `{HL : CryptoLaws} `{RE : RegexEngine} `{!Env Await Shared label}.

Lemma fresh_nil k password us multi iv enc :
  sdecode (fresh k password us multi iv enc) [] = Ok ([], fresh k password us multi iv enc).
Proof. by destruct k. Qed.

(** The session's run, for a generator that delivers. *)
Lemma handle_stream_ending rnd iv fuel c sh :
  rnd (CipherKind.iv_len (cipher_kind c)) = Some iv ->
  length iv = CipherKind.iv_len (cipher_kind c) -> env_ok -> sound sh ->
  exists s0, ServerSession.new rnd (password c) (auth_users (tables c)) (sc_is_multi_user c)
      (cipher_kind c) = Ok s0 /\
    let '(r, l, _) := handle_stream rnd fuel c sh in r <> Panic /\ ending c s0 r l.
Proof.
  intros Hr Hiv He Hp.
  destruct (new_fresh rnd (password c) (auth_users (tables c)) (sc_is_multi_user c) (cipher_kind c)
    iv Hr Hiv) as (enc & Hnew & _).
  eexists. split; [exact Hnew|]. unfold handle_stream. rewrite Hnew.
  pose proof (handle_session_wp fuel c _ sh (fresh_swf (cipher_kind c) (password c)
    (auth_users (tables c)) (sc_is_multi_user c) iv enc) (fresh_nil _ _ _ _ _ _) He Hp) as Hw.
  pose proof (handle_session_calm He fuel c {| local := fresh (cipher_kind c) (password c) (auth_users (tables c))
    (sc_is_multi_user c) iv enc; shared := sh; log := [] |} (fresh_swf _ _ _ _ _ _) Hp) as Hcalm.
  unfold wp in Hw, Hcalm. destruct (handle_session fuel c _) as [r s]. by destruct Hcalm as [? _].
Qed.

(** What a session decoded of a byte stream: the target, where the payload
    behind the header starts, and the codec's state. *)
Definition decoded (s0 : ServerSession.t) (l : list label) (up payload : bytes)
    (s1 : ServerSession.t) : Prop :=
  up `prefix_of` received_bytes l /\ sdecode s0 up = Ok (payload, s1).

Lemma ending_transparent c s0 r l :
  ending c s0 r l ->
  exists up payload s1, decoded s0 l up payload s1 /\
    match parse payload with
    | Ok (Some (target, n)) =>
        sent_remote l `prefix_of` drop n payload /\
        exists wire s2, outcome (send_all (remote_chunks l)) s1 = Ok (wire, s2) /\
          sent_client l `prefix_of` wire
    | _ => sent_remote l = [] /\ sent_client l = []
    end.
Proof.
  intros [(Hl & (up & payload & s1 & Hup & Hd & Hno) & _)
         |target n payload t Hl [Hd Hp] _ _
         |target n loc u hs acq ext rel _ Hc _ _ _ _ _ _].
  - exists up, payload, s1. split; [by split|]. destruct (received_only l Hl) as (H1 & H2 & _).
    destruct (parse payload) as [[a|]| | |] eqn:Hp; try done. by destruct (Hno a).
  - exists (received_bytes l), payload, t. split; [by split|]. rewrite Hp.
    destruct (received_only l Hl) as (H1 & H2 & H3 & _). rewrite H1, H2, H3.
    split; [apply prefix_nil|]. by exists [], t.
  - destruct Hc as (up & payload & s1 & wire & s2 & Hup & Hd & Hp & _ & Hr & Hs & Hw & _).
    exists up, payload, s1. split; [by split|]. rewrite Hp. eauto.
Qed.

(** The labels of the session, by part. *)
Lemma ending_labels c s0 r l x :
  ending c s0 r l -> x ∈ l -> ~ is_received x -> (forall a, x <> Counted a) -> is_guard x = false ->
  exists up payload s1 target n, decoded s0 l up payload s1 /\
    parse payload = Ok (Some (target, n)) /\
    relayed c (user_of c (ServerSession.user_id s1)) target x.
Proof.
  intros [[Hl _]|target n payload t Hl _ _ _
         |target n loc u hs acq ext rel _ Hc -> Hhs Hslot Hext _ _] Hx Hnr Hnc Hng.
  - rewrite Forall_forall in Hl. by destruct (Hnr (Hl x Hx)).
  - rewrite Forall_forall in Hl. by destruct (Hnr (Hl x Hx)).
  - destruct Hc as (up & payload & s1 & wire & s2 & Hup & Hd & Hp & Hu & _).
    exists up, payload, s1, target, n. split; [by split|]. split; [done|]. rewrite Hu.
    rewrite !elem_of_app in Hx. rewrite Forall_forall in Hhs, Hext.
    destruct Hx as [[Hx|Hx]|[Hx|[Hx|Hx]]].
    + by destruct (Hnr (Hhs x Hx)).
    + apply list_elem_of_singleton in Hx as ->. by destruct (Hnc _ eq_refl).
    + unfold slot in Hslot. repeat case_match; destruct_and?; subst; try by apply not_elem_of_nil in Hx.
      all: destruct Hslot as [(-> & _)|(sl & _ & -> & _)]; [by apply not_elem_of_nil in Hx|].
      all: by apply list_elem_of_singleton in Hx as ->.
    + by apply Hext.
    + unfold slot in Hslot. repeat case_match; destruct_and?; subst; try by apply not_elem_of_nil in Hx.
      all: destruct Hslot as [(_ & _ & ->)|(sl & _ & _ & ->)]; try by apply not_elem_of_nil in Hx.
      all: by apply list_elem_of_singleton in Hx as ->.
Qed.

Lemma slot_labels c uid r acq ext rel x :
  slot c uid r acq ext rel -> x ∈ acq \/ x ∈ rel -> is_guard x = true.
Proof.
  unfold slot. intros Hslot Hx. case_match.
  - destruct Hslot as [(-> & _ & ->)|(sl & _ & -> & ->)].
    + by destruct Hx as [?%not_elem_of_nil|?%not_elem_of_nil].
    + destruct Hx as [->%list_elem_of_singleton|Hx]; [done|].
      destruct r; try (by apply list_elem_of_singleton in Hx as ->). by apply not_elem_of_nil in Hx.
  - destruct Hslot as [-> ->]. by destruct Hx as [?%not_elem_of_nil|?%not_elem_of_nil].
Qed.

Lemma ending_closed c s0 r l :
  ending c s0 r l -> Closed ∈ l ->
  exists payload s1 target n, sdecode s0 (received_bytes l) = Ok (payload, s1) /\
    parse payload = Ok (Some (target, n)) /\ sent_remote l = drop n payload /\
    exists s2, outcome (send_all (remote_chunks l)) s1 = Ok (sent_client l, s2).
Proof.
  intros [[Hl _]|target n payload t Hl _ _ _
         |target n loc u hs acq ext rel _ Hc Heq Hhs Hslot Hext Hcl _] Hx.
  1,2: rewrite Forall_forall in Hl; by destruct (Hl _ Hx).
  assert (Closed ∈ ext) as Hin.
  { rewrite Heq, !elem_of_app in Hx. rewrite Forall_forall in Hhs.
    destruct Hx as [[Hx|Hx]|[Hx|[Hx|Hx]]]; [by destruct (Hhs _ Hx)|..|done|].
    - by apply list_elem_of_singleton in Hx.
    - by pose proof (slot_labels _ _ _ _ _ _ _ Hslot (or_introl Hx)).
    - by pose proof (slot_labels _ _ _ _ _ _ _ Hslot (or_intror Hx)). }
  destruct (Hcl Hin) as (t & payload & s1 & key & wire & Hd & Hp & _ & _ & _ & Hs & Hr & Hw & _).
  rewrite app_nil_r in Hr, Hw. subst wire. exists payload, s1, target, n. eauto 10.
Qed.

(** The guard's labels of a log. *)
Definition slots (l : list label) : list label := base.filter (fun x => is_guard x = true) l.

Lemma slots_none l : Forall (fun x => is_guard x = false) l -> slots l = [].
Proof.
  unfold slots. induction 1 as [|x l Hx _ IH]; [done|].
  rewrite filter_cons_False; [done|]. by rewrite Hx.
Qed.

Lemma slots_app a b : slots (a ++ b) = slots a ++ slots b.
Proof. apply filter_app. Qed.

Definition tried (x : label) : bool :=
  match x with TriedHost _ _ | TriedAddr _ | LookedUp _ _ _ => true | _ => false end.

(** The slot of a session of the user [uid]: none without a cap; with one,
    nothing was tried without it, and it is given back. *)
Definition slot_discipline (c : StreamContext) (uid : Z) (r : res error ()) (l : list label) : Prop :=
  match needs_slot c uid with
  | None => slots l = []
  | Some limit =>
      (slots l = [] /\ Forall (fun x => tried x = false) l) \/
      exists loc, conns_by_user (tables c) !! uid = Some loc /\
        slots l = Acquired loc (peer_ip c) limit ::
          match r with OutOfFuel => [] | _ => [Released loc (peer_ip c)] end
  end.

Lemma received_slots hs : Forall is_received hs ->
  slots hs = [] /\ Forall (fun x => tried x = false) hs.
Proof.
  intros Hhs. split; [apply slots_none|]; (eapply Forall_impl; [exact Hhs|]); by intros x [b ->].
Qed.

Lemma ending_slots c s0 r l :
  ending c s0 r l ->
  (Forall is_received l /\ slots l = []) \/
  exists up payload s1 target n, decoded s0 l up payload s1 /\ parse payload = Ok (Some (target, n)) /\
    slot_discipline c (user_of c (ServerSession.user_id s1)) r l.
Proof.
  intros [[Hl _]|target n payload t Hl _ _ _
         |target n loc u hs acq ext rel _ Hc -> Hhs Hslot Hext Hcl _].
  1,2: left; split; [done|]; by apply received_slots.
  right. destruct Hc as (up & payload & s1 & wire & s2 & Hup & Hd & Hp & <- & _).
  exists up, payload, s1, target, n. split; [by split|]. split; [done|].
  destruct (received_slots hs Hhs) as [Hs1 Hs2].
  assert (slots ext = []) as He.
  { apply slots_none. eapply Forall_impl; [exact Hext|]. intros x [Hx|[Hx|Hx]]; by destruct x. }
  unfold slot_discipline, slot in *. rewrite !slots_app, Hs1, He.
  change (slots [upload _ _]) with (@nil label). cbn [app].
  destruct (needs_slot c _) as [limit|].
  - destruct Hslot as [(-> & -> & ->)|(sl & Hconn & -> & ->)].
    + left. split; [done|]. rewrite !app_nil_r. apply Forall_app. split; [done|by constructor].
    + right. exists sl. split; [done|]. by destruct r.
  - by destruct Hslot as [-> ->].
Qed.

End Generic.

(** ** An environment that plays a script

    The client sends the chunks [sc_client] and closes, the target the chunks
    [sc_remote]; [sc_order i j] says whether the client is served next when
    [i] chunks of the client and [j] of the target have been read; every
    other await succeeds. *)

Record script : Type := {
  sc_client : list bytes; sc_remote : list bytes; sc_order : nat -> nat -> bool
}.

Definition clients_read (l : list label) : list bytes := omap received_of l.
Definition remotes_read (l : list label) : list bytes :=
  omap (fun x => match x with RemoteReceived b => Some b | _ => None end) l.

Section Script.
Context `{HL : CryptoLaws} `{RE : RegexEngine} (sc : script).

Definition next_client (l : list label) : read_result :=
  ReadOk (default [] (sc_client sc !! length (clients_read l))).
Definition next_remote (l : list label) : read_result :=
  ReadOk (default [] (sc_remote sc !! length (remotes_read l))).

(** The script's clock is generous: whatever is asked of a limiter, it has
    filled up since the last time. *)
Definition generous (loc : nat) (sh : Shared) : Instant :=
  match limit_buckets sh !! loc with Some b => (last b + PAUSE)%Z | None => 0%Z end.

Lemma generous_grants loc n sh :
  sound sh -> exists sh', limiter_round loc (generous loc sh) n sh = (Ok Granted, sh') /\ sound sh'.
Proof.
  intros Hsh. destruct (limiter_round_sound loc (generous loc sh) n sh Hsh) as [_ Hsh'].
  unfold limiter_round, generous in *. destruct (limit_buckets sh !! loc) as [b|] eqn:Hl; [|by eexists].
  destruct (acquire_paused (E:=error) (last b + PAUSE) (Z.of_nat n) b) as [b' Hb].
  - by eapply (proj2 Hsh).
  - replace (last b + PAUSE - last b)%Z with PAUSE by lia. by vm_compute.
  - rewrite Hb in *. by eexists.
Qed.

Definition play : Env Await Shared label := fun X a l sh =>
  match a in Await X return option (X * Shared) with
  | ReadClient => Some (Some (next_client l), sh)
  | Select =>
      Some (if sc_order sc (length (clients_read l)) (length (remotes_read l))
            then ClientReadable (next_client l) else RemoteReadable (next_remote l), sh)
  | LockLimiter loc =>
      Some (generous loc sh, sh)
  | SleepFor _ => Some ((), sh)
  | WriteInitial _ => Some (None, sh)
  | WriteRemote _ => Some (WriteOk, sh)
  | WriteClient _ => Some (WriteOk, sh)
  | ConnectHost _ _ => Some (true, sh)
  | LookupHost _ p => Some (Some [{| sa_ip := V4 0; sa_port := p |}], sh)
  | ConnectAddr _ => Some (true, sh)
  | ShutdownRemote => Some ((), sh)
  | ShutdownClient => Some ((), sh)
  end.

#[local] Existing Instance play.

Lemma play_env_ok : env_ok.
Proof. intros X a l sh x sh' Hr Hp. destruct a; cbn in Hr; by injection Hr as <- <-. Qed.

Abbreviation IO := (ST (task ServerSession.t Shared label) error).
Abbreviation state := (task ServerSession.t Shared label).

Lemma wp_play {X : Set} (a : Await X) (Q : res error X -> state -> Prop) s x :
  play X a (log s) (shared s) = Some (x, shared s) -> Q (Ok x) s -> wp (await a) Q s.
Proof. intros Hr HQ. unfold wp, await, react. rewrite Hr. by destruct s. Qed.

(** ** Progress *)

Context (s0 : ServerSession.t) (Hs0 : swf s0) (payload : bytes) (s1 : ServerSession.t)
  (target : Address) (n : nat)
  (Hd : sdecode s0 (concat (sc_client sc)) = Ok (payload, s1))
  (Hp : parse payload = Ok (Some (target, n)))
  (Hne : Forall (fun b => b <> []) (sc_client sc))
  (Hner : Forall (fun b => b <> []) (sc_remote sc)).

Lemma take_S_default {A} (d : A) l i :
  i < length l -> take i l ++ [default d (l !! i)] = take (S i) l.
Proof.
  intros Hi. destruct (lookup_lt_is_Some_2 l i Hi) as [x Hx]. rewrite Hx. cbn.
  symmetry. by apply take_S_r.
Qed.

(** Every prefix of the stream decodes. *)
Lemma prefix_decodes i : exists pl t rest, sdecode s0 (concat (take i (sc_client sc))) = Ok (pl, t) /\
  payload = pl ++ rest.
Proof.
  rewrite <- (take_drop i (sc_client sc)), concat_app, sdecode_app in Hd by done.
  apply bind_inv_Ok in Hd as ([o1 t1] & H1 & H2).
  apply bind_inv_Ok in H2 as ([o2 t2] & H2 & [= <- <-]). eauto.
Qed.

Lemma next_decodes i pl t :
  i < length (sc_client sc) -> sdecode s0 (concat (take i (sc_client sc))) = Ok (pl, t) ->
  exists o t', sdecode t (default [] (sc_client sc !! i)) = Ok (o, t').
Proof.
  intros Hi Ht. destruct (prefix_decodes (S i)) as (pl2 & t2 & rest & H2 & _).
  rewrite <- (take_S_default []), concat_app, sdecode_app, Ht, bind_Ok in H2 by done.
  cbn [concat] in H2. rewrite app_nil_r in H2.
  apply bind_inv_Ok in H2 as ([o t'] & H2 & _). eauto.
Qed.

(** A header that is not complete is short: the bound on the handshake's
    buffer is never reached. *)
Lemma parse_none_short buf : parse buf = Ok None -> length buf < 259.
Proof.
  rewrite parse_eq. unfold parse_spec.
  destruct (header_of buf) as [|d| |a|] eqn:Hh; try done; cbn [header_len];
    try (case_match eqn:Hl; [apply Nat.ltb_lt in Hl; intros _|by case_match]).
  - lia.
  - assert (d < 256); [|lia].
    destruct buf as [|b0 [|b1 rest]]; cbn in Hh; repeat case_bool_decide; try done.
    injection Hh as <-. apply u8_idx_lt.
  - lia.
  - intros _. destruct buf as [|b0 [|b1 rest]]; cbn in *; [lia..|]. by repeat case_bool_decide.
Qed.

Lemma no_header_prefix i pl t :
  sdecode s0 (concat (take i (sc_client sc))) = Ok (pl, t) ->
  parse pl = Ok None \/ parse pl = Ok (Some (target, n)).
Proof.
  intros Ht. destruct (prefix_decodes i) as (pl' & t' & rest & Ht' & Heq).
  rewrite Ht in Ht'. injection Ht' as <- <-.
  destruct (parse pl) as [[a|]| | |] eqn:Hpl; [right|by left|right..];
    by rewrite <- Hpl, <- (parse_app pl rest), <- Heq by by rewrite Hpl.
Qed.

(** The script's clock: the chunks read so far. *)
Definition at_turn (l : list label) (i j : nat) : Prop :=
  clients_read l = take i (sc_client sc) /\ remotes_read l = take j (sc_remote sc) /\
  remote_chunks l = take j (sc_remote sc) /\ i <= length (sc_client sc) /\ j <= length (sc_remote sc).

Lemma at_turn_lengths l i j : at_turn l i j ->
  length (clients_read l) = i /\ length (remotes_read l) = j.
Proof. intros (-> & -> & _ & Hi & Hj). rewrite !length_take. lia. Qed.

Lemma next_client_some l i j b :
  at_turn l i j -> next_client l = ReadOk b ->
  (i = length (sc_client sc) /\ b = []) \/
  (i < length (sc_client sc) /\ b = default [] (sc_client sc !! i) /\ b <> [] /\
   at_turn (l ++ [Received b]) (S i) j).
Proof.
  intros Ht [= <-]. pose proof (at_turn_lengths l i j Ht) as [-> _].
  destruct Ht as (Hc & Hr & Hrc & Hi & Hj).
  destruct (decide (i = length (sc_client sc))) as [->|Hlt]; [left|right].
  - by rewrite lookup_ge_None_2.
  - assert (i < length (sc_client sc)) as Hlt' by lia. split_and!; [done|done| |].
    + destruct (lookup_lt_is_Some_2 _ _ Hlt') as [x Hx]. rewrite Hx. cbn.
      rewrite Forall_forall in Hne. apply Hne. by eapply list_elem_of_lookup_2.
    + unfold at_turn, clients_read, remotes_read, remote_chunks in *.
      rewrite !omap_snoc, Hc, Hr, Hrc. cbn [received_of remote_of].
      rewrite take_S_default by done. rewrite app_nil_r. split_and!; [done|done|done|lia|done].
Qed.

Lemma next_remote_some l i j b :
  at_turn l i j -> next_remote l = ReadOk b ->
  (j = length (sc_remote sc) /\ b = []) \/
  (j < length (sc_remote sc) /\ b <> [] /\ at_turn (l ++ [RemoteReceived b]) i (S j)).
Proof.
  intros Ht [= <-]. pose proof (at_turn_lengths l i j Ht) as [_ ->].
  destruct Ht as (Hc & Hr & Hrc & Hi & Hj).
  destruct (decide (j = length (sc_remote sc))) as [->|Hlt]; [left|right].
  - by rewrite lookup_ge_None_2.
  - assert (j < length (sc_remote sc)) as Hlt' by lia.
    destruct (lookup_lt_is_Some_2 _ _ Hlt') as [x Hx].
    assert (x <> []) as Hxn by (rewrite Forall_forall in Hner; apply Hner; by eapply list_elem_of_lookup_2).
    rewrite Hx. cbn [default from_option id]. split_and!; [done|done|].
    unfold at_turn, clients_read, remotes_read, remote_chunks in *.
    rewrite !omap_snoc, Hc, Hr, Hrc. destruct x as [|x0 x]; [done|]. cbn [received_of remote_of].
    rewrite app_nil_r. rewrite (take_S_r _ _ _ Hx). split_and!; [done|done|done|done|lia].
Qed.

(** A label that reads nothing. *)
Definition turnless (x : label) : Prop := received_of x = None /\ forall b, x <> RemoteReceived b.

Lemma at_turn_app l i j ext : Forall turnless ext -> at_turn l i j -> at_turn (l ++ ext) i j.
Proof.
  intros Hext (Hc & Hr & Hrc & Hi & Hj).
  assert (clients_read ext = [] /\ remotes_read ext = [] /\ remote_chunks ext = []) as (H1 & H2 & H3).
  { clear -Hext. induction Hext as [|x ext [Hx1 Hx2] _ IH]; [done|].
    destruct IH as (IH1 & IH2 & IH3). unfold clients_read, remotes_read, remote_chunks in *.
    cbn. rewrite Hx1. destruct x; try done. by destruct (Hx2 b). }
  unfold at_turn, clients_read, remotes_read, remote_chunks in *.
  rewrite !omap_app, Hc, Hr, Hrc, H1, H2, H3, !app_nil_r. done.
Qed.


(** ** The handshake ends *)

Lemma play_handshake fuel app pre s i (Q : res error (option (Address * bytes * Z)) -> state -> Prop) :
  handshaking s0 app s -> at_turn (log s) i 0 -> length (sc_client sc) - i < fuel ->
  (forall h s' i', shared s' = shared s -> at_turn (log s') i' 0 -> Q (Ok (Some h)) s') ->
  wp (handshake fuel app pre) Q s.
Proof.
  intros Hh Ht Hf HQ. revert app pre s i Hh Ht Hf HQ.
  induction fuel as [|fuel IH]; intros app pre s i Hh Ht Hf HQ; [lia|].
  cbn [handshake]. apply wp_bind. eapply wp_play; [done|]. cbn [then_].
  apply wp_bind. destruct (next_client (log s)) as [b|] eqn:Hb; [|done]. cbn [received]. wp_run.
  destruct Hh as (Hrec & Hds & Hpn).
  assert (Hi : received_bytes (log s) = concat (take i (sc_client sc))).
  { pose proof (proj1 Ht) as Hc. unfold clients_read in Hc. unfold received_bytes. by rewrite Hc. }
  destruct (next_client_some _ _ _ _ Ht Hb) as [[-> ->]|(Hlt & Hbd & Hbn & Ht')].
  { exfalso. rewrite Hi, firstn_all, Hd in Hds. injection Hds as <- _. by rewrite Hp in Hpn. }
  rewrite (proj2 (Nat.eqb_neq _ _)) by by destruct b.
  rewrite Hi in Hds. destruct (next_decodes i app (local s) Hlt Hds) as (o & t' & Ho).
  rewrite <- Hbd in Ho. rewrite <- Hi in Hds.
  pose proof (sdecode_snoc _ _ _ _ _ _ _ Hs0 Hds Ho) as Hd'.
  apply wp_bind, wp_decrypt; cbn [local shared log then_]; [by eapply sdecode_swf| |];
    [intros o2 t2 Ho2|intros e t2 He]; [|by rewrite Ho in He].
  rewrite Ho in Ho2. injection Ho2 as <- <-.
  assert (Hrec' : Forall is_received (log s ++ [Received b]))
    by (apply Forall_app; split; [done|by repeat econstructor]).
  destruct (length o =? 0) eqn:Hlo.
  { apply Nat.eqb_eq, nil_length_inv in Hlo as ->. rewrite app_nil_r in Hd'.
    apply (IH _ _ _ (S i)); [done|done|lia|done]. }
  wp_run. pose proof Hd' as Hd2. unfold received_bytes in Hd2.
  change (omap received_of _) with (clients_read (log s ++ [Received b])) in Hd2.
  rewrite (proj1 Ht') in Hd2.
  destruct (no_header_prefix (S i) _ _ Hd2) as [Hnone|Hsome].
  - rewrite Hnone. cbn [then_]. unfold bail_if.
    rewrite (proj2 (Nat.ltb_ge _ _)).
    2:{ pose proof (parse_none_short _ Hnone). unfold MAX_HANDSHAKE_BYTES. lia. }
    wp_run. apply (IH _ _ _ (S i)); [done|done|lia|done].
  - rewrite Hsome. cbn [then_]. pose proof (parse_consumed _ _ _ Hsome).
    rewrite slice_from_ok by lia. wp_run. by eapply HQ.
Qed.

(** ** The relay ends *)

Context (loc : nat) (u : option Z).

Lemma flow_decodes l t rest wrest i b :
  flow s0 target n loc u l t rest wrest -> received_bytes l = concat (take i (sc_client sc)) ->
  i < length (sc_client sc) -> b = default [] (sc_client sc !! i) ->
  exists o t', sdecode t b = Ok (o, t').
Proof.
  intros (pl & t1 & key & wire & Hdl & _ & He & _ & (e & em & pid & ->) & _) Hl Hi ->.
  rewrite Hl in Hdl. destruct (next_decodes i pl t1 Hi Hdl) as (o & t' & Ho).
  rewrite (sdecode_with_send e em pid t1 key), Ho; [|by eapply sdecode_swf|done]. eauto.
Qed.

Lemma at_turn_bytes l i j : at_turn l i j -> received_bytes l = concat (take i (sc_client sc)).
Proof. intros (Hc & _). unfold clients_read in Hc. unfold received_bytes. by rewrite Hc. Qed.

(** A limiter grants in its first round. *)
Lemma play_limit fuel limiter k (Q : res error () -> state -> Prop) s :
  0 < fuel -> sound (shared s) ->
  (forall sh ext, Forall silent ext -> Forall turnless ext -> sound sh ->
    Q (Ok ()) {| local := local s; shared := sh; log := log s ++ ext |}) ->
  wp (limit fuel limiter k) Q s.
Proof.
  intros Hfuel Hsh HQ. destruct limiter as [lim|]; cbn [limit].
  - destruct fuel as [|fuel]; [lia|]. cbn [acquire_tokens].
    apply wp_bind. eapply wp_play; [done|]. cbn [then_]. apply wp_bind, wp_on_shared.
    destruct (generous_grants lim k (shared s) Hsh) as (sh' & -> & Hsh'). cbn [then_ fst snd].
    wp_run. by apply HQ; [repeat constructor..|].
  - wp_run. specialize (HQ (shared s) [] ltac:(constructor) ltac:(constructor) Hsh).
    rewrite app_nil_r in HQ. by destruct s.
Qed.

(** All the payload in hand is written. *)
Lemma play_forward fuel limiter b wrest i j (m : IO ()) (Q : res error () -> state -> Prop) s :
  0 < fuel -> sound (shared s) ->
  flow s0 target n loc u (log s) (local s) b wrest -> at_turn (log s) i j ->
  (forall (R : res error () -> state -> Prop) s',
    R (Ok ()) {| local := local s'; shared := shared s'; log := log s' ++ [SentRemote b] |} ->
    wp m R s') ->
  (forall s', flow s0 target n loc u (log s') (local s') [] wrest -> at_turn (log s') i j -> sound (shared s') ->
    Q (Ok ()) s') ->
  wp (if length b =? 0 then mret () else limit fuel limiter (length b);; m) Q s.
Proof.
  intros Hfuel Hsh Hf Ht Hm HQ. destruct b as [|b0 b]; cbn [length Nat.eqb]; [wp_run; by apply HQ|].
  apply wp_bind, play_limit; [done|done|]. intros sh ext He1 He2 Hsh'. cbn [then_]. apply Hm.
  cbn [local shared log]. apply HQ; cbn [local log].
  - apply flow_sent_remote. rewrite app_nil_r. by apply flow_silents.
  - apply at_turn_app; [by repeat constructor|]. by apply at_turn_app.
  - done.
Qed.

(** The end of a side is only seen when all of the other was read. *)
Definition patient : Prop := forall i j,
  (i = length (sc_client sc) -> j < length (sc_remote sc) -> sc_order sc i j = false) /\
  (j = length (sc_remote sc) -> i < length (sc_client sc) -> sc_order sc i j = true).

Definition finished (l : list label) : Prop :=
  exists i j, received_bytes l = concat (take i (sc_client sc)) /\
    remote_chunks l = take j (sc_remote sc) /\
    (i = length (sc_client sc) \/ j = length (sc_remote sc)) /\
    (patient -> i = length (sc_client sc) /\ j = length (sc_remote sc)).

Lemma play_relay fuel limiter i j (Q : res error () -> state -> Prop) s :
  sound (shared s) -> flow s0 target n loc u (log s) (local s) [] [] -> at_turn (log s) i j ->
  (length (sc_client sc) - i) + (length (sc_remote sc) - j) < fuel ->
  (forall s', finished (log s') -> Q (Ok ()) s') ->
  wp (relay fuel loc limiter) Q s.
Proof.
  intros Hsh Hf Ht Hfuel HQ. revert i j s Hsh Hf Ht Hfuel.
  induction fuel as [|fuel IH]; intros i j s Hsh Hf Ht Hfuel; [lia|]. cbn [relay].
  pose proof (at_turn_bytes _ _ _ Ht) as Hb. pose proof Ht as (_ & _ & Hrc & Hi & Hj).
  apply wp_bind. eapply wp_play; [done|]. cbn [then_].
  destruct (at_turn_lengths _ _ _ Ht) as [-> ->]. destruct (sc_order sc i j) eqn:Hord.
  - destruct (next_client (log s)) as [b|] eqn:Hnext; [|done]. cbn [received]. wp_run.
    cbn [local shared log].
    destruct (next_client_some _ _ _ _ Ht Hnext) as [[-> ->]|(Hlt & Hbd & Hbn & Ht')].
    { cbn [length Nat.eqb]. wp_run. apply HQ. exists (length (sc_client sc)), j. cbn [log].
      logs. split_and!; [done|done|by left|]. intros Hpat. split; [done|].
      destruct (decide (j = length (sc_remote sc))) as [|Hj']; [done|].
      rewrite (proj1 (Hpat _ j)) in Hord; [done|done|lia]. }
    rewrite (proj2 (Nat.eqb_neq _ _)) by by destruct b.
    unfold count. apply wp_bind, wp_bind, wp_on_shared. cbn [then_]. wp_run. cbn [local shared log].
    destruct (flow_decodes _ _ _ _ _ _ Hf Hb Hlt Hbd) as (o & t' & Ho).
    destruct (flow_sdecode s0 Hs0 target n loc u _ _ [] [] b Hf) as [Hsw Hf']. rewrite Ho in Hf'.
    apply wp_decrypt; cbn [local shared log then_]; [done| |];
      [intros o2 t2 Ho2|intros e t2 He2]; [|by rewrite Ho in He2].
    rewrite Ho in Ho2. injection Ho2 as <- <-. apply wp_bind.
    apply (play_forward _ _ o [] (S i) j); [lia|exact Hsh|done| | |].
    + apply at_turn_app; [by repeat constructor|done].
    + intros R s' HR. unfold write_remote. apply wp_bind. eapply wp_play; [done|]. by cbn [then_ written].
    + intros s' Hf2 Ht2 Hsh2. cbn [then_]. apply (IH (S i) j); [done|done|done|lia].
  - destruct (next_remote (log s)) as [b|] eqn:Hnext; [|done]. cbn [received]. wp_run.
    cbn [local shared log].
    destruct (next_remote_some _ _ _ _ Ht Hnext) as [[-> ->]|(Hlt & Hbn & Ht')].
    { cbn [length Nat.eqb]. wp_run. apply HQ. exists i, (length (sc_remote sc)). cbn [log].
      logs. split_and!; [done|done|by right|]. intros Hpat. split; [|done].
      destruct (decide (i = length (sc_client sc))) as [|Hi']; [done|].
      rewrite (proj2 (Hpat i _)) in Hord; [done|done|lia]. }
    rewrite (proj2 (Nat.eqb_neq _ _)) by by destruct b.
    destruct (flow_encrypt s0 target n loc u _ _ [] [] b Hbn Hf) as (w & t' & Henc & Hf').
    apply wp_bind, wp_on_local, wp_outcome. cbn [local shared log]. rewrite Henc. cbn [then_].
    unfold count. apply wp_bind, wp_bind, wp_on_shared. cbn [then_]. wp_run. cbn [local shared log].
    apply play_limit; [lia|exact Hsh|]. intros sh ext He1 He2 Hsh2. cbn [then_ local shared log]. apply wp_bind.
    unfold write_client. apply wp_bind. eapply wp_play; [done|]. cbn [then_ written]. wp_run.
    apply (IH i (S j)); cbn [local log shared].
    + exact Hsh2.
    + apply flow_sent_client. rewrite app_nil_r. by apply flow_silents.
    + apply at_turn_app; [by repeat constructor|]. apply at_turn_app; [done|].
      apply at_turn_app; [by repeat constructor|done].
    + lia.
Qed.

(** ** The session ends *)

Definition ended_well (r : res error ()) (l : list label) : Prop :=
  r = Ok () /\ Closed ∈ l /\ finished l.

Lemma finished_silent l x : silent x -> finished l -> finished (l ++ [x]).
Proof.
  intros Hx (i & j & Hb & Hr & Hor). destruct (silent_logs l x Hx) as (H1 & _ & _ & H4 & _).
  exists i, j. by rewrite H1, H4.
Qed.

Lemma play_connect policy e (Q : res error () -> state -> Prop) s :
  attempt_ok e policy target (TriedHost (host target) (port target)) ->
  Q (Ok ()) {| local := local s; shared := shared s;
               log := log s ++ [TriedHost (host target) (port target)] |} ->
  wp (connect_target_checked target policy e) Q s.
Proof.
  intros [_ Hat] HQ. unfold connect_target_checked, connect_target.
  assert (Hport : ec_forbidden e && match policy with
    | Some p => UserPolicy.port_forbidden p (port target) | None => false end = false).
  { destruct (ec_forbidden e); [|done]. destruct policy as [po|]; [|done]. by destruct (Hat eq_refl po eq_refl). }
  assert (Hip : ec_forbidden e && match policy with
    | Some p => UserPolicy.has_forbidden_ip p | None => false end = false).
  { destruct (ec_forbidden e); [|done]. destruct policy as [po|]; [|done]. by destruct (Hat eq_refl po eq_refl). }
  rewrite Hport, Hip. unfold bail_if. cbn [negb]. apply wp_bind, wp_lift. cbn [then_].
  apply wp_bind. eapply wp_play; [done|]. cbn [then_]. wp_run. exact HQ.
Qed.

Lemma play_serve fuel c uid limiter policy initial i s :
  sound (shared s) -> flow s0 target n loc u (log s) (local s) initial [] -> at_turn (log s) i 0 ->
  ec_audit_block (enforcement c) = false \/ rules (shared s) = [] ->
  attempt_ok (enforcement c) policy target (TriedHost (host target) (port target)) ->
  length (sc_client sc) + length (sc_remote sc) < fuel ->
  wp (serve fuel c uid loc limiter policy target initial) (fun r s' => ended_well r (log s')) s.
Proof.
  intros Hsh Hf Ht Haud Hat Hfuel. unfold serve. cbv zeta.
  set (auditor := new_auditor uid (peer_ip c) (peer c)).
  apply wp_bind, wp_on_shared. cbn [then_ shared log local fst snd].
  apply wp_bind, wp_on_shared. cbn [then_ shared log local fst snd]. wp_run. unfold bail_if.
  match goal with |- then_ _ _ (if ?m && _ then _ else _) _ =>
    assert (m && ec_audit_block (enforcement c) = false) as -> end.
  { destruct Haud as [->|Hrules]; [by rewrite andb_false_r|]. cbn [rules set_events].
    rewrite Hrules. unfold scan. by destruct (length initial =? 0). }
  cbn [then_]. apply wp_bind, play_connect; [done|]. cbn [then_ local shared log].
  apply wp_bind.
  apply (play_forward fuel limiter initial [] i 0); cbn [local log shared].
  - lia.
  - destruct Hsh. by destruct (scan _ _ _ _) as [[??]?].
  - by apply flow_silent.
  - apply at_turn_app; [by repeat constructor|done].
  - intros R s' HR. unfold write_initial. apply wp_bind. eapply wp_play; [done|]. by cbn [then_ written].
  - intros s2 Hf2 Ht2 Hsh2. cbn [then_]. apply wp_bind.
    apply (play_relay _ _ i 0); [done|done|done|lia|]. intros s3 Hfin. cbn [then_].
    apply wp_bind. eapply wp_play; [done|]. cbn [then_]. apply wp_bind. eapply wp_play; [done|].
    cbn [then_]. wp_run. cbn [log]. split; [done|]. split.
    + apply elem_of_app. right. by apply list_elem_of_singleton.
    + by apply finished_silent.
Qed.

End Script.

(** The target, the header and the identity are settled once the header is
    complete. *)
Lemma opened_settled `{HL : CryptoLaws} `{RE : RegexEngine} sc s0 payload s1 target n l t i target' n' pl :
  swf s0 -> sdecode s0 (concat (sc_client sc)) = Ok (payload, s1) ->
  parse payload = Ok (Some (target, n)) ->
  received_bytes l = concat (take i (sc_client sc)) ->
  opened s0 l t target' n' pl -> pl <> [] ->
  target' = target /\ n' = n /\ ServerSession.user_id t = ServerSession.user_id s1.
Proof.
  intros Hs0 Hd Hp Hl [Hdl Hpl] Hne. rewrite Hl in Hdl.
  destruct (no_header_prefix sc s0 Hs0 payload s1 target n Hd Hp i pl t Hdl) as [Hn|Hn];
    rewrite Hn in Hpl; [done|]. injection Hpl as -> ->. split_and!; [done..|].
  rewrite <- (take_drop i (sc_client sc)), concat_app, sdecode_app, Hdl, bind_Ok in Hd by done.
  apply bind_inv_Ok in Hd as ([o t2] & Ht & [= _ <-]).
  destruct (sdecode_opens _ _ _ _ Hdl Hne) as [key He].
  by destruct (sdecode_send_side t key _ _ _ (sdecode_swf _ _ _ _ Hs0 Hdl) He Ht) as [-> _].
Qed.

(** The session is admitted: a counter, a free slot, no audit block, an
    allowed target. *)
Record admissible `{Crypto} `{RegexEngine} (c : StreamContext) (sh : Shared) (uid : Z) (loc : nat)
    (target : Address) : Prop := {
  adm_counter : counters_for c uid = Ok loc;
  adm_slot : forall limit, needs_slot c uid = Some limit ->
    exists sloc, conns_by_user (tables c) !! uid = Some sloc /\
      Conn.acquire (default ∅ (ip_sets sh !! sloc)) (peer_ip c) limit <> None;
  adm_audit : ec_audit_block (enforcement c) = false \/ rules sh = [];
  adm_target : attempt_ok (enforcement c) (policies (tables c) !! uid) target
    (TriedHost (host target) (port target))
}.

Lemma play_acquire `{HL : CryptoLaws} `{RE : RegexEngine} (E : Env Await Shared label) c uid
    (Q : res error admission -> task ServerSession.t Shared label -> Prop) s :
  sound (shared s) ->
  (forall limit, needs_slot c uid = Some limit ->
    exists sloc, conns_by_user (tables c) !! uid = Some sloc /\
      Conn.acquire (default ∅ (ip_sets (shared s) !! sloc)) (peer_ip c) limit <> None) ->
  (forall g s' ext, Forall silent ext -> Forall turnless ext -> local s' = local s ->
    log s' = log s ++ ext -> rules (shared s') = rules (shared s) -> sound (shared s') ->
    Q (Ok (Entered g)) s') ->
  wp (acquire_guard c uid (policies (tables c) !! uid)) Q s.
Proof.
  intros Hpos Hslot HQ. unfold acquire_guard, needs_slot in *.
  assert (Hnone : Q (Ok (Entered None)) s).
  { apply (HQ None s []); [constructor|constructor|done|by rewrite app_nil_r|done|done]. }
  destruct (policies (tables c) !! uid) as [po|]; [|done].
  destruct (ec_conn_limit (enforcement c)); cbn [andb] in *; [|done].
  destruct (0 <? UserPolicy.conn_limit po)%Z; [|done].
  destruct (Hslot _ eq_refl) as (sloc & -> & Hacq).
  apply wp_bind, wp_on_shared. cbn [then_].
  pose proof (try_acquire_sound sloc (peer_ip c) (UserPolicy.conn_limit po) _ Hpos) as Hpos'.
  unfold try_acquire in *. destruct (Conn.acquire _ _ _) as [ips|]; [|done]. cbn [fst snd] in *.
  wp_run. by apply (HQ _ _ [Acquired sloc (peer_ip c) (UserPolicy.conn_limit po)]);
    [repeat constructor|repeat constructor|..].
Qed.

(** The handshake of a script, in all that the rest of the session needs. *)
Lemma play_opened `{HL : CryptoLaws} `{RE : RegexEngine} sc s0 payload s1 target n fuel sh :
  swf s0 -> sdecode s0 [] = Ok ([], s0) ->
  sdecode s0 (concat (sc_client sc)) = Ok (payload, s1) ->
  parse payload = Ok (Some (target, n)) ->
  Forall (fun b => b <> []) (sc_client sc) -> length (sc_client sc) < fuel ->
  wp (handshake (Env0:=play sc) fuel [] 0) (fun r s' => exists pl i,
      r = Ok (Some (target, drop n pl, Z.min (Z.of_nat (length (received_bytes (log s')))) U64_MAX)) /\
      shared s' = sh /\ at_turn sc (log s') i 0 /\ Forall is_received (log s') /\
      opened s0 (log s') (local s') target n pl /\ pl <> [] /\
      ServerSession.user_id (local s') = ServerSession.user_id s1)
    {| local := s0; shared := sh; log := [] |}.
Proof.
  intros Hs0 Hnil Hd Hp Hne Hfuel.
  eapply wp_mono; [apply wp_and; [apply (handshake_wp (Env0:=play sc) fuel s0 [] 0%Z _
      (fun r s' => forall h, r = Ok (Some h) -> exists target' n' pl,
        Forall is_received (log s') /\ opened s0 (log s') (local s') target' n' pl /\ pl <> [] /\
        r = Ok (Some (target', drop n' pl, Z.min (Z.of_nat (length (received_bytes (log s')))) U64_MAX))))
    |apply (play_handshake sc s0 Hs0 payload s1 target n Hd Hp Hne fuel [] 0%Z _ 0
      (fun r s' => (exists h, r = Ok (Some h)) /\ shared s' = sh /\ exists i', at_turn sc (log s') i' 0))]|].
  - done.
  - by split_and!; [constructor| |].
  - done.
  - intros r s' _ Hr _ h ->. by destruct (Hr h).
  - intros target' n' pl s' H1 H2 H3 h _. by exists target', n', pl.
  - by split_and!; [constructor| |].
  - by split_and!; [..|lia|lia].
  - lia.
  - intros h s' i' Hsh Ht. split_and!; [by eexists|done|by eexists].
  - intros r s2 [Hopen [[h ->] [Hsh [i Ht]]]].
    destruct (Hopen h eq_refl) as (target' & n' & pl & Hl & Ho & Hpl & ->).
    destruct (opened_settled sc s0 payload s1 target n (log s2) (local s2) i target' n' pl Hs0 Hd Hp
      (at_turn_bytes _ _ _ _ Ht) Ho Hpl) as (-> & -> & Hu).
    by exists pl, i.
Qed.

Lemma play_session `{HL : CryptoLaws} `{RE : RegexEngine} sc s0 payload s1 target n loc fuel c sh :
  swf s0 -> sdecode s0 [] = Ok ([], s0) -> sound sh ->
  sdecode s0 (concat (sc_client sc)) = Ok (payload, s1) ->
  parse payload = Ok (Some (target, n)) ->
  Forall (fun b => b <> []) (sc_client sc) -> Forall (fun b => b <> []) (sc_remote sc) ->
  admissible c sh (user_of c (ServerSession.user_id s1)) loc target ->
  length (sc_client sc) + length (sc_remote sc) < fuel ->
  wp (handle_session (Env0:=play sc) fuel c) (fun r s' => ended_well sc r (log s'))
    {| local := s0; shared := sh; log := [] |}.
Proof.
  intros Hs0 Hnil Hpos Hd Hp Hne Hner Hadm Hfuel. unfold handle_session.
  apply wp_bind. eapply wp_mono; [eapply play_opened; eauto; lia|].
  intros r s2 (pl & i & -> & Hsh & Ht & Hl & Ho & Hpl & Hu).
  cbn [then_]. wp_run. fold (user_of c (ServerSession.user_id (local s2))). rewrite Hu.
  destruct Hadm as [Hcf Hslot Haud Hat]. rewrite Hcf. cbn [then_].
  pose proof (opened_flow s0 target n loc pl (log s2) (local s2) Hs0 Hl Ho Hpl) as Hf. rewrite Hu in Hf.
  unfold count. apply wp_bind, wp_bind, wp_on_shared. cbn [then_]. apply wp_emit. cbn [then_ local shared log fst snd].
  fold (upload loc (handshake_upload (log s2))). rewrite <- Hsh in Hslot, Haud, Hpos.
  apply wp_bind, (play_acquire (play sc)); cbn [local shared log]; [exact Hpos|exact Hslot|].
  intros g s3 ext He1 He2 Hl3 Hlog3 Hrules3 Hpos3. cbn [then_].
  assert (Hf3 : flow s0 target n loc (ServerSession.user_id s1) (log s3) (local s3) (drop n pl) []).
  { rewrite Hl3, Hlog3. by apply flow_silents. }
  assert (Ht3 : at_turn sc (log s3) i 0).
  { rewrite Hlog3. apply at_turn_app; [done|]. apply at_turn_app; [by repeat constructor|done]. }
  change (rules (set_counter_cells _ (shared s2))) with (rules (shared s2)) in Hrules3.
  rewrite <- Hrules3 in Haud.
  pose proof (play_serve sc s0 Hs0 payload s1 target n Hd Hp Hne Hner loc (ServerSession.user_id s1)
    fuel c (user_of c (ServerSession.user_id s1))
    (if ec_speed (enforcement c)
     then speeds_by_user (tables c) !! user_of c (ServerSession.user_id s1) else None)
    _ (drop n pl) i s3 Hpos3 Hf3 Ht3 Haud Hat Hfuel) as Hserve.
  destruct g as [g|]; [|exact Hserve].
  eapply wp_mono; [apply (guarded_wp (Env0:=play sc) g _ (ended_well sc));
    [apply play_env_ok|done|apply serve_keeps, sound_stable, play_env_ok|]|by intros r s' []].
  eapply wp_mono; [exact Hserve|]. intros r s4 (-> & Hcl & Hfin). split; [done|].
  intros _. split_and!; [done|apply elem_of_app; by left|by apply finished_silent].
Qed.

(** Two states of one session's receive side send the same. *)
Lemma send_all_same `{HL : CryptoLaws} msgs s0 a b o1 o2 s1 s2 w t :
  swf s0 -> sdecode s0 a = Ok (o1, s1) -> o1 <> [] -> sdecode s1 b = Ok (o2, s2) ->
  outcome (send_all msgs) s1 = Ok (w, t) -> exists t', outcome (send_all msgs) s2 = Ok (w, t').
Proof.
  intros Hs0 H1 Hne H2 Hw. destruct (sdecode_opens _ _ _ _ H1 Hne) as [key He].
  pose proof (sdecode_swf _ _ _ _ Hs0 H1) as Hs1.
  destruct (sdecode_established s1 key b o2 s2 Hs1 He H2) as (_ & He2 & Hiv).
  destruct (sdecode_send_side s1 key b o2 s2 Hs1 He H2) as (_ & e & em & pid & Hq1 & Hq2).
  destruct (send_all_with_send msgs e em pid s1 s2 key He He2 Hiv) as (w' & e' & em' & pid' & Hw1 & Hw2).
  rewrite <- Hq1, Hw in Hw1. injection Hw1 as <- _. rewrite <- Hq2 in Hw2. eauto.
Qed.

(** The run of a script, in terms of the client's payload. *)
Lemma play_stream `{HL : CryptoLaws} `{RE : RegexEngine} rnd iv sc c sh s0 payload s1 target n loc fuel :
  rnd (CipherKind.iv_len (cipher_kind c)) = Some iv ->
  length iv = CipherKind.iv_len (cipher_kind c) -> sound sh ->
  ServerSession.new rnd (password c) (auth_users (tables c)) (sc_is_multi_user c) (cipher_kind c) = Ok s0 ->
  sdecode s0 (concat (sc_client sc)) = Ok (payload, s1) ->
  parse payload = Ok (Some (target, n)) ->
  Forall (fun b => b <> []) (sc_client sc) -> Forall (fun b => b <> []) (sc_remote sc) ->
  admissible c sh (user_of c (ServerSession.user_id s1)) loc target ->
  length (sc_client sc) + length (sc_remote sc) < fuel ->
  let '(r, l, _) := handle_stream (Env0:=play sc) rnd fuel c sh in
  r = Ok () /\ finished sc l /\
  (received_bytes l = concat (sc_client sc) -> sent_remote l = drop n payload) /\
  exists t, outcome (send_all (remote_chunks l)) s1 = Ok (sent_client l, t).
Proof.
  intros Hr Hiv Hpos Hnew Hd Hp Hne Hner Hadm Hfuel.
  destruct (new_fresh rnd (password c) (auth_users (tables c)) (sc_is_multi_user c) (cipher_kind c)
    iv Hr Hiv) as (enc & Hnew' & _).
  assert (s0 = fresh (cipher_kind c) (password c) (auth_users (tables c)) (sc_is_multi_user c) iv enc)
    as -> by congruence.
  pose proof (play_session sc _ payload s1 target n loc fuel c sh (fresh_swf _ _ _ _ _ _)
    (fresh_nil _ _ _ _ _ _) Hpos Hd Hp Hne Hner Hadm Hfuel) as Hplay.
  destruct (handle_stream_ending (Env0:=play sc) rnd iv fuel c sh Hr Hiv (play_env_ok sc) Hpos)
    as (s0' & Hnew2 & Hend). rewrite Hnew in Hnew2. injection Hnew2 as <-.
  unfold handle_stream in *. rewrite Hnew in *. unfold wp in Hplay.
  destruct (handle_session fuel c _) as [r s]. cbn [fst snd] in Hplay.
  destruct Hplay as (-> & Hcl & Hfin), Hend as [_ Hend]. split_and!; [done|done|..];
    destruct (ending_closed c _ _ _ Hend Hcl) as (pl & t1 & target' & n' & Hdl & Hpl & Hsent & t2 & Hsend);
    pose proof Hfin as (i & j & Hrec & Hrc & _).
  - intros Hall. rewrite Hall, Hd in Hdl. injection Hdl as <- <-. rewrite Hp in Hpl.
    by injection Hpl as <- <-.
  - rewrite Hrec in Hdl.
    rewrite <- (take_drop i (sc_client sc)), concat_app, sdecode_app, Hdl, bind_Ok in Hd
      by apply fresh_swf.
    apply bind_inv_Ok in Hd as ([o2 s2] & Hd2 & [= <- <-]).
    eapply send_all_same; [apply fresh_swf|exact Hdl| |exact Hd2|exact Hsend].
    intros ->. apply parse_consumed in Hpl. cbn in Hpl. lia.
Qed.

(** ** Properties *)

(** C2 A session is transparent, in every environment (any bytes in any
    chunks on both sides, any failures, any interleaving with other
    sessions): it never panics, what it wrote to the target is a prefix of
    the payload behind the address header in what the client sent, what it
    wrote to the client is a prefix of the encryption of what it read from
    the target, and without a complete header it wrote nothing; when it
    ended regularly, both are complete. *)
Theorem relay_transparent `{HL : CryptoLaws} `{RE : RegexEngine} (E : Env Await Shared label)
    rnd iv fuel c sh
    (Hr : rnd (CipherKind.iv_len (cipher_kind c)) = Some iv)
    (Hiv : length iv = CipherKind.iv_len (cipher_kind c)) (He : env_ok) (Hp : sound sh) :
  exists s0, ServerSession.new rnd (password c) (auth_users (tables c)) (sc_is_multi_user c)
      (cipher_kind c) = Ok s0 /\
  let '(r, l, _) := handle_stream rnd fuel c sh in
  r <> Panic /\
  (exists up payload s1, decoded s0 l up payload s1 /\
    match parse payload with
    | Ok (Some (target, n)) =>
        sent_remote l `prefix_of` drop n payload /\
        exists wire s2, outcome (send_all (remote_chunks l)) s1 = Ok (wire, s2) /\
          sent_client l `prefix_of` wire
    | _ => sent_remote l = [] /\ sent_client l = []
    end) /\
  (Closed ∈ l ->
    exists payload s1 target n, sdecode s0 (received_bytes l) = Ok (payload, s1) /\
      parse payload = Ok (Some (target, n)) /\ sent_remote l = drop n payload /\
      exists s2, outcome (send_all (remote_chunks l)) s1 = Ok (sent_client l, s2)).
Proof.
  destruct (handle_stream_ending rnd iv fuel c sh Hr Hiv He Hp) as (s0 & Hnew & Hend).
  exists s0. split; [done|]. destruct (handle_stream rnd fuel c sh) as [[r l] sh'].
  destruct Hend as [Hpanic Hend]. split; [done|]. split; [by eapply ending_transparent|].
  by eapply ending_closed.
Qed.

(** C8 The forbidden lists hold, in every environment: every connection a
    session tries, by name or by address, is to the target the client asked
    for; none is tried when the port is forbidden to the user the session
    is accounted to; and when that user has forbidden addresses none is
    tried by name, and each address tried is not a forbidden one. *)
Theorem forbidden_never_tried `{HL : CryptoLaws} `{RE : RegexEngine} (E : Env Await Shared label)
    rnd iv fuel c sh
    (Hr : rnd (CipherKind.iv_len (cipher_kind c)) = Some iv)
    (Hiv : length iv = CipherKind.iv_len (cipher_kind c)) (He : env_ok) (Hp : sound sh) :
  exists s0, ServerSession.new rnd (password c) (auth_users (tables c)) (sc_is_multi_user c)
      (cipher_kind c) = Ok s0 /\
  let l := (handle_stream rnd fuel c sh).1.2 in
  Forall (fun x => tried x = true ->
    exists up payload s1 target n, decoded s0 l up payload s1 /\
      parse payload = Ok (Some (target, n)) /\
      attempt_ok (enforcement c) (policies (tables c) !! user_of c (ServerSession.user_id s1))
        target x) l.
Proof.
  destruct (handle_stream_ending rnd iv fuel c sh Hr Hiv He Hp) as (s0 & Hnew & Hend).
  exists s0. split; [done|]. destruct (handle_stream rnd fuel c sh) as [[r l] sh'].
  destruct Hend as [_ Hend]. cbn [fst snd]. apply Forall_forall. intros x Hx Hkind.
  destruct (ending_labels c s0 r l x Hend Hx) as (up & payload & s1 & target & n & Hd & Hpa & Hrel).
  { by intros [b ->]. }
  { by intros a ->. }
  { by destruct x. }
  exists up, payload, s1, target, n. split_and!; [done|done|].
  destruct Hrel as [Hrel|[Hrel|Hrel]]; [by destruct x..|by subst x].
Qed.

(** C10 The device slot, in every environment: a session takes at most one
    slot, exactly the one of the user it is accounted to and only if that
    user's policy has a cap, tries no connection without it when there is
    one, and gives it back however it ends (regular end or error): only a
    session that is still running holds one.  Taken and given back are what
    happened to the user's set ([accounts_for]): [Acquired] in the log is an
    IP that the set, as it then was, admitted under the cap, and the sets
    changed by these entries and the others' only.  So a refused session
    tries nothing. *)
Theorem slot_held `{HL : CryptoLaws} `{RE : RegexEngine} (E : Env Await Shared label)
    rnd iv fuel c sh
    (Hr : rnd (CipherKind.iv_len (cipher_kind c)) = Some iv)
    (Hiv : length iv = CipherKind.iv_len (cipher_kind c)) (He : env_ok) (Hp : sound sh) :
  exists s0, ServerSession.new rnd (password c) (auth_users (tables c)) (sc_is_multi_user c)
      (cipher_kind c) = Ok s0 /\
  let '(r, l, sh') := handle_stream rnd fuel c sh in
  accounts_for l sh sh' /\
  ((Forall is_received l /\ slots l = []) \/
   exists up payload s1 target n, decoded s0 l up payload s1 /\ parse payload = Ok (Some (target, n)) /\
     slot_discipline c (user_of c (ServerSession.user_id s1)) r l).
Proof.
  destruct (handle_stream_ending rnd iv fuel c sh Hr Hiv He Hp) as (s0 & Hnew & Hend).
  exists s0. split; [done|]. pose proof (session_history rnd fuel c sh) as Hh.
  destruct (handle_stream rnd fuel c sh) as [[r l] sh']. split; [done|]. by eapply ending_slots, Hend.
Qed.

(** C11 The accounting, in every environment.  A session counts nothing only
    if what it read does not decode to a complete header, or if there is no
    counter, neither the user's nor the carrier's, and that is its error.
    Any other counts at one counter, that of the user it is accounted to
    (the carrier's if the user has none), as upload every byte it read from
    the client, handshake included, and as download every byte it encrypted
    for it; and the counters changed by exactly these additions, and by the
    others' ([accounts_for]). *)
Theorem session_accounted `{HL : CryptoLaws} `{RE : RegexEngine} (E : Env Await Shared label)
    rnd iv fuel c sh
    (Hr : rnd (CipherKind.iv_len (cipher_kind c)) = Some iv)
    (Hiv : length iv = CipherKind.iv_len (cipher_kind c)) (He : env_ok) (Hp : sound sh) :
  exists s0, ServerSession.new rnd (password c) (auth_users (tables c)) (sc_is_multi_user c)
      (cipher_kind c) = Ok s0 /\
  let '(r, l, sh') := handle_stream rnd fuel c sh in
  accounts_for l sh sh' /\
  ((unopened s0 l /\ Forall is_received l /\ counted l = []) \/
   (exists t target n payload, opened s0 l t target n payload /\ counted l = [] /\
      counters_for c (user_of c (ServerSession.user_id t)) =
        Err (NoTrafficCounter (user_of c (ServerSession.user_id t))) /\
      r = Err (NoTrafficCounter (user_of c (ServerSession.user_id t)))) \/
   exists up payload s1 target n loc wire s2, decoded s0 l up payload s1 /\ parse payload = Ok (Some (target, n)) /\
     counters_for c (user_of c (ServerSession.user_id s1)) = Ok loc /\
     outcome (send_all (remote_chunks l)) s1 = Ok (wire, s2) /\
     Forall (fun a => add_loc a = loc) (counted l) /\
     ((Z.of_nat (length (received_bytes l)) <= U64_MAX)%Z ->
       total true loc (counted l) = Z.of_nat (length (received_bytes l))) /\
     total false loc (counted l) = Z.of_nat (length wire)).
Proof.
  destruct (handle_stream_ending rnd iv fuel c sh Hr Hiv He Hp) as (s0 & Hnew & Hend).
  exists s0. split; [done|]. pose proof (session_history rnd fuel c sh) as Hh.
  destruct (handle_stream rnd fuel c sh) as [[r l] sh']. split; [done|].
  destruct Hend as [_ [(Hl & _ & Hun)|target n payload t Hl Ho Hcf Hr0|target n loc u hs acq ext rel Hcf Hc _ _ _ _ _ _]].
  - left. by split_and!; [..|apply received_only].
  - right; left. exists t, target, n, payload. by split_and!; [|apply received_only|..].
  - right; right. destruct Hc as (up & payload & s1 & wire & s2 & Hup & Hd & Hpa & <- & _ & Hs & _ & Ha & Hu & Hdn).
    exists up, payload, s1, target, n, loc, wire, s2. by split_and!.
Qed.

(** C4 A session delivers and ends.  A reference client whose first payload
    carries an address header sends its stream in any non-empty chunks and
    closes; the target answers with any non-empty chunks and closes; the
    sides are served in any order; the client is admitted; the clock runs
    on generously whenever a limiter is locked.  Then the session
    ends regularly after finitely many turns, at the first end of a side it
    sees: it has read that side to the end, and of the other what it was
    served.  What it read it has delivered: if that is all of the client's
    stream, the target has received exactly the payload behind the header;
    and what was read of the target is what the client decodes, however its
    stream is cut.  If no end is seen before the other side was read (a
    [patient] order), both sides are delivered whole. *)
Theorem session_delivers `{HL : CryptoLaws} `{RE : RegexEngine} rnd iv sc c sh cl ident p0 ps up cl1
    target n loc fuel
    (Hr : rnd (CipherKind.iv_len (cipher_kind c)) = Some iv)
    (Hiv : length iv = CipherKind.iv_len (cipher_kind c)) (Hpos : sound sh)
    (Hs : served (password c) (cipher_kind c) (auth_users (tables c)) (sc_is_multi_user c) cl ident)
    (Hp0 : auth_len [] p0 < MAX_PACKET) (Hps : Forall (fun p => length p + 9 < MAX_PACKET) ps)
    (Hup : outcome (ClientCodec.client_stream p0 ps) cl = Ok (up, cl1))
    (Hcut : concat (sc_client sc) = up)
    (Hne : Forall (fun b => b <> []) (sc_client sc)) (Hner : Forall (fun b => b <> []) (sc_remote sc))
    (Hp : parse (p0 ++ concat ps) = Ok (Some (target, n)))
    (Hadm : admissible c sh (user_of c ident) loc target)
    (Hfuel : length (sc_client sc) + length (sc_remote sc) < fuel) :
  let '(r, l, _) := handle_stream (Env0:=play sc) rnd fuel c sh in
  r = Ok () /\
  (exists i j, received_bytes l = concat (take i (sc_client sc)) /\
    remote_chunks l = take j (sc_remote sc) /\
    (i = length (sc_client sc) \/ j = length (sc_remote sc))) /\
  (patient sc -> received_bytes l = up /\ remote_chunks l = sc_remote sc) /\
  (received_bytes l = up -> sent_remote l = drop n (p0 ++ concat ps)) /\
  (remote_chunks l <> [] -> forall ds, concat ds = sent_client l ->
    exists cl2, outcome (ClientCodec.recv_all ds) cl1 = Ok (concat (remote_chunks l), cl2)).
Proof.
  destruct (end_to_end rnd (password c) (auth_users (tables c)) (sc_is_multi_user c) (cipher_kind c)
    iv cl ident p0 ps Hr Hiv Hs Hp0 Hps) as (up' & cl1' & Hup' & He2e).
  rewrite Hup in Hup'. injection Hup' as <- <-.
  destruct (He2e up [] (app_nil_r up)) as (s1 & Hfeed & Hu & Hdown).
  apply bind_inv_Ok in Hfeed as (s0 & Hnew & Hfeed).
  destruct (new_fresh rnd (password c) (auth_users (tables c)) (sc_is_multi_user c) (cipher_kind c)
    iv Hr Hiv) as (enc & Hnew' & _).
  rewrite feed_outcome in Hfeed by (rewrite Hnew in Hnew'; injection Hnew' as ->; apply fresh_swf).
  cbn [concat] in Hfeed. rewrite app_nil_r, <- Hcut in Hfeed. rewrite <- Hu in Hadm.
  pose proof (play_stream rnd iv sc c sh s0 _ s1 target n loc fuel Hr Hiv Hpos Hnew Hfeed Hp Hne Hner
    Hadm Hfuel) as Hplay.
  destruct (handle_stream rnd fuel c sh) as [[r l] sh'].
  destruct Hplay as (-> & (i & j & Hrec & Hrc & Hor & Hpat) & Hsent & t & Hsend).
  split_and!; [done|by exists i, j| |by rewrite <- Hcut|].
  { intros [-> ->]%Hpat. by rewrite Hrec, Hrc, !firstn_all. }
  intros Hrem ds Hds. destruct (remote_chunks l) as [|m msgs]; [done|].
  destruct (Hdown m msgs) as (down & s2 & Hdn & Hrecv). rewrite Hsend in Hdn.
  injection Hdn as <- _. by apply Hrecv.
Qed.

(** ** Witnesses *)

Import Toy.

Definition toy_context : StreamContext :=
  {| password := "carrier"; fallback_user_id := 1;
     tables := {| auth_users := toy_users; counters_by_user := {[42%Z := 0]};
                  conns_by_user := {[42%Z := 3]}; speeds_by_user := {[42%Z := 9]};
                  policies := {[42%Z := {| UserPolicy.speed_limit_bps := 0; UserPolicy.conn_limit := 1;
                    UserPolicy.forbidden_ips := []; UserPolicy.forbidden_ports := [] |}]} |};
     enforcement := {| ec_forbidden := true; ec_conn_limit := true; ec_audit_block := true;
                       ec_speed := true |};
     sc_is_multi_user := 2; cipher_kind := CipherKind.Chacha20Ietf;
     peer_ip := "10.0.0.1"; peer := "10.0.0.1:4000" |}.

Definition toy_shared : @Shared ToyRegex.engine :=
  {| counter_cells := {[0 := zero_counters]}; ip_sets := ∅; limit_buckets := {[9 := RateLimit.new 0 1000]};
     events := []; rules := []; moment := 0 |}.

Lemma toy_sound : @sound ToyRegex.engine toy_shared.
Proof.
  split.
  - intros loc ips ip. cbn [ip_sets toy_shared]. by rewrite lookup_empty.
  - apply map_Forall_singleton, bucket_new_ok. by vm_compute.
Qed.

Definition toy_p0 : bytes := pack_domain [Byte.x61] 80 ++ [Byte.x05].
Definition toy_target : Address := {| host := "a"; port := 80 |}.

Lemma toy_admissible : @admissible crypto ToyRegex.engine toy_context toy_shared 42 0 toy_target.
Proof.
  split.
  - reflexivity.
  - intros limit [= <-]. exists 3. split; [reflexivity|]. by vm_compute.
  - by right.
  - split; [reflexivity|]. intros _ po [= <-]. by split.
Qed.

(** The client's stream is not empty. *)
Lemma toy_stream : exists up cl1,
  outcome (ClientCodec.client_stream toy_p0 [[Byte.x06]]) (toy_client CipherKind.Chacha20Ietf) =
    Ok (up, cl1) /\ up <> [].
Proof.
  destruct (served_ready (C:=crypto) "carrier" CipherKind.Chacha20Ietf toy_users 2
    (toy_client CipherKind.Chacha20Ietf) (Some 42%Z)) as ((_ & _ & Hiv & _) & Huid & _).
  { apply (served_user _ _ _ _ _ 42 "p"); [lia|vm_compute; reflexivity|apply toy_client_ok]. }
  destruct (client_stream_spec (HL:=crypto_laws) toy_p0 [[Byte.x06]] _ Huid) as (cl1 & Hs & _).
  eexists _, cl1. split; [exact Hs|]. rewrite Hiv. done.
Qed.

Definition toy_script (up : bytes) : script :=
  {| sc_client := [up]; sc_remote := [[Byte.x07]]; sc_order := fun i _ => i <? 1 |}.

(** What the client sends. *)
Definition toy_upstream : bytes :=
  match outcome (ClientCodec.client_stream toy_p0 [[Byte.x06]])
          (toy_client CipherKind.Chacha20Ietf) with Ok (up, _) => up | _ => [] end.

Lemma session_delivers_witness :
  exists up cl1, 
    outcome (ClientCodec.client_stream toy_p0 [[Byte.x06]]) (toy_client CipherKind.Chacha20Ietf) =
      Ok (up, cl1) /\
    let '(r, l, _) := handle_stream (Env0:=play (toy_script up)) toy_rnd 3 toy_context toy_shared in
    r = Ok () /\ sent_remote l = [Byte.x05; Byte.x06] /\ remote_chunks l = [[Byte.x07]].
Proof.
  destruct toy_stream as (up & cl1 & Hup & Hne). exists up, cl1. split; [exact Hup|].
  assert (Hd := session_delivers (HL:=crypto_laws) (RE:=ToyRegex.engine) toy_rnd (repeat Byte.x0a 12)
    (toy_script up) toy_context toy_shared (toy_client CipherKind.Chacha20Ietf) (Some 42%Z) toy_p0
    [[Byte.x06]] up cl1 toy_target 5 0 3 eq_refl eq_refl toy_sound).
  assert (Hpat : patient (toy_script up)).
  { intros i j. cbn [sc_client sc_remote sc_order toy_script length]. rewrite Nat.ltb_lt, Nat.ltb_ge. lia. }
  destruct (handle_stream _ _ _ _) as [[r l] sh].
  destruct Hd as (Hr & _ & Hd2 & Hd3 & _).
  - apply (served_user _ _ _ _ _ 42 "p"); [lia|vm_compute; reflexivity|apply toy_client_ok].
  - compute_done.
  - constructor; [compute_done|constructor].
  - exact Hup.
  - apply app_nil_r.
  - by constructor.
  - by constructor.
  - vm_compute. reflexivity.
  - exact toy_admissible.
  - cbn. lia.
  - destruct (Hd2 Hpat) as [Hall Hrem]. split; [exact Hr|]. split; [exact (Hd3 Hall)|exact Hrem].
Defined.

(** A client that sends garbage. *)
Definition noise : script := toy_script (repeat Byte.x01 50).

Lemma relay_transparent_witness :
  (handle_stream (Env0:=play noise) toy_rnd 3 toy_context toy_shared).1.1 <> Panic.
Proof.
  destruct (relay_transparent (HL:=crypto_laws) (RE:=ToyRegex.engine) (play noise) toy_rnd
    (repeat Byte.x0a 12) 3 toy_context toy_shared eq_refl eq_refl (play_env_ok noise) toy_sound)
    as (s0 & _ & H). destruct (handle_stream _ _ _ _) as [[r l] sh]. apply H.
Defined.

Lemma forbidden_never_tried_witness :
  exists s0, ServerSession.new toy_rnd "carrier" toy_users 2 CipherKind.Chacha20Ietf = Ok s0 /\
  let l := (handle_stream (Env0:=play noise) toy_rnd 3 toy_context toy_shared).1.2 in
  Forall (fun x => tried x = true ->
    exists up payload s1 target n, decoded s0 l up payload s1 /\
      parse payload = Ok (Some (target, n)) /\
      attempt_ok (enforcement toy_context)
        (policies (tables toy_context) !! user_of toy_context (ServerSession.user_id s1)) target x) l.
Proof.
  exact (forbidden_never_tried (HL:=crypto_laws) (RE:=ToyRegex.engine) (play noise) toy_rnd
    (repeat Byte.x0a 12) 3 toy_context toy_shared eq_refl eq_refl (play_env_ok noise) toy_sound).
Defined.

(** The run of the client's stream, which is relayed. *)
Abbreviation toy_session :=
  (handle_stream (Env0:=play (toy_script toy_upstream)) toy_rnd 3 toy_context toy_shared).

(** A script leaves the shared objects alone. *)
Lemma play_alone sc : env_within (RE:=ToyRegex.engine) (Env0:=play sc) eq (fun _ => True).
Proof. split; [|done]. intros X a l sh x sh' Hr. destruct a; cbn in Hr; by injection Hr as _ <-. Qed.

Lemma slot_held_witness :
  let '(r, l, sh') := toy_session in
  r = Ok () /\ slots l = [Acquired 3 "10.0.0.1" 1; Released 3 "10.0.0.1"] /\
  history eq (fun _ => True) toy_shared l sh'.
Proof.
  pose proof (slot_held (HL:=crypto_laws) (RE:=ToyRegex.engine) (play (toy_script toy_upstream)) toy_rnd
    (repeat Byte.x0a 12) 3 toy_context toy_shared eq_refl eq_refl (play_env_ok (toy_script toy_upstream)) toy_sound)
    as (s0 & _ & Hw).
  assert (Hr : toy_session.1.1 = Ok ()) by (vm_compute; reflexivity).
  assert (Hl : slots toy_session.1.2 = [Acquired 3 "10.0.0.1" 1; Released 3 "10.0.0.1"]) by (vm_compute; reflexivity).
  destruct (handle_stream _ _ _ _) as [[r l] sh']. destruct Hw as [Hh _].
  split; [exact Hr|]. split; [exact Hl|]. apply Hh, play_alone.
Defined.

Lemma session_accounted_witness :
  let '(r, l, sh') := toy_session in
  counter_cells sh' = add_all (counted l) (@counter_cells ToyRegex.engine toy_shared) /\
  exists loc (wire : bytes), total true loc (counted l) = Z.of_nat (length (received_bytes l)) /\
    total false loc (counted l) = Z.of_nat (length wire) /\ 0 < length wire.
Proof.
  pose proof (session_accounted (HL:=crypto_laws) (RE:=ToyRegex.engine) (play (toy_script toy_upstream)) toy_rnd
    (repeat Byte.x0a 12) 3 toy_context toy_shared eq_refl eq_refl (play_env_ok (toy_script toy_upstream)) toy_sound)
    as (s0 & _ & Hw).
  assert (Hn : counted toy_session.1.2 <> []) by (vm_compute; discriminate).
  assert (Hb : (Z.of_nat (length (received_bytes toy_session.1.2)) <= U64_MAX)%Z) by (vm_compute; discriminate).
  assert (Hp : forall loc, total false loc (counted toy_session.1.2) = 0%Z -> loc <> 0) by
    (intros loc; intros Ht ->; revert Ht; vm_compute; discriminate).
  destruct (handle_stream _ _ _ _) as [[r l] sh']. cbn [fst snd] in *.
  destruct Hw as [Hh Hw]. split; [exact (history_alone _ _ _ _ (Hh _ _ (play_alone _)))|].
  destruct Hw as [(_ & _ & H)|[(? & ? & ? & ? & _ & H & _)|(up & pl & s1 & target & n & loc & wire & s2 & _ & _ & Hc & _ & _ & Hu & Hd)]];
    [by destruct Hn..|].
  exists loc, wire. split; [exact (Hu Hb)|]. split; [exact Hd|].
  destruct wire; [|cbn; lia]. destruct (Hp loc Hd).
  revert Hc. unfold counters_for. cbn [counters_by_user tables toy_context fallback_user_id].
  destruct ({[42%Z := 0]} !! user_of _ _) as [k|] eqn:Hk.
  - apply lookup_singleton_Some in Hk as [_ <-]. by intros [= <-].
  - by rewrite lookup_singleton_ne.
Defined.
