(* ===== verification/TcpMeter.v ===== *)
(** * The rate limit on a TCP session

    What a session forwards it has been granted before: at any moment the
    bytes written to the target and to the client are at most what the
    user's limiter has granted the session.  [meter pre post m] follows the
    code with the credit that is left: a round of the limiter adds to it, a
    write uses it up. *)

From S2P Require Import Prelude Errors Kdf Str Cipher Protocol ProtocolSpec.
From S2P Require Import ProtocolPackets Session SessionSpec Client EndToEnd Interleave.
From S2P Require Import Net Address Float Policy RateLimit Traffic Conn RelayAudit Task.
From S2P Require Import TcpRelay TcpSpec TcpHistory TcpSafety TcpTheorems.
Import ServerSession.

(** What a limiter granted, by the verdicts of its rounds, and what was
    forwarded. *)
Definition granted_of (x : label) : nat := match x with Asked _ _ n Granted => n | _ => 0 end.
Definition sent_of (x : label) : nat :=
  match x with SentRemote b | SentClient b => length b | _ => 0 end.
Definition granted (l : list label) : nat := sum_list_with granted_of l.
Definition forwarded (l : list label) : nat := sum_list_with sent_of l.

(** At any moment no more is forwarded than granted, and all of it by
    [lim]. *)
Definition metered (lim : nat) (l : list label) : Prop :=
  (forall l1, l1 `prefix_of` l -> forwarded l1 <= granted l1) /\
  Forall (fun x => forall loc now n v, x = Asked loc now n v -> loc = lim) l.

Lemma granted_snoc l x : granted (l ++ [x]) = granted l + granted_of x.
Proof. unfold granted. rewrite sum_list_with_app. cbn. lia. Qed.
Lemma forwarded_snoc l x : forwarded (l ++ [x]) = forwarded l + sent_of x.
Proof. unfold forwarded. rewrite sum_list_with_app. cbn. lia. Qed.

Lemma prefix_of_snoc {A} (l1 l : list A) x : l1 `prefix_of` l ++ [x] -> l1 = l ++ [x] \/ l1 `prefix_of` l.
Proof.
  intros [k Hk]. destruct k as [|y k _] using rev_ind; [left; by rewrite app_nil_r in Hk|right].
  rewrite app_assoc in Hk. apply app_inj_tail in Hk as [-> _]. by exists k.
Qed.

Lemma metered_snoc lim l x :
  metered lim l -> forwarded l + sent_of x <= granted l + granted_of x ->
  (forall loc now n v, x = Asked loc now n v -> loc = lim) -> metered lim (l ++ [x]).
Proof.
  intros [Hm Hl] Hx Hlim. split; [|apply Forall_app; split; [done|by constructor]].
  intros l1 Hp. apply prefix_of_snoc in Hp as [->|Hp]; [by rewrite forwarded_snoc, granted_snoc|by apply Hm].
Qed.

Lemma forwarded_bytes l : forwarded l = length (sent_remote l) + length (sent_client l).
Proof.
  induction l as [|x l IH] using rev_ind; [done|]. rewrite forwarded_snoc, IH.
  destruct x; logs; rewrite ?length_app; cbn; lia.
Qed.

Section Session.
Context `{HL : CryptoLaws} `{RE : RegexEngine} `{!Env Await Shared label}.

Abbreviation IO := (ST (task ServerSession.t Shared label) error).
Abbreviation state := (task ServerSession.t Shared label).

Context (lim : option nat) (l0 : list label).

(** Metered, if there is a limiter, from [l0] on. *)
Definition on_track (l : list label) : Prop :=
  (forall n, lim = Some n -> metered n l) /\ l0 `prefix_of` l.

(** With a credit of [pre] bytes, [m] leaves [post] if it gets through, and
    meters whatever happens. *)
Definition credit (k : nat) (s : state) : Prop :=
  is_Some lim -> forwarded (log s) + k <= granted (log s).

Definition meter (pre post : nat) {A} (m : IO A) : Prop :=
  forall s, on_track (log s) -> credit pre s ->
  wp m (fun r s' => on_track (log s') /\ (forall a, r = Ok a -> credit post s')) s.

Lemma meter_bind {A B} i j k (m : IO A) (f : A -> IO B) :
  meter i j m -> (forall a, meter j k (f a)) -> meter i k (m ≫= f).
Proof.
  intros Hm Hf s Hs Hc. apply wp_bind. eapply wp_mono; [by apply Hm|].
  intros [a|e| |] s1 [H1 H2]; cbn [then_]; [by apply Hf; [|eapply H2]|done..].
Qed.

Lemma meter_silent {A} k (m : IO A) : (forall s, log (m s).2 = log s) -> meter k k m.
Proof. intros Hm s Hs Hc. unfold wp, credit in *. rewrite Hm. done. Qed.

Lemma meter_ret {A} k (a : A) : meter k k (mret (M:=ST state error) a).
Proof. by apply meter_silent. Qed.
Lemma meter_lift {A} k (r : res error A) : meter k k (lift r : IO A).
Proof. by apply meter_silent. Qed.
Lemma meter_await {X : Set} k (a : Await X) : meter k k (await a : IO X).
Proof. apply meter_silent. intros s. unfold await. by destruct (react _ _ _) as [[??]|]. Qed.
Lemma meter_on_local {A} k (m : ST ServerSession.t error A) : meter k k (on_local m : IO A).
Proof. apply meter_silent. intros s. unfold on_local. by destruct (m _). Qed.
Lemma meter_on_shared {A} k (f : Shared -> A * Shared) : meter k k (on_shared f : IO A).
Proof. apply meter_silent. intros s. unfold on_shared. by destruct (f _). Qed.

(** An error ends the session, so it may promise anything. *)
Lemma meter_err {A} i k e : meter i k (lift (Err e) : IO A).
Proof. by intros s Hs Hc. Qed.

(** A label, by what it grants and forwards. *)
Lemma meter_emit i x :
  sent_of x <= i + granted_of x -> (forall loc now n v, x = Asked loc now n v -> lim = Some loc) ->
  meter i (i + granted_of x - sent_of x) (emit x : IO ()).
Proof.
  intros Hx Hl s Hs Hc. unfold credit in *. apply wp_emit. cbn [log]. split.
  - destruct Hs as [Hm Hp]. split; [|by apply prefix_app_r]. intros n Hn.
    apply metered_snoc; [by apply Hm|specialize (Hc (mk_is_Some _ _ Hn)); lia|].
    intros loc now k v Hk. specialize (Hl loc now k v Hk). congruence.
  - intros _ _ Hn. specialize (Hc Hn). cbn [log]. rewrite forwarded_snoc, granted_snoc. lia.
Qed.

Lemma meter_quiet k x : sent_of x = 0 -> granted_of x = 0 -> (forall loc now n v, x <> Asked loc now n v) -> meter k k (emit x).
Proof.
  intros H1 H2 Hn. pose proof (meter_emit k x) as He. rewrite H1, H2, Nat.add_0_r, Nat.sub_0_r in He.
  apply He; [lia|]. by intros loc now n v ?%Hn.
Qed.

Lemma meter_less {A} i j k (m : IO A) : meter i j m -> k <= j -> meter i k m.
Proof.
  intros Hm Hk s Hs Hc. eapply wp_mono; [by apply Hm|]. intros r s1 [H1 H2]. split; [done|].
  intros a Ha Hn. specialize (H2 a Ha Hn). lia.
Qed.

(** ** The primitives of the relay *)

Lemma meter_limit fuel k : meter 0 k (limit fuel lim k).
Proof.
  destruct lim as [l|] eqn:Hlim; cbn [limit].
  2:{ intros s Hs Hc. apply wp_ret. split; [done|]. intros _ _ Hn. by rewrite Hlim in Hn; destruct Hn. }
  induction fuel as [|fuel IH]; cbn [acquire_tokens]; [by intros s Hs Hc|].
  eapply meter_bind; [apply meter_await|]. intros now. eapply meter_bind; [apply meter_on_shared|]. intros r.
  eapply meter_bind; [apply meter_lift|]. intros v.
  eapply meter_bind; [apply meter_emit; [cbn; lia|by intros loc t n w [= <- _ _]]|]. intros _.
  destruct v as [|wait]; cbn [granted_of sent_of].
  - eapply meter_less; [apply meter_ret|lia].
  - eapply meter_bind; [apply meter_await|]. intros _. exact IH.
Qed.

Lemma meter_written w b (l : bytes -> label) timeout :
  (forall c, sent_of (l c) = length c /\ granted_of (l c) = 0 /\ forall loc now n v, l c <> Asked loc now n v) ->
  meter (length b) 0 (written w b l timeout).
Proof.
  intros Hl. assert (Hw : forall c, length c <= length b -> meter (length b) 0 (emit (l c))).
  { intros c Hc. destruct (Hl c) as (H1 & H2 & H3).
    eapply meter_less; [apply meter_emit; [lia|by intros loc now n' v ?%H3]|lia]. }
  destruct w as [|n|n]; cbn [written]; [by apply Hw|..].
  all: eapply meter_bind; [apply Hw; rewrite length_take; lia|]; intros _; apply meter_err.
Qed.

Lemma meter_write_remote b : meter (length b) 0 (write_remote b).
Proof. eapply meter_bind; [apply meter_await|]. intros w. by apply meter_written. Qed.
Lemma meter_write_client b : meter (length b) 0 (write_client b).
Proof. eapply meter_bind; [apply meter_await|]. intros w. by apply meter_written. Qed.
Lemma meter_write_initial b : meter (length b) 0 (write_initial b).
Proof. eapply meter_bind; [apply meter_await|]. intros w. by apply meter_written. Qed.

Lemma meter_forward fuel (b : bytes) (m : IO ()) :
  meter (length b) 0 m -> meter 0 0 (if length b =? 0 then mret () else limit fuel lim (length b);; m).
Proof. intros Hm. case_match; [apply meter_ret|]. by eapply meter_bind; [apply meter_limit|]. Qed.

Lemma meter_send fuel w (k : () -> IO ()) :
  (forall u, meter 0 0 (k u)) -> meter 0 0 (limit fuel lim (length w);; u ← write_client w; k u).
Proof.
  intros Hk. eapply meter_bind; [apply meter_limit|]. intros _.
  by eapply meter_bind; [apply meter_write_client|].
Qed.

Lemma meter_received k r (l : bytes -> label) :
  (forall c, sent_of (l c) = 0 /\ granted_of (l c) = 0 /\ forall loc now n v, l c <> Asked loc now n v) ->
  meter k k (received r l).
Proof.
  intros Hl. destruct r as [b|]; cbn [received]; [|apply meter_lift].
  eapply meter_bind; [|intros; apply meter_ret]. destruct (Hl b) as (? & ? & ?). by apply meter_quiet.
Qed.

Lemma meter_count loc up n : meter 0 0 (count loc up n).
Proof. eapply meter_bind; [apply meter_on_shared|]. intros _. by apply meter_quiet. Qed.

Ltac meter_step :=
  first
    [ apply meter_forward
    | apply meter_count
    | apply meter_write_remote
    | apply meter_write_initial
    | apply meter_received; by intros
    | apply meter_ret
    | apply meter_lift
    | apply meter_await
    | apply meter_on_local
    | apply meter_on_shared
    | apply meter_quiet; by intros
    | eapply (meter_bind 0 0); [|intros ?]
    | match goal with |- meter 0 0 (match ?x with _ => _ end) => destruct x end ].

Lemma relay_meter fuel loc : meter 0 0 (relay fuel loc lim).
Proof.
  induction fuel as [|fuel IH]; cbn [relay]; [apply meter_lift|].
  eapply meter_bind; [apply meter_await|]. intros [|r|r]; repeat (exact IH || (apply meter_send; intros _) || meter_step).
Qed.

Lemma connect_meter target policy e : meter 0 0 (connect_target_checked target policy e).
Proof.
  assert (Hf : forall l, meter 0 0 (connect_first l)).
  { induction l as [|a l IH]; cbn [connect_first]; repeat (exact IH || meter_step). }
  unfold connect_target_checked, connect_target. repeat (apply Hf || meter_step).
Qed.

Lemma serve_meter fuel c uid loc policy target initial :
  meter 0 0 (serve fuel c uid loc lim policy target initial).
Proof. unfold serve. cbv zeta. repeat (apply relay_meter || apply connect_meter || meter_step). Qed.

Lemma meter_finally (m d : IO ()) :
  meter 0 0 m -> meter 0 0 d -> meter 0 0 (finally m d).
Proof.
  intros Hm Hd s Hs Hc. apply wp_finally. eapply wp_mono; [by apply Hm|].
  assert (Hz : forall s1 : state, on_track (log s1) -> credit 0 s1).
  { intros s1 [H1 _] [n Hn]. pose proof (proj1 (H1 n Hn) (log s1) ltac:(done)). lia. }
  intros r s1 [H1 H2]. destruct r; [..|done];
    (eapply wp_mono; [by apply Hd; [|apply Hz]|]; intros r2 s2 [H3 H4]; destruct r2; by split; [|auto]).
Qed.

Lemma with_guard_meter g (m : IO ()) : meter 0 0 m -> meter 0 0 (with_guard g m).
Proof.
  intros Hm. destruct g as [g|]; [|done]. cbn [with_guard]. apply meter_finally; [done|].
  unfold release. repeat meter_step.
Qed.

Lemma acquire_guard_meter c uid policy : meter 0 0 (acquire_guard c uid policy).
Proof. unfold acquire_guard. repeat meter_step. Qed.

(** [handle_session] behind the handshake. *)
Lemma rest_meter fuel c uid pre target initial policy :
  meter 0 0 (
    loc ← lift (counters_for c uid);
    count loc true (Z.to_nat pre);;
    a ← acquire_guard c uid policy;
    match a with
    | Refused => mret ()
    | Entered g => with_guard g (serve fuel c uid loc lim policy target initial)
    end).
Proof.
  eapply meter_bind; [apply meter_lift|]. intros loc. eapply meter_bind; [apply meter_count|]. intros _.
  eapply meter_bind; [apply acquire_guard_meter|]. intros [|g]; [apply meter_ret|].
  apply with_guard_meter, serve_meter.
Qed.

End Session.

(** ** The session *)

Section Whole.
Context `{HL : CryptoLaws} `{RE : RegexEngine} `{!Env Await Shared label}.

Lemma received_meter lim l : Forall is_received l -> metered lim l /\ forwarded l = 0 /\ granted l = 0.
Proof.
  induction l as [|x l IH] using rev_ind; intros Hl.
  { split_and!; [|done|done]. split; [|constructor]. by intros l1 ->%prefix_nil_inv. }
  apply Forall_app in Hl as [Hl Hx]. apply Forall_singleton in Hx as [b ->].
  destruct (IH Hl) as (Hm & Hf & Hg). rewrite forwarded_snoc, granted_snoc, Hf, Hg.
  split_and!; [|done|done]. apply metered_snoc; [done|cbn; lia|done].
Qed.

(** The limiter of a user. *)
Definition limiter_of (c : StreamContext) (uid : Z) : option nat :=
  if ec_speed (enforcement c) then speeds_by_user (tables c) !! uid else None.

Definition metered_session (c : StreamContext) (s0 : ServerSession.t) (l : list label) : Prop :=
  Forall is_received l \/
  exists up payload s1 target n, decoded s0 l up payload s1 /\ parse payload = Ok (Some (target, n)) /\
    forall lim, limiter_of c (user_of c (ServerSession.user_id s1)) = Some lim -> metered lim l.

Lemma handle_session_meter fuel c s0 sh :
  swf s0 -> sdecode s0 [] = Ok ([], s0) ->
  wp (handle_session fuel c) (fun _ s' => metered_session c s0 (log s'))
    {| local := s0; shared := sh; log := [] |}.
Proof.
  intros Hs0 Hnil. unfold handle_session. apply wp_bind.
  apply (handshake_wp fuel s0 [] 0%Z _); [done|by split_and!; [constructor| |]|done|..].
  { intros r s' [Hl _] Hn _. destruct r as [[h|]|e| |]; cbn [then_]; [by destruct (Hn h)|by left..]. }
  intros target n payload s1 Hl [Hd Hpa] _. cbn [then_]. apply wp_bind, wp_get. cbn [then_].
  fold (user_of c (ServerSession.user_id (local s1))).
  set (uid := user_of c (ServerSession.user_id (local s1))). fold (limiter_of c uid).
  destruct (received_meter 0 (log s1) Hl) as (_ & Hf & Hg).
  eapply wp_mono; [apply (rest_meter (limiter_of c uid) (log s1))|].
  - split; [|done]. intros lim _. by apply received_meter.
  - intros _. lia.
  - intros r s2 [[Hm [k Hk]] _]. right. exists (received_bytes (log s1)), payload, (local s1), target, n.
    split; [split; [|done]|split; [done|by apply Hm]].
    rewrite Hk. unfold received_bytes. rewrite omap_app, concat_app. by eexists.
Qed.

End Whole.

(** ** Properties *)

Import Toy.

(** C12 The rate limit of a user, in every environment: if limits are
    enforced and the user the session is accounted to has a limiter, then
    at any moment of the session the bytes it has forwarded (to the target
    and to the client together, partial writes of failed calls included)
    are at most the bytes that this limiter has granted to it; no other
    limiter is asked.  Granted is the verdict of the user's bucket itself
    ([accounts_for]): every round in the log was held against the bucket as
    it then was, at an instant the clock showed, and took its tokens; one
    that says to sleep grants nothing. *)
Theorem session_rate_limited `{HL : CryptoLaws} `{RE : RegexEngine} (E : Env Await Shared label)
    rnd iv fuel c sh
    (Hr : rnd (CipherKind.iv_len (cipher_kind c)) = Some iv)
    (Hiv : length iv = CipherKind.iv_len (cipher_kind c)) :
  exists s0, ServerSession.new rnd (password c) (auth_users (tables c)) (sc_is_multi_user c)
      (cipher_kind c) = Ok s0 /\
  let '(r, l, sh') := handle_stream rnd fuel c sh in
  accounts_for l sh sh' /\
  (Forall is_received l \/
   exists up payload s1 target n, decoded s0 l up payload s1 /\ parse payload = Ok (Some (target, n)) /\
     forall lim, limiter_of c (user_of c (ServerSession.user_id s1)) = Some lim ->
       Forall (fun x => forall loc now n v, x = Asked loc now n v -> loc = lim) l /\
       forall l1, l1 `prefix_of` l ->
         length (sent_remote l1) + length (sent_client l1) <= granted l1).
Proof.
  destruct (new_fresh rnd (password c) (auth_users (tables c)) (sc_is_multi_user c) (cipher_kind c)
    iv Hr Hiv) as (enc & Hnew & _).
  eexists. split; [exact Hnew|]. pose proof (session_history rnd fuel c sh) as Hh.
  unfold handle_stream in *. rewrite Hnew in *.
  pose proof (handle_session_meter fuel c _ sh (fresh_swf (cipher_kind c) (password c)
    (auth_users (tables c)) (sc_is_multi_user c) iv enc) (fresh_nil _ _ _ _ _ _)) as Hw.
  unfold wp in Hw. destruct (handle_session fuel c _) as [r s]. cbn [fst snd] in *.
  split; [done|]. destruct Hw as [Hw|(up & payload & s1 & target & n & Hd & Hpa & Hm)]; [by left|right].
  exists up, payload, s1, target, n. split; [done|]. split; [done|]. intros lim Hlim. destruct (Hm lim Hlim) as [Hp Hl]. split; [done|].
  intros l1 Hl1. rewrite <- forwarded_bytes. by apply Hp.
Qed.

Example toy_limited_runs :
  toy_session.1.1 = Ok () /\ granted toy_session.1.2 = forwarded toy_session.1.2 /\
  0 < length (sent_remote toy_session.1.2) /\ 0 < length (sent_client toy_session.1.2).
Proof. vm_compute. split_and!; [done|done|lia|lia]. Qed.

(** The bytes of the client's stream, under the limiter of its user. *)
Lemma session_rate_limited_witness :
  let '(r, l, sh') := toy_session in
  0 < length (sent_remote l) + length (sent_client l) <= granted l /\
  history eq (fun _ => True) toy_shared l sh'.
Proof.
  pose proof (session_rate_limited (HL:=crypto_laws) (RE:=ToyRegex.engine) (play (toy_script toy_upstream)) toy_rnd
    (repeat Byte.x0a 12) 3 toy_context toy_shared eq_refl eq_refl) as (s0 & _ & Hw).
  destruct toy_limited_runs as (Hr & Hg & Hs & _). rewrite forwarded_bytes in Hg.
  destruct (handle_stream _ _ _ _) as [[r l] sh']. cbn [fst snd] in *. destruct Hw as [Hh _].
  split; [lia|]. apply Hh, play_alone.
Defined.

(** An empty bucket and a clock that stands still: nothing is forwarded. *)
Definition starved : @Shared ToyRegex.engine :=
  {| counter_cells := {[0 := zero_counters]}; ip_sets := ∅;
     limit_buckets := {[9 := {| rate := f64_of_Z 1000; capacity := MIN_BURST; tokens := f64_zero; last := 0 |}]};
     events := []; rules := []; moment := 0 |}.

#[local] Instance stopped_clock : Env Await (@Shared ToyRegex.engine) label := fun X a l sh =>
  match a in Await X return option (X * @Shared ToyRegex.engine) with
  | LockLimiter _ => Some (0%Z, sh)
  | a => play (toy_script toy_upstream) _ a l sh
  end.

Example starved_forwards_nothing :
  let l := (handle_stream toy_rnd 9 toy_context starved).1.2 in
  granted l = 0 /\ sent_remote l = [] /\ sent_client l = [] /\ 0 < length (received_bytes l).
Proof. vm_compute. split_and!; [done..|lia]. Qed.
