(* ===== verification/Supervisor.v ===== *)
(** * The supervisor ([src/src/runtime/supervisor.rs])

    [BackendRuntime]: one task that polls the panel, keeps the ledgers,
    publishes the user tables and the detect rules, owns the listeners, and
    reports.  Its awaits are the panel's answers, the clock, the end of a
    stopped listener, and the branch of [run]'s [select!].  The counters,
    IP sets and limiters are shared with the relays, which the environment
    plays: it may change them at every await.  A listener is the arguments
    of the [spawn_user_listener] that started it. *)

From S2P Require Import Prelude Errors Str Kdf Cipher Protocol Session.
From S2P Require Import Float Panel Profile Config Policy Traffic Conn RateLimit TtlMap.
From S2P Require Import RelayAudit Task Listeners.

(** [struct UserFingerprint]. *)
Record UserFingerprint : Type := {
  fp_port : Z; fp_password : string; fp_profile : Profile.t; fp_is_multi_user : Z
}.

#[export] Instance fingerprint_eq_dec : EqDecision UserFingerprint.
Proof. solve_decision. Defined.

(** [struct ActiveUser]. *)
Record ActiveUser : Type := {
  fingerprint : UserFingerprint; au_tcp : option TcpListenerTask; au_udp : option UdpListenerTask
}.

(** The keys of the local maps. *)
Record AliveIpKey : Set := { ak_user_id : Z; ak_ip : string }.
Record DetectLogKey : Set := { dk_user_id : Z; dk_list_id : Z; dk_ip : string }.
Record SessionKey : Set := { sk_user_id : Z; sk_peer : string }.

#[export] Instance alive_ip_key_eq_dec : EqDecision AliveIpKey.
Proof. solve_decision. Defined.
#[export] Instance alive_ip_key_countable : Countable AliveIpKey.
Proof.
  refine (inj_countable' (fun k => (ak_user_id k, ak_ip k))
    (fun x => {| ak_user_id := x.1; ak_ip := x.2 |}) _).
  by intros [].
Defined.
#[export] Instance detect_log_key_eq_dec : EqDecision DetectLogKey.
Proof. solve_decision. Defined.
#[export] Instance detect_log_key_countable : Countable DetectLogKey.
Proof.
  refine (inj_countable' (fun k => (dk_user_id k, dk_list_id k, dk_ip k))
    (fun x => {| dk_user_id := x.1.1; dk_list_id := x.1.2; dk_ip := x.2 |}) _).
  by intros [].
Defined.
#[export] Instance session_key_eq_dec : EqDecision SessionKey.
Proof. solve_decision. Defined.
#[export] Instance session_key_countable : Countable SessionKey.
Proof.
  refine (inj_countable' (fun k => (sk_user_id k, sk_peer k))
    (fun x => {| sk_user_id := x.1; sk_peer := x.2 |}) _).
  by intros [].
Defined.

(** [struct BackendRuntime], without the configuration, the client and the
    channels' ends.  A ledger is the part of it that only the supervisor
    uses: its maps from users to locations. *)
Record BackendRuntime : Type := {
  traffic_counters : gmap Z nat;
  traffic_checkpoints : gmap Z CounterSnapshot;
  conns : gmap Z nat;
  speeds : gmap Z nat;
  active_users : gmap Z ActiveUser;
  sessions : BoundedTtlMap.t SessionKey ();
  alive_ips : BoundedTtlMap.t AliveIpKey ();
  detect_logs : BoundedTtlMap.t DetectLogKey DetectLogReport;
  started_at : Instant
}.

(** The branch of [run]'s [select!] that fires. *)
Inductive branch : Set :=
  | Shutdown
  | EventReady
  | PollTick
  | TrafficTick
  | HeartbeatTick.

(** [AwaitStop]: [UdpListenerTask::stop] and [TcpListenerTask::stop] wait
    for the task they have signalled, two seconds at most; one that takes
    longer goes on by itself.  [Meanwhile]: not an await; what the
    relays on other threads add to the counters while [pending_deltas]
    loads them. *)
Inductive SupAwait `{Wire} : Set -> Type :=
  | PanelAnswers : SupAwait (request -> option Value)
  | Now : SupAwait Instant
  | AwaitStop (port : Z) : SupAwait ()
  | Meanwhile : SupAwait (nat -> list addition)
  | Select : SupAwait branch.

(** [Exchanged]: a request that was sent to the panel, and the answer.
    [Stopping]: the listeners of the port are taken down: the stop signals
    go out one after the other from here on. *)
Inductive sup_label `{Wire} : Type :=
  | Exchanged (r : request) (answer : option Value)
  | TablesPublished (t : UserTables)
  | RulesPublished (n : nat)
  | Spawned (port : Z) (a : ActiveUser)
  | Stopping (port : Z) (a : ActiveUser)
  | Forgotten (live : gset Z).

Section Supervisor.
Context `{W : Wire} `{C : Crypto} `{RE : RegexEngine} `{HO : HashOrder}.

(** What the supervisor shares with the relays.  [relayed] is not in the
    code: the additions made to the counters so far, for the statements. *)
Record SupShared : Type := {
  s_cells : gmap nat UserCounters;
  s_relayed : list addition;
  s_ip_sets : gmap nat (gmap string nat);
  s_buckets : gmap nat Bucket;
  s_queue : list RelayEvent;
  s_rules : RuleSet;
  s_published : UserTables;
  s_moment : nat                             (* the environment's, see [Task] *)
}.

Definition set_cells (v : gmap nat UserCounters) (l : list addition) (s : SupShared) : SupShared :=
  {| s_cells := v; s_relayed := l; s_ip_sets := s_ip_sets s; s_buckets := s_buckets s;
     s_queue := s_queue s; s_rules := s_rules s; s_published := s_published s; s_moment := s_moment s |}.
Definition set_ip_sets (v : gmap nat (gmap string nat)) (s : SupShared) : SupShared :=
  {| s_cells := s_cells s; s_relayed := s_relayed s; s_ip_sets := v; s_buckets := s_buckets s;
     s_queue := s_queue s; s_rules := s_rules s; s_published := s_published s; s_moment := s_moment s |}.
Definition set_buckets (v : gmap nat Bucket) (s : SupShared) : SupShared :=
  {| s_cells := s_cells s; s_relayed := s_relayed s; s_ip_sets := s_ip_sets s; s_buckets := v;
     s_queue := s_queue s; s_rules := s_rules s; s_published := s_published s; s_moment := s_moment s |}.
Definition set_queue (v : list RelayEvent) (s : SupShared) : SupShared :=
  {| s_cells := s_cells s; s_relayed := s_relayed s; s_ip_sets := s_ip_sets s;
     s_buckets := s_buckets s; s_queue := v; s_rules := s_rules s; s_published := s_published s; s_moment := s_moment s |}.
Definition set_rules (v : RuleSet) (s : SupShared) : SupShared :=
  {| s_cells := s_cells s; s_relayed := s_relayed s; s_ip_sets := s_ip_sets s;
     s_buckets := s_buckets s; s_queue := s_queue s; s_rules := v; s_published := s_published s; s_moment := s_moment s |}.
Definition set_published (v : UserTables) (s : SupShared) : SupShared :=
  {| s_cells := s_cells s; s_relayed := s_relayed s; s_ip_sets := s_ip_sets s;
     s_buckets := s_buckets s; s_queue := s_queue s; s_rules := s_rules s; s_published := v; s_moment := s_moment s |}.

Definition set_moment (v : nat) (s : SupShared) : SupShared :=
  {| s_cells := s_cells s; s_relayed := s_relayed s; s_ip_sets := s_ip_sets s;
     s_buckets := s_buckets s; s_queue := s_queue s; s_rules := s_rules s;
     s_published := s_published s; s_moment := v |}.

(** Updates of the runtime's fields. *)
Definition set_traffic (c : gmap Z nat) (k : gmap Z CounterSnapshot) (b : BackendRuntime) : BackendRuntime :=
  {| traffic_counters := c; traffic_checkpoints := k; conns := conns b; speeds := speeds b;
     active_users := active_users b; sessions := sessions b; alive_ips := alive_ips b;
     detect_logs := detect_logs b; started_at := started_at b |}.
Definition set_conns (v : gmap Z nat) (b : BackendRuntime) : BackendRuntime :=
  {| traffic_counters := traffic_counters b; traffic_checkpoints := traffic_checkpoints b;
     conns := v; speeds := speeds b; active_users := active_users b; sessions := sessions b;
     alive_ips := alive_ips b; detect_logs := detect_logs b; started_at := started_at b |}.
Definition set_speeds (v : gmap Z nat) (b : BackendRuntime) : BackendRuntime :=
  {| traffic_counters := traffic_counters b; traffic_checkpoints := traffic_checkpoints b;
     conns := conns b; speeds := v; active_users := active_users b; sessions := sessions b;
     alive_ips := alive_ips b; detect_logs := detect_logs b; started_at := started_at b |}.
Definition set_active_users (v : gmap Z ActiveUser) (b : BackendRuntime) : BackendRuntime :=
  {| traffic_counters := traffic_counters b; traffic_checkpoints := traffic_checkpoints b;
     conns := conns b; speeds := speeds b; active_users := v; sessions := sessions b;
     alive_ips := alive_ips b; detect_logs := detect_logs b; started_at := started_at b |}.
Definition set_sessions (v : BoundedTtlMap.t SessionKey ()) (b : BackendRuntime) : BackendRuntime :=
  {| traffic_counters := traffic_counters b; traffic_checkpoints := traffic_checkpoints b;
     conns := conns b; speeds := speeds b; active_users := active_users b; sessions := v;
     alive_ips := alive_ips b; detect_logs := detect_logs b; started_at := started_at b |}.
Definition set_alive_ips (v : BoundedTtlMap.t AliveIpKey ()) (b : BackendRuntime) : BackendRuntime :=
  {| traffic_counters := traffic_counters b; traffic_checkpoints := traffic_checkpoints b;
     conns := conns b; speeds := speeds b; active_users := active_users b; sessions := sessions b;
     alive_ips := v; detect_logs := detect_logs b; started_at := started_at b |}.
Definition set_detect_logs (v : BoundedTtlMap.t DetectLogKey DetectLogReport) (b : BackendRuntime)
    : BackendRuntime :=
  {| traffic_counters := traffic_counters b; traffic_checkpoints := traffic_checkpoints b;
     conns := conns b; speeds := speeds b; active_users := active_users b; sessions := sessions b;
     alive_ips := alive_ips b; detect_logs := v; started_at := started_at b |}.

Context `{!Env SupAwait SupShared sup_label}.

Abbreviation IO := (ST (task BackendRuntime SupShared sup_label) error).

(** The ledgers with the objects their [Arc]s point to. *)
Definition traffic_of (b : BackendRuntime) (sh : SupShared) : TrafficLedger :=
  {| Traffic.counters := traffic_counters b; Traffic.checkpoints := traffic_checkpoints b;
     Traffic.objects := s_cells sh |}.

(** A method of [TrafficLedger]. *)
Definition on_traffic {A} (f : TrafficLedger -> A * TrafficLedger) : IO A :=
  on_both (fun b sh =>
    let '(a, l) := f (traffic_of b sh) in
    (a, set_traffic (Traffic.counters l) (Traffic.checkpoints l) b,
     set_cells (Traffic.objects l) (s_relayed sh) sh)).

(** Not in the code: note additions the relays have made. *)
Definition note_relayed (l : list addition) : IO () :=
  on_shared (fun sh => ((), set_cells (s_cells sh) (s_relayed sh ++ live_adds (s_cells sh) l) sh)).

(** A method of [ConnLedger]; the guards are the relays'. *)
Definition on_conns {A} (f : Conn.world -> A * Conn.world) : IO A :=
  on_both (fun b sh =>
    let '(a, w) := f {| Conn.conn_ledger := conns b; Conn.sets := s_ip_sets sh; Conn.guards := [] |} in
    (a, set_conns (Conn.conn_ledger w) b, set_ip_sets (Conn.sets w) sh)).

(** A method of [SpeedLedger]. *)
Definition on_speeds {A} (f : SpeedLedger -> A * SpeedLedger) : IO A :=
  on_both (fun b sh =>
    let '(a, l) := f {| RateLimit.limiters := speeds b; RateLimit.buckets := s_buckets sh |} in
    (a, set_speeds (RateLimit.limiters l) b, set_buckets (RateLimit.buckets l) sh)).

(** A change of the runtime alone. *)
Definition on_runtime (f : BackendRuntime -> BackendRuntime) : IO () :=
  on_both (fun b sh => ((), f b, sh)).

(** A method of [PanelClient]: what it sends is answered, and logged with
    the answer. *)
Definition answering (answers : request -> option Value) : Wire := {|
  Panel.Value := Value; send := answers; decode_envelope := decode_envelope; is_null := is_null;
  decode_users := decode_users; decode_node_info := decode_node_info;
  decode_detect_rules := decode_detect_rules; decode_relay_rules := decode_relay_rules
|}.

Fixpoint record (xs : list exchange) : IO () :=
  match xs with
  | [] => mret ()
  | (r, answer) :: xs =>
      emit (Exchanged r answer);;
      record xs
  end.

Definition panel_call {A} (method : forall W : Wire, call A) : IO A :=
  answers ← await PanelAnswers;
  let '(xs, r) := method (answering answers) in
  record xs;;
  lift r.

(** ** The configuration *)

Context (config : Config).

Definition node_id : Z := Config.node_id (panel config).

Definition enforcement_config : EnforcementConfig :=
  {| ec_forbidden := enforce_forbidden (node config); ec_conn_limit := enforce_conn_limit (node config);
     ec_audit_block := nc_audit_block (node config); ec_speed := enforce_speed (node config) |}.

(** [BackendRuntime::new], with what it shares. *)
Definition new_runtime (now : Instant) : BackendRuntime :=
  {| traffic_counters := ∅; traffic_checkpoints := ∅; conns := ∅; speeds := ∅; active_users := ∅;
     sessions := BoundedTtlMap.new (session_ttl (limits config)) (max_sessions (limits config));
     alive_ips := BoundedTtlMap.new (alive_ip_ttl (limits config)) (max_alive_ips (limits config));
     detect_logs := BoundedTtlMap.new (detect_log_ttl (limits config)) (max_detect_logs (limits config));
     started_at := now |}.

Definition new_shared : SupShared :=
  {| s_cells := ∅; s_relayed := []; s_ip_sets := ∅; s_buckets := ∅; s_queue := [];
     s_rules := empty_rules; s_published := default_tables; s_moment := 0 |}.

(** ** [sync_users] *)

(** [live_user_ids]. *)
Definition live_ids (us : list PanelUser) : gset Z := list_to_set (List.map Panel.user_id us).

(** The loop that builds the tables (lines 233-255). *)
Fixpoint tabulate (us : list PanelUser) (t : UserTables) : IO UserTables :=
  match us with
  | [] => mret t
  | user :: us =>
      let user_id := Panel.user_id user in
      counter ← on_traffic (Traffic.ensure_user user_id);
      conn ← on_conns (Conn.ensure_user user_id);
      let policy := UserPolicy.from_user user in
      now ← await Now;
      speed ← on_speeds (RateLimit.ensure_user now user_id (UserPolicy.speed_limit_bps policy));
      tabulate us
        {| counters_by_user := <[user_id := counter]> (counters_by_user t);
           conns_by_user := <[user_id := conn]> (conns_by_user t);
           speeds_by_user := <[user_id := speed]> (speeds_by_user t);
           policies := if UserPolicy.needs_connection_policy policy
                       then <[user_id := policy]> (policies t) else policies t;
           auth_users := if (pu_is_multi_user user =? 0)%Z
                         then <[user_id := derive_user_auth_key (pu_password user)]> (auth_users t)
                         else auth_users t |}
  end.

(** [carrier_config_matches]: it only selects what is logged. *)
Definition carrier_config_matches (a b : PanelUser) : bool :=
  bool_decide (pu_port a = pu_port b /\ pu_password a = pu_password b /\ pu_method a = pu_method b /\
    pu_protocol a = pu_protocol b /\ pu_protocol_param a = pu_protocol_param b /\
    pu_obfs a = pu_obfs b /\ pu_obfs_param a = pu_obfs_param b /\
    pu_is_multi_user a = pu_is_multi_user b).

(** [merge_carrier_users]: the first row of a port is kept. *)
Definition merge_one (by_port : gmap Z PanelUser) (user : PanelUser) : gmap Z PanelUser :=
  match by_port !! pu_port user with
  | Some _ => by_port
  | None => <[pu_port user := user]> by_port
  end.

Definition merge_carrier_users (us : list PanelUser) : list PanelUser :=
  List.map snd (hash_iter (fold_left merge_one us ∅)).

(** [listener_users]. *)
Definition is_carrier (u : PanelUser) : bool := negb (pu_is_multi_user u =? 0)%Z.

Definition listener_users (us : list PanelUser) : list PanelUser :=
  if existsb is_carrier us
  then merge_carrier_users (List.filter is_carrier us)
  else List.filter (fun u => negb (is_carrier u)) us.

(** [ActiveUser::stop]. *)
Definition stop (port : Z) (active : ActiveUser) : IO () :=
  emit (Stopping port active);;
  (match au_tcp active with Some _ => await (AwaitStop port) | None => mret () end);;
  match au_udp active with Some _ => await (AwaitStop port) | None => mret () end.

(** The listeners of a row. *)
Definition fingerprint_of (user : PanelUser) (profile : Profile.t) : UserFingerprint :=
  {| fp_port := pu_port user; fp_password := pu_password user; fp_profile := profile;
     fp_is_multi_user := pu_is_multi_user user |}.

Definition spawn (user : PanelUser) (profile : Profile.t) : ActiveUser :=
  let args := {| la_listen_host := listen_host (node config); la_user_id := Panel.user_id user;
                 la_port := pu_port user; la_password := pu_password user; la_profile := profile;
                 la_enforcement := enforcement_config; la_is_multi_user := pu_is_multi_user user |} in
  {| fingerprint := fingerprint_of user profile;
     au_tcp := if tcp_enabled (node config)
       then Some {| tcp_args := args; tcp_max_accepts := max_accepts_per_port (limits config) |}
       else None;
     au_udp := if udp_enabled (node config)
       then Some {| udp_args := args; ut_association_ttl := udp_association_ttl (limits config);
                    ut_max_associations := max_udp_associations (limits config) |}
       else None |}.

(** [ensure_active_user]. *)
Definition ensure_active_user (user : PanelUser) (profile : Profile.t) : IO () :=
  s ← get;
  match active_users (local s) !! pu_port user with
  | Some active =>
      if decide (fingerprint active = fingerprint_of user profile) then mret ()
      else
        on_runtime (fun b => set_active_users (delete (pu_port user) (active_users b)) b);;
        stop (pu_port user) active;;
        emit (Spawned (pu_port user) (spawn user profile));;
        on_runtime (fun b => set_active_users (<[pu_port user := spawn user profile]> (active_users b)) b)
  | None =>
      emit (Spawned (pu_port user) (spawn user profile));;
      on_runtime (fun b => set_active_users (<[pu_port user := spawn user profile]> (active_users b)) b)
  end.

(** The loop over [listener_users]: a row with an unsupported profile is
    skipped.  The result is [live_ports]. *)
Fixpoint ensure_listeners (us : list PanelUser) (live : gset Z) : IO (gset Z) :=
  match us with
  | [] => mret live
  | user :: us =>
      match Profile.from_user user (node config) with
      | Ok profile =>
          ensure_active_user user profile;;
          ensure_listeners us ({[ pu_port user ]} ∪ live)
      | Err _ => ensure_listeners us live
      | Panic => lift Panic
      | OutOfFuel => lift OutOfFuel
      end
  end.

(** [remove] and [stop] for each port of the list. *)
Fixpoint remove_ports (ports : list Z) : IO () :=
  match ports with
  | [] => mret ()
  | port :: ports =>
      s ← get;
      match active_users (local s) !! port with
      | Some active =>
          on_runtime (fun b => set_active_users (delete port (active_users b)) b);;
          stop port active;;
          remove_ports ports
      | None => remove_ports ports
      end
  end.

(** The calls that drop what belongs to users that are gone (lines
    310-316). *)
Definition forget_traffic (live : gset Z) : IO () :=
  on_traffic (fun l => ((), Traffic.remove_stale_users live l));;
  emit (Forgotten live).

Definition remove_stale_state (live : gset Z) : IO () :=
  forget_traffic live;;
  on_conns (fun w => ((), Conn.remove_stale_users live w));;
  on_speeds (fun l => ((), RateLimit.remove_stale_users live l));;
  on_runtime (fun b => set_sessions
    (BoundedTtlMap.retain (fun k _ => bool_decide (sk_user_id k ∈ live)) (sessions b)) b);;
  on_runtime (fun b => set_alive_ips
    (BoundedTtlMap.retain (fun k _ => bool_decide (ak_user_id k ∈ live)) (alive_ips b)) b);;
  on_runtime (fun b => set_detect_logs
    (BoundedTtlMap.retain (fun k _ => bool_decide (dk_user_id k ∈ live)) (detect_logs b)) b).

Definition sync_users : IO () :=
  users ← panel_call (fun W => Panel.users node_id);
  lift (bail_if (max_users (limits config) <? length users)
    (TooManyUsers (length users) (max_users (limits config))));;
  tables ← tabulate users default_tables;
  on_shared (fun sh => ((), set_published tables sh));;
  emit (TablesPublished tables);;
  live_ports ← ensure_listeners (listener_users users) ∅;
  s ← get;
  let stale_ports := List.filter (fun port => negb (bool_decide (port ∈ live_ports)))
    (List.map fst (hash_iter (active_users (local s)))) in
  remove_ports stale_ports;;
  remove_stale_state (live_ids users).

(** ** The reports *)

(** What a delta looks like on the wire. *)
Definition report_of (d : TrafficDelta) : TrafficReport :=
  {| tr_user_id := td_user_id d; tr_upload := td_upload d; tr_download := td_download d |}.

Definition report_traffic : IO () :=
  added ← await Meanwhile;
  deltas ← on_traffic (pending_deltas_during added);
  s ← get;
  note_relayed (sched_adds added 0 (2 * length (hash_iter (traffic_counters (local s)))));;
  if length deltas =? 0 then mret ()
  else
    panel_call (fun W => Panel.report_traffic node_id (List.map report_of deltas));;
    on_traffic (fun l => ((), mark_reported deltas l)).

Definition report_heartbeat : IO () :=
  now ← await Now;
  s ← get;
  panel_call (fun W => Panel.report_node_info node_id "0.00 0.00 0.00"
    (duration_since now (started_at (local s)) / NANOS_PER_SEC)%Z).

Definition report_auxiliary_state : IO () :=
  s ← get;
  let items := List.map (fun k => {| air_user_id := ak_user_id k; air_ip := ak_ip k |})
    (BoundedTtlMap.keys (alive_ips (local s))) in
  panel_call (fun W => Panel.report_alive_ips node_id items);;
  on_runtime (fun b => set_alive_ips (BoundedTtlMap.retain (fun _ _ => false) (alive_ips b)) b);;
  s ← get;
  let logs := BoundedTtlMap.values (detect_logs (local s)) in
  if length logs =? 0 then mret ()
  else
    panel_call (fun W => Panel.report_detect_logs node_id logs);;
    on_runtime (fun b => set_detect_logs (BoundedTtlMap.retain (fun _ _ => false) (detect_logs b)) b).

(** ** Events and rules *)

(** [record_event]. *)
Definition record_event (event : RelayEvent) : IO () :=
  match event with
  | Connect user_id ip peer =>
      now ← await Now;
      on_runtime (fun b => set_sessions
        (BoundedTtlMap.insert now {| sk_user_id := user_id; sk_peer := peer |} () (sessions b)) b);;
      now ← await Now;
      on_runtime (fun b => set_alive_ips
        (BoundedTtlMap.insert now {| ak_user_id := user_id; ak_ip := ip |} () (alive_ips b)) b)
  | Detect user_id list_id ip =>
      now ← await Now;
      on_runtime (fun b => set_detect_logs
        (BoundedTtlMap.insert now {| dk_user_id := user_id; dk_list_id := list_id; dk_ip := ip |}
          {| dlr_user_id := user_id; dlr_list_id := list_id |} (detect_logs b)) b)
  end.

(** [events_rx.recv]: the oldest event of the channel. *)
Definition recv_event : IO (option RelayEvent) :=
  on_shared (fun sh => match s_queue sh with
    | event :: queue => (Some event, set_queue queue sh)
    | [] => (None, sh)
    end).

Definition refresh_detect_rules : IO () :=
  rules ← attempt (panel_call (fun W => Panel.detect_rules));
  match rules with
  | Some rules =>
      let compiled := compile_rules rules in
      on_shared (fun sh => ((), set_rules compiled sh));;
      emit (RulesPublished (length compiled))
  | None => mret ()
  end.

Definition expire_local_state : IO () :=
  now ← await Now;
  on_runtime (fun b => set_sessions (BoundedTtlMap.expire now (sessions b)) b);;
  now ← await Now;
  on_runtime (fun b => set_alive_ips (BoundedTtlMap.expire now (alive_ips b)) b);;
  now ← await Now;
  on_runtime (fun b => set_detect_logs (BoundedTtlMap.expire now (detect_logs b)) b).

(** [initial_panel_probe]: its answers are only logged. *)
Definition initial_panel_probe : IO () :=
  dropped (panel_call (fun W => Panel.ping));;
  dropped (panel_call (fun W => Panel.node_info node_id));;
  dropped (panel_call (fun W => Panel.detect_rules));;
  dropped (panel_call (fun W => Panel.relay_rules node_id)).

(** [stop_all]: every listener, in the map's order. *)
Fixpoint stop_each (l : list (Z * ActiveUser)) : IO () :=
  match l with
  | [] => mret ()
  | (port, user) :: l => stop port user;; stop_each l
  end.

Definition stop_all : IO () :=
  s ← get;
  on_runtime (set_active_users ∅);;
  stop_each (hash_iter (active_users (local s))).

(** ** [run] *)

(** One turn of the [select!]; [true]: leave the loop. *)
Definition turn (br : branch) : IO bool :=
  match br with
  | Shutdown => mret true
  | EventReady =>
      event ← recv_event;
      match event with
      | Some event =>
          record_event event;;
          mret false
      | None => mret false
      end
  | PollTick =>
      dropped sync_users;;
      refresh_detect_rules;;
      expire_local_state;;
      mret false
  | TrafficTick =>
      dropped report_traffic;;
      dropped report_auxiliary_state;;
      mret false
  | HeartbeatTick =>
      dropped report_heartbeat;;
      mret false
  end.

Fixpoint run_loop (fuel : nat) : IO () :=
  match fuel with
  | 0 => lift OutOfFuel
  | S fuel =>
      br ← await Select;
      leave ← turn br;
      if (leave : bool) then mret () else run_loop fuel
  end.

(** [tokio::time::interval] panics if its period is zero. *)
Definition interval (period : Duration) : IO () :=
  lift (if (period =? 0)%Z then Panic else Ok ()).

(** The three tickers, and the loop. *)
Definition tick_loop (fuel : nat) : IO () :=
  interval (poll_interval (panel config));;
  interval (traffic_report_interval (panel config));;
  interval (heartbeat_interval (panel config));;
  run_loop fuel.

(** [BackendRuntime::run]: [fuel] bounds the turns of the loop. *)
Definition run (fuel : nat) : IO () :=
  initial_panel_probe;;
  refresh_detect_rules;;
  sync_users;;
  tick_loop fuel;;
  stop_all.

(** [main] from the runtime's construction on. *)
Definition start (fuel : nat) (now : Instant) : res error () * task BackendRuntime SupShared sup_label :=
  run fuel {| local := new_runtime now; shared := new_shared; log := [] |}.

End Supervisor.
