(* ===== verification/SupervisorSpec.v ===== *)
(** * What the supervisor does, in every environment

    - [world_of]: the supervisor with the relays' additions is a run of the
      ledger model of [Traffic.v], so its conservation theorem holds of it;
    - [sync_users]: the tables, the listeners and the ledgers after a poll,
      as functions of the rows;
    - which listeners a poll restarts;
    - the bounds of the local maps. *)

From S2P Require Import Prelude Errors Str Kdf Cipher Protocol Session.
From S2P Require Import Float Panel Profile Config Policy Traffic Conn RateLimit TtlMap.
From S2P Require Import RelayAudit Task Listeners Supervisor.

Section Spec.
Context `{W : Wire} `{C : Crypto} `{RE : RegexEngine} `{HO : HashOrder}.
Context `{!Env SupAwait SupShared sup_label} (config : Config).

Abbreviation state := (task BackendRuntime SupShared sup_label).
Abbreviation IO := (ST state error).

(** What the relays may do to the shared objects: add to counters that
    exist, change the IP sets and the buckets but neither create nor remove
    one, and send events.  The tables and the rules are the supervisor's. *)
Definition relays_only_did (sh sh' : SupShared) : Prop :=
  (exists adds, s_cells sh' = add_all adds (s_cells sh) /\
     s_relayed sh' = s_relayed sh ++ live_adds (s_cells sh) adds) /\
  dom (s_ip_sets sh') = dom (s_ip_sets sh) /\ dom (s_buckets sh') = dom (s_buckets sh) /\
  s_rules sh' = s_rules sh /\ s_published sh' = s_published sh.

Lemma relays_only_did_refl sh : relays_only_did sh sh.
Proof. unfold relays_only_did. split_and!; try done. exists []. by rewrite live_adds_nil, app_nil_r. Qed.

Definition sup_env_ok : Prop :=
  forall (X : Set) (c : SupAwait X) l sh x sh', react c l sh = Some (x, sh') -> relays_only_did sh sh'.

(** ** The ledger *)

(** What a request reports as traffic, if it is a traffic report of the
    node. *)
Definition traffic_request (r : request) : option (list TrafficReport) :=
  match req_body r with
  | Some (BodyTraffic data) =>
      if bool_decide (req_path r = "users/traffic" /\
           req_query r = [("node_id", u64_decimal (Config.node_id (panel config)))])
      then Some data else None
  | _ => None
  end.

Definition tally_report (x : TrafficReport) (r : Z -> Z * Z) : Z -> Z * Z :=
  fun u => if (u =? tr_user_id x)%Z then ((r u).1 + tr_upload x, (r u).2 + tr_download x)%Z else r u.

(** The tally of the traffic reports that were sent and that the panel took,
    restarted for a user that is removed. *)
Definition tally_label (r : Z -> Z * Z) (x : sup_label) : Z -> Z * Z :=
  match x with
  | Exchanged q answer =>
      match traffic_request q with
      | Some data => if taken answer then fold_left (fun r x => tally_report x r) data r else r
      | None => r
      end
  | Forgotten live => fun u => if decide (u ∈ live) then r u else (0, 0)%Z
  | _ => r
  end.

Definition acknowledged (l : list sup_label) : Z -> Z * Z :=
  fold_left tally_label l (fun _ => (0, 0)%Z).

Definition world_of (s : state) : Traffic.world :=
  {| ledger := traffic_of (local s) (shared s); added := s_relayed (shared s);
     reported := acknowledged (log s) |}.

(** The supervisor is somewhere in a run of the ledger model. *)
Definition ledger_run (s : state) : Prop := exists es, Traffic.run es = world_of s.

Lemma ledger_run_step e s s' : ledger_run s -> Traffic.exec e (world_of s) = world_of s' -> ledger_run s'.
Proof. intros [es Hes] He. exists (es ++ [e]). by rewrite run_snoc, Hes. Qed.

Lemma ledger_run_eq s s' : ledger_run s -> world_of s = world_of s' -> ledger_run s'.
Proof. intros [es Hes] He. exists es. by rewrite Hes. Qed.

(** A label that is neither a traffic report nor a removal. *)
Definition ledger_silent (x : sup_label) : bool :=
  match x with
  | Exchanged q _ => match traffic_request q with Some _ => false | None => true end
  | Forgotten _ => false
  | _ => true
  end.

Lemma acknowledged_snoc l x : acknowledged (l ++ [x]) = tally_label (acknowledged l) x.
Proof. unfold acknowledged. by rewrite fold_left_app. Qed.

Lemma acknowledged_silent l x : ledger_silent x = true -> acknowledged (l ++ [x]) = acknowledged l.
Proof. intros H. rewrite acknowledged_snoc. destruct x; try done. cbn in *. by destruct (traffic_request r). Qed.

(** The relays' additions. *)
Definition with_adds (adds : list addition) (w : Traffic.world) : Traffic.world :=
  {| ledger := {| Traffic.counters := Traffic.counters (ledger w);
                  Traffic.checkpoints := Traffic.checkpoints (ledger w);
                  objects := add_all adds (objects (ledger w)) |};
     added := added w ++ live_adds (objects (ledger w)) adds; reported := reported w |}.

Lemma run_adds adds w :
  fold_left (fun w e => Traffic.exec e w) (List.map Add adds) w = with_adds adds w.
Proof.
  revert w. induction adds as [|a adds IH]; intros w; cbn [List.map fold_left].
  - unfold with_adds. rewrite live_adds_nil, app_nil_r. by destruct w as [[]].
  - rewrite IH. unfold with_adds. cbn [ledger added reported Traffic.exec objects
      Traffic.counters Traffic.checkpoints].
    rewrite <- app_assoc. f_equal. f_equal.
    rewrite (live_adds_dom (add a (objects (ledger w))) (objects (ledger w))) by apply dom_add.
    by rewrite <- live_adds_app.
Qed.

Lemma ledger_run_adds adds s s' :
  ledger_run s -> world_of s' = with_adds adds (world_of s) -> ledger_run s'.
Proof.
  intros [es Hes] He. exists (es ++ List.map Add adds). unfold Traffic.run in *.
  by rewrite fold_left_app, Hes, run_adds.
Qed.

Lemma await_run {X : Set} (c : SupAwait X) : sup_env_ok -> preserves ledger_run (await c).
Proof.
  intros He. apply preserves_await. intros s x sh Hs Hr.
  destruct (He _ _ _ _ _ _ Hr) as [(adds & Hc & Hl) _].
  apply (ledger_run_adds adds s); [done|]. unfold world_of, with_adds, traffic_of. cbn. by rewrite Hc, Hl.
Qed.

Lemma emit_run x : ledger_silent x = true -> preserves ledger_run (emit x).
Proof.
  intros Hx. apply preserves_emit. intros s Hs. apply (ledger_run_eq s); [done|].
  unfold world_of. cbn [local shared log]. by rewrite acknowledged_silent.
Qed.

Lemma on_conns_run {A} (f : Conn.world -> A * Conn.world) : preserves ledger_run (on_conns f).
Proof.
  apply preserves_on_both. intros s Hs. apply (ledger_run_eq s); [done|].
  unfold world_of. cbn. by destruct (f _).
Qed.

Lemma on_speeds_run {A} (f : SpeedLedger -> A * SpeedLedger) : preserves ledger_run (on_speeds f).
Proof.
  apply preserves_on_both. intros s Hs. apply (ledger_run_eq s); [done|].
  unfold world_of. cbn. by destruct (f _).
Qed.

Lemma on_shared_run {A} (f : SupShared -> A * SupShared) :
  (forall sh, s_cells (f sh).2 = s_cells sh /\ s_relayed (f sh).2 = s_relayed sh) ->
  preserves ledger_run (on_shared f).
Proof.
  intros Hf. apply preserves_on_shared. intros s Hs. apply (ledger_run_eq s); [done|].
  unfold world_of, traffic_of. cbn. by destruct (Hf (shared s)) as [-> ->].
Qed.

Lemma on_runtime_run f :
  (forall b, traffic_counters (f b) = traffic_counters b /\
     traffic_checkpoints (f b) = traffic_checkpoints b) ->
  preserves ledger_run (on_runtime f).
Proof.
  intros Hf. apply preserves_on_both. intros s Hs. apply (ledger_run_eq s); [done|].
  unfold world_of, traffic_of. cbn. by destruct (Hf (local s)) as [-> ->].
Qed.

Lemma ensure_user_run u : preserves ledger_run (on_traffic (Traffic.ensure_user u)).
Proof.
  apply preserves_on_both. intros s Hs. apply (ledger_run_step (Traffic.Ensure u) s); [done|].
  unfold world_of. cbn. by destruct (Traffic.ensure_user u _) as [loc []].
Qed.

Lemma forget_run live :
  preserves ledger_run (forget_traffic live).
Proof.
  intros s Hs. unfold forget_traffic. wp_step. apply wp_on_both. wp_run. cbn [local shared log].
  apply (ledger_run_step (Traffic.RemoveStale live) s); [done|]. unfold world_of.
  cbn [local shared log]. by rewrite acknowledged_snoc.
Qed.

(** The step of the ledger model for a report during which, after the
    deltas are collected, the relays add [adds]. *)
Lemma exec_report sched adds ok w ds led :
  pending_deltas_during sched (ledger w) = (ds, led) ->
  let s' := {| Traffic.counters := Traffic.counters led; Traffic.checkpoints := Traffic.checkpoints led;
               objects := add_all adds (objects led) |} in
  Traffic.exec (Report sched adds ok) w =
    {| ledger := if ok then mark_reported ds s' else s';
       added := (added w ++ live_adds (objects led)
         (sched_adds sched 0 (2 * length (hash_iter (Traffic.counters led))))) ++
         live_adds (objects led) adds;
       reported := if ok then fold_left (fun r d => tally d r) ds (reported w) else reported w |}.
Proof.
  intros Hp. cbv zeta. unfold Traffic.exec. rewrite Hp, live_adds_app, app_assoc. by destruct ok.
Qed.

(** A call that is no traffic report. *)
Definition no_traffic {A} (m : forall W : Wire, call A) : Prop :=
  forall answers, Forall (fun q => traffic_request q = None) (List.map fst (m (answering answers)).1).

Lemma record_run xs :
  Forall (fun q => traffic_request q = None) (List.map fst xs) -> preserves ledger_run (record xs).
Proof.
  induction xs as [|[r a] xs IH]; intros Hx; cbn [record]; [apply preserves_ret|].
  apply Forall_cons in Hx as [Hr Hx]. apply preserves_bind; [|intros _; by apply IH].
  apply emit_run. cbn in *. by rewrite Hr.
Qed.

Lemma panel_call_run {A} (m : forall W : Wire, call A) :
  sup_env_ok -> no_traffic m -> preserves ledger_run (panel_call m).
Proof.
  intros He Hm. unfold panel_call. apply preserves_bind; [by apply await_run|]. intros answers.
  specialize (Hm answers). destruct (m (answering answers)) as [xs r].
  apply preserves_bind; [by apply record_run|]. intros _. apply preserves_lift.
Qed.

Lemma no_traffic_one {A} (m : forall W : Wire, call A) r :
  req_body r = None -> (forall answers, List.map fst (m (answering answers)).1 = [r]) -> no_traffic m.
Proof.
  intros Hr Hm answers. rewrite Hm. apply Forall_singleton. unfold traffic_request. by rewrite Hr.
Qed.

Lemma no_traffic_ping : no_traffic (fun W => Panel.ping).
Proof. eapply no_traffic_one; [|intros answers; apply ping_sends]. done. Qed.
Lemma no_traffic_node_info n : no_traffic (fun W => Panel.node_info n).
Proof. eapply no_traffic_one; [|intros answers; apply get_api_optional_sends]. done. Qed.
Lemma no_traffic_users n : no_traffic (fun W => Panel.users n).
Proof. eapply no_traffic_one; [|intros answers; apply list_sends]. done. Qed.
Lemma no_traffic_detect_rules : no_traffic (fun W => Panel.detect_rules).
Proof. eapply no_traffic_one; [|intros answers; apply list_sends]. done. Qed.
Lemma no_traffic_relay_rules n : no_traffic (fun W => Panel.relay_rules n).
Proof. eapply no_traffic_one; [|intros answers; apply list_sends]. done. Qed.

Lemma no_traffic_post path query b :
  (forall data, b <> BodyTraffic data) -> no_traffic (fun W => Panel.post_ack path query b).
Proof.
  intros Hb answers. rewrite (proj1 (post_ack_spec _ _ _)). cbn [List.map fst]. apply Forall_singleton.
  unfold traffic_request. cbn [req_body]. destruct b as [| data | |]; try done. by destruct (Hb data).
Qed.

Lemma no_traffic_node_report n x y : no_traffic (fun W => Panel.report_node_info n x y).
Proof. by apply no_traffic_post. Qed.
Lemma no_traffic_alive_ips n l : no_traffic (fun W => Panel.report_alive_ips n l).
Proof. intros answers. unfold Panel.report_alive_ips. case_match; [constructor|by apply no_traffic_post]. Qed.
Lemma no_traffic_detect_logs n l : no_traffic (fun W => Panel.report_detect_logs n l).
Proof. intros answers. unfold Panel.report_detect_logs. case_match; [constructor|by apply no_traffic_post]. Qed.

(** The reports on the wire are the deltas. *)
Lemma tally_reports ds r :
  fold_left (fun r x => tally_report x r) (List.map report_of ds) r = fold_left (fun r d => tally d r) ds r.
Proof. revert r. induction ds as [|d ds IH]; intros r; [done|]. apply IH. Qed.

(** A traffic report: one exchange, of the deltas. *)
Lemma traffic_exchange answers ds :
  length ds <> 0 ->
  exists (q : request) r, Panel.report_traffic (H:=answering answers) (Supervisor.node_id config) (List.map report_of ds) =
      ([(q, send (Wire:=answering answers) q)], r) /\
    traffic_request q = Some (List.map report_of ds) /\ (r = Ok () <-> taken (H:=W) (answers q) = true).
Proof.
  intros Hl. unfold Panel.report_traffic. rewrite length_map, (proj2 (Nat.eqb_neq _ _) Hl).
  match goal with |- context [post_ack ?p ?q ?b] =>
    destruct (post_ack_spec (H:=answering answers) p q b) as [Hx Hr];
    exists {| req_path := p; req_query := q; req_body := Some b |}, (post_ack (H:=answering answers) p q b).2
  end.
  split; [by apply injective_projections|]. split; [|exact Hr].
  unfold traffic_request. cbn [req_body req_path req_query]. by rewrite bool_decide_eq_true_2.
Qed.

Lemma report_traffic_run : sup_env_ok -> preserves ledger_run (report_traffic config).
Proof.
  intros He. unfold report_traffic.
  apply preserves_bind; [by apply await_run|]. intros sched s Hs.
  apply wp_bind, wp_on_both. cbn [then_].
  destruct (pending_deltas_during sched (traffic_of (local s) (shared s))) as [deltas led] eqn:Hp.
  cbn [fst snd]. apply wp_bind, wp_get. cbn [then_]. apply wp_bind, wp_on_shared. cbn [then_].
  cbn [local shared log snd]. match goal with |- wp _ _ ?x => set (s1 := x) end.
  pose proof (fun adds ok => exec_report sched adds ok (world_of s) deltas led Hp) as Hex. cbv zeta in Hex.
  assert (H1 : ledger_run s1).
  { apply (ledger_run_step (Report sched [] false) s); [done|].
    rewrite Hex, live_adds_nil, app_nil_r. by destruct led. }
  destruct (Nat.eqb_spec (length deltas) 0) as [|Hne]; [by apply wp_ret|].
  apply wp_bind. unfold panel_call. apply wp_bind, wp_await_eq; [|done].
  intros answers sh Hr. cbn [then_].
  destruct (He _ _ _ _ _ _ Hr) as [(adds & Hc & Hl) _].
  destruct (traffic_exchange answers deltas Hne) as (q & r & Hcall & Hq & Htaken). rewrite Hcall. cbn [record].
  change (send (Wire:=answering answers) q) with (answers q).
  apply wp_bind, wp_bind, wp_emit. cbn [then_]. apply wp_ret. cbn [then_]. apply wp_lift.
  assert (Hrefused : r <> Ok () ->
    ledger_run {| local := local s1; shared := sh; log := log s1 ++ [Exchanged q (answers q)] |}).
  { intros Hr0. apply (ledger_run_adds adds s1); [done|]. unfold world_of, with_adds, traffic_of.
    cbn [local shared log ledger added reported]. rewrite acknowledged_snoc. cbn [tally_label]. rewrite Hq.
    destruct (taken (answers q)); [by destruct Hr0; apply Htaken|]. cbn. by rewrite Hc, Hl. }
  destruct r as [[]|e| |]; cbn [then_]; [|by apply Hrefused..].
  apply wp_on_both. cbn [local shared log].
  apply (ledger_run_step (Report sched adds true) s); [done|].
  rewrite Hex. unfold world_of, traffic_of. cbn [local shared log].
  rewrite acknowledged_snoc. cbn [tally_label]. rewrite Hq, (proj1 Htaken) by done.
  rewrite tally_reports. cbn. by rewrite Hc, Hl.
Qed.

Ltac run_step :=
  lazymatch goal with
  | |- preserves _ (await _) => apply await_run; assumption
  | |- preserves _ (emit _) => apply emit_run; reflexivity
  | |- preserves _ (on_conns _) => apply on_conns_run
  | |- preserves _ (on_speeds _) => apply on_speeds_run
  | |- preserves _ (on_shared _) => apply on_shared_run; try by intros
  | |- preserves _ (on_runtime _) => apply on_runtime_run; by intros
  | |- preserves _ (on_traffic (Traffic.ensure_user _)) => apply ensure_user_run
  | |- preserves _ (forget_traffic _) => apply forget_run
  | |- _ => preserves_step
  end.

Ltac call_step :=
  apply panel_call_run; [assumption|];
  first [ apply no_traffic_ping | apply no_traffic_node_info | apply no_traffic_users
        | apply no_traffic_detect_rules | apply no_traffic_relay_rules | apply no_traffic_node_report
        | apply no_traffic_alive_ips | apply no_traffic_detect_logs ].

Lemma stop_run port a : sup_env_ok -> preserves ledger_run (stop port a).
Proof. intros He. unfold stop. repeat run_step. Qed.

Lemma tabulate_run us t : sup_env_ok -> preserves ledger_run (tabulate us t).
Proof. intros He. revert t. induction us as [|u us IH]; intros t; cbn [tabulate]; repeat run_step. apply IH. Qed.

Lemma ensure_active_user_run u p : sup_env_ok -> preserves ledger_run (ensure_active_user config u p).
Proof.
  intros He. unfold ensure_active_user. repeat (run_step || (apply stop_run; exact He)).
Qed.

Lemma ensure_listeners_run us live : sup_env_ok -> preserves ledger_run (ensure_listeners config us live).
Proof.
  intros He. revert live. induction us as [|u us IH]; intros live; cbn [ensure_listeners];
    repeat (run_step || apply IH || (apply ensure_active_user_run; exact He)).
Qed.

Lemma remove_ports_run ports : sup_env_ok -> preserves ledger_run (remove_ports ports).
Proof.
  intros He. induction ports as [|p ports IH]; cbn [remove_ports];
    repeat (run_step || exact IH || (apply stop_run; exact He)).
Qed.

Lemma remove_stale_state_run live : preserves ledger_run (remove_stale_state live).
Proof.
  unfold remove_stale_state. repeat run_step.
Qed.

Lemma sync_users_run : sup_env_ok -> preserves ledger_run (sync_users config).
Proof.
  intros He. unfold sync_users. cbv zeta.
  repeat run_step; first
    [ call_step | by apply tabulate_run | by apply ensure_listeners_run
    | by apply remove_ports_run | by apply remove_stale_state_run ].
Qed.

Lemma turn_run br : sup_env_ok -> preserves ledger_run (turn config br).
Proof.
  intros He. unfold turn, recv_event, record_event, refresh_detect_rules, expire_local_state,
    report_auxiliary_state, report_heartbeat. cbv zeta.
  destruct br; repeat run_step; try first
    [ call_step | by apply sync_users_run | by apply report_traffic_run ].
  intros sh. by destruct (s_queue sh).
Qed.

Lemma loop_run fuel : sup_env_ok -> preserves ledger_run (run_loop config fuel).
Proof.
  intros He. induction fuel as [|fuel IH]; cbn [run_loop];
    repeat (run_step || exact IH || (apply turn_run; exact He)).
Qed.

Lemma run_run fuel : sup_env_ok -> preserves ledger_run (run config fuel).
Proof.
  intros He. assert (Hst : forall l, preserves ledger_run (stop_each l)).
  { induction l as [|[p a] l IH]; cbn [stop_each]; repeat (run_step || (apply stop_run; exact He) || exact IH). }
  unfold run, tick_loop, interval, initial_panel_probe, refresh_detect_rules, stop_all. cbv zeta.
  repeat run_step; first
    [ call_step | by apply sync_users_run | by apply loop_run | apply Hst ].
Qed.

Lemma start_run fuel now : sup_env_ok -> ledger_run (start config fuel now).2.
Proof. intros He. apply (run_run fuel He). by exists []. Qed.

(** ** The tables *)

Definition is_single (u : PanelUser) : bool := (pu_is_multi_user u =? 0)%Z.

Definition needs_policy (u : PanelUser) : bool :=
  UserPolicy.needs_connection_policy (UserPolicy.from_user u).

(** The last row of a user among those with [P]. *)
Definition last_row (P : PanelUser -> bool) (uid : Z) (us : list PanelUser) : option PanelUser :=
  list.last (List.filter (fun u => P u && (Panel.user_id u =? uid)%Z) us).

(** What the rows say of keys and policies. *)
Definition rows_tables (us : list PanelUser) (t : UserTables) : Prop :=
  forall uid,
    auth_users t !! uid =
      (fun u => derive_user_auth_key (pu_password u)) <$> last_row is_single uid us /\
    policies t !! uid = UserPolicy.from_user <$> last_row needs_policy uid us.

(** The loop's insertions under a condition. *)
Definition insert_if {A} (P : PanelUser -> bool) (f : PanelUser -> A) (m : gmap Z A) (u : PanelUser)
    : gmap Z A :=
  if P u then <[Panel.user_id u := f u]> m else m.

Lemma insert_if_lookup {A} P (f : PanelUser -> A) us m uid :
  fold_left (insert_if P f) us m !! uid =
    match last_row P uid us with Some u => Some (f u) | None => m !! uid end.
Proof.
  revert m. induction us as [|u us IH] using rev_ind; intros m; [done|].
  rewrite fold_left_app. cbn [fold_left]. unfold last_row. rewrite List.filter_app. cbn [List.filter].
  unfold insert_if at 1. destruct (P u); cbn [andb].
  - destruct (Z.eqb_spec (Panel.user_id u) uid) as [<-|Hne].
    + by rewrite last_snoc, lookup_insert_eq.
    + by rewrite app_nil_r, lookup_insert_ne, IH.
  - by rewrite app_nil_r, IH.
Qed.

(** A ledger that has grown: what a user had it keeps. *)
Definition grown {A} (us : list PanelUser) (m m' : gmap Z A) : Prop :=
  m ⊆ m' /\ dom m' = dom m ∪ live_ids us.

Lemma grown_trans {A} u us (m1 m2 m3 : gmap Z A) :
  grown [u] m1 m2 -> grown us m2 m3 -> grown (u :: us) m1 m3.
Proof.
  intros [H1 H2] [H3 H4]. split; [by etrans|]. rewrite H4, H2. unfold live_ids. cbn. set_solver.
Qed.

(** A table filled along: it agrees with the ledger. *)
Definition follows (us : list PanelUser) (t t' m' : gmap Z nat) : Prop :=
  t' ⊆ m' /\ dom t' = dom t ∪ live_ids us.

Lemma live_ids_cons u us : live_ids (u :: us) = {[Panel.user_id u]} ∪ live_ids us.
Proof. done. Qed.

(** One row: the ledger gives [loc], which goes into the table. *)
Lemma follows_one u us (t t' m m1 m' : gmap Z nat) loc :
  t ⊆ m -> m ⊆ m1 -> m1 ⊆ m' -> m1 !! Panel.user_id u = Some loc ->
  (<[Panel.user_id u := loc]> t ⊆ m1 -> follows us (<[Panel.user_id u := loc]> t) t' m') ->
  follows (u :: us) t t' m'.
Proof.
  intros Ht Hm Hm1 Hloc H. destruct H as [H1 H2].
  { apply insert_subseteq_l; [done|]. by etrans. }
  split; [done|]. rewrite H2, dom_insert_L, live_ids_cons. set_solver.
Qed.

Lemma traffic_ensure_grown u (l : TrafficLedger) :
  let '(loc, l') := Traffic.ensure_user (Panel.user_id u) l in
  grown [u] (Traffic.counters l) (Traffic.counters l') /\
  Traffic.counters l' !! Panel.user_id u = Some loc.
Proof.
  unfold Traffic.ensure_user, grown, live_ids. cbn [List.map list_to_set].
  destruct (Traffic.counters l !! Panel.user_id u) as [loc|] eqn:Hu; cbn.
  - split_and!; [done| |done]. apply elem_of_dom_2 in Hu. set_solver.
  - split_and!; [by apply insert_subseteq|rewrite dom_insert_L; set_solver|by rewrite lookup_insert_eq].
Qed.

Lemma conn_ensure_grown u (l : Conn.world) :
  let '(loc, l') := Conn.ensure_user (Panel.user_id u) l in
  grown [u] (conn_ledger l) (conn_ledger l') /\ conn_ledger l' !! Panel.user_id u = Some loc.
Proof.
  unfold Conn.ensure_user, grown, live_ids. cbn [List.map list_to_set].
  destruct (conn_ledger l !! Panel.user_id u) as [loc|] eqn:Hu; cbn.
  - split_and!; [done| |done]. apply elem_of_dom_2 in Hu. set_solver.
  - split_and!; [by apply insert_subseteq|rewrite dom_insert_L; set_solver|by rewrite lookup_insert_eq].
Qed.

Lemma speed_ensure_grown now rate u (l : SpeedLedger) :
  let '(loc, l') := RateLimit.ensure_user now (Panel.user_id u) rate l in
  grown [u] (limiters l) (limiters l') /\ limiters l' !! Panel.user_id u = Some loc.
Proof.
  unfold RateLimit.ensure_user, grown, live_ids. cbn [List.map list_to_set].
  destruct (limiters l !! Panel.user_id u) as [loc|] eqn:Hu; cbn.
  - split_and!; [done| |done]. apply elem_of_dom_2 in Hu. set_solver.
  - split_and!; [by apply insert_subseteq|rewrite dom_insert_L; set_solver|by rewrite lookup_insert_eq].
Qed.

(** The ledgers may differ, the rest is the same. *)
Definition same_but_ledgers (b b' : BackendRuntime) : Prop :=
  active_users b' = active_users b /\ sessions b' = sessions b /\ alive_ips b' = alive_ips b /\
  detect_logs b' = detect_logs b /\ started_at b' = started_at b.

(** What was published stays. *)
Definition same_published (sh sh' : SupShared) : Prop :=
  s_rules sh' = s_rules sh /\ s_published sh' = s_published sh.

Lemma env_published (X : Set) (c : SupAwait X) l sh x sh' :
  sup_env_ok -> react c l sh = Some (x, sh') -> same_published sh sh'.
Proof. intros He Hr. by destruct (He _ _ _ _ _ _ Hr) as (_ & _ & _ & ?). Qed.

(** The tables after the loop, when it ends. *)
Definition tabulated (us : list PanelUser) (t t' : UserTables) (b b' : BackendRuntime) : Prop :=
  auth_users t' =
    fold_left (insert_if is_single (fun u => derive_user_auth_key (pu_password u))) us (auth_users t) /\
  policies t' = fold_left (insert_if needs_policy UserPolicy.from_user) us (policies t) /\
  follows us (counters_by_user t) (counters_by_user t') (traffic_counters b') /\
  follows us (conns_by_user t) (conns_by_user t') (conns b') /\
  follows us (speeds_by_user t) (speeds_by_user t') (speeds b') /\
  grown us (traffic_counters b) (traffic_counters b') /\
  grown us (conns b) (conns b') /\ grown us (speeds b) (speeds b').

Definition tables_follow (t : UserTables) (b : BackendRuntime) : Prop :=
  counters_by_user t ⊆ traffic_counters b /\ conns_by_user t ⊆ conns b /\ speeds_by_user t ⊆ speeds b.

Lemma tabulate_wp us t s :
  sup_env_ok -> tables_follow t (local s) ->
  wp (tabulate us t) (fun r s' => log s' = log s /\ same_published (shared s) (shared s') /\
    same_but_ledgers (local s) (local s') /\
    (r = OutOfFuel \/ exists t', r = Ok t' /\ tabulated us t t' (local s) (local s'))) s.
Proof.
  intros He. revert t s. induction us as [|u us IH]; intros t s (H1 & H2 & H3); cbn [tabulate].
  { apply wp_ret. split_and!; try done. right. exists t. split; [done|].
    unfold tabulated, follows, grown, live_ids. cbn. by split_and!; try done; set_solver. }
  apply wp_bind, wp_on_both. cbn [then_]. pose proof (traffic_ensure_grown u (traffic_of (local s) (shared s))) as Ht.
  destruct (Traffic.ensure_user _ _) as [loc led]. destruct Ht as [[Hg1 Hd1] Hl1].
  apply wp_bind, wp_on_both. cbn [then_ fst snd local shared log].
  match goal with |- context [Conn.ensure_user _ ?w] => pose proof (conn_ensure_grown u w) as Hc end.
  destruct (Conn.ensure_user _ _) as [cloc cw]. destruct Hc as [[Hg2 Hd2] Hl2].
  apply wp_bind, wp_await_eq; [|by split_and!; [|..|left]].
  cbn [then_ fst snd local shared log]. intros now sh Hr. apply (env_published _ _ _ _ _ _ He) in Hr.
  apply wp_bind, wp_on_both. cbn [then_ fst snd local shared log].
  match goal with |- context [RateLimit.ensure_user _ _ ?r ?w] =>
    pose proof (speed_ensure_grown now r u w) as Hs end.
  destruct (RateLimit.ensure_user _ _ _ _) as [sloc sl]. destruct Hs as [[Hg3 Hd3] Hl3].
  cbn [fst snd traffic_of Traffic.counters conn_ledger limiters set_conns set_traffic conns speeds] in *.
  eapply wp_mono; [apply IH|].
  { split_and!; cbn; (apply insert_subseteq_l; [done|by etrans]). }
  cbn [fst snd local shared log]. intros r s' (Hlog & Hpub & Hsame & Hres). split_and!; try done.
  { destruct Hr, Hpub. split; cbn in *; congruence. }
  destruct Hres as [Hres|(t' & -> & Ha & Hp & Hf1 & Hf2 & Hf3 & Hr1 & Hr2 & Hr3)]; [by left|right].
  exists t'. split; [done|]. split_and!.
  - rewrite Ha. cbn [fold_left auth_users]. unfold insert_if at 3, is_single. done.
  - rewrite Hp. cbn [fold_left policies]. done.
  - apply (follows_one u us _ _ (traffic_counters (local s)) (Traffic.counters led) _ loc); try done.
    by destruct Hr1.
  - apply (follows_one u us _ _ (conns (local s)) (conn_ledger cw) _ cloc); try done. by destruct Hr2.
  - apply (follows_one u us _ _ (speeds (local s)) (limiters sl) _ sloc); try done. by destruct Hr3.
  - by eapply grown_trans.
  - by eapply grown_trans.
  - by eapply grown_trans.
Qed.

(** ** The listeners *)

(** The rows with a supported profile. *)
Definition served_rows (us : list PanelUser) : list (PanelUser * Profile.t) :=
  omap (fun u => match Profile.from_user u (node config) with Ok p => Some (u, p) | _ => None end) us.

Definition row_port (up : PanelUser * Profile.t) : Z := pu_port up.1.

(** [ensure_active_user] on the map, with the labels. *)
Definition reconcile_one (m : gmap Z ActiveUser) (up : PanelUser * Profile.t)
    : gmap Z ActiveUser * list sup_label :=
  let a := spawn config up.1 up.2 in
  let m' := <[row_port up := a]> m in
  match m !! row_port up with
  | Some old =>
      if decide (fingerprint old = fingerprint a) then (m, [])
      else (m', [Stopping (row_port up) old; Spawned (row_port up) a])
  | None => (m', [Spawned (row_port up) a])
  end.

Fixpoint reconcile (rows : list (PanelUser * Profile.t)) (m : gmap Z ActiveUser)
    : gmap Z ActiveUser * list sup_label :=
  match rows with
  | [] => (m, [])
  | up :: rows =>
      let '(m, l1) := reconcile_one m up in
      let '(m, l2) := reconcile rows m in
      (m, l1 ++ l2)
  end.

(** From [s], the map of listeners became [m], [ls] was logged, and nothing
    else changed but what the relays do. *)
Definition listeners_step (s : state) (m : gmap Z ActiveUser) (ls : list sup_label) (s' : state) : Prop :=
  local s' = set_active_users m (local s) /\ log s' = log s ++ ls /\
  same_published (shared s) (shared s').

Lemma listeners_step_refl s : listeners_step s (active_users (local s)) [] s.
Proof. split_and!; [by destruct s as [[]]|by rewrite app_nil_r|done..]. Qed.

Lemma listeners_step_active s m ls s' : listeners_step s m ls s' -> active_users (local s') = m.
Proof. by intros [-> _]. Qed.

(** The outcome of a step that may be left unanswered. *)
Definition ends {A} (P : A -> state -> Prop) (r : res error A) (s : state) : Prop :=
  r = OutOfFuel \/ exists a, r = Ok a /\ P a s.

Lemma ends_bind {A B} (P : A -> state -> Prop) (Q : B -> state -> Prop) (m : IO A) (f : A -> IO B) s :
  wp m (ends P) s -> (forall a s', P a s' -> wp (f a) (ends Q) s') -> wp (m ≫= f) (ends Q) s.
Proof.
  intros Hm Hf. apply wp_bind. eapply wp_mono; [exact Hm|].
  intros r s' [->|(a & -> & Ha)]; cbn [then_]; [by left|by apply Hf].
Qed.

Lemma ends_ret {A} (P : A -> state -> Prop) (a : A) s : P a s -> wp (mret a) (ends P) s.
Proof. intros Ha. right. by exists a. Qed.

Section Steps.
Context (He : sup_env_ok) (s0 : state).

Lemma await_wp {X : Set} (c : SupAwait X) m ls s :
  listeners_step s0 m ls s -> wp (await c) (ends (fun _ => listeners_step s0 m ls)) s.
Proof.
  intros (Hl & Hlog & Hp1 & Hp2). apply wp_await_eq; [|by left]. intros x sh Hr. right. exists x.
  split; [done|]. destruct (env_published _ _ _ _ _ _ He Hr). split_and!; [done|done|].
  split; cbn; congruence.
Qed.

Lemma log_wp x m ls s :
  listeners_step s0 m ls s -> wp (emit x) (ends (fun _ => listeners_step s0 m (ls ++ [x]))) s.
Proof.
  intros (Hl & Hlog & Hp). apply wp_emit. right. exists (). split; [done|].
  split_and!; cbn [local shared log]; [done|by rewrite Hlog, app_assoc|done].
Qed.

Lemma set_active_wp f m ls s :
  listeners_step s0 m ls s ->
  wp (on_runtime (fun b => set_active_users (f (active_users b)) b))
    (ends (fun _ => listeners_step s0 (f m) ls)) s.
Proof.
  intros (Hl & Hlog & Hp). apply wp_on_both. right. exists (). split; [done|].
  split_and!; cbn [local shared log fst snd]; [by rewrite Hl|done|done].
Qed.

Lemma stop_wp port a m ls s :
  listeners_step s0 m ls s ->
  wp (stop port a) (ends (fun _ => listeners_step s0 m (ls ++ [Stopping port a]))) s.
Proof.
  intros Hs. eapply ends_bind; [by apply log_wp|]. intros [] s1 H1.
  eapply (ends_bind (fun _ => listeners_step s0 m (ls ++ [Stopping port a]))).
  - destruct (au_tcp a); [by apply await_wp|by apply ends_ret].
  - intros [] s2 H2. destruct (au_udp a); [by apply await_wp|by apply ends_ret].
Qed.

Lemma ensure_active_user_wp up m ls s :
  listeners_step s0 m ls s ->
  wp (ensure_active_user config up.1 up.2)
    (ends (fun _ => listeners_step s0 (reconcile_one m up).1 (ls ++ (reconcile_one m up).2))) s.
Proof.
  intros Hs. unfold ensure_active_user. apply wp_bind, wp_get. cbn [then_].
  rewrite (listeners_step_active _ _ _ _ Hs). unfold reconcile_one, row_port.
  change (fingerprint_of up.1 up.2) with (fingerprint (spawn config up.1 up.2)).
  destruct (m !! pu_port up.1) as [old|].
  - destruct (decide _) as [Heq|Hne]; cbn [fst snd]; [by apply ends_ret; rewrite app_nil_r|].
    eapply ends_bind; [by apply (set_active_wp (delete (pu_port up.1)))|]. intros [] s1 H1.
    eapply ends_bind; [by apply stop_wp|]. intros [] s2 H2.
    eapply ends_bind; [by apply log_wp|]. intros [] s3 H3.
    rewrite <- app_assoc in H3. cbn [app] in H3.
    eapply wp_mono; [by apply (set_active_wp (insert (pu_port up.1) (spawn config up.1 up.2)))|].
    cbn beta. by rewrite insert_delete_eq.
  - eapply ends_bind; [by apply log_wp|]. intros [] s1 H1.
    by apply (set_active_wp (insert (pu_port up.1) (spawn config up.1 up.2))).
Qed.

Lemma ensure_listeners_wp us live m ls s :
  listeners_step s0 m ls s ->
  wp (ensure_listeners config us live)
    (ends (fun ports s' => ports = list_to_set (List.map row_port (served_rows us)) ∪ live /\
       listeners_step s0 (reconcile (served_rows us) m).1 (ls ++ (reconcile (served_rows us) m).2) s')) s.
Proof.
  revert live m ls s. induction us as [|u us IH]; intros live m ls s Hs; cbn [ensure_listeners].
  { apply ends_ret. cbn. split; [set_solver|by rewrite app_nil_r]. }
  assert (Hsafe : safe (fun _ => True) (Profile.from_user u (node config))) by apply Profile.new_safe.
  unfold served_rows. cbn [omap list_omap]. destruct (Profile.from_user _ _) as [p|e| |]; [| |done..].
  - eapply ends_bind; [by apply (ensure_active_user_wp (u, p))|]. intros [] s1 H1.
    eapply wp_mono; [by apply (IH _ _ _ _ H1)|]. intros r s2 [->|(ports & -> & Hports & H2)]; [by left|].
    right. exists ports. split; [done|]. cbn [reconcile List.map list_to_set].
    destruct (reconcile_one m (u, p)) as [m1 l1]. cbn [fst snd] in H2.
    fold (served_rows us). destruct (reconcile (served_rows us) m1) as [m2 l2]. cbn [fst snd] in *.
    split; [rewrite Hports; unfold row_port at 2; cbn; set_solver|by rewrite app_assoc].
  - by apply IH.
Qed.

(** [remove_ports] on the map, with the labels. *)
Fixpoint drop_ports (ports : list Z) (m : gmap Z ActiveUser) : gmap Z ActiveUser * list sup_label :=
  match ports with
  | [] => (m, [])
  | port :: ports =>
      match m !! port with
      | Some old =>
          let '(m, ls) := drop_ports ports (delete port m) in (m, Stopping port old :: ls)
      | None => drop_ports ports m
      end
  end.

Lemma remove_ports_wp ports m ls s :
  listeners_step s0 m ls s ->
  wp (remove_ports ports)
    (ends (fun _ => listeners_step s0 (drop_ports ports m).1 (ls ++ (drop_ports ports m).2))) s.
Proof.
  revert m ls s. induction ports as [|p ports IH]; intros m ls s Hs; cbn [remove_ports drop_ports].
  { apply ends_ret. by rewrite app_nil_r. }
  apply wp_bind, wp_get. cbn [then_]. rewrite (listeners_step_active _ _ _ _ Hs).
  destruct (m !! p) as [old|]; [|by apply IH].
  eapply ends_bind; [by apply (set_active_wp (delete p))|]. intros [] s1 H1.
  eapply ends_bind; [by apply stop_wp|]. intros [] s2 H2.
  eapply wp_mono; [by apply (IH _ _ _ H2)|].
  destruct (drop_ports ports (delete p m)) as [m2 l2]. cbn [fst snd]. by rewrite <- app_assoc.
Qed.

End Steps.

Lemma drop_ports_map ports m :
  (drop_ports ports m).1 = filter (fun kv => kv.1 ∉ ports) m.
Proof.
  revert m. induction ports as [|p ports IH]; intros m; cbn [drop_ports].
  { symmetry. apply map_filter_id. intros. by apply not_elem_of_nil. }
  assert (H : filter (fun kv : Z * ActiveUser => kv.1 ∉ ports) (delete p m) =
    filter (fun kv => kv.1 ∉ p :: ports) m).
  { apply map_eq. intros q. apply option_eq. intros a.
    rewrite !map_lookup_filter_Some, lookup_delete_Some, not_elem_of_cons. cbn. naive_solver. }
  destruct (m !! p) as [old|] eqn:Hp.
  - specialize (IH (delete p m)). destruct (drop_ports ports (delete p m)) as [m2 l2]. cbn in *. congruence.
  - rewrite IH, <- H, delete_id; done.
Qed.

Lemma drop_ports_labels ports m x :
  x ∈ (drop_ports ports m).2 <-> exists p old, x = Stopping p old /\ p ∈ ports /\ m !! p = Some old.
Proof.
  revert m. induction ports as [|p ports IH]; intros m; cbn [drop_ports].
  { split; [by intros ?%not_elem_of_nil|]. by intros (p & old & _ & ?%not_elem_of_nil & _). }
  destruct (m !! p) as [old|] eqn:Hp.
  - specialize (IH (delete p m)). destruct (drop_ports ports (delete p m)) as [m2 l2]. cbn in *.
    rewrite elem_of_cons, IH. setoid_rewrite lookup_delete_Some. setoid_rewrite elem_of_cons.
    split; [naive_solver|]. intros (q & a & -> & Hq & Ha). destruct (decide (q = p)) as [->|]; [left; congruence|].
    right. exists q, a. naive_solver.
  - rewrite IH. setoid_rewrite elem_of_cons. split; [naive_solver|].
    intros (q & a & -> & [->|Hq] & Ha); [congruence|]. eauto.
Qed.

(** ** A poll *)

(** The ports that are served after a poll. *)
Definition live_ports (us : list PanelUser) : gset Z :=
  list_to_set (List.map row_port (served_rows (listener_users us))).

Definition stale_ports (ports : gset Z) (m : gmap Z ActiveUser) : list Z :=
  List.filter (fun port => negb (bool_decide (port ∈ ports))) (List.map fst (hash_iter m)).

Lemma stale_ports_elem ports m p :
  p ∈ stale_ports ports m <-> p ∉ ports /\ is_Some (m !! p).
Proof.
  unfold stale_ports. rewrite !list_elem_of_In, filter_In, <- !list_elem_of_In.
  rewrite negb_true_iff, bool_decide_eq_false, (list_elem_of_fmap fst).
  split.
  - intros [(kv & -> & Hin) Hp]. split; [done|]. destruct kv as [k v].
    rewrite hash_iter_elem in Hin. by exists v.
  - intros [Hp [a Ha]]. split; [|done]. exists (p, a). split; [done|]. by apply hash_iter_elem.
Qed.

(** The effect of [remove_stale_state]. *)
Definition forget (live : gset Z) (b : BackendRuntime) : BackendRuntime :=
  {| traffic_counters := filter (fun kv => kv.1 ∈ live) (traffic_counters b);
     traffic_checkpoints := filter (fun kv => kv.1 ∈ live) (traffic_checkpoints b);
     conns := filter (fun kv => kv.1 ∈ live) (conns b);
     speeds := filter (fun kv => kv.1 ∈ live) (speeds b);
     active_users := active_users b;
     sessions := BoundedTtlMap.retain (fun k _ => bool_decide (sk_user_id k ∈ live)) (sessions b);
     alive_ips := BoundedTtlMap.retain (fun k _ => bool_decide (ak_user_id k ∈ live)) (alive_ips b);
     detect_logs := BoundedTtlMap.retain (fun k _ => bool_decide (dk_user_id k ∈ live)) (detect_logs b);
     started_at := started_at b |}.

Lemma remove_stale_state_wp live s :
  wp (remove_stale_state live) (fun r s' => r = Ok () /\ local s' = forget live (local s) /\
    log s' = log s ++ [Forgotten live] /\ same_published (shared s) (shared s')) s.
Proof. done. Qed.

(** A poll that succeeds with the rows [us]. *)
Definition synced (us : list PanelUser) (s s' : state) : Prop :=
  exists t, rows_tables us t /\ s_published (shared s') = t /\ s_rules (shared s') = s_rules (shared s) /\
    counters_by_user t = traffic_counters (local s') /\ conns_by_user t = conns (local s') /\
    speeds_by_user t = speeds (local s') /\
    dom (traffic_counters (local s')) = live_ids us /\ dom (conns (local s')) = live_ids us /\
    dom (speeds (local s')) = live_ids us /\
    filter (fun kv => kv.1 ∈ live_ids us) (traffic_counters (local s)) ⊆ traffic_counters (local s') /\
    filter (fun kv => kv.1 ∈ live_ids us) (conns (local s)) ⊆ conns (local s') /\
    filter (fun kv => kv.1 ∈ live_ids us) (speeds (local s)) ⊆ speeds (local s') /\
    let rows := served_rows (listener_users us) in
    let m := (reconcile rows (active_users (local s))).1 in
    active_users (local s') = filter (fun kv => kv.1 ∈ live_ports us) m /\
    log s' = log s ++ TablesPublished t :: (reconcile rows (active_users (local s))).2 ++
      (drop_ports (stale_ports (live_ports us) m) m).2 ++ [Forgotten (live_ids us)] /\
    sessions (local s') = sessions (forget (live_ids us) (local s)) /\
    alive_ips (local s') = alive_ips (forget (live_ids us) (local s)) /\
    detect_logs (local s') = detect_logs (forget (live_ids us) (local s)).

(** The state behind an exchange. *)
Definition asked (r : request) (answer : option Value) (sh : SupShared) (s : state) : state :=
  {| local := local s; shared := sh; log := log s ++ [Exchanged r answer] |}.

(** The request of a poll. *)
Definition users_request : request :=
  {| req_path := "users"; req_query := [("node_id", u64_decimal (Config.node_id (panel config)))];
     req_body := None |}.

(** What a poll fetched: the rows, unless the call failed or there are more
    than [max_users]. *)
Definition fetched (answers : request -> option Value) : res error (list PanelUser) :=
  us ← (Panel.users (H:=answering answers) (Supervisor.node_id config)).2;
  bail_if (max_users (limits config) <? length us) (TooManyUsers (length us) (max_users (limits config)));;
  Ok us.

Lemma fetched_safe answers : safe (fun _ => True) (fetched answers).
Proof.
  unfold fetched. apply (safe_bind (fun _ => True)); [apply (users_returning (H:=answering answers))|].
  intros us _. apply (safe_bind (fun _ => True)); [unfold bail_if; by case_match|done].
Qed.

(** The map part of a grown ledger that the new table is. *)
Lemma followed_filter us (t' m' : gmap Z nat) :
  follows us ∅ t' m' -> t' = filter (fun kv => kv.1 ∈ live_ids us) m'.
Proof.
  intros [Hsub Hdom]. rewrite dom_empty_L, (left_id_L ∅ (∪)) in Hdom. apply map_eq. intros u.
  apply option_eq. intros loc. rewrite map_lookup_filter_Some. cbn. split.
  - intros Hu. split; [by eapply lookup_weaken|]. rewrite <- Hdom. by eapply elem_of_dom_2.
  - intros [Hm Hu]. rewrite <- Hdom in Hu. apply elem_of_dom in Hu as [loc' Hu].
    by rewrite (lookup_weaken _ _ _ _ Hu Hsub) in Hm; congruence.
Qed.

Lemma filter_sub (X : gset Z) (m m' : gmap Z nat) :
  m ⊆ m' -> filter (fun kv => kv.1 ∈ X) m ⊆ filter (fun kv => kv.1 ∈ X) m'.
Proof.
  intros Hsub. apply map_subseteq_spec. intros u loc. rewrite !map_lookup_filter_Some.
  intros [Hu HX]. split; [|done]. by eapply lookup_weaken.
Qed.

(** The pieces of a successful poll. *)
Lemma synced_intro us t s s1 s4 s5 :
  tabulated us default_tables t (local s) (local s1) -> same_but_ledgers (local s) (local s1) ->
  log s1 = log s -> same_published (shared s) (shared s1) ->
  let m := reconcile (served_rows (listener_users us)) (active_users (local s1)) in
  let d := drop_ports (stale_ports (live_ports us) m.1) m.1 in
  listeners_step {| local := local s1; shared := set_published t (shared s1);
                    log := log s1 ++ [TablesPublished t] |} d.1 (m.2 ++ d.2) s4 ->
  local s5 = forget (live_ids us) (local s4) -> log s5 = log s4 ++ [Forgotten (live_ids us)] ->
  same_published (shared s4) (shared s5) -> synced us s s5.
Proof.
  intros (Ha & Hp & Hf1 & Hf2 & Hf3 & [Hg1 Hd1] & [Hg2 Hd2] & [Hg3 Hd3]) (Hau & Hse & Hal & Hde & _)
    Hlog1 [Hru1 _] m d (Hl4 & Hlog4 & Hru4 & Hpu4) Hl5 Hlog5 [Hru5 Hpu5].
  assert (Hdf : forall m0 m1 : gmap Z nat, dom m1 = dom m0 ∪ live_ids us ->
    dom (filter (fun kv => kv.1 ∈ live_ids us) m1) = live_ids us).
  { intros m0 m1 Hd. apply set_eq. intros u. rewrite elem_of_dom. unfold is_Some.
    setoid_rewrite map_lookup_filter_Some. cbn. split; [naive_solver|]. intros Hu.
    assert (u ∈ dom m1) as [x Hx]%elem_of_dom by (rewrite Hd; set_solver). by exists x. }
  exists t. rewrite Hl5, Hl4. cbn [traffic_counters conns speeds active_users sessions alive_ips
    detect_logs forget set_active_users local].
  split_and!; try by apply followed_filter.
  - intros uid. rewrite Ha, Hp, !insert_if_lookup. cbn [auth_users policies default_tables].
    rewrite !lookup_empty. by destruct (last_row is_single uid us), (last_row needs_policy uid us).
  - by rewrite Hpu5, Hpu4.
  - by rewrite Hru5, Hru4.
  - by eapply Hdf.
  - by eapply Hdf.
  - by eapply Hdf.
  - by apply filter_sub.
  - by apply filter_sub.
  - by apply filter_sub.
  - cbv zeta. rewrite <- Hau. fold m. unfold d. rewrite drop_ports_map. apply map_eq. intros p.
    apply option_eq. intros a. rewrite !map_lookup_filter_Some, stale_ports_elem. cbn.
    split; [|intuition]. intros [Hm Hn]. split; [done|].
    destruct (decide (p ∈ live_ports us)); [done|]. exfalso. by apply Hn.
  - rewrite Hlog5, Hlog4. cbn [log]. rewrite Hlog1, <- Hau. fold m. fold d.
    by rewrite <- !app_assoc.
  - by rewrite Hse.
  - by rewrite Hal.
  - by rewrite Hde.
Qed.

Lemma sync_users_wp s :
  sup_env_ok ->
  wp (sync_users config) (fun r s' => r = OutOfFuel \/
    exists answers sh, react PanelAnswers (log s) (shared s) = Some (answers, sh) /\
      let s1 := asked users_request (answers users_request) sh s in
      ((exists e, r = Err e /\ fetched answers = Err e /\ s' = s1) \/
       (exists us, r = Ok () /\ fetched answers = Ok us /\ synced us s1 s'))) s.
Proof.
  intros He. unfold sync_users, panel_call. apply wp_bind, wp_bind, wp_await_eq; [|by left].
  intros answers sh Hr. cbn [then_].
  pose proof (fetched_safe answers) as Hsafe. unfold fetched in Hsafe.
  assert (Hf : fetched answers = fetched answers) by done. unfold fetched in Hf at 2.
  rewrite (users_spec (H:=answering answers)) in *. cbv zeta in *. cbn [snd record] in *.
  match type of Hf with _ = (?x ≫= _) => set (rows := x) in * end. clearbody rows.
  apply wp_bind, wp_bind, wp_emit. cbn [then_]. apply wp_ret. cbn [then_]. apply wp_lift.
  fold users_request. cbn [local shared log].
  change {| local := local s; shared := sh; log := log s ++ [_] |}
    with (asked users_request (answers users_request) sh s).
  set (s0 := asked _ _ sh s).
  destruct rows as [us|e| |]; cbn [then_ mbind res_bind] in *; [|by right; exists answers, sh; split; [|left; exists e]|done..].
  apply wp_bind, wp_lift. destruct (bail_if _ _) as [[]|e| |]; cbn [then_ mbind res_bind] in *;
    [|by right; exists answers, sh; split; [|left; exists e]|done..].
  apply wp_bind. eapply wp_mono; [apply tabulate_wp; [done|by split_and!; apply map_empty_subseteq]|].
  cbn [local shared log]. intros r s1 (Hlog1 & Hp1 & Hs1 & [->|(t & -> & Ht)]); cbn [then_]; [by left|].
  apply wp_bind, wp_on_shared. cbn [then_ fst snd local shared log]. apply wp_bind, wp_emit.
  cbn [then_ fst snd local shared log].
  match goal with |- wp _ _ ?x => set (s2 := x) end.
  eapply wp_mono.
  { apply (ends_bind (fun ports s3 => ports = live_ports us ∪ ∅ /\ listeners_step s2
      (reconcile (served_rows (listener_users us)) (active_users (local s2))).1
      ([] ++ (reconcile (served_rows (listener_users us)) (active_users (local s2))).2) s3)
      (fun _ s' => synced us s0 s')).
    { apply ensure_listeners_wp; [done|apply listeners_step_refl]. }
    intros ports s3 [-> H3]. rewrite (right_id_L ∅ (∪)), app_nil_l in *.
    apply wp_bind, wp_get. cbn [then_]. cbv zeta. rewrite (listeners_step_active _ _ _ _ H3).
    eapply ends_bind; [by apply remove_ports_wp|]. intros [] s4 H4.
    eapply wp_mono; [apply remove_stale_state_wp|]. intros r s5 (-> & Hl5 & Hg5 & Hp5).
    right. exists (). split; [done|]. by apply (synced_intro us t s0 s1 s4 s5). }
  intros r s' [->|([] & -> & Hsync)]; [by left|]. right. exists answers, sh. split; [done|]. right.
  by exists us.
Qed.

End Spec.
