(* ===== verification/SupervisorInv.v ===== *)
(** * Invariants of the supervisor

    [supervisor_inv] holds at every point of a run, until [stop_all] takes
    the listeners: the listeners of the map are those the log says are
    running, each was spawned from a row of its port, the local maps are
    within their limits, and every location in the ledgers and in the
    published tables is allocated. *)

From S2P Require Import Prelude Errors Str Kdf Cipher Protocol Session.
From S2P Require Import Float Panel Profile Config Policy Traffic Conn RateLimit TtlMap.
From S2P Require Import RelayAudit Task Listeners Supervisor SupervisorSpec.

Section Inv.
Context `{W : Wire} `{C : Crypto} `{RE : RegexEngine} `{HO : HashOrder}.
Context `{!Env SupAwait SupShared sup_label} (config : Config).

Abbreviation state := (task BackendRuntime SupShared sup_label).
Abbreviation IO := (ST state error).

(** The listeners that a log leaves running. *)
Definition listen (m : gmap Z ActiveUser) (x : sup_label) : gmap Z ActiveUser :=
  match x with
  | Spawned port a => <[port := a]> m
  | Stopping port _ => delete port m
  | _ => m
  end.

Definition running (l : list sup_label) : gmap Z ActiveUser := fold_left listen l ∅.

Lemma running_snoc l x : running (l ++ [x]) = listen (running l) x.
Proof. unfold running. by rewrite fold_left_app. Qed.

(** A map within the limit it was created with. *)
Definition within {K V} `{Countable K} (limit : nat) (m : BoundedTtlMap.t K V) : Prop :=
  BoundedTtlMap.bounded m /\ BoundedTtlMap.capacity m = Nat.max limit 1.

Lemma within_exec {K V} `{Countable K} limit (m : BoundedTtlMap.t K V) now o :
  within limit m -> within limit (BoundedTtlMap.exec now o m).
Proof.
  intros [Hb Hc]. split; [by apply BoundedTtlMap.exec_bounded|].
  by rewrite (proj1 (BoundedTtlMap.exec_same now o m)).
Qed.

Lemma within_new {K V} `{Countable K} limit ttl :
  within limit (BoundedTtlMap.new (K:=K) (V:=V) ttl limit).
Proof. split; [|done]. split; cbn; [lia|]. rewrite map_size_empty. lia. Qed.

(** A map of locations of a heap. *)
Definition allocated {A} (m : gmap Z nat) (h : gmap nat A) : Prop :=
  forall u loc, m !! u = Some loc -> is_Some (h !! loc).

(** A ledger: no two users share an object. *)
Definition ledger_ok {A} (m : gmap Z nat) (h : gmap nat A) : Prop :=
  allocated m h /\ forall u v loc, m !! u = Some loc -> m !! v = Some loc -> u = v.

Lemma allocated_dom {A} m (h h' : gmap nat A) : dom h' = dom h -> allocated m h -> allocated m h'.
Proof.
  intros Hd Ha u loc Hu. apply elem_of_dom. rewrite Hd. apply elem_of_dom. by eapply Ha.
Qed.

Lemma ledger_ok_dom {A} m (h h' : gmap nat A) : dom h' = dom h -> ledger_ok m h -> ledger_ok m h'.
Proof. intros Hd [Ha Hi]. split; [by eapply allocated_dom|done]. Qed.

Lemma allocated_sub {A} (m m' : gmap Z nat) (h : gmap nat A) : m ⊆ m' -> allocated m' h -> allocated m h.
Proof. intros Hs Ha u loc Hu. eapply Ha. by eapply lookup_weaken. Qed.

Lemma allocated_grow {A} m (h : gmap nat A) loc x : allocated m h -> allocated m (<[loc := x]> h).
Proof. intros Ha u l Hu. apply lookup_insert_is_Some'. right. by eapply Ha. Qed.

Lemma ledger_ok_filter {A} (X : gset Z) m (h : gmap nat A) :
  ledger_ok m h -> ledger_ok (filter (fun kv => kv.1 ∈ X) m) h.
Proof.
  intros [Ha Hi]. split.
  - intros u loc [Hu _]%map_lookup_filter_Some. by eapply Ha.
  - intros u v loc [Hu _]%map_lookup_filter_Some [Hv _]%map_lookup_filter_Some. by eapply Hi.
Qed.

(** A new object for a new user. *)
Lemma ledger_ok_fresh {A} m (h : gmap nat A) u x :
  ledger_ok m h -> ledger_ok (<[u := fresh (dom h)]> m) (<[fresh (dom h) := x]> h).
Proof.
  intros [Ha Hi]. assert (Hf : h !! fresh (dom h) = None) by apply not_elem_of_dom, is_fresh.
  assert (Hno : forall v, m !! v <> Some (fresh (dom h))).
  { intros v Hv. destruct (Ha _ _ Hv) as [y Hy]. congruence. }
  split.
  - intros v loc. rewrite lookup_insert_Some. intros [[-> <-]|[Hne Hv]].
    + rewrite lookup_insert_eq. by eexists.
    + apply lookup_insert_is_Some'. right. by eapply Ha.
  - intros v w loc. rewrite !lookup_insert_Some. intros [[-> <-]|[Hne Hv]] [[-> Hw]|[Hne' Hw]]; try done.
    + by destruct (Hno w).
    + subst loc. by destruct (Hno v).
    + by eapply Hi.
Qed.

(** The published tables name objects that exist. *)
Definition published_ok (sh : SupShared) : Prop :=
  allocated (counters_by_user (s_published sh)) (s_cells sh) /\
  allocated (conns_by_user (s_published sh)) (s_ip_sets sh) /\
  allocated (speeds_by_user (s_published sh)) (s_buckets sh).

(** A listener that a row of its port gives, with the profile of the row. *)
Definition from_row (port : Z) (a : ActiveUser) : Prop :=
  exists u p, a = spawn config u p /\ Profile.from_user u (node config) = Ok p /\ pu_port u = port.

(** [closing]: [stop_all] has taken the listeners. *)
Record supervisor_inv (closing : bool) (s : state) : Prop := {
  inv_listening : if closing then active_users (local s) = ∅ else running (log s) = active_users (local s);
  inv_rows : map_Forall from_row (active_users (local s));
  inv_sessions : within (max_sessions (limits config)) (sessions (local s));
  inv_alive_ips : within (max_alive_ips (limits config)) (alive_ips (local s));
  inv_detect_logs : within (max_detect_logs (limits config)) (detect_logs (local s));
  inv_counters : ledger_ok (traffic_counters (local s)) (s_cells (shared s));
  inv_conns : ledger_ok (conns (local s)) (s_ip_sets (shared s));
  inv_speeds : ledger_ok (speeds (local s)) (s_buckets (shared s));
  inv_published : published_ok (shared s)
}.

(** ** The primitive operations *)

Lemma await_inv {X : Set} b (c : SupAwait X) : sup_env_ok -> preserves (supervisor_inv b) (await c).
Proof.
  intros He. apply preserves_await. intros s x sh [] Hr.
  destruct (He _ _ _ _ _ _ Hr) as ((adds & Hc & _) & Hi & Hb & _ & Hp).
  assert (Hd : dom (s_cells sh) = dom (s_cells (shared s))) by (rewrite Hc; apply dom_add_all).
  constructor; cbn [local shared log]; try done.
  - by eapply ledger_ok_dom.
  - by eapply ledger_ok_dom.
  - by eapply ledger_ok_dom.
  - destruct inv_published0 as (H1 & H2 & H3). unfold published_ok. rewrite Hp.
    split_and!; by eapply allocated_dom.
Qed.

(** A label that is not about a listener. *)
Definition quiet (x : sup_label) : bool := match x with Spawned _ _ | Stopping _ _ => false | _ => true end.

Lemma emit_inv x : quiet x = true -> preserves (supervisor_inv false) (emit x).
Proof.
  intros Hx. apply preserves_emit. intros s []. constructor; cbn [local shared log]; try done.
  rewrite running_snoc. by destruct x.
Qed.

Lemma counter_inv u : preserves (supervisor_inv false) (on_traffic (Traffic.ensure_user u)).
Proof.
  apply preserves_on_both. intros s [].
  unfold Traffic.ensure_user, traffic_of. cbn [Traffic.counters Traffic.checkpoints objects].
  destruct (traffic_counters (local s) !! u) as [loc|]; constructor; cbn; try done.
  - by apply ledger_ok_fresh.
  - destruct inv_published0 as (H1 & H2 & H3). split_and!; [by apply allocated_grow|done|done].
Qed.

Lemma conn_inv u : preserves (supervisor_inv false) (on_conns (Conn.ensure_user u)).
Proof.
  apply preserves_on_both. intros s [].
  unfold Conn.ensure_user. cbn [conn_ledger sets guards].
  destruct (conns (local s) !! u) as [loc|]; constructor; cbn; try done.
  - by apply ledger_ok_fresh.
  - destruct inv_published0 as (H1 & H2 & H3). split_and!; [done|by apply allocated_grow|done].
Qed.

Lemma speed_inv now u rate : preserves (supervisor_inv false) (on_speeds (RateLimit.ensure_user now u rate)).
Proof.
  apply preserves_on_both. intros s [].
  unfold RateLimit.ensure_user. cbn [limiters buckets].
  destruct (speeds (local s) !! u) as [loc|]; constructor; cbn; try done.
  - eapply ledger_ok_dom; [apply dom_alter_L|done].
  - destruct inv_published0 as (H1 & H2 & H3). split_and!; [done|done|].
    eapply allocated_dom; [apply dom_alter_L|done].
  - by apply ledger_ok_fresh.
  - destruct inv_published0 as (H1 & H2 & H3). split_and!; [done|done|by apply allocated_grow].
Qed.

(** A method of [TrafficLedger] that keeps its map of counters and
    allocates nothing. *)
Lemma traffic_inv {A} (f : TrafficLedger -> A * TrafficLedger) :
  (forall l, Traffic.counters (f l).2 = Traffic.counters l /\ dom (objects (f l).2) = dom (objects l)) ->
  preserves (supervisor_inv false) (on_traffic f).
Proof.
  intros Hf. apply preserves_on_both. intros s [].
  destruct (Hf (traffic_of (local s) (shared s))) as [Hc Hd]. cbn.
  destruct (f (traffic_of (local s) (shared s))) as [a l]. cbn in *.
  constructor; cbn; try done.
  - rewrite Hc. by eapply ledger_ok_dom.
  - destruct inv_published0 as (H1 & H2 & H3). split_and!; [by eapply allocated_dom|done|done].
Qed.

(** A change of the shared objects that allocates nothing. *)
Lemma shared_inv {A} (f : SupShared -> A * SupShared) :
  (forall sh, s_cells (f sh).2 = s_cells sh /\ s_ip_sets (f sh).2 = s_ip_sets sh /\
     s_buckets (f sh).2 = s_buckets sh /\ s_published (f sh).2 = s_published sh) ->
  preserves (supervisor_inv false) (on_shared f).
Proof.
  intros Hf. apply preserves_on_shared. intros s [].
  destruct (Hf (shared s)) as (H1 & H2 & H3 & H4).
  constructor; cbn; try done; [by rewrite H1|by rewrite H2|by rewrite H3|].
  unfold published_ok in *. by rewrite H1, H2, H3, H4.
Qed.

Lemma forget_inv live : preserves (supervisor_inv false) (forget_traffic live).
Proof.
  intros s []. unfold forget_traffic. apply wp_bind, wp_on_both. cbn [then_]. apply wp_emit.
  constructor; cbn [local shared log fst snd]; try done; [by rewrite running_snoc|].
  by apply ledger_ok_filter.
Qed.

Lemma stale_conns_inv live :
  preserves (supervisor_inv false) (on_conns (fun w => ((), Conn.remove_stale_users live w))).
Proof. apply preserves_on_both. intros s []. constructor; try done. by apply ledger_ok_filter. Qed.

Lemma stale_speeds_inv live :
  preserves (supervisor_inv false) (on_speeds (fun l => ((), RateLimit.remove_stale_users live l))).
Proof. apply preserves_on_both. intros s []. constructor; try done. by apply ledger_ok_filter. Qed.

(** Operations of the local maps. *)
Lemma sessions_inv now o :
  preserves (supervisor_inv false) (on_runtime (fun b => set_sessions (BoundedTtlMap.exec now o (sessions b)) b)).
Proof. apply preserves_on_both. intros s []. constructor; try done. by apply within_exec. Qed.

Lemma alive_ips_inv now o :
  preserves (supervisor_inv false) (on_runtime (fun b => set_alive_ips (BoundedTtlMap.exec now o (alive_ips b)) b)).
Proof. apply preserves_on_both. intros s []. constructor; try done. by apply within_exec. Qed.

Lemma detect_logs_inv now o :
  preserves (supervisor_inv false) (on_runtime (fun b => set_detect_logs (BoundedTtlMap.exec now o (detect_logs b)) b)).
Proof. apply preserves_on_both. intros s []. constructor; try done. by apply within_exec. Qed.

(** ** The listeners *)

(** A listener that was replaced or removed, up to its first await. *)
Lemma stopped_inv port a :
  sup_env_ok ->
  preserves (supervisor_inv false)
    (on_runtime (fun b => set_active_users (delete port (active_users b)) b);; stop port a).
Proof.
  intros He s []. apply wp_bind, wp_on_both. cbn [then_]. unfold stop.
  apply wp_bind, wp_emit. cbn [then_ local shared log fst snd].
  apply (preserves_bind (supervisor_inv false)
    (match au_tcp a with Some _ => await (AwaitStop port) | None => mret () end)
    (fun _ => match au_udp a with Some _ => await (AwaitStop port) | None => mret () end)).
  - destruct (au_tcp a); [by apply await_inv|apply preserves_ret].
  - intros _. destruct (au_udp a); [by apply await_inv|apply preserves_ret].
  - constructor; cbn [local shared log fst snd]; try done;
    [by rewrite running_snoc, inv_listening0|].
    by apply map_Forall_delete.
Qed.

Lemma spawned_inv user p :
  Profile.from_user user (node config) = Ok p ->
  preserves (supervisor_inv false)
    (emit (Spawned (pu_port user) (spawn config user p));;
     on_runtime (fun b => set_active_users (<[pu_port user := spawn config user p]> (active_users b)) b)).
Proof.
  intros Hp s []. apply wp_bind, wp_emit. cbn [then_]. apply wp_on_both.
  constructor; cbn [local shared log fst snd]; try done;
    [by rewrite running_snoc, inv_listening0|].
  apply map_Forall_insert_2; [by exists user, p|done].
Qed.

Ltac inv_step :=
  lazymatch goal with
  | |- preserves _ (await _) => apply await_inv; assumption
  | |- preserves _ (emit _) => apply emit_inv; reflexivity
  | |- preserves _ (on_conns (Conn.ensure_user _)) => apply conn_inv
  | |- preserves _ (on_speeds (RateLimit.ensure_user _ _ _)) => apply speed_inv
  | |- preserves _ (on_traffic (Traffic.ensure_user _)) => apply counter_inv
  | |- preserves _ (on_shared _) => apply shared_inv; try by intros
  | |- preserves _ (forget_traffic _) => apply forget_inv
  | |- preserves _ (on_runtime (fun b => set_sessions (BoundedTtlMap.insert ?n ?k ?v _) b)) =>
      exact (sessions_inv n (BoundedTtlMap.OInsert k v))
  | |- preserves _ (on_runtime (fun b => set_alive_ips (BoundedTtlMap.insert ?n ?k ?v _) b)) =>
      exact (alive_ips_inv n (BoundedTtlMap.OInsert k v))
  | |- preserves _ (on_runtime (fun b => set_detect_logs (BoundedTtlMap.insert ?n ?k ?v _) b)) =>
      exact (detect_logs_inv n (BoundedTtlMap.OInsert k v))
  | |- preserves _ (on_runtime (fun b => set_sessions (BoundedTtlMap.expire ?n _) b)) =>
      exact (sessions_inv n BoundedTtlMap.OExpire)
  | |- preserves _ (on_runtime (fun b => set_alive_ips (BoundedTtlMap.expire ?n _) b)) =>
      exact (alive_ips_inv n BoundedTtlMap.OExpire)
  | |- preserves _ (on_runtime (fun b => set_detect_logs (BoundedTtlMap.expire ?n _) b)) =>
      exact (detect_logs_inv n BoundedTtlMap.OExpire)
  | |- preserves _ (on_runtime (fun b => set_sessions (BoundedTtlMap.retain ?k _) b)) =>
      exact (sessions_inv 0 (BoundedTtlMap.ORetain k))
  | |- preserves _ (on_runtime (fun b => set_alive_ips (BoundedTtlMap.retain ?k _) b)) =>
      exact (alive_ips_inv 0 (BoundedTtlMap.ORetain k))
  | |- preserves _ (on_runtime (fun b => set_detect_logs (BoundedTtlMap.retain ?k _) b)) =>
      exact (detect_logs_inv 0 (BoundedTtlMap.ORetain k))
  | |- _ => preserves_step
  end.

Lemma ensure_active_user_inv u p :
  sup_env_ok -> Profile.from_user u (node config) = Ok p ->
  preserves (supervisor_inv false) (ensure_active_user config u p).
Proof.
  intros He Hp. unfold ensure_active_user. apply preserves_bind; [apply preserves_get|]. intros s.
  destruct (_ !! _) as [old|]; [|by apply spawned_inv]. destruct (decide _); [apply preserves_ret|].
  apply preserves_assoc, preserves_bind; [by apply stopped_inv|]. intros _. by apply spawned_inv.
Qed.

Lemma ensure_listeners_inv us live :
  sup_env_ok -> preserves (supervisor_inv false) (ensure_listeners config us live).
Proof.
  intros He. revert live. induction us as [|u us IH]; intros live; cbn [ensure_listeners];
    [repeat inv_step|].
  destruct (Profile.from_user u (node config)) as [p|e| |] eqn:Hp; repeat inv_step;
    first [apply IH|by apply ensure_active_user_inv].
Qed.

Lemma remove_ports_inv ports : sup_env_ok -> preserves (supervisor_inv false) (remove_ports ports).
Proof.
  intros He. induction ports as [|p ports IH]; cbn [remove_ports]; [repeat inv_step|].
  apply preserves_bind; [apply preserves_get|]. intros s. destruct (_ !! _) as [old|]; [|exact IH].
  apply preserves_assoc, preserves_bind; [by apply stopped_inv|]. by intros _.
Qed.

Lemma remove_stale_state_inv live : preserves (supervisor_inv false) (remove_stale_state live).
Proof.
  unfold remove_stale_state. repeat inv_step; [apply stale_conns_inv|apply stale_speeds_inv].
Qed.

Lemma tabulate_inv us t : sup_env_ok -> preserves (supervisor_inv false) (tabulate us t).
Proof. intros He. revert t. induction us as [|u us IH]; intros t; cbn [tabulate]; repeat inv_step. apply IH. Qed.

(** Tables that follow the ledgers may be published. *)
Lemma publish_inv t s :
  supervisor_inv false s -> tables_follow t (local s) ->
  wp (on_shared (fun sh => ((), set_published t sh))) (fun _ s' => supervisor_inv false s') s.
Proof.
  intros [] (H1 & H2 & H3). apply wp_on_shared. constructor; cbn; try done.
  destruct inv_counters0, inv_conns0, inv_speeds0. split_and!; by eapply allocated_sub.
Qed.

Lemma record_inv xs : preserves (supervisor_inv false) (record xs).
Proof. induction xs as [|[r a] xs IH]; cbn [record]; repeat inv_step. exact IH. Qed.

Lemma panel_call_inv {A} (m : forall W : Wire, call A) :
  sup_env_ok -> preserves (supervisor_inv false) (panel_call m).
Proof. intros He. unfold panel_call. repeat (apply record_inv || inv_step). Qed.

Lemma sync_users_inv : sup_env_ok -> preserves (supervisor_inv false) (sync_users config).
Proof.
  intros He. unfold sync_users. apply preserves_bind; [by apply panel_call_inv|]. intros us.
  apply preserves_bind; [apply preserves_lift|]. intros _.
  apply preserves_bind_spec with (R := fun t s => tables_follow t (local s)).
  - intros s Hs. eapply wp_mono; [apply wp_and; [by apply tabulate_inv|]|].
    { apply tabulate_wp; [done|]. split_and!; apply map_empty_subseteq. }
    cbn beta. intros r s' (H1 & _ & _ & _ & Hr). split; [done|]. intros t ->.
    destruct Hr as [?|(t' & [= <-] & _ & _ & [Hf1 _] & [Hf2 _] & [Hf3 _] & _)]; done.
  - intros t s Hs Ht. apply wp_bind. eapply wp_mono; [by apply publish_inv|]. intros [[]|e| |] s1 H1;
      cbn [then_]; try done. revert s1 H1.
    change (preserves (supervisor_inv false) (emit (TablesPublished t);;
      live_ports ← ensure_listeners config (listener_users us) ∅;
      s2 ← get;
      remove_ports (List.filter (fun port => negb (bool_decide (port ∈ live_ports)))
        (List.map fst (hash_iter (active_users (local s2)))));;
      remove_stale_state (live_ids us))).
    repeat inv_step; [by apply ensure_listeners_inv|by apply remove_ports_inv|apply remove_stale_state_inv].
Qed.

Lemma report_traffic_inv : sup_env_ok -> preserves (supervisor_inv false) (report_traffic config).
Proof.
  intros He. unfold report_traffic, note_relayed. repeat inv_step.
  - apply traffic_inv. intros l. unfold pending_deltas_during.
    pose proof (collect_dom a (Traffic.checkpoints l) (hash_iter (Traffic.counters l)) 0 (objects l)) as Hd.
    by destruct (collect _ _ _ _ _) as [ds h].
  - by apply panel_call_inv.
  - by apply traffic_inv.
Qed.

Lemma turn_inv br : sup_env_ok -> preserves (supervisor_inv false) (turn config br).
Proof.
  intros He. unfold turn, recv_event, record_event, refresh_detect_rules, expire_local_state,
    report_auxiliary_state, report_heartbeat. cbv zeta.
  destruct br; repeat inv_step; try first
    [ by apply panel_call_inv | by apply sync_users_inv | by apply report_traffic_inv ].
  intros sh. by destruct (s_queue sh).
Qed.

Lemma loop_inv fuel : sup_env_ok -> preserves (supervisor_inv false) (run_loop config fuel).
Proof.
  intros He. induction fuel as [|fuel IH]; cbn [run_loop]; repeat inv_step;
    first [exact IH|by apply turn_inv].
Qed.

Lemma new_inv now :
  supervisor_inv false {| local := new_runtime config now; shared := new_shared; log := [] |}.
Proof.
  constructor; cbn; try done; try apply within_new.
  all: try (split; [intros u loc Hu|intros u v loc Hu]; by rewrite lookup_empty in Hu).
Qed.

(** ** The end *)

Lemma closing_emit x : preserves (supervisor_inv true) (emit x).
Proof. apply preserves_emit. intros s []. by constructor. Qed.

Lemma stop_each_inv l : sup_env_ok -> preserves (supervisor_inv true) (stop_each l).
Proof.
  intros He. induction l as [|[p a] l IH]; cbn [stop_each]; [apply preserves_ret|].
  apply preserves_bind; [|done]. unfold stop. apply preserves_bind; [apply closing_emit|]. intros _.
  apply preserves_bind; [destruct (au_tcp a)|intros _; destruct (au_udp a)];
    first [by apply await_inv|apply preserves_ret].
Qed.

(** [stop_all] stops what runs. *)
Lemma stop_each_wp l m s :
  sup_env_ok -> running (log s) ⊆ m -> (forall p, is_Some (m !! p) -> p ∈ l.*1) ->
  wp (stop_each l) (fun r s' => r <> OutOfFuel -> running (log s') = ∅) s.
Proof.
  intros He. revert m s. induction l as [|[p a] l IH]; intros m s Hsub Hm; cbn [stop_each].
  - apply wp_ret. intros _. apply map_eq. intros q. rewrite lookup_empty.
    destruct (running (log s) !! q) as [x|] eqn:Hq; [|done].
    destruct (not_elem_of_nil q). apply Hm. exists x. by eapply lookup_weaken.
  - apply wp_bind. eapply wp_mono; [apply (stop_wp He s p a _ _ _ (listeners_step_refl s))|].
    cbn beta. intros r s1 [->|(? & -> & (Hl & Hlog & _))]; cbn [then_]; [done|].
    apply (IH (delete p m)).
    + rewrite Hlog. cbn [app]. rewrite running_snoc. by apply delete_mono.
    + intros q [y [Hne Hq]%lookup_delete_Some].
      assert (Hin : q ∈ ((p, a) :: l).*1) by (apply Hm; by exists y). cbn in Hin.
      apply elem_of_cons in Hin as [|]; [congruence|done].
Qed.

Lemma boot_inv fuel :
  sup_env_ok -> preserves (supervisor_inv false)
    (initial_panel_probe config;; refresh_detect_rules;; sync_users config;; tick_loop config fuel).
Proof.
  intros He. unfold initial_panel_probe, refresh_detect_rules, tick_loop, interval. cbv zeta.
  repeat inv_step; first [by apply panel_call_inv|by apply sync_users_inv|by apply loop_inv].
Qed.

(** [run] up to [stop_all]. *)
Lemma run_split fuel s :
  run config fuel s =
    ((initial_panel_probe config;; refresh_detect_rules;; sync_users config;; tick_loop config fuel);;
     stop_all) s.
Proof.
  unfold run, mbind, ST_bind. destruct (initial_panel_probe config s) as [[] s1]; [|done..].
  destruct (refresh_detect_rules s1) as [[] s2]; [|done..].
  by destruct (sync_users config s2) as [[] s3].
Qed.

(** ** No panic, and the only error is the first poll's *)

Ltac sup_returns := repeat (returns_step || unfold on_traffic, on_conns, on_speeds, on_runtime).

Lemma record_returns b l xs : returns b l (record xs).
Proof. induction xs as [|[r a] xs IH]; cbn [record]; sup_returns. exact IH. Qed.

Lemma panel_call_returns {A} l (m : forall W : Wire, call A) :
  (forall answers, returning (H:=answering answers) (m (answering answers))) -> returns true l (panel_call m).
Proof.
  intros Hm. unfold panel_call. apply returns_bind; [apply returns_await|]. intros answers.
  specialize (Hm answers). unfold returning in Hm. destruct (m (answering answers)) as [xs r].
  apply returns_bind; [apply record_returns|]. intros _. by apply returns_lift.
Qed.

Lemma ensure_listeners_returns us live : returns false false (ensure_listeners config us live).
Proof.
  revert live. induction us as [|u us IH]; intros live; cbn [ensure_listeners]; [sup_returns|].
  assert (Hs : safe (fun _ => True) (Profile.from_user u (node config))) by apply Profile.new_safe.
  destruct (Profile.from_user _ _); [|apply IH|done..].
  apply returns_bind; [|intros; apply IH]. unfold ensure_active_user, stop. sup_returns.
Qed.

Lemma sync_users_returns : returns true false (sync_users config).
Proof.
  assert (Ht : forall us t, returns false false (tabulate us t)).
  { induction us as [|u us IH]; intros t; cbn [tabulate]; sup_returns. apply IH. }
  assert (Hr : forall l, returns false false (remove_ports l)).
  { induction l as [|p l IH]; cbn [remove_ports]; unfold stop; sup_returns; apply IH. }
  unfold sync_users, remove_stale_state, forget_traffic. sup_returns.
  - apply panel_call_returns. intros answers. apply users_returning.
  - unfold bail_if. by destruct (_ <? _).
  - apply returns_weaken, Ht.
  - apply returns_weaken, ensure_listeners_returns.
  - apply returns_weaken, Hr.
Qed.

Lemma refresh_returns b l : returns b l refresh_detect_rules.
Proof.
  unfold refresh_detect_rules. sup_returns. apply panel_call_returns. intros answers. apply detect_rules_returning.
Qed.

Lemma turn_returns br : returns false false (turn config br).
Proof.
  unfold turn, report_traffic, note_relayed, report_auxiliary_state, report_heartbeat, recv_event,
    record_event, expire_local_state.
  destruct br; sup_returns;
    first [apply sync_users_returns|apply refresh_returns|apply panel_call_returns; intros answers;
      first [apply report_traffic_returning|apply report_alive_ips_returning|apply report_detect_logs_returning
            |apply report_node_info_returning]].
Qed.

Lemma loop_returns fuel : returns false true (run_loop config fuel).
Proof. induction fuel as [|fuel IH]; cbn [run_loop]; sup_returns; [apply returns_weaken, turn_returns|exact IH]. Qed.

(** No period is zero; [validate] does not check it. *)
Definition ticking : Prop :=
  poll_interval (panel config) <> 0%Z /\ traffic_report_interval (panel config) <> 0%Z /\
  heartbeat_interval (panel config) <> 0%Z.

Lemma tick_loop_eq fuel s : ticking -> tick_loop config fuel s = run_loop config fuel s.
Proof.
  intros (H1 & H2 & H3). unfold tick_loop, interval.
  by rewrite (proj2 (Z.eqb_neq _ _) H1), (proj2 (Z.eqb_neq _ _) H2), (proj2 (Z.eqb_neq _ _) H3).
Qed.

(** Without that, the first poll is the last. *)
Lemma tick_loop_panics fuel s : ~ ticking -> (tick_loop config fuel s).1 = Panic.
Proof.
  intros Hn. unfold tick_loop, interval, ticking in *.
  destruct (Z.eqb_spec (poll_interval (panel config)) 0) as [|H1]; [done|].
  destruct (Z.eqb_spec (traffic_report_interval (panel config)) 0) as [|H2]; [done|].
  destruct (Z.eqb_spec (heartbeat_interval (panel config)) 0) as [|H3]; [done|]. tauto.
Qed.

Lemma tick_loop_returns fuel : ticking -> returns false true (tick_loop config fuel).
Proof. intros Ht s. unfold wp. rewrite tick_loop_eq by done. apply loop_returns. Qed.

Lemma probe_returns l : returns true l (initial_panel_probe config).
Proof.
  unfold initial_panel_probe. sup_returns; apply panel_call_returns; intros answers;
    first [apply ping_returning|apply node_info_returning|apply detect_rules_returning|apply relay_rules_returning].
Qed.

Lemma run_returns fuel : ticking -> returns true true (run config fuel).
Proof.
  intros Ht.
  assert (Hs : forall l, returns false false (stop_each l)).
  { induction l as [|[p a] l IH]; cbn [stop_each]; unfold stop; sup_returns. all: exact IH. }
  unfold run, stop_all. sup_returns;
    first [apply probe_returns|apply refresh_returns|apply returns_loops, sync_users_returns
          |by apply returns_fails, tick_loop_returns|apply returns_weaken, Hs].
Qed.

(** ** A whole run *)

(** Before the first poll nothing listens. *)
Definition nothing_runs (s : state) : Prop := running (log s) = ∅.

Lemma probe_silent : preserves nothing_runs (initial_panel_probe config;; refresh_detect_rules).
Proof.
  assert (Hem : forall x, quiet x = true -> preserves nothing_runs (emit x)).
  { intros x Hx. apply preserves_emit. intros s Hs. unfold nothing_runs. cbn [log]. rewrite running_snoc. by destruct x. }
  assert (Hre : forall xs, preserves nothing_runs (record xs)).
  { induction xs as [|[r a] xs IH]; cbn [record]; repeat (exact IH || preserves_step). by apply Hem. }
  unfold initial_panel_probe, refresh_detect_rules, panel_call. cbv zeta.
  repeat (apply Hre || preserves_step); try first [by apply preserves_await|by apply preserves_on_shared|by apply Hem].
Qed.

(** A run that fails has failed before it started a listener. *)
Lemma boot_fails fuel s :
  ticking -> sup_env_ok -> nothing_runs s ->
  wp ((initial_panel_probe config;; refresh_detect_rules);; sync_users config;; tick_loop config fuel)
    (fun r s' => forall e, r = Err e -> nothing_runs s') s.
Proof.
  intros Ht He Hs. apply wp_bind. eapply wp_mono; [by apply probe_silent|]. cbn beta.
  intros [[]|e| |] s1 H1; cbn [then_]; [|by intros ? [= <-]|done..].
  apply wp_bind. eapply wp_mono; [by apply sync_users_wp|]. cbn beta.
  intros r s2 [->|(answers & sh & _ & [(e & -> & _ & ->)|(us & -> & _)])]; cbn [then_]; [done| |].
  - intros _ _. unfold nothing_runs, asked. cbn [log]. by rewrite running_snoc.
  - eapply wp_mono; [by apply tick_loop_returns|]. by intros [] s3 H3 e0 [=].
Qed.

Lemma run_assoc fuel s :
  run config fuel s =
    (((initial_panel_probe config;; refresh_detect_rules);; sync_users config;; tick_loop config fuel);;
     stop_all) s.
Proof.
  rewrite run_split. unfold mbind, ST_bind.
  destruct (initial_panel_probe config s) as [[] s1]; [|done..].
  by destruct (refresh_detect_rules s1) as [[] s2].
Qed.

Lemma stop_all_wp s :
  sup_env_ok -> supervisor_inv false s ->
  wp stop_all (fun r s' => (r <> OutOfFuel -> running (log s') = ∅) /\
    exists closing, supervisor_inv closing s') s.
Proof.
  intros He Hi. unfold stop_all. apply wp_bind, wp_get. cbn [then_]. apply wp_bind, wp_on_both. cbn [then_].
  set (s2 := {| local := _; shared := _; log := _ |}).
  assert (Hc : supervisor_inv true s2) by (destruct Hi; by constructor).
  eapply wp_mono; [apply wp_and; [by apply stop_each_inv|]|].
  { apply (stop_each_wp _ (active_users (local s))); [done| |].
    - subst s2. cbn [log]. by rewrite (inv_listening _ _ Hi).
    - intros p [a Ha]. apply list_elem_of_fmap. exists (p, a). split; [done|]. by apply hash_iter_elem. }
  cbn beta. intros r s' [Hinv Hrun]. split; [done|by exists true].
Qed.

Lemma run_keeps_inv fuel s :
  sup_env_ok -> supervisor_inv false s -> wp (run config fuel) (fun _ s' => exists closing, supervisor_inv closing s') s.
Proof.
  intros He Hi. eapply wp_same; [apply run_split|]. apply wp_bind. eapply wp_mono; [by apply boot_inv|]. cbn beta.
  intros [[]|e| |] s1 H1; cbn [then_]; [|by exists false..].
  eapply wp_mono; [by apply stop_all_wp|]. by intros r s2 [_ H2].
Qed.

Lemma run_final fuel s :
  ticking -> sup_env_ok -> supervisor_inv false s -> nothing_runs s ->
  wp (run config fuel) (fun r s' => r <> Panic /\ (r <> OutOfFuel -> running (log s') = ∅)) s.
Proof.
  intros Ht He Hi Hn. apply wp_and.
  { eapply wp_mono; [by apply run_returns|]. by intros [] s'. }
  eapply wp_same; [apply run_assoc|]. apply wp_bind.
  assert (Hb : wp ((initial_panel_probe config;; refresh_detect_rules);; sync_users config;;
    tick_loop config fuel) (fun _ s' => supervisor_inv false s') s).
  { pose proof (boot_inv fuel He s Hi) as Hw. unfold wp, mbind, ST_bind in *.
    destruct (initial_panel_probe config s) as [[] s1]; [|done..].
    by destruct (refresh_detect_rules s1) as [[] s2]. }
  eapply wp_mono; [apply wp_and; [exact Hb|apply wp_and; [by apply boot_fails|]]|].
  { apply (returns_bind true true); [|intros; apply returns_bind; [apply returns_loops, sync_users_returns|]].
    - apply returns_bind; [apply probe_returns|]. intros _. apply refresh_returns.
    - intros. by apply returns_fails, tick_loop_returns. }
  cbn beta. intros [[]|e| |] s1 (H1 & H2 & H3); cbn [then_]; [|intros _; by apply (H2 e)|done..].
  eapply wp_mono; [by apply stop_all_wp|]. by intros r s2 [H _].
Qed.

Lemma run_panics fuel s : ~ ticking -> (run config fuel s).1 <> Ok ().
Proof.
  intros Hn. unfold run, mbind, ST_bind. destruct (initial_panel_probe config s) as [[] s1]; [|done..].
  destruct (refresh_detect_rules s1) as [[] s2]; [|done..].
  destruct (sync_users config s2) as [[] s3]; [|done..].
  pose proof (tick_loop_panics fuel s3 Hn) as Hp. by destruct (tick_loop config fuel s3) as [[] s4].
Qed.

(** What holds after any number of turns from the start. *)
Lemma supervisor_inv_reached fuel now :
  sup_env_ok -> exists closing, supervisor_inv closing (start config fuel now).2.
Proof. intros He. exact (run_keeps_inv fuel _ He (new_inv now)). Qed.

End Inv.
