(* ===== verification/SupervisorLog.v ===== *)
(** * The supervisor's exchanges with the panel

    The log of the supervisor holds every request it sent with the answer it
    got.  [exchanges_real]: each answer is one the environment gave, at the
    point of the run where the request was sent.  [post_wp] and
    [auxiliary_wp] are the functional behaviour of the posts on every
    answer. *)

From S2P Require Import Prelude Errors Str Kdf Cipher Protocol Session.
From S2P Require Import Float Panel Profile Config Policy Traffic Conn RateLimit TtlMap.
From S2P Require Import RelayAudit Task Listeners Supervisor SupervisorSpec.

Section Log.
Context `{W : Wire} `{C : Crypto} `{RE : RegexEngine} `{HO : HashOrder}.
Context `{!Env SupAwait SupShared sup_label} (config : Config).

Abbreviation state := (task BackendRuntime SupShared sup_label).
Abbreviation IO := (ST state error).

(** Every exchange of the log is with the panel that the environment plays. *)
Definition exchanges_real (l : list sup_label) : Prop :=
  forall l1 q a l2, l = l1 ++ Exchanged q a :: l2 ->
    exists sh answers sh', react PanelAnswers l1 sh = Some (answers, sh') /\ answers q = a.

Lemma exchanges_real_snoc l x :
  exchanges_real l ->
  (forall q a, x = Exchanged q a ->
    exists sh answers sh', react PanelAnswers l sh = Some (answers, sh') /\ answers q = a) ->
  exchanges_real (l ++ [x]).
Proof.
  intros Hl Hx l1 q a l2 Heq.
  refine (each_at_snoc (fun l1 y => forall q a, y = Exchanged q a -> exists sh answers sh',
    react PanelAnswers l1 sh = Some (answers, sh') /\ answers q = a) l x _ Hx _ _ _ Heq q a eq_refl).
  intros k1 y k2 Hk q' a' ->. by eapply Hl.
Qed.

(** An operation whose log stays real. *)
Abbreviation real := (preserves (fun s : state => exchanges_real (log s))).

Lemma real_await {X : Set} (c : SupAwait X) : real (await c).
Proof. by apply preserves_await. Qed.
Lemma real_on_shared {A} (f : SupShared -> A * SupShared) : real (on_shared f).
Proof. by apply preserves_on_shared. Qed.
Lemma real_on_both {A} (f : BackendRuntime -> SupShared -> A * BackendRuntime * SupShared) : real (on_both f).
Proof. by apply preserves_on_both. Qed.
Lemma real_emit x : (forall q a, x <> Exchanged q a) -> real (emit x).
Proof. intros Hx. apply preserves_emit. intros s Hs. apply exchanges_real_snoc; [done|]. by intros q a ?%Hx. Qed.

(** A method of the client, which sends one request at most. *)
Lemma real_panel_call {A} (m : forall W : Wire, call A) :
  (forall answers, once (H:=answering answers) (m (answering answers))) -> real (panel_call m).
Proof.
  intros Hm s Hs. unfold panel_call. apply wp_bind, wp_await_eq; [|done]. intros answers sh Hr. cbn [then_].
  specialize (Hm answers). destruct (m (answering answers)) as [xs r]. unfold once in Hm. cbn [fst] in Hm.
  destruct Hm as [->|[q ->]]; cbn [record]; wp_run; [exact Hs|]. apply exchanges_real_snoc; [done|].
  intros q' a' [= <- <-]. by exists (shared s), answers, sh.
Qed.

Ltac real_step :=
  first
    [ preserves_step
    | apply real_panel_call; intros answers;
      first [ apply users_once | apply ping_once | apply node_info_once | apply detect_rules_once
            | apply relay_rules_once | apply report_node_info_once | apply report_traffic_once
            | apply report_alive_ips_once | apply report_detect_logs_once ]
    | apply real_await
    | apply real_on_shared
    | apply real_on_both
    | apply real_emit; by intros ].

Lemma tabulate_real us t : real (tabulate us t).
Proof. revert t. induction us as [|u us IH]; intros t; cbn [tabulate]; repeat (apply IH || real_step). Qed.

Lemma stop_real port a : real (stop port a).
Proof. unfold stop. repeat real_step. Qed.

Lemma ensure_listeners_real us live : real (ensure_listeners config us live).
Proof.
  revert live. induction us as [|u us IH]; intros live; cbn [ensure_listeners]; unfold ensure_active_user;
    repeat (apply IH || apply stop_real || real_step).
Qed.

Lemma remove_ports_real ports : real (remove_ports ports).
Proof. induction ports as [|p ports IH]; cbn [remove_ports]; repeat (exact IH || apply stop_real || real_step). Qed.

Lemma sync_users_real : real (sync_users config).
Proof.
  unfold sync_users, remove_stale_state, forget_traffic. cbv zeta.
  repeat (apply tabulate_real || apply ensure_listeners_real || apply remove_ports_real || real_step).
Qed.

Lemma turn_real br : real (turn config br).
Proof.
  unfold turn, recv_event, record_event, refresh_detect_rules, expire_local_state, report_traffic,
    note_relayed, report_auxiliary_state, report_heartbeat. cbv zeta.
  destruct br; repeat (apply sync_users_real || real_step).
Qed.

Lemma run_real fuel : real (run config fuel).
Proof.
  assert (Hl : forall n, real (run_loop config n)).
  { induction n as [|n IH]; cbn [run_loop]; repeat (exact IH || apply turn_real || real_step). }
  assert (Hs : forall l, real (stop_each l)).
  { induction l as [|[p a] l IH]; cbn [stop_each]; repeat (exact IH || apply stop_real || real_step). }
  unfold run, tick_loop, interval, initial_panel_probe, refresh_detect_rules, stop_all. cbv zeta.
  repeat (apply sync_users_real || apply Hl || apply Hs || real_step).
Qed.

(** ** Posts *)

(** A post: one exchange, and it succeeds exactly if the panel takes it. *)
Lemma post_wp path query b s :
  let q := {| req_path := path; req_query := query; req_body := Some b |} in
  wp (panel_call (fun W => Panel.post_ack path query b)) (fun r s' =>
    (r = OutOfFuel /\ unanswered /\ s' = s) \/
    exists answers sh, react PanelAnswers (log s) (shared s) = Some (answers, sh) /\
      s' = asked q (answers q) sh s /\ if taken (answers q) then r = Ok () else exists e, r = Err e) s.
Proof.
  cbv zeta. set (q := {| req_path := path; req_query := query; req_body := Some b |}).
  unfold panel_call. apply wp_bind. unfold wp at 1, await. destruct (react _ _ _) as [[answers sh]|] eqn:Hr.
  2:{ left. split_and!; [done| |done]. by exists _, PanelAnswers, (log s), (shared s). }
  cbn [fst snd then_]. destruct (post_ack_spec (H:=answering answers) path query b) as [Hx Ht].
  pose proof (post_ack_returning (H:=answering answers) path query b) as Hs. unfold returning in Hs.
  destruct (post_ack (H:=answering answers) path query b) as [xs r]. cbn [fst snd] in Hx, Ht, Hs.
  rewrite Hx. cbn [record]. wp_run. right. exists answers, sh. split_and!; [done|done|].
  change (taken (H:=W) (answers q)) with (taken (H:=answering answers) (send q)). unfold q.
  destruct (taken _) eqn:Htk; [by apply Ht|].
  destruct r as [[]|e| |]; [discriminate (proj1 Ht eq_refl)|by exists e|done..].
Qed.

(** ** The auxiliary reports *)

Definition node_pairs : list (string * string) :=
  [("node_id", u64_decimal (Config.node_id (panel config)))].

(** A post of [q] that the panel answers ([ok]: it takes it); without data
    nothing is sent. *)
Definition posted (q : request) (empty : bool) (s s' : state) (ok : bool) : Prop :=
  if empty then ok = true /\ local s' = local s /\ log s' = log s
  else exists answers sh, react PanelAnswers (log s) (shared s) = Some (answers, sh) /\
    s' = asked q (answers q) sh s /\ ok = taken (answers q).

Definition with_local (b : BackendRuntime) (s : state) : state :=
  {| local := b; shared := shared s; log := log s |}.

(** The outcomes of [report_auxiliary_state]. *)
Definition auxiliary_outcome (s : state) (r : res error ()) (s' : state) : Prop :=
  let items := List.map (fun k => {| air_user_id := ak_user_id k; air_ip := ak_ip k |})
    (BoundedTtlMap.keys (alive_ips (local s))) in
  let logs := BoundedTtlMap.values (detect_logs (local s)) in
  let alive := {| req_path := "users/aliveip"; req_query := node_pairs; req_body := Some (BodyAliveIp items) |} in
  let detect := {| req_path := "users/detectlog"; req_query := node_pairs; req_body := Some (BodyDetectLog logs) |} in
  let no_ips := set_alive_ips (BoundedTtlMap.retain (fun _ _ => false) (alive_ips (local s))) (local s) in
  let no_logs := set_detect_logs (BoundedTtlMap.retain (fun _ _ => false) (detect_logs (local s))) no_ips in
  (r = OutOfFuel /\ unanswered /\ s' = s) \/
  (exists s1, posted alive (length items =? 0) s s1 false /\ (exists e, r = Err e) /\ s' = s1) \/
  exists s1, posted alive (length items =? 0) s s1 true /\
    let s2 := with_local no_ips s1 in
    if length logs =? 0 then r = Ok () /\ s' = s2
    else (r = OutOfFuel /\ unanswered /\ s' = s2) \/
      (posted detect false s2 s' false /\ exists e, r = Err e) \/
      exists s3, posted detect false s2 s3 true /\ r = Ok () /\ s' = with_local no_logs s3.

Lemma auxiliary_wp s : wp (report_auxiliary_state config) (auxiliary_outcome s) s.
Proof.
  unfold report_auxiliary_state, auxiliary_outcome. cbv zeta.
  apply wp_bind, wp_get. cbn [then_]. apply wp_bind.
  set (items := List.map _ (BoundedTtlMap.keys _)). set (logs := BoundedTtlMap.values (detect_logs (local s))).
  set (no_ips := set_alive_ips _ (local s)).
  (* the second report *)
  assert (Hrest : forall s1, local s1 = local s -> wp
    (on_runtime (fun b => set_alive_ips (BoundedTtlMap.retain (fun _ _ => false) (alive_ips b)) b);;
     s' ← get;
     if length (BoundedTtlMap.values (detect_logs (local s'))) =? 0 then mret ()
     else panel_call (fun W => Panel.report_detect_logs (Supervisor.node_id config)
            (BoundedTtlMap.values (detect_logs (local s'))));;
          on_runtime (fun b => set_detect_logs (BoundedTtlMap.retain (fun _ _ => false) (detect_logs b)) b))
    (fun r s' => let s2 := with_local no_ips s1 in
      if length logs =? 0 then r = Ok () /\ s' = s2
      else (r = OutOfFuel /\ unanswered /\ s' = s2) \/
        (posted {| req_path := "users/detectlog"; req_query := node_pairs; req_body := Some (BodyDetectLog logs) |}
           false s2 s' false /\ exists e, r = Err e) \/
        exists s3, posted {| req_path := "users/detectlog"; req_query := node_pairs; req_body := Some (BodyDetectLog logs) |}
          false s2 s3 true /\ r = Ok () /\
          s' = with_local (set_detect_logs (BoundedTtlMap.retain (fun _ _ => false) (detect_logs (local s))) no_ips) s3) s1).
  { intros s1 Hl. apply wp_bind, wp_on_both. cbn [then_ fst snd]. rewrite Hl. fold no_ips.
    change {| local := no_ips; shared := shared s1; log := log s1 |} with (with_local no_ips s1).
    apply wp_bind, wp_get. cbn [then_]. cbn [local with_local detect_logs set_alive_ips no_ips]. fold logs.
    cbv zeta. destruct (length logs =? 0) eqn:Hn; [by apply wp_ret|]. unfold Panel.report_detect_logs. rewrite Hn.
    apply wp_bind. eapply wp_mono; [apply post_wp|]. cbv beta.
    intros r s2 [(-> & Hu & ->)|(answers & sh & Hr & -> & Ht)]; cbn [then_]; [by left|].
    destruct (taken _) eqn:Htk; [subst r|destruct Ht as [e ->]]; cbn [then_].
    - apply wp_on_both. right. right. eexists. split; [by exists answers, sh|]. done.
    - right. left. split; [by exists answers, sh|by exists e]. }
  unfold Panel.report_alive_ips. destruct (length items =? 0) eqn:Hn.
  - unfold panel_call. apply wp_bind. unfold wp at 1, await. destruct (react _ _ _) as [[answers sh]|] eqn:Hr.
    2:{ cbn [fst snd then_]. left. split_and!; [done| |done]. by exists _, PanelAnswers, (log s), (shared s). }
    cbn [fst snd then_ mret call_ret record]. apply wp_bind, wp_ret. cbn [then_]. apply wp_lift. cbn [then_].
    refine (wp_mono _ _ _ _ (Hrest _ _) _); [done|]. intros r s' Hw. right. right. eexists. split; [|exact Hw]. by split_and!.
  - eapply wp_mono; [apply post_wp|]. cbv beta.
    intros r s1 [(-> & Hu & ->)|(answers & sh & Hr & -> & Ht)]; cbn [then_]; [by left|].
    destruct (taken _) eqn:Htk; [subst r|destruct Ht as [e ->]]; cbn [then_].
    + refine (wp_mono _ _ _ _ (Hrest _ _) _); [done|]. intros r s' Hw. right. right. eexists. split; [|exact Hw]. by exists answers, sh.
    + right. left. eexists. split; [by exists answers, sh|]. split; [by exists e|done].
Qed.

End Log.
