(* ===== verification/SupervisorTheorems.v ===== *)
(** * The properties of the supervisor, with a run of it

    The properties instantiate the lemmas of [SupervisorSpec.v],
    [SupervisorInv.v] and [SupervisorLog.v]; the run of the witnesses polls
    twice: the second poll changes a policy, which restarts nothing; then
    the traffic is reported, and the listeners are stopped at the end. *)

From S2P Require Import Prelude Errors Str Kdf Cipher Protocol Session.
From S2P Require Import Float Panel Profile Config Policy Traffic Conn RateLimit TtlMap.
From S2P Require Import RelayAudit Task Listeners Supervisor SupervisorSpec SupervisorInv SupervisorLog.

(** ** Merging carriers *)

Section Merge.
Context `{HO : HashOrder}.

(** The first row of a port. *)
Definition first_of_port (p : Z) (us : list PanelUser) : option PanelUser :=
  find (fun u => (pu_port u =? p)%Z) us.

Lemma merge_lookup us m p :
  fold_left merge_one us m !! p =
    match m !! p with Some u => Some u | None => first_of_port p us end.
Proof.
  revert m. induction us as [|u us IH]; intros m; cbn [fold_left]; [by destruct (m !! p)|].
  rewrite IH. unfold merge_one, first_of_port. cbn [find].
  destruct (Z.eqb_spec (pu_port u) p) as [<-|Hne].
  - destruct (m !! pu_port u) as [e|] eqn:Hm; [by rewrite Hm|]. by rewrite lookup_insert_eq.
  - destruct (m !! pu_port u) as [e|] eqn:Hm; [done|]. by rewrite lookup_insert_ne.
Qed.

Lemma first_of_port_port p us u : first_of_port p us = Some u -> pu_port u = p.
Proof. intros [_ Hp]%find_some. by apply Z.eqb_eq. Qed.

Lemma merge_elem us u : u ∈ merge_carrier_users us <-> first_of_port (pu_port u) us = Some u.
Proof.
  unfold merge_carrier_users. rewrite (list_elem_of_fmap snd). split.
  - intros ([p v] & -> & Hin). apply hash_iter_elem in Hin. rewrite merge_lookup, lookup_empty in Hin.
    cbn. by rewrite (first_of_port_port _ _ _ Hin).
  - intros Hu. exists (pu_port u, u). split; [done|]. apply hash_iter_elem.
    by rewrite merge_lookup, lookup_empty.
Qed.

Lemma merge_NoDup us : NoDup (List.map pu_port (merge_carrier_users us)).
Proof.
  unfold merge_carrier_users. rewrite map_map.
  assert (H : List.map (fun x => pu_port (snd x)) (hash_iter (fold_left merge_one us ∅)) =
    (hash_iter (fold_left merge_one us ∅)).*1).
  { apply map_ext_in. intros [p v] Hin%list_elem_of_In. apply hash_iter_elem in Hin.
    rewrite merge_lookup, lookup_empty in Hin. by apply first_of_port_port in Hin. }
  rewrite H. apply hash_iter_NoDup.
Qed.

(** Rows that [carrier_config_matches] identifies give the same listener. *)
Lemma carrier_match_lossless config u v :
  carrier_config_matches u v = true ->
  Profile.from_user u (node config) = Profile.from_user v (node config) /\
  forall p, fingerprint_of u p = fingerprint_of v p.
Proof.
  unfold carrier_config_matches. intros (H1 & H2 & H3 & H4 & _ & H6 & _ & H8)%bool_decide_eq_true.
  unfold Profile.from_user, fingerprint_of. by rewrite H1, H2, H3, H4, H6, H8.
Qed.

End Merge.

(** ** Restarts *)

Section Restarts.
Context `{W : Wire} `{HO : HashOrder} (config : Config).

(** The labels about the listener of a port. *)
Definition about_port (p : Z) (x : sup_label) : bool :=
  match x with Spawned q _ | Stopping q _ => (q =? p)%Z | _ => false end.

Definition labels_of (p : Z) (l : list sup_label) : list sup_label := List.filter (about_port p) l.

Lemma labels_of_app p l1 l2 : labels_of p (l1 ++ l2) = labels_of p l1 ++ labels_of p l2.
Proof. apply List.filter_app. Qed.

Lemma labels_of_none p l : (forall x, x ∈ l -> about_port p x = false) -> labels_of p l = [].
Proof.
  unfold labels_of. induction l as [|x l IH]; intros Hl; [done|]. cbn [List.filter].
  rewrite (Hl x) by by left. apply IH. intros y Hy. apply Hl. by right.
Qed.

(** What is left at [p], and whether it is the old listener. *)
Definition kept_or_spawned (o : option ActiveUser) (up : PanelUser * Profile.t) : ActiveUser :=
  match o with
  | Some a => if decide (fingerprint a = fingerprint_of up.1 up.2) then a else spawn config up.1 up.2
  | None => spawn config up.1 up.2
  end.

Lemma kept_fingerprint o up : fingerprint (kept_or_spawned o up) = fingerprint_of up.1 up.2.
Proof. unfold kept_or_spawned. destruct o; [|done]. by destruct (decide _). Qed.

Definition row_of (p : Z) (rows : list (PanelUser * Profile.t)) : option (PanelUser * Profile.t) :=
  find (fun up => (row_port up =? p)%Z) rows.

Lemma reconcile_one_lookup m up p :
  (reconcile_one config m up).1 !! p =
    if decide (row_port up = p) then Some (kept_or_spawned (m !! p) up) else m !! p.
Proof.
  unfold reconcile_one, kept_or_spawned. destruct (decide (row_port up = p)) as [<-|Hne].
  - destruct (m !! row_port up) as [a|] eqn:Hm; [|cbn; by rewrite lookup_insert_eq].
    destruct (decide _); cbn; [done|by rewrite lookup_insert_eq].
  - destruct (m !! row_port up) as [a|] eqn:Hm; [destruct (decide _)|]; cbn; try done.
    all: by rewrite lookup_insert_ne.
Qed.

Lemma row_of_none p rows : row_of p rows = None <-> p ∉ List.map row_port rows.
Proof.
  unfold row_of. split.
  - intros Hf Hin. apply (list_elem_of_fmap row_port) in Hin as (up & -> & Hin).
    apply list_elem_of_In, (find_none _ _ Hf) in Hin. by rewrite Z.eqb_refl in Hin.
  - intros Hn. destruct (find _ rows) as [up|] eqn:Hf; [|done]. apply find_some in Hf as [Hin Hp].
    apply Z.eqb_eq in Hp. destruct Hn. apply (list_elem_of_fmap row_port). exists up.
    split; [done|by apply list_elem_of_In].
Qed.

Lemma reconcile_lookup rows m p :
  NoDup (List.map row_port rows) ->
  (reconcile config rows m).1 !! p =
    match row_of p rows with Some up => Some (kept_or_spawned (m !! p) up) | None => m !! p end.
Proof.
  revert m. induction rows as [|up rows IH]; intros m Hnd; [done|]. cbn [reconcile].
  apply NoDup_cons in Hnd as [Hni Hnd]. specialize (IH (reconcile_one config m up).1 Hnd).
  destruct (reconcile_one config m up) as [m1 l1] eqn:H1. cbn [fst] in IH.
  destruct (reconcile config rows m1) as [m2 l2]. cbn [fst] in *. rewrite IH.
  pose proof (reconcile_one_lookup m up p) as Hl. rewrite H1 in Hl. cbn [fst] in Hl. rewrite Hl.
  unfold row_of. cbn [find]. destruct (Z.eqb_spec (row_port up) p) as [<-|Hne].
  - rewrite decide_True by done. apply row_of_none in Hni. unfold row_of in Hni. by rewrite Hni.
  - by rewrite decide_False by done.
Qed.

(** The labels of the port of a row. *)
Definition restart (o : option ActiveUser) (up : PanelUser * Profile.t) : list sup_label :=
  match o with
  | Some old =>
      if decide (fingerprint old = fingerprint_of up.1 up.2) then []
      else [Stopping (row_port up) old; Spawned (row_port up) (spawn config up.1 up.2)]
  | None => [Spawned (row_port up) (spawn config up.1 up.2)]
  end.

Lemma reconcile_one_labels m up p :
  labels_of p (reconcile_one config m up).2 =
    if decide (row_port up = p) then restart (m !! p) up else [].
Proof.
  unfold reconcile_one, restart, labels_of. destruct (decide (row_port up = p)) as [<-|Hne].
  - destruct (m !! row_port up) as [a|]; [destruct (decide _)|]; cbn; rewrite ?Z.eqb_refl; done.
  - apply Z.eqb_neq in Hne. destruct (m !! row_port up) as [a|]; [destruct (decide _)|]; cbn; rewrite ?Hne; done.
Qed.

(** A port is touched for its own row only. *)
Lemma reconcile_labels rows m p :
  NoDup (List.map row_port rows) ->
  labels_of p (reconcile config rows m).2 =
    match row_of p rows with Some up => restart (m !! p) up | None => [] end.
Proof.
  revert m. induction rows as [|up rows IH]; intros m Hnd; [done|]. cbn [reconcile].
  apply NoDup_cons in Hnd as [Hni Hnd]. specialize (IH (reconcile_one config m up).1 Hnd).
  pose proof (reconcile_one_lookup m up p) as Hl. pose proof (reconcile_one_labels m up p) as Hlab.
  destruct (reconcile_one config m up) as [m1 l1]. cbn [fst snd] in *.
  destruct (reconcile config rows m1) as [m2 l2]. cbn [snd] in *.
  rewrite labels_of_app, IH, Hlab. unfold row_of. cbn [find]. destruct (Z.eqb_spec (row_port up) p) as [<-|Hne].
  - rewrite decide_True by done. apply row_of_none in Hni. unfold row_of in Hni. by rewrite Hni, app_nil_r.
  - rewrite decide_False in Hl by done. rewrite decide_False by done. by rewrite Hl.
Qed.

(** Two rows of one port with different endpoint configurations: every poll
    restarts the port's listener twice. *)
Lemma duplicate_port_restarts a b m :
  row_port a = row_port b -> fingerprint_of a.1 a.2 <> fingerprint_of b.1 b.2 ->
  let m1 := (reconcile config [a; b] m).1 in
  (reconcile config [a; b] m1).2 =
    [Stopping (row_port a) (spawn config b.1 b.2); Spawned (row_port a) (spawn config a.1 a.2);
     Stopping (row_port a) (spawn config a.1 a.2); Spawned (row_port a) (spawn config b.1 b.2)].
Proof.
  intros Hp Hne. cbv zeta.
  assert (H1 : (reconcile config [a; b] m).1 !! row_port a = Some (spawn config b.1 b.2)).
  { cbn [reconcile]. destruct (reconcile_one config m a) as [m1 l1] eqn:E1.
    pose proof (reconcile_one_lookup m1 b (row_port a)) as Hb.
    pose proof (reconcile_one_lookup m a (row_port a)) as Ha. rewrite E1 in Ha. cbn [fst] in Ha.
    destruct (reconcile_one config m1 b) as [m2 l2]. cbn [fst] in *.
    rewrite Hb, decide_True by done. rewrite decide_True in Ha by done. rewrite Ha. f_equal.
    unfold kept_or_spawned at 1. rewrite decide_False; [done|]. by rewrite kept_fingerprint. }
  set (m1 := (reconcile config [a; b] m).1) in *. cbn [reconcile]. unfold reconcile_one at 1.
  rewrite H1. change (fingerprint (spawn config ?u ?p)) with (fingerprint_of u p).
  rewrite decide_False by done. unfold reconcile_one. rewrite <- Hp, lookup_insert_eq.
  change (fingerprint (spawn config ?u ?p)) with (fingerprint_of u p).
  by rewrite decide_False by done.
Qed.

(** The user id a listener was spawned with is not part of its
    fingerprint: it stays when the port's row gets another one. *)
Lemma stale_user_id u v p m :
  fingerprint_of u p = fingerprint_of v p -> m !! pu_port u = Some (spawn config u p) ->
  reconcile config [(v, p)] m = (m, []).
Proof.
  intros Hf Hm. assert (Hp : pu_port v = pu_port u) by (unfold fingerprint_of in Hf; congruence).
  cbn [reconcile]. unfold reconcile_one, row_port. cbn [fst snd]. rewrite Hp, Hm.
  change (fingerprint (spawn config ?x p)) with (fingerprint_of x p). by rewrite decide_True by done.
Qed.

(** The ports of the served rows are those of the rows. *)
Lemma served_ports us : List.map row_port (served_rows config us) `sublist_of` List.map pu_port us.
Proof.
  induction us as [|u us IH]; [done|]. unfold served_rows. cbn [omap list_omap List.map].
  destruct (Profile.from_user u (node config)) as [p|e| |]; cbn [List.map];
    [by constructor|by constructor..].
Qed.

Lemma listener_rows_NoDup us :
  existsb is_carrier us = true \/ NoDup (List.map pu_port us) ->
  NoDup (List.map row_port (served_rows config (listener_users us))).
Proof.
  intros H. eapply sublist_NoDup; [|apply served_ports]. unfold listener_users.
  destruct (existsb is_carrier us); [apply merge_NoDup|]. destruct H as [|H]; [done|].
  eapply sublist_NoDup; [exact H|]. clear H. induction us as [|u us IH]; [done|].
  cbn [List.filter List.map]. destruct (negb _); cbn [List.map]; by constructor.
Qed.

End Restarts.

Section Synced.
Context `{W : Wire} `{C : Crypto} `{RE : RegexEngine} `{HO : HashOrder}.
Context (config : Config).

(** A row is of its port. *)
Lemma row_of_port p rows up : row_of p rows = Some up -> row_port up = p.
Proof. intros [_ Hp]%find_some. by apply Z.eqb_eq. Qed.

(** One port of a successful poll. *)
Lemma synced_port us (s s' : task BackendRuntime SupShared sup_label) p :
  synced config us s s' ->
  NoDup (List.map row_port (served_rows config (listener_users us))) ->
  let old := active_users (local s) !! p in
  let ext := drop (length (log s)) (log s') in
  match row_of p (served_rows config (listener_users us)) with
  | Some up =>
      active_users (local s') !! p = Some (kept_or_spawned config old up) /\
      labels_of p ext = restart config old up
  | None =>
      active_users (local s') !! p = None /\ forall a, old = Some a -> Stopping p a ∈ ext
  end.
Proof.
  intros (t & _ & _ & _ & _ & _ & _ & _ & _ & _ & _ & _ & _ & Hact & Hlog & _) Hnd. cbv zeta.
  set (rows := served_rows config (listener_users us)) in *.
  set (m := (reconcile config rows (active_users (local s))).1) in *.
  assert (Hport : p ∈ live_ports config us <-> p ∈ List.map row_port rows).
  { unfold live_ports. by rewrite elem_of_list_to_set. }
  assert (Hext : drop (length (log s)) (log s') = TablesPublished t ::
    (reconcile config rows (active_users (local s))).2 ++
    (drop_ports (stale_ports (live_ports config us) m) m).2 ++ [Forgotten (live_ids us)])
    by by rewrite Hlog, drop_app_length.
  rewrite Hext. pose proof (reconcile_lookup config rows (active_users (local s)) p Hnd) as Hm. fold m in Hm.
  destruct (row_of p rows) as [up|] eqn:Hrow.
  - assert (Hin : p ∈ live_ports config us).
    { apply Hport. destruct (decide (p ∈ List.map row_port rows)) as [|Hn]; [done|].
      apply row_of_none in Hn. congruence. }
    split; [rewrite Hact; by apply map_lookup_filter_Some|].
    change (TablesPublished t :: ?l) with ([TablesPublished t] ++ l). rewrite !labels_of_app.
    rewrite (reconcile_labels config rows) by done. rewrite Hrow.
    assert (Hstale : labels_of p (drop_ports (stale_ports (live_ports config us) m) m).2 = []).
    { apply labels_of_none. intros x (q & old & -> & Hq & _)%drop_ports_labels.
      cbn. apply Z.eqb_neq. intros ->. by apply stale_ports_elem in Hq as [Hq _]. }
    rewrite Hstale. cbn. by rewrite app_nil_r.
  - assert (Hni : p ∉ live_ports config us) by by rewrite Hport, <- row_of_none.
    split; [rewrite Hact; apply map_lookup_filter_None; by right|].
    intros a Ha. apply elem_of_cons; right. apply elem_of_app; right. apply elem_of_app; left.
    apply drop_ports_labels. exists p, a. rewrite Ha in Hm. split_and!; [done| |done].
    apply stale_ports_elem. split; [done|by eexists].
Qed.

End Synced.

(** ** Turns and auxiliary reports *)

Section Turns.
Context `{W : Wire} `{C : Crypto} `{RE : RegexEngine} `{HO : HashOrder}.
Context `{!Env SupAwait SupShared sup_label} (config : Config).

Abbreviation state := (task BackendRuntime SupShared sup_label).
Abbreviation IO := (ST state error).

(** [m] does not leave the loop. *)
Definition stays (m : IO bool) : Prop := forall s, wp m (fun r _ => r <> Ok true) s.

Lemma stays_bind {A} (m : IO A) (f : A -> IO bool) : (forall a, stays (f a)) -> stays (m ≫= f).
Proof.
  intros Hf s. apply wp_bind. apply (wp_mono m (fun _ _ => True)); [done|].
  intros [] s1 _; cbn [then_]; [apply Hf|done..].
Qed.

Lemma stays_false : stays (mret false).
Proof. by intros s. Qed.

Lemma turn_leaves br s : wp (turn config br) (fun r _ => br = Shutdown <-> r = Ok true) s.
Proof.
  destruct br; [done|..].
  all: eapply (wp_mono _ (fun r _ => r <> Ok true)); [|by intros r s' Hr; split].
  - unfold turn. apply stays_bind. intros [ev|]; [apply stays_bind; intros []|]; apply stays_false.
  - apply stays_bind; intros []; apply stays_bind; intros []; apply stays_bind; intros []; apply stays_false.
  - apply stays_bind; intros []; apply stays_bind; intros []; apply stays_false.
  - apply stays_bind; intros []; apply stays_false.
Qed.

End Turns.

(** ** Properties *)

(** C7 A poll, in every environment.  It is left unfinished only if some
    await is never answered.  Otherwise the request for the node's users was
    sent, and what follows depends on its answer.  A failed fetch, and more
    rows than [max_users], is the error, and nothing of the runtime, the
    tables or the listeners changes.  Otherwise it succeeds: keys and
    policies are those of the last row of each user that has one; counters,
    IP sets and limiters are exactly those of the ledgers, which hold the
    polled users and keep the objects of those that stay; the published
    tables are these; and the listeners are reconciled with the served rows,
    port by port. *)
Theorem sync_users_spec `{W : Wire} `{C : Crypto} `{RE : RegexEngine} `{HO : HashOrder}
    (E : Env SupAwait SupShared sup_label) config s (He : sup_env_ok) :
  let '(r, s') := sync_users config s in
  (r = OutOfFuel /\ unanswered) \/
  exists answers sh, react PanelAnswers (log s) (shared s) = Some (answers, sh) /\
    let s1 := asked (users_request config) (answers (users_request config)) sh s in
    match fetched config answers with
    | Ok us => r = Ok () /\ synced config us s1 s'
    | Err e => r = Err e /\ s' = s1
    | _ => False
    end.
Proof.
  pose proof (sync_users_wp config s He) as Hw. pose proof (sync_users_returns config s) as Hr.
  unfold wp in *. destruct (sync_users config s) as [r s']. cbn [fst snd] in *.
  destruct Hw as [->|(answers & sh & Ha & Hw)]; [left; by destruct Hr|right].
  exists answers, sh. split; [done|].
  destruct Hw as [(e & -> & -> & H)|(us & -> & -> & H)]; [by split|by split].
Qed.

(** What a row says of its listener, and two rows that say the same. *)
Definition same_endpoint (u : PanelUser) (q : Profile.t) (v : PanelUser) (q' : Profile.t) : Prop :=
  pu_port u = pu_port v /\ pu_password u = pu_password v /\ q = q' /\
  pu_is_multi_user u = pu_is_multi_user v.

Definition serves_row (config : Config) (v : PanelUser) (q : Profile.t) (args : ListenerArgs) : Prop :=
  la_listen_host args = listen_host (node config) /\ la_port args = pu_port v /\
  la_user_id args = default (pu_id v) (pu_user_id v) /\ la_password args = pu_password v /\
  la_profile args = q /\ la_is_multi_user args = pu_is_multi_user v /\
  ec_forbidden (la_enforcement args) = enforce_forbidden (node config) /\
  ec_conn_limit (la_enforcement args) = enforce_conn_limit (node config) /\
  ec_audit_block (la_enforcement args) = nc_audit_block (node config) /\
  ec_speed (la_enforcement args) = enforce_speed (node config).

(** The listeners of a row: of each protocol one, if the node serves it. *)
Definition listens_for (config : Config) (v : PanelUser) (q : Profile.t) (a : ActiveUser) : Prop :=
  match au_tcp a with
  | Some t => tcp_enabled (node config) = true /\ serves_row config v q (tcp_args t) /\
      tcp_max_accepts t = max_accepts_per_port (limits config)
  | None => tcp_enabled (node config) = false
  end /\
  match au_udp a with
  | Some t => udp_enabled (node config) = true /\ serves_row config v q (udp_args t) /\
      ut_association_ttl t = udp_association_ttl (limits config) /\
      ut_max_associations t = max_udp_associations (limits config)
  | None => udp_enabled (node config) = false
  end.

Lemma spawn_listens config v q : listens_for config v q (spawn config v q).
Proof.
  unfold listens_for, spawn. cbn [au_tcp au_udp].
  destruct (tcp_enabled (node config)), (udp_enabled (node config)); done.
Qed.

Lemma fingerprint_same u q v q' : fingerprint_of u q = fingerprint_of v q' <-> same_endpoint u q v q'.
Proof.
  unfold fingerprint_of, same_endpoint. split; [by intros [= -> -> -> ->]|]. by intros (-> & -> & -> & ->).
Qed.

(** C17 Which listeners a poll touches.  When the rows have a carrier, or no
    two of them share a port: the listener of a port, spawned for the row
    [u], is left running if the port's row [v] has the same password,
    profile and mode, whatever else changed, and then no label is about the
    port; if one of these differs it is taken down and then one spawned that
    serves [v]: with its port, password, profile, mode and user id, and the
    node's settings; a port that is new gets the listener of its row, and
    one without a served row loses its own. *)
Theorem poll_restarts_only_changed `{W : Wire} `{C : Crypto} `{RE : RegexEngine} `{HO : HashOrder}
    (E : Env SupAwait SupShared sup_label) config s (He : sup_env_ok) :
  let '(r, s') := sync_users config s in
  r = Ok () ->
  exists answers sh us, react PanelAnswers (log s) (shared s) = Some (answers, sh) /\
    fetched config answers = Ok us /\
    (existsb is_carrier us = true \/ NoDup (List.map pu_port us) ->
     forall p, let ext := drop (length (log s)) (log s') in
       match row_of p (served_rows config (listener_users us)) with
       | Some (v, q) =>
           pu_port v = p /\
           match active_users (local s) !! p with
           | Some old => forall u q0, old = spawn config u q0 ->
               (same_endpoint u q0 v q /\ active_users (local s') !! p = Some old /\ labels_of p ext = []) \/
               (~ same_endpoint u q0 v q /\ exists a, active_users (local s') !! p = Some a /\
                  listens_for config v q a /\ labels_of p ext = [Stopping p old; Spawned p a])
           | None => exists a, active_users (local s') !! p = Some a /\
               listens_for config v q a /\ labels_of p ext = [Spawned p a]
           end
       | None => active_users (local s') !! p = None /\
           forall old, active_users (local s) !! p = Some old -> Stopping p old ∈ ext
       end).
Proof.
  pose proof (sync_users_wp config s He) as Hw. unfold wp in Hw.
  destruct (sync_users config s) as [r s']. cbn [fst snd] in Hw. intros ->.
  destruct Hw as [?|(answers & sh & Ha & [(e & ? & _)|(us & _ & Hf & Hs)])]; [done..|].
  exists answers, sh, us. split_and!; [done|done|]. intros Hdup p. cbv zeta.
  pose proof (synced_port config us _ s' p Hs (listener_rows_NoDup config us Hdup)) as Hport. cbv zeta in Hport.
  assert (Hext : labels_of p (drop (length (log s)) (log s')) =
      labels_of p (drop (length (log s ++ [Exchanged (users_request config) (answers (users_request config))])) (log s')) /\
    forall x, x ∈ drop (length (log s ++ [Exchanged (users_request config) (answers (users_request config))])) (log s') ->
      x ∈ drop (length (log s)) (log s')).
  { destruct Hs as (t & _ & _ & _ & _ & _ & _ & _ & _ & _ & _ & _ & _ & _ & -> & _). cbn [log asked].
    rewrite drop_app_length, <- app_assoc, drop_app_length. cbn [app]. split; [done|]. by right. }
  cbn [log local asked] in *. destruct Hext as [Hlab Hin]. rewrite Hlab.
  destruct (row_of p _) as [[v q]|] eqn:Hrow; [|by destruct Hport as [? Hst]; split; [|intros old Ho; by apply Hin, Hst]].
  apply row_of_port in Hrow. unfold row_port in Hrow. cbn [fst] in Hrow. split; [done|].
  destruct Hport as [Hact ->]. rewrite Hact. unfold kept_or_spawned, restart, row_port. cbn [fst snd].
  destruct (active_users (local s) !! p) as [old|].
  - intros u q0 ->. change (fingerprint (spawn config u q0)) with (fingerprint_of u q0).
    destruct (decide _) as [Hsame|Hdiff]; [left|right]; rewrite fingerprint_same in *; [done|].
    split; [done|]. exists (spawn config v q). rewrite Hrow. split_and!; [done|apply spawn_listens|done].
  - exists (spawn config v q). rewrite Hrow. split_and!; [done|apply spawn_listens|done].
Qed.

(** C3 Traffic conservation for the whole program.  In every environment
    where the relays only add to counters that exist, and after any number
    of turns of the loop (polls, reports that succeed or fail, events, users
    that come and go): as long as no counter has wrapped, every byte the
    relays added to the counters of a user in the ledger is, in its
    direction, in exactly one of the traffic reports that were sent for this
    user since it was created and that the panel's answer took, or is
    pending.  [acknowledged] adds up the bodies of the requests as they were
    sent, each once per sending, and these exchanges are the environment's:
    it gave the answer to the request at that point of the run. *)
Theorem supervisor_traffic_conserved `{W : Wire} `{C : Crypto} `{RE : RegexEngine} `{HO : HashOrder}
    (E : Env SupAwait SupShared sup_label) config fuel now (He : sup_env_ok) :
  let s := (start config fuel now).2 in
  exchanges_real (log s) /\
  (fits (s_relayed (shared s)) ->
   forall u loc, traffic_counters (local s) !! u = Some loc ->
     let p := pending_of u (pending_deltas (traffic_of (local s) (shared s))) in
     total true loc (s_relayed (shared s)) = ((acknowledged config (log s) u).1 + p.1)%Z /\
     total false loc (s_relayed (shared s)) = ((acknowledged config (log s) u).2 + p.2)%Z).
Proof.
  intros s. split.
  { apply (run_real config fuel {| local := new_runtime config now; shared := new_shared; log := [] |}).
    intros l1 q a l2 Hl. by apply (f_equal length) in Hl; rewrite length_app in Hl; cbn in Hl; lia. }
  intros Hf u loc Hu. destruct (start_run config fuel now He) as [es Hes]. fold s in Hes.
  apply (pending_exact (world_of config s)); [|done|done]. rewrite <- Hes. apply run_inv. by rewrite Hes.
Qed.

(** C13 The state of the supervisor, in every environment and after any
    number of turns.  Until [stop_all], the listeners of the map are exactly
    those that were spawned and not stopped, each from a row of its port;
    the local maps are within their limits; every location in the ledgers
    and in the published tables is allocated, and no two users share one.
    If no ticker's period is zero there is no panic, the only error is that
    of the first poll, and when [run] returns no listener is left running;
    if one is, [run] never returns normally. *)
Theorem supervisor_state `{W : Wire} `{C : Crypto} `{RE : RegexEngine} `{HO : HashOrder}
    (E : Env SupAwait SupShared sup_label) config fuel now (He : sup_env_ok) :
  let '(r, s) := start config fuel now in
  (exists closing, supervisor_inv config closing s) /\
  (ticking config -> r <> Panic /\ (r <> OutOfFuel -> running (log s) = ∅)) /\
  (~ ticking config -> r <> Ok ()).
Proof.
  pose proof (run_keeps_inv config fuel {| local := new_runtime config now; shared := new_shared; log := [] |}
    He (new_inv config now)) as Hw.
  pose proof (fun Ht => run_final config fuel {| local := new_runtime config now; shared := new_shared; log := [] |}
    Ht He (new_inv config now) eq_refl) as Hf.
  pose proof (run_panics config fuel {| local := new_runtime config now; shared := new_shared; log := [] |}) as Hp.
  unfold wp, start in *. by destruct (run config fuel _) as [r s].
Qed.

(** C25 Every turn of the loop completes: a turn that is left unfinished has
    an await that the environment never answers, and no turn fails or
    panics, whatever the panel answers; the loop ends at the shutdown
    signal. *)
Theorem supervisor_turns_complete `{W : Wire} `{C : Crypto} `{RE : RegexEngine} `{HO : HashOrder}
    (E : Env SupAwait SupShared sup_label) config br s :
  let '(r, s') := turn config br s in
  ((exists leave, r = Ok leave) \/ (r = OutOfFuel /\ unanswered)) /\
  (br = Shutdown <-> r = Ok true) /\
  forall sh fuel, react Select (log s) (shared s) = Some (Shutdown, sh) ->
    (run_loop config (S fuel) s).1 = Ok ().
Proof.
  pose proof (turn_returns config br s) as Hr. pose proof (turn_leaves config br s) as Hl.
  unfold wp in *. destruct (turn config br s) as [r s']. cbn [fst snd] in *. split_and!.
  - destruct r as [b|e| |]; [left; by exists b|done|done|right]. by destruct Hr.
  - done.
  - intros sh fuel Hsel. cbn [run_loop]. unfold await, mbind, ST_bind. by rewrite Hsel.
Qed.

(** Carrier rows: after the merge every port has exactly one row, the
    first of that port in the panel's list; and a row dropped because it has
    the same endpoint configuration would have given the same listener. *)
Theorem merge_carrier_spec `{HO : HashOrder} config us :
  NoDup (List.map pu_port (merge_carrier_users us)) /\
  (forall u, u ∈ merge_carrier_users us <-> first_of_port (pu_port u) us = Some u) /\
  (forall u v, carrier_config_matches u v = true ->
     Profile.from_user u (node config) = Profile.from_user v (node config) /\
     forall p, fingerprint_of u p = fingerprint_of v p).
Proof.
  split_and!; [apply merge_NoDup|apply merge_elem|]. intros u v. apply carrier_match_lossless.
Qed.

(** C40 The auxiliary reports, on every answer of the panel.  The alive IPs
    are posted exactly as the keys of the map, then the detect logs exactly
    as the values of theirs, each only if there are any; a map is emptied
    as soon as the panel takes its own report, and stays as it is, with the
    error, if it does not.  So alive IPs that were taken are gone also if
    the detect logs are refused after them, and are not reported again.
    Nothing else changes, and the task is left unfinished only at a post
    that is never answered. *)
Theorem auxiliary_reports `{W : Wire} `{RE : RegexEngine} `{HO : HashOrder}
    (E : Env SupAwait SupShared sup_label) config s :
  let '(r, s') := report_auxiliary_state config s in
  let items := List.map (fun k => {| air_user_id := ak_user_id k; air_ip := ak_ip k |})
    (BoundedTtlMap.keys (alive_ips (local s))) in
  let logs := BoundedTtlMap.values (detect_logs (local s)) in
  let node := [("node_id", u64_decimal (Config.node_id (panel config)))] in
  let alive := {| req_path := "users/aliveip"; req_query := node; req_body := Some (BodyAliveIp items) |} in
  let detect := {| req_path := "users/detectlog"; req_query := node; req_body := Some (BodyDetectLog logs) |} in
  let no_ips := set_alive_ips (BoundedTtlMap.retain (fun _ _ => false) (alive_ips (local s))) (local s) in
  let no_logs := set_detect_logs (BoundedTtlMap.retain (fun _ _ => false) (detect_logs (local s))) no_ips in
  (r = OutOfFuel /\ unanswered /\ s' = s) \/
  (exists s1, posted alive (length items =? 0) s s1 false /\ (exists e, r = Err e) /\ s' = s1) \/
  exists s1, posted alive (length items =? 0) s s1 true /\
    let s2 := with_local no_ips s1 in
    if length logs =? 0 then r = Ok () /\ s' = s2
    else (r = OutOfFuel /\ unanswered /\ s' = s2) \/
      (posted detect false s2 s' false /\ exists e, r = Err e) \/
      exists s3, posted detect false s2 s3 true /\ r = Ok () /\ s' = with_local no_logs s3.
Proof.
  pose proof (auxiliary_wp config s) as Hw. unfold wp in Hw.
  by destruct (report_auxiliary_state config s) as [r s'].
Qed.

(** ** A run *)

Import Toy.

Definition toy_config : Config :=
  {| panel := {| base_url := "https://panel.example"; key := "secret"; Config.node_id := 7;
                 request_timeout_secs := 10; poll_interval_secs := 60;
                 traffic_report_interval_secs := 60; heartbeat_interval_secs := 60; ipv4_only := false |};
     node := {| listen_host := "0.0.0.0"; nc_method := "rc4-md5"; nc_protocol := "auth_aes128_md5";
                nc_obfs := "plain"; server_port := 43003; timeout_secs := 300; workers := 1;
                tcp_enabled := true; udp_enabled := true; enforce_forbidden := true;
                enforce_conn_limit := true; nc_audit_block := true; enforce_speed := true |};
     limits := {| max_users := 8; max_sessions := 8; session_ttl_secs := 600; max_udp_associations := 8;
                  udp_association_ttl_secs := 180; max_alive_ips := 8; alive_ip_ttl_secs := 600;
                  max_detect_logs := 8; detect_log_ttl_secs := 3600; max_accepts_per_port := 8 |} |}.

(** The carrier's row, and the row of user 42 with a device limit. *)
Definition toy_row (id port multi : Z) (password : string) (limit : option Z) : PanelUser :=
  {| pu_id := id; pu_user_id := None; pu_port := port; pu_password := password; pu_method := None;
     pu_protocol := None; pu_protocol_param := None; pu_obfs := None; pu_obfs_param := None;
     pu_enable := Some 1%Z; pu_is_multi_user := multi; pu_node_speedlimit := None;
     pu_node_connector := limit; pu_forbidden_ip := None; pu_forbidden_port := None |}.

Definition toy_rows (limit : option Z) : list PanelUser :=
  [toy_row 1 558 2 "carrier" None; toy_row 42 600 0 "p" limit].

(** The panel: the rows with the limit [limit], and every report is taken. *)
Definition toy_panel (limit : option Z) (r : request) : option ToyWire.value :=
  match req_body r with
  | Some _ => Some (ToyWire.VEnvelope 1 None)
  | None =>
      if String.eqb (req_path r) "users"
      then Some (ToyWire.VEnvelope 1 (Some (ToyWire.VUsers (toy_rows limit))))
      else None
  end.

#[local] Instance toy_wire : Wire := ToyWire.wire None.

(** The relays of user 42 count ten bytes before the second turn. *)
Definition toy_relay (sh : @SupShared ToyRegex.engine) : @SupShared ToyRegex.engine :=
  let a := [{| add_loc := 1; add_up := true; add_bytes := 10 |}] in
  set_cells (add_all a (s_cells sh)) (s_relayed sh ++ live_adds (s_cells sh) a) sh.

(** The turns, by the length of the log: a poll that changes the limit, a
    report, the end. *)
#[local] Instance toy_sup_env : Env (@SupAwait toy_wire) (@SupShared ToyRegex.engine) (@sup_label toy_wire) :=
  fun X c l sh =>
    match c in SupAwait X return option (X * @SupShared ToyRegex.engine) with
    | PanelAnswers => Some (toy_panel (if length l =? 9 then Some 4%Z else None), sh)
    | Now => Some (0%Z, sh)
    | AwaitStop _ => Some ((), sh)
    | Meanwhile => Some (fun _ => [], sh)
    | Select => match length l with
        | 9 => Some (PollTick, toy_relay sh)
        | 13 => Some (TrafficTick, sh)
        | _ => Some (Shutdown, sh)
        end
    end.

Lemma toy_sup_env_ok : @sup_env_ok toy_wire ToyRegex.engine toy_sup_env.
Proof.
  assert (Hsame : forall sh : @SupShared ToyRegex.engine, relays_only_did sh sh).
  { intros sh. apply relays_only_did_refl. }
  intros X c l sh x sh'. destruct c; cbn; try (intros [= <- <-]; apply Hsame).
  generalize (length l). intros n.
  do 14 (destruct n as [|n]; [intros [= <- <-]; first [by apply Hsame|split_and!; try done; by eexists]|]).
  intros [= <- <-]. apply Hsame.
Qed.

#[local] Existing Instance key_order.

Definition toy_start : res error () * task BackendRuntime (@SupShared ToyRegex.engine) (@sup_label toy_wire) :=
  start (C:=crypto) toy_config 4 0.

(** The kinds of the labels of the run, by name. *)
Definition label_name (x : @sup_label toy_wire) : string :=
  match x with
  | Exchanged r _ => req_path r
  | TablesPublished _ => "tables" | RulesPublished _ => "rules" | Spawned _ _ => "spawned"
  | Stopping _ _ => "stopping" | Forgotten _ => "forgotten"
  end.

Example toy_run :
  toy_start.1 = Ok () /\
  List.map label_name (log toy_start.2) =
    ["func/ping"; "nodes/7/info"; "func/detect_rules"; "func/relay_rules"; "func/detect_rules";
     "users"; "tables"; "spawned"; "forgotten";
     "users"; "tables"; "forgotten"; "func/detect_rules";
     "users/traffic"; "stopping"].
Proof. split; by vm_compute. Qed.

(** Turns by the moment of the environment: the probe and the first poll,
    heartbeats up to the ninth await, and the shutdown. *)
#[local] Instance sup_clock : Clock (@SupShared ToyRegex.engine) :=
  {| moment_of := s_moment; move_to := set_moment |}.

Definition heartbeats_env : Env (@SupAwait toy_wire) (@SupShared ToyRegex.engine) (@sup_label toy_wire) :=
  scripted (fun n X c sh =>
    match c in SupAwait X return option (X * @SupShared ToyRegex.engine) with
    | PanelAnswers => Some (toy_panel None, sh)
    | Now => Some (0%Z, sh)
    | AwaitStop _ => Some ((), sh)
    | Meanwhile => Some (fun _ => [], sh)
    | Select => Some (if n <? 9 then HeartbeatTick else Shutdown, sh)
    end).

Example heartbeats_run :
  let s := start (C:=crypto) (Env0:=heartbeats_env) toy_config 6 0 in
  s.1 = Ok () /\
  List.map label_name (log s.2) =
    ["func/ping"; "nodes/7/info"; "func/detect_rules"; "func/relay_rules"; "func/detect_rules";
     "users"; "tables"; "spawned"; "forgotten"; "nodes/7/info"; "stopping"] /\
  s_moment (shared s.2) = 14.
Proof. split_and!; by vm_compute. Qed.

(** ** Witnesses *)

Definition toy_first : task BackendRuntime (@SupShared ToyRegex.engine) (@sup_label toy_wire) :=
  {| local := new_runtime toy_config 0; shared := new_shared; log := [] |}.

Lemma sync_users_spec_witness :
  exists us, synced (C:=crypto) toy_config us
    (asked (users_request toy_config) (toy_panel None (users_request toy_config)) (shared toy_first) toy_first)
    (sync_users (C:=crypto) toy_config toy_first).2.
Proof.
  pose proof (sync_users_spec (C:=crypto) toy_sup_env toy_config toy_first toy_sup_env_ok) as Hw.
  assert (Hok : (sync_users (C:=crypto) toy_config toy_first).1 = Ok ()) by by vm_compute.
  destruct (sync_users toy_config toy_first) as [r s']. cbn in Hok. subst r.
  destruct Hw as [[? _]|(answers & sh & Ha & Hw)]; [done|]. cbv zeta in Hw.
  injection Ha as Ha Hsh. subst answers sh.
  destruct (fetched toy_config _) as [us|e| |]; [|by destruct Hw|done..].
  exists us. exact (proj2 Hw).
Defined.

(** The carrier's port is new. *)
Lemma poll_restarts_only_changed_witness :
  let s' := (sync_users (C:=crypto) toy_config toy_first).2 in
  exists a q, active_users (local s') !! 558%Z = Some a /\
    listens_for toy_config (toy_row 1 558 2 "carrier" None) q a /\ labels_of 558 (log s') = [Spawned 558 a].
Proof.
  pose proof (poll_restarts_only_changed (C:=crypto) toy_sup_env toy_config toy_first toy_sup_env_ok) as Hw.
  assert (Hok : (sync_users (C:=crypto) toy_config toy_first).1 = Ok ()) by by vm_compute.
  destruct (sync_users toy_config toy_first) as [r s']. cbn [fst snd] in *. subst r.
  destruct (Hw eq_refl) as (answers & sh & us & Ha & Hf & Hp). injection Ha as Ha Hsh. subst answers sh.
  assert (Hus : fetched toy_config (toy_panel None) = Ok (toy_rows None)) by by vm_compute.
  rewrite Hus in Hf. injection Hf as <-. specialize (Hp (or_introl eq_refl) 558%Z). cbv zeta in Hp.
  destruct (row_of 558 _) as [[v q]|] eqn:Hrow.
  - assert (Hv : fst <$> row_of 558 (served_rows toy_config (listener_users (toy_rows None))) =
      Some (toy_row 1 558 2 "carrier" None)) by by vm_compute.
    rewrite Hrow in Hv. injection Hv as ->. destruct Hp as [_ (a & Hact & Hl & Hlab)].
    exists a, q. split; [exact Hact|]. split; [exact Hl|exact Hlab].
  - assert (Hv : is_Some (row_of 558 (served_rows toy_config (listener_users (toy_rows None)))))
      by (vm_compute; by eexists).
    rewrite Hrow in Hv. by destruct Hv.
Defined.

Lemma supervisor_traffic_conserved_witness :
  traffic_counters (local toy_start.2) !! 42%Z = Some 1 /\
  total true 1 (s_relayed (shared toy_start.2)) =
    ((acknowledged toy_config (log toy_start.2) 42).1 +
     (pending_of 42 (pending_deltas (traffic_of (local toy_start.2) (shared toy_start.2)))).1)%Z.
Proof.
  assert (Hu : traffic_counters (local toy_start.2) !! 42%Z = Some 1) by by vm_compute.
  assert (Hr : s_relayed (shared toy_start.2) = [{| add_loc := 1; add_up := true; add_bytes := 10 |}])
    by by vm_compute.
  pose proof (supervisor_traffic_conserved (C:=crypto) toy_sup_env toy_config 4 0 toy_sup_env_ok) as [_ Hw].
  unfold toy_start in *. destruct (start toy_config 4 0) as [r s]. cbn [snd] in *.
  split; [exact Hu|]. refine (proj1 (Hw _ 42%Z 1 Hu)). rewrite Hr. intros up loc. cbn [total].
  unfold counts, u64_modulus. cbn [add_loc add_up add_bytes]. destruct (1 =? loc), up; cbn; lia.
Defined.

(** The ten bytes are in the report that the panel took. *)
Example toy_reported : acknowledged toy_config (log toy_start.2) 42 = (10, 0)%Z.
Proof. by vm_compute. Qed.

Lemma supervisor_state_witness :
  running (log toy_start.2) = ∅ /\ exists closing, supervisor_inv toy_config closing toy_start.2.
Proof.
  pose proof (supervisor_state (C:=crypto) toy_sup_env toy_config 4 0 toy_sup_env_ok) as Hw.
  assert (Hok : toy_start.1 = Ok ()) by by vm_compute.
  unfold toy_start in *. destruct (start toy_config 4 0) as [r s]. cbn [fst snd] in *. subst r.
  destruct Hw as (Hi & Ht & _). split; [|exact Hi].
  apply Ht; [split; [discriminate|split; discriminate]|discriminate].
Defined.

(** A configuration that passes [validate] with a poll interval of zero: the
    listeners start, and the task panics. *)
Definition zero_poll_config : Config :=
  {| panel := {| base_url := "https://panel.example"; key := "secret"; Config.node_id := 7;
                 request_timeout_secs := 10; poll_interval_secs := 0;
                 traffic_report_interval_secs := 60; heartbeat_interval_secs := 60; ipv4_only := false |};
     node := node toy_config; limits := limits toy_config |}.

Example zero_interval_panics :
  let s := start (C:=crypto) (Env0:=toy_sup_env) zero_poll_config 4 0 in
  Config.validate zero_poll_config = Ok () /\ s.1 = Panic /\ running (log s.2) !! 558%Z <> None.
Proof. split_and!; by vm_compute. Qed.

Lemma supervisor_turns_complete_witness :
  (run_loop (C:=crypto) toy_config 1 toy_first).1 = Ok ().
Proof.
  pose proof (supervisor_turns_complete (C:=crypto) toy_sup_env toy_config HeartbeatTick toy_first) as Hw.
  destruct (turn toy_config HeartbeatTick toy_first) as [r s']. destruct Hw as (_ & _ & Hw).
  exact (Hw (shared toy_first) 0 eq_refl).
Defined.

Lemma merge_carrier_spec_witness :
  merge_carrier_users [toy_row 1 558 2 "a" None; toy_row 2 558 2 "b" None] = [toy_row 1 558 2 "a" None] /\
  first_of_port 558 [toy_row 1 558 2 "a" None; toy_row 2 558 2 "b" None] = Some (toy_row 1 558 2 "a" None).
Proof.
  split; [by vm_compute|].
  apply (proj1 (proj1 (proj2 (merge_carrier_spec toy_config
    [toy_row 1 558 2 "a" None; toy_row 2 558 2 "b" None])) (toy_row 1 558 2 "a" None))).
  apply list_elem_of_In. vm_compute. by left.
Defined.
