(* ===== verification/TcpListener.v ===== *)
(** * The accept loop of a port ([run_listener] in [src/src/tcp.rs])

    A listener has [max_accepts] permits; a connection that gets one runs
    as a session with the tables that are published when it is accepted, and
    returns the permit when it ends; without a permit the connection is
    closed.  The environment connects, ends sessions, publishes tables, and
    stops the listener; the sessions go on after that.  [answered] ties every
    entry of the log to the event that the environment gave.  Every event of the
    loop ends it or is in its log (but for the end of a session that is not
    open, which no execution has), so the environment can tell any two
    apart. *)

From S2P Require Import Prelude Errors Str Cipher Float Net Panel Profile Policy.
From S2P Require Import RelayAudit Task Listeners TcpRelay.

(** What the loop waits for; [SessionEnded]: a spawned session returns. *)
Inductive accept_event : Set :=
  | StopRequested
  | Connection (peer : SocketAddr)
  | AcceptError
  | SessionEnded (id : nat).

Inductive AcceptAwait : Set -> Type :=
  | BindListener (host : string) (port : Z) : AcceptAwait bool
  | NextEvent : AcceptAwait accept_event.

(** The semaphore, and the sessions that hold a permit. *)
Record Accepting : Type := { permits : nat; open_sessions : gset nat; next_session : nat }.

Inductive accept_label : Type :=
  | Started (id : nat) (c : StreamContext)
  | Closed_at_capacity (peer : SocketAddr)
  | Ended (id : nat).

Section TcpListener.
(** The shared state is the published tables. *)
Context `{!Env AcceptAwait UserTables accept_label}.

Abbreviation IO := (ST (task Accepting UserTables accept_label) error).

(** [StreamContext] of a connection. *)
Definition context_of (args : ListenerArgs) (k : CipherKind) (t : UserTables) (from : SocketAddr)
    : StreamContext :=
  {| password := la_password args; fallback_user_id := la_user_id args; tables := t;
     enforcement := la_enforcement args; sc_is_multi_user := la_is_multi_user args; cipher_kind := k;
     peer_ip := ip_to_string (sa_ip from); peer := socket_to_string from |}.

(** [try_acquire_owned], and the task that is spawned with the permit. *)
Definition accept (args : ListenerArgs) (k : CipherKind) (from : SocketAddr) : IO () :=
  s ← get;
  match permits (local s) with
  | 0 => emit (Closed_at_capacity from)
  | S n =>
      let id := next_session (local s) in
      t ← on_shared (fun sh => (sh, sh));
      on_local (put {| permits := n; open_sessions := {[id]} ∪ open_sessions (local s);
                       next_session := S id |});;
      emit (Started id (context_of args k t from))
  end.

(** A session ends: its permit is dropped. *)
Definition session_ended (id : nat) : IO () :=
  s ← get;
  if decide (id ∈ open_sessions (local s)) then
    on_local (put {| permits := S (permits (local s));
                     open_sessions := open_sessions (local s) ∖ {[id]};
                     next_session := next_session (local s) |});;
    emit (Ended id)
  else mret ().

Fixpoint accept_loop (fuel : nat) (args : ListenerArgs) (k : CipherKind) : IO () :=
  match fuel with
  | 0 => lift OutOfFuel
  | S fuel =>
      ev ← await NextEvent;
      match ev with
      | StopRequested => mret ()
      | Connection from => accept args k from;; accept_loop fuel args k
      | AcceptError => lift (Err AcceptFailed)
      | SessionEnded id => session_ended id;; accept_loop fuel args k
      end
  end.

(** [Semaphore::new] panics above [usize::MAX >> 3]. *)
Definition MAX_PERMITS : Z := 2305843009213693951.

Definition semaphore_new (n : nat) : res error () :=
  if (MAX_PERMITS <? Z.of_nat n)%Z then Panic else Ok ().

(** [run_listener]. *)
Definition run_listener (fuel : nat) (args : ListenerArgs) : IO () :=
  bound ← await (BindListener (la_listen_host args) (la_port args));
  if negb bound then lift (Err ListenFailed)
  else
    s ← get;
    lift (semaphore_new (permits (local s)));;
    k ← lift (Profile.cipher_kind (la_profile args));
    accept_loop fuel args k.

(** [spawn_user_listener]: the task's state at the start. *)
Definition start_listener (fuel : nat) (t : TcpListenerTask) (published : UserTables)
    : res error () * task Accepting UserTables accept_label :=
  run_listener fuel (tcp_args t)
    {| local := {| permits := Nat.max (tcp_max_accepts t) 1; open_sessions := ∅; next_session := 0 |};
       shared := published; log := [] |}.

(** ** Specification *)

(** The sessions a log leaves open. *)
Definition session_step (x : gset nat) (l : accept_label) : gset nat :=
  match l with
  | Started id _ => {[id]} ∪ x
  | Ended id => x ∖ {[id]}
  | Closed_at_capacity _ => x
  end.

Definition sessions_open (l : list accept_label) : gset nat := fold_left session_step l ∅.

(** The context of a connection from [from] while [t] is published. *)
Definition serves (args : ListenerArgs) (from : SocketAddr) (t : UserTables) (c : StreamContext) : Prop :=
  tables c = t /\ password c = la_password args /\ fallback_user_id c = la_user_id args /\
  enforcement c = la_enforcement args /\ sc_is_multi_user c = la_is_multi_user args /\
  Profile.cipher_kind (la_profile args) = Ok (cipher_kind c) /\
  peer_ip c = ip_to_string (sa_ip from) /\ peer c = socket_to_string from.

(** What an entry of the log that comes after [l] says about the event that
    the environment gave there; [t] is what was published then. *)
Definition answered (max : nat) (args : ListenerArgs) (l : list accept_label) (x : accept_label) : Prop :=
  match x with
  | Started id c =>
      size (sessions_open l) < max /\ id ∉ sessions_open l /\
      exists sh from t, react NextEvent l sh = Some (Connection from, t) /\ serves args from t c
  | Closed_at_capacity from =>
      size (sessions_open l) = max /\ exists sh t, react NextEvent l sh = Some (Connection from, t)
  | Ended id =>
      id ∈ sessions_open l /\ exists sh t, react NextEvent l sh = Some (SessionEnded id, t)
  end.

Definition accept_inv (max : nat) (args : ListenerArgs) (s : task Accepting UserTables accept_label) : Prop :=
  open_sessions (local s) = sessions_open (log s) /\
  permits (local s) + size (open_sessions (local s)) = max /\
  (forall id, id ∈ open_sessions (local s) -> id < next_session (local s)) /\
  each_at (answered max args) (log s).

Lemma sessions_open_snoc l x : sessions_open (l ++ [x]) = session_step (sessions_open l) x.
Proof. unfold sessions_open. by rewrite fold_left_app. Qed.

(** A connection is served or, without a permit, closed: one entry of the
    log either way. *)
Lemma accept_wp max args k from sh s :
  Profile.cipher_kind (la_profile args) = Ok k -> accept_inv max args s ->
  react NextEvent (log s) sh = Some (Connection from, shared s) ->
  wp (accept args k from) (fun r s' => r = Ok () /\ accept_inv max args s' /\ shared s' = shared s /\
    exists x, log s' = log s ++ [x] /\
      if decide (size (sessions_open (log s)) = max) then x = Closed_at_capacity from
      else exists id c, x = Started id c /\ serves args from (shared s) c) s.
Proof.
  intros Hk (Ho & Hp & Hid & Hx) Hev. unfold accept. apply wp_bind, wp_get. cbn [then_].
  destruct (permits (local s)) as [|n] eqn:Hn.
  - apply wp_emit. split; [done|].
    split; [|split; [done|eexists; split; [done|]; by rewrite decide_True by (rewrite <- Ho; lia)]]. split_and!; cbn [local shared log]; try done.
    + by rewrite sessions_open_snoc.
    + by rewrite Hn.
    + apply each_at_snoc; [done|]. split; [rewrite <- Ho; lia|by exists sh, (shared s)].
  - apply wp_bind, wp_on_shared. cbn [then_]. apply wp_bind, wp_on_local. cbn [then_ local shared log fst snd].
    unfold wp, put. cbn [fst snd then_]. apply wp_emit. split; [done|].
    assert (Hs : serves args from (shared s) (context_of args k (shared s) from)) by done.
    split; [|split; [done|eexists; split; [done|]; rewrite decide_False by (rewrite <- Ho; lia);
      by eexists _, _]].
    split_and!; cbn [local shared log permits open_sessions next_session].
    + by rewrite sessions_open_snoc, Ho.
    + rewrite size_union by (intros id ->%elem_of_singleton Hin; apply Hid in Hin; lia).
      rewrite size_singleton. lia.
    + intros id [->%elem_of_singleton|Hin]%elem_of_union; [lia|]. apply Hid in Hin. lia.
    + apply each_at_snoc; [done|]. split; [rewrite <- Ho; lia|]. split.
      { rewrite <- Ho. intros Hin%Hid. lia. }
      by exists sh, from, (shared s).
Qed.

Lemma session_ended_wp max args id sh s :
  accept_inv max args s -> react NextEvent (log s) sh = Some (SessionEnded id, shared s) ->
  wp (session_ended id) (fun r s' => r = Ok () /\ accept_inv max args s') s.
Proof.
  intros (Ho & Hp & Hid & Hx) Hev. unfold session_ended. apply wp_bind, wp_get. cbn [then_].
  destruct (decide _) as [Hin|]; [|by apply wp_ret].
  apply wp_bind, wp_on_local. unfold wp, put. cbn [fst snd then_ local shared log]. apply wp_emit.
  split; [done|]. split_and!; cbn [local shared log permits open_sessions next_session].
  - by rewrite sessions_open_snoc, Ho.
  - rewrite size_difference by set_solver. rewrite size_singleton.
    assert (size ({[id]} : gset nat) <= size (open_sessions (local s))) by (apply subseteq_size; set_solver).
    rewrite size_singleton in *. lia.
  - intros i Hi. apply Hid. set_solver.
  - apply each_at_snoc; [done|]. split; [by rewrite <- Ho|by exists sh, (shared s)].
Qed.

(** The loop: the invariant, and how it ends. *)
Lemma accept_loop_wp max fuel args k s :
  Profile.cipher_kind (la_profile args) = Ok k -> accept_inv max args s ->
  wp (accept_loop fuel args k) (fun r s' => accept_inv max args s' /\ r <> Panic /\
    (forall e, r = Err e -> e = AcceptFailed)) s.
Proof.
  intros Hk. revert s. induction fuel as [|fuel IH]; intros s Hs; cbn [accept_loop]; [by apply wp_lift|].
  apply wp_bind, wp_await_eq; [|by cbn [then_]]. intros ev sh Hev. cbn [then_].
  destruct ev as [|from| |id].
  - by apply wp_ret.
  - apply wp_bind. eapply wp_mono; [by eapply accept_wp|]. intros r s' (-> & Hs' & _). cbn [then_]. by apply IH.
  - apply wp_lift. split_and!; [done|done|]. by intros e [= <-].
  - apply wp_bind. eapply wp_mono; [by eapply session_ended_wp|]. intros r s' [-> Hs']. cbn [then_]. by apply IH.
Qed.

Lemma start_listener_wp fuel t published k :
  Profile.cipher_kind (la_profile (tcp_args t)) = Ok k -> (Z.of_nat (tcp_max_accepts t) <= MAX_PERMITS)%Z ->
  let '(r, s) := start_listener fuel t published in
  accept_inv (Nat.max (tcp_max_accepts t) 1) (tcp_args t) s /\ r <> Panic /\
  (forall e, r = Err e -> e = ListenFailed \/ e = AcceptFailed).
Proof.
  intros Hk Hm. unfold start_listener, run_listener.
  match goal with |- let '(r, s) := ?m ?s0 in _ =>
    assert (Hw : wp m (fun r s => accept_inv (Nat.max (tcp_max_accepts t) 1) (tcp_args t) s /\
      r <> Panic /\ (forall e, r = Err e -> e = ListenFailed \/ e = AcceptFailed)) s0);
      [|unfold wp in Hw; by destruct (m s0) as [r s]]
  end.
  assert (H0 : forall sh, accept_inv (Nat.max (tcp_max_accepts t) 1) (tcp_args t)
    {| local := {| permits := Nat.max (tcp_max_accepts t) 1; open_sessions := ∅; next_session := 0 |};
       shared := sh; log := [] |}).
  { intros sh. split_and!; cbn -[Nat.max]; [done|rewrite size_empty; lia| |apply each_at_nil].
    by intros id ?%not_elem_of_empty. }
  apply wp_bind, wp_await; [|by cbn [then_]]. intros [] sh; cbn [then_ negb].
  - apply wp_bind, wp_get. cbn [then_ local permits].
    assert (Hs : semaphore_new (Nat.max (tcp_max_accepts t) 1) = Ok ()).
    { unfold semaphore_new. rewrite (proj2 (Z.ltb_ge _ _)); [done|]. unfold MAX_PERMITS in *. lia. }
    apply wp_bind, wp_lift. rewrite Hs. cbn [then_]. apply wp_bind, wp_lift. rewrite Hk. cbn [then_]. eapply wp_mono; [by apply accept_loop_wp|].
    intros r s' (H1 & H2 & H3). split_and!; [done|done|]. intros e He. right. by apply H3.
  - apply wp_lift. split_and!; [done|done|]. intros e [= <-]. by left.
Qed.

End TcpListener.

(** ** Properties *)

(** C19 The accept loop, in every environment and after any number of
    events, for a supported profile and a limit a semaphore can hold: at
    most [max_accepts] (one, if it is zero) sessions are open.  Each entry
    of the log answers the event that the environment gave at that point: a
    session was started for a connection that came while fewer were open,
    with the tables that the environment had published then, the address
    of that peer and the listener's own password, user, mode, cipher and
    enforcement; a connection was closed at once exactly because that many
    were open; and a permit came back for a session that was open and
    ended.  No connection is passed over, there is no panic, and the loop
    fails only if the bind or an accept fails.  One failed accept does end
    it, whatever sessions are open. *)
Theorem accept_loop_capacity (E : Env AcceptAwait UserTables accept_label) fuel t published k
    (Hk : Profile.cipher_kind (la_profile (tcp_args t)) = Ok k)
    (Hm : (Z.of_nat (tcp_max_accepts t) <= MAX_PERMITS)%Z) :
  let args := tcp_args t in
  let max := Nat.max (tcp_max_accepts t) 1 in
  let '(r, s) := start_listener fuel t published in
  accept_inv max args s /\ size (sessions_open (log s)) <= max /\
  each_at (answered max args) (log s) /\
  r <> Panic /\ (forall e, r = Err e -> e = ListenFailed \/ e = AcceptFailed) /\
  (forall s0 from sh n, accept_inv max args s0 ->
     react NextEvent (log s0) (shared s0) = Some (Connection from, sh) ->
     exists s1 x, accept_loop (S n) args k s0 = accept_loop n args k s1 /\ accept_inv max args s1 /\
       shared s1 = sh /\ log s1 = log s0 ++ [x] /\
       if decide (size (sessions_open (log s0)) = max) then x = Closed_at_capacity from
       else exists id c, x = Started id c /\ serves args from sh c) /\
  (forall s0 sh n, react NextEvent (log s0) (shared s0) = Some (AcceptError, sh) ->
     (accept_loop (S n) args k s0).1 = Err AcceptFailed).
Proof.
  intros args max. pose proof (start_listener_wp fuel t published k Hk Hm) as Hw.
  destruct (start_listener fuel t published) as [r s]. destruct Hw as (Hi & Hr & He).
  pose proof Hi as (Ho & Hp & _ & Hx). split_and!; try done; [rewrite <- Ho; lia|..].
  - intros s0 from sh n H0 Hev. cbn [accept_loop]. unfold await, mbind at 1, ST_bind at 1. rewrite Hev.
    set (s' := {| local := local s0; shared := sh; log := log s0 |}).
    pose proof (accept_wp max args k from (shared s0) s' Hk H0 Hev) as Ha. unfold wp in Ha.
    unfold mbind, ST_bind. destruct (accept args k from s') as [r1 s1].
    cbn [fst snd] in Ha. destruct Ha as (-> & H1 & Hsh & x & Hl & Hcase). by exists s1, x.
  - intros s0 sh n Hev. cbn [accept_loop]. unfold await, mbind, ST_bind. by rewrite Hev.
Qed.

(** Three connections with two permits, then one ends and another comes;
    tables are published behind the first. *)
Definition toy_tables : UserTables :=
  {| counters_by_user := {[42%Z := 0]}; conns_by_user := ∅; speeds_by_user := ∅; policies := ∅;
     auth_users := ∅ |}.

Definition toy_listener : TcpListenerTask :=
  {| tcp_args := {| la_listen_host := "0.0.0.0"; la_user_id := 1; la_port := 558; la_password := "carrier";
       la_profile := {| Profile.method := "rc4-md5"; Profile.protocol := "auth_aes128_md5";
                        Profile.obfs := "plain"; Profile.timeout := from_secs 300 |};
       la_enforcement := {| ec_forbidden := true; ec_conn_limit := true; ec_audit_block := true;
                            ec_speed := true |};
       la_is_multi_user := 2 |};
     tcp_max_accepts := 2 |}.

#[local] Instance toy_accept_env : Env AcceptAwait UserTables accept_label :=
  fun X c l sh =>
    match c with
    | BindListener _ _ => Some (true, sh)
    | NextEvent => Some (match length l with
        | 3 => SessionEnded 0
        | 5 => StopRequested
        | n => Connection {| sa_ip := V4 167772161; sa_port := Z.of_nat n |}
        end, if length l =? 0 then sh else toy_tables)
    end.

Lemma accept_loop_capacity_witness :
  let '(r, s) := start_listener 6 toy_listener default_tables in
  r = Ok () /\ length (log s) = 5 /\ size (sessions_open (log s)) <= 2 /\
  exists c, log s !! 1 = Some (Started 1 c) /\ tables c = toy_tables.
Proof.
  pose proof (accept_loop_capacity toy_accept_env 6 toy_listener default_tables CipherKind.Rc4Md5 eq_refl
    ltac:(cbv; discriminate)) as Hw.
  assert (Hr : (start_listener 6 toy_listener default_tables).1 = Ok ()) by by vm_compute.
  assert (Hl : match log (start_listener 6 toy_listener default_tables).2 with
    | _ :: Started 1 _ :: l => length l = 3 | _ => False end) by by vm_compute.
  destruct (start_listener _ _ _) as [r s]. cbn [fst snd] in Hr, Hl.
  assert (Hlog : exists x c l, log s = x :: Started 1 c :: l /\ length l = 3).
  { destruct (log s) as [|x [|[[|[|id]] c| |] l]]; try done. by exists x, c, l. }
  clear Hl. destruct Hlog as (x & c & l & Hl & Hn).
  destruct Hw as (_ & Hsize & Hx & _). specialize (Hx [x] (Started 1 c) l Hl).
  destruct Hx as (_ & _ & sh & from & t & Hev & Ht & _). injection Hev as _ <-.
  split; [exact Hr|]. split; [by rewrite Hl; cbn; rewrite Hn|]. split; [exact Hsize|].
  exists c. by rewrite Hl.
Defined.
