(* ===== verification/Composition.v ===== *)
(** * What the tasks promise each other

    The sessions, the UDP listeners and the supervisor are verified apart,
    each in an environment that stands for the others.  This file closes the
    circle: [relay_step] and [sup_step] are the changes of the shared
    objects that a relay and the supervisor make at all
    ([session_guarantee], [listener_guarantee], [supervisor_guarantee]), and
    these changes are within what the theorems about the others assume of
    their environment ([tasks_compose]). *)

From S2P Require Import Prelude Errors Kdf Str Cipher Protocol ProtocolSpec ProtocolPackets Session SessionSpec.
From S2P Require Import Client EndToEnd Net Address Float Panel Profile Config Policy Traffic Conn RateLimit TtlMap.
From S2P Require Import RelayAudit Task Listeners Supervisor SupervisorSpec SupervisorInv SupervisorTheorems.
From S2P Require Import UdpRelay UdpSpec TcpRelay TcpSpec TcpTheorems.

(** ** The steps of a relay *)

Section Steps.
Context `{RE : RegexEngine}.

(** One change of the shared objects by a relay: an addition to a counter,
    an event that is sent, a slot that is taken or given back in a set that
    exists, a round of a limiter.  The label is the additions of the step. *)
Inductive relay_step : list addition -> Shared -> Shared -> Prop :=
  | StepCount a sh : relay_step [a] sh (set_counter_cells (add a (counter_cells sh)) sh)
  | StepSend ev sh : relay_step [] sh (set_events (try_send ev (events sh)) sh)
  | StepAcquire loc ip limit sh :
      loc ∈ dom (ip_sets sh) -> relay_step [] sh (try_acquire loc ip limit sh).2
  | StepRelease loc ip ips sh :
      loc ∈ dom (ip_sets sh) -> drop_guard (default ∅ (ip_sets sh !! loc)) ip = Ok ips ->
      relay_step [] sh (set_ip_sets (<[loc := ips]> (ip_sets sh)) sh)
  | StepLimit loc now n sh : relay_step [] sh (limiter_round loc now n sh).2.

(** The step of a limiter changes its bucket only. *)
Lemma limiter_round_same loc now n sh :
  let sh' := (limiter_round loc now n sh).2 in
  counter_cells sh' = counter_cells sh /\ ip_sets sh' = ip_sets sh /\ rules sh' = rules sh /\
  dom (limit_buckets sh') = dom (limit_buckets sh).
Proof.
  unfold limiter_round. destruct (limit_buckets sh !! loc) as [b|] eqn:Hl; [|done].
  destruct (acquire_step _ _ _) as [[v b']| | |]; [|done..]. split_and!; [done..|]. cbn.
  apply elem_of_dom_2 in Hl. set_solver.
Qed.

Lemma try_acquire_same loc ip limit sh :
  let sh' := (try_acquire loc ip limit sh).2 in
  counter_cells sh' = counter_cells sh /\ rules sh' = rules sh /\ limit_buckets sh' = limit_buckets sh.
Proof. unfold try_acquire. by destruct (Conn.acquire _ _ _). Qed.

Lemma relay_step_cells adds sh sh' :
  relay_step adds sh sh' -> counter_cells sh' = add_all adds (counter_cells sh).
Proof. intros []; try done; [apply try_acquire_same|apply limiter_round_same]. Qed.

Lemma relay_step_rules adds sh sh' : relay_step adds sh sh' -> rules sh' = rules sh.
Proof. intros []; try done; [apply try_acquire_same|apply limiter_round_same]. Qed.

Lemma relay_step_dom adds sh sh' : relay_step adds sh sh' -> dom (ip_sets sh') = dom (ip_sets sh).
Proof.
  intros [| |loc ip limit sh1 Hl|loc ip ips sh1 Hl _|loc now n sh1]; try done; [|cbn; set_solver|].
  - unfold try_acquire. destruct (Conn.acquire _ _ _); cbn; set_solver.
  - by destruct (limiter_round_same loc now n sh1) as (_ & -> & _).
Qed.

Lemma relay_step_buckets adds sh sh' :
  relay_step adds sh sh' -> dom (limit_buckets sh') = dom (limit_buckets sh).
Proof.
  intros []; try done; [|apply limiter_round_same].
  f_equal. apply try_acquire_same.
Qed.

Lemma relay_step_sound adds sh sh' : relay_step adds sh sh' -> sound sh -> sound sh'.
Proof.
  intros [| |loc ip limit sh1 Hl|loc ip ips sh1 Hl Hd|loc now n sh1] Hp; try done;
    [by apply try_acquire_sound| |by apply limiter_round_sound].
  destruct Hp as [Hp Hb]. split; [|exact Hb]. apply set_positive; [done|].
  destruct (drop_guard_positive _ ip (default_positive sh1 loc Hp)) as (ips' & Hd' & Hpos).
  rewrite Hd in Hd'. by injection Hd' as <-.
Qed.

End Steps.

(** ** What a session does *)

Section Session.
Context `{C : Crypto} `{RE : RegexEngine} `{!Env Await Shared label}.
Context (R : Shared -> Shared -> Prop) `{!PreOrder R}.

(** [R] covers the relays' steps and the environment's, and sets are never
    taken away. *)
Record session_rely : Prop := {
  rely_step adds a b : relay_step adds a b -> R a b;
  rely_env (X : Set) (a : Await X) l sh x sh' : react a l sh = Some (x, sh') -> R sh sh';
  rely_sets a b : R a b -> dom (ip_sets a) ⊆ dom (ip_sets b)
}.

Lemma session_stable sh0 : session_rely -> stable (R sh0).
Proof.
  intros HR. split.
  - intros a sh H. etrans; [exact H|]. eapply (rely_step HR), StepCount.
  - intros ev sh H. etrans; [exact H|]. eapply (rely_step HR), StepSend.
  - intros loc now n sh H. etrans; [exact H|]. eapply (rely_step HR), StepLimit.
  - intros X a l sh x sh' Hr H. etrans; [exact H|]. by eapply (rely_env HR).
Qed.

Lemma session_stable_slots sh0 loc :
  session_rely -> loc ∈ dom (ip_sets sh0) -> stable_slots (R sh0) loc.
Proof.
  intros HR Hl. split.
  - intros ip limit sh H. etrans; [exact H|]. eapply (rely_step HR), StepAcquire.
    by apply (rely_sets HR _ _ H).
  - intros ip ips sh H Hd. etrans; [exact H|]. eapply (rely_step HR), StepRelease; [|exact Hd].
    by apply (rely_sets HR _ _ H).
Qed.

Lemma handle_stream_within rnd fuel c sh :
  session_rely -> (forall uid loc, conns_by_user (tables c) !! uid = Some loc -> loc ∈ dom (ip_sets sh)) ->
  R sh (handle_stream rnd fuel c sh).2.
Proof.
  intros HR Ha. unfold handle_stream. destruct (ServerSession.new _ _ _ _ _) as [s| | |]; [|done..].
  pose proof (handle_session_keeps (R sh) fuel c (session_stable sh HR)
    (fun uid loc Hl => session_stable_slots sh loc HR (Ha uid loc Hl))
    {| local := s; shared := sh; log := [] |} (reflexivity sh)) as Hw.
  unfold wp in Hw. by destruct (handle_session fuel c _).
Qed.

End Session.

(** ** What a UDP listener does *)

Section Listener.
Context `{C : Crypto} `{RE : RegexEngine} `{HO : HashOrder} `{!Env UdpAwait UShared udp_label}.
Context (R : UShared -> UShared -> Prop) `{!PreOrder R}.

(** What a UDP listener shares, as a relay sees it: it has no slots and no
    limiters. *)
Definition udp_view (sh : UShared) : Shared :=
  {| counter_cells := u_cells sh; ip_sets := ∅; limit_buckets := ∅; events := u_events sh; rules := u_rules sh;
     moment := u_moment sh |}.

Record listener_rely : Prop := {
  lrely_step adds a b :
    relay_step adds (udp_view a) (udp_view b) -> u_published b = u_published a -> R a b;
  lrely_env (X : Set) (c : UdpAwait X) l sh x sh' : react c l sh = Some (x, sh') -> R sh sh'
}.

Context (HR : listener_rely) (sh0 : UShared).

Abbreviation keeps := (preserves (fun s : task Associations UShared udp_label => R sh0 (shared s))).

Lemma u_await_within {X : Set} (c : UdpAwait X) : keeps (await c).
Proof. apply preserves_await. intros s x sh H Hr. etrans; [exact H|]. by eapply (lrely_env HR). Qed.

Lemma u_emit_within l : keeps (emit l).
Proof. by apply preserves_emit. Qed.

Lemma on_map_within {A} (f : Associations -> A * Associations) : keeps (on_map f).
Proof. by apply preserves_on_local. Qed.

Lemma u_count_within loc up n : keeps (u_count loc up n).
Proof.
  unfold u_count. apply preserves_bind; [|intros; apply u_emit_within].
  apply preserves_on_shared. intros s H. etrans; [exact H|].
  by eapply (lrely_step HR); [apply (StepCount _ (udp_view (shared s)))|].
Qed.

(** Events are sent one by one. *)
Lemma u_events_within (f : UShared -> list RelayEvent) :
  (forall sh, sent (u_events sh) (f sh)) -> keeps (on_shared (fun sh => ((), set_u_events (f sh) sh))).
Proof.
  intros Hf. apply preserves_on_shared. intros s H. cbn [shared snd].
  destruct (Hf (shared s)) as [evs ->]. generalize dependent (shared s). clear s.
  induction evs as [|ev evs IH]; intros sh H; cbn [fold_left]; [by destruct sh|].
  apply (IH (set_u_events (try_send ev (u_events sh)) sh)). etrans; [exact H|].
  by eapply (lrely_step HR); [apply (StepSend ev (udp_view sh))|].
Qed.

Ltac within_step :=
  first
    [ preserves_step
    | apply u_count_within
    | apply u_await_within
    | apply on_map_within
    | apply u_events_within
    | apply u_emit_within ].

Lemma handle_inbound_within c tables datagram peer : keeps (handle_inbound c tables datagram peer).
Proof.
  unfold handle_inbound, find_association, resolve_udp_dest. repeat within_step.
  all: intros sh; first [apply scan_payload_sent|unfold report_connect; apply sent_one].
Qed.

Lemma listen_loop_within fuel c : keeps (listen_loop fuel c).
Proof.
  induction fuel as [|fuel IH]; cbn [listen_loop]; unfold pump;
    repeat (exact IH || apply handle_inbound_within || within_step).
  apply preserves_on_shared. by intros s.
Qed.

Lemma run_listener_within fuel t : keeps (UdpRelay.run_listener fuel t).
Proof. unfold UdpRelay.run_listener. repeat (apply listen_loop_within || within_step). Qed.

End Listener.

(** ** What the supervisor does *)

Section SupervisorSteps.
Context `{W : Wire} `{C : Crypto} `{RE : RegexEngine} `{HO : HashOrder}.

(** The part of the shared objects that sessions see. *)
Definition part (sh : SupShared) : Shared :=
  {| counter_cells := s_cells sh; ip_sets := s_ip_sets sh; limit_buckets := s_buckets sh;
     events := s_queue sh; rules := s_rules sh; moment := s_moment sh |}.

(** One change of the supervisor's shared objects by a relay: a step of a
    session or a UDP listener. *)
Inductive relays : SupShared -> SupShared -> Prop :=
  | RelaysStep adds sh sh' :
      relay_step adds (part sh) (part sh') ->
      s_relayed sh' = s_relayed sh ++ live_adds (s_cells sh) adds ->
      s_published sh' = s_published sh ->
      relays sh sh'
  | RelaysTick n sh : relays sh (set_moment n sh).

(** One change by the supervisor: it allocates, new IP sets are empty, it
    changes neither an IP set nor takes an object away; it sets the rates of
    the buckets within their invariant; it takes the oldest event; rules and
    tables are its own. *)
Record sup_step (sh sh' : SupShared) : Prop := {
  sup_cells : dom (s_cells sh) ⊆ dom (s_cells sh');
  sup_sets : s_ip_sets sh ⊆ s_ip_sets sh';
  sup_new_sets loc ips :
    s_ip_sets sh !! loc = None -> s_ip_sets sh' !! loc = Some ips -> ips = ∅;
  sup_buckets : dom (s_buckets sh) ⊆ dom (s_buckets sh');
  sup_buckets_ok : buckets_ok (part sh) -> buckets_ok (part sh');
  sup_queue : s_queue sh' = s_queue sh \/ s_queue sh' = tail (s_queue sh)
}.

Lemma sup_step_refl sh : sup_step sh sh.
Proof. split; try done; [by intros loc ips ->|by left]. Qed.

(** What the relays do, in any number of steps. *)
Lemma relays_only sh sh' :
  rtc relays sh sh' -> relays_only_did sh sh'.
Proof.
  induction 1 as [sh|sh sh1 sh2 H1 _ IH].
  { split_and!; try done. exists []. split; [done|]. by rewrite app_nil_r. }
  destruct IH as ((adds2 & Hc2 & Hr2) & Hs2 & Hb2 & Hru2 & Hp2).
  destruct H1 as [adds sh sh1 Hst Hr Hp|]; [|split_and!; try done; by exists adds2].
  - pose proof (relay_step_cells _ _ _ Hst) as Hc. pose proof (relay_step_dom _ _ _ Hst) as Hd.
    pose proof (relay_step_rules _ _ _ Hst) as Hru. pose proof (relay_step_buckets _ _ _ Hst) as Hb.
    cbn in Hc, Hd, Hru, Hb.
    split_and!; [|congruence|congruence|congruence|congruence]. exists (adds ++ adds2). split.
    + rewrite Hc2, Hc. unfold add_all. by rewrite fold_left_app.
    + rewrite Hr2, Hr, live_adds_app, app_assoc. f_equal.
      apply live_adds_dom. by rewrite Hc, dom_add_all.
Qed.

(** The shared objects stay sound, whoever steps. *)
Lemma program_sound sh sh' :
  rtc (fun a b => relays a b \/ sup_step a b) sh sh' -> sound (part sh) -> sound (part sh').
Proof.
  induction 1 as [sh|sh sh1 sh2 [H1|H1] _ IH]; intros Hp; [done|..]; apply IH.
  - destruct H1 as [adds sh sh1 Hst _ _|]; [by eapply relay_step_sound|done].
  - destruct Hp as [Hp Hb]. split; [|by apply (sup_buckets_ok _ _ H1)].
    intros loc ips ip Hl. destruct (s_ip_sets sh !! loc) as [old|] eqn:Ho.
    + pose proof (lookup_weaken _ _ _ _ Ho (sup_sets _ _ H1)) as Hl'.
      cbn in Hl. rewrite Hl' in Hl. injection Hl as <-. by apply (Hp loc).
    + rewrite (sup_new_sets _ _ H1 _ _ Ho Hl). by rewrite lookup_empty.
Qed.

Lemma program_sets sh sh' :
  rtc (fun a b => relays a b \/ sup_step a b) sh sh' -> dom (s_ip_sets sh) ⊆ dom (s_ip_sets sh').
Proof.
  induction 1 as [sh|sh sh1 sh2 [H1|H1] _ IH]; [done|..]; (etrans; [|exact IH]).
  - destruct H1 as [adds sh sh1 Hst _ _|]; [|done].
    pose proof (relay_step_dom _ _ _ Hst) as Hd. cbn in Hd. by rewrite Hd.
  - apply subseteq_dom, H1.
Qed.

Context `{!Env SupAwait SupShared sup_label} (config : Config).
Context (R : SupShared -> SupShared -> Prop) `{!PreOrder R}.

Record supervisor_rely : Prop := {
  srely_step a b : sup_step a b -> R a b;
  srely_env (X : Set) (c : SupAwait X) l sh x sh' : react c l sh = Some (x, sh') -> R sh sh'
}.

Context (HR : supervisor_rely) (sh0 : SupShared).

Abbreviation keeps :=
  (preserves (fun s : task BackendRuntime SupShared sup_label => R sh0 (shared s))).

Lemma s_await_within {X : Set} (c : SupAwait X) : keeps (await c).
Proof. apply preserves_await. intros s x sh H Hr. etrans; [exact H|]. by eapply (srely_env HR). Qed.

Lemma s_emit_within l : keeps (emit l).
Proof. by apply preserves_emit. Qed.

Lemma s_shared_within {A} (f : SupShared -> A * SupShared) :
  (forall sh, sup_step sh (f sh).2) -> keeps (on_shared f).
Proof. intros Hf. apply preserves_on_shared. intros s H. etrans; [exact H|]. by apply (srely_step HR). Qed.

Lemma runtime_within f : keeps (on_runtime f).
Proof. by apply preserves_on_both. Qed.

Lemma traffic_within {A} (f : TrafficLedger -> A * TrafficLedger) :
  (forall l, dom (objects l) ⊆ dom (objects (f l).2)) -> keeps (on_traffic f).
Proof.
  intros Hf. apply preserves_on_both. intros s H. etrans; [exact H|]. apply (srely_step HR).
  specialize (Hf (traffic_of (local s) (shared s))). destruct (f _) as [a l].
  split; cbn in *; try done; [by intros loc ips ->|by left].
Qed.

Lemma ensure_counter_within u : keeps (on_traffic (Traffic.ensure_user u)).
Proof.
  apply traffic_within. intros l. unfold Traffic.ensure_user. destruct (_ !! u); cbn; set_solver.
Qed.

Lemma pending_within adds : keeps (on_traffic (pending_deltas_during adds)).
Proof.
  apply traffic_within. intros l. destruct (pending_deltas_during adds l) as [ds l'] eqn:Hp.
  apply pending_during_same in Hp as [Hd _]. cbn. by rewrite Hd.
Qed.

Lemma ensure_conn_within u : keeps (on_conns (Conn.ensure_user u)).
Proof.
  apply preserves_on_both. intros s H. etrans; [exact H|]. apply (srely_step HR).
  unfold Conn.ensure_user. cbn [conn_ledger sets guards].
  destruct (conns (local s) !! u) as [loc|]; cbn; [by destruct (shared s); apply sup_step_refl|].
  pose proof (proj1 (not_elem_of_dom (s_ip_sets (shared s)) _) (is_fresh (dom (s_ip_sets (shared s))))) as Hf.
  split; cbn; try done; [by apply insert_subseteq| |by left].
  intros loc ips Hn [[_ <-]|[_ Hs]]%lookup_insert_Some; [done|congruence].
Qed.

Lemma stale_conn_within live : keeps (on_conns (fun w => ((), Conn.remove_stale_users live w))).
Proof.
  apply preserves_on_both. intros s H. etrans; [exact H|]. apply (srely_step HR).
  by destruct (shared s); apply sup_step_refl.
Qed.

Lemma speeds_within {A} (f : SpeedLedger -> A * SpeedLedger) :
  (forall l, dom (buckets l) ⊆ dom (buckets (f l).2) /\
    (map_Forall (fun _ => bucket_ok) (buckets l) -> map_Forall (fun _ => bucket_ok) (buckets (f l).2))) ->
  keeps (on_speeds f).
Proof.
  intros Hf. apply preserves_on_both. intros s H. etrans; [exact H|]. apply (srely_step HR).
  destruct (Hf {| limiters := speeds (local s); buckets := s_buckets (shared s) |}) as [Hd Hb].
  destruct (f _) as [a l]. split; cbn in *; try done; [by intros loc ips ->|by left].
Qed.

Lemma ensure_speed_within now u rate :
  (0 <= rate <= U64_MAX)%Z -> keeps (on_speeds (RateLimit.ensure_user now u rate)).
Proof.
  intros Hr. apply speeds_within. intros l. split; [|by apply ensure_user_ok].
  unfold RateLimit.ensure_user. destruct (_ !! u); cbn; [|set_solver]. by rewrite dom_alter_L.
Qed.

Ltac sup_within_step :=
  first
    [ preserves_step
    | apply s_await_within
    | apply s_emit_within
    | apply runtime_within
    | apply ensure_counter_within
    | apply pending_within
    | apply ensure_conn_within
    | apply stale_conn_within
    | apply ensure_speed_within; apply speed_limit_range
    | apply speeds_within; by intros; split
    | apply traffic_within; by intros
    | apply s_shared_within; intros [???????]; split; cbn; try done; [by intros ?? ->|by left] ].

Lemma record_within xs : keeps (record xs).
Proof. induction xs as [|[r a] xs IH]; cbn [record]; repeat sup_within_step. exact IH. Qed.

Lemma panel_call_within {A} (m : forall W : Wire, call A) : keeps (panel_call m).
Proof. unfold panel_call. repeat (apply record_within || sup_within_step). Qed.

Lemma tabulate_within us t : keeps (tabulate us t).
Proof.
  revert t. induction us as [|u us IH]; intros t; cbn [tabulate]; repeat sup_within_step. apply IH.
Qed.

Lemma ensure_listeners_within us live : keeps (ensure_listeners config us live).
Proof.
  revert live. induction us as [|u us IH]; intros live; cbn [ensure_listeners];
    unfold ensure_active_user, stop; repeat (apply IH || sup_within_step).
Qed.

Lemma remove_ports_within ports : keeps (remove_ports ports).
Proof.
  induction ports as [|p ports IH]; cbn [remove_ports]; unfold stop;
    repeat (exact IH || sup_within_step).
Qed.

Lemma sync_users_within : keeps (sync_users config).
Proof.
  unfold sync_users, remove_stale_state, forget_traffic.
  repeat (apply panel_call_within || apply tabulate_within || apply ensure_listeners_within || apply remove_ports_within ||
    sup_within_step).
Qed.

Lemma recv_event_within : keeps recv_event.
Proof.
  apply s_shared_within. intros sh. destruct (s_queue sh) as [|ev q] eqn:Hq; cbn; [apply sup_step_refl|].
  split; cbn; try done; [by intros ?? ->|right; by rewrite Hq].
Qed.

Lemma refresh_within : keeps refresh_detect_rules.
Proof. unfold refresh_detect_rules. repeat (apply panel_call_within || sup_within_step). Qed.

Lemma turn_within br : keeps (Supervisor.turn config br).
Proof.
  destruct br; cbn [Supervisor.turn]; unfold record_event, expire_local_state, report_traffic, note_relayed,
    report_auxiliary_state, report_heartbeat;
    repeat (apply panel_call_within || apply sync_users_within || apply refresh_within || apply recv_event_within ||
      sup_within_step).
Qed.

Lemma stop_each_within l : keeps (stop_each l).
Proof.
  induction l as [|[p a] l IH]; cbn [stop_each]; unfold stop; repeat (exact IH || sup_within_step).
Qed.

Lemma run_within fuel : keeps (run config fuel).
Proof.
  unfold run, tick_loop, interval, initial_panel_probe, stop_all.
  assert (Hloop : keeps (run_loop config fuel)).
  { induction fuel as [|fuel IH]; cbn [run_loop]; repeat (exact IH || apply turn_within || sup_within_step). }
  repeat (exact Hloop || apply panel_call_within || apply sync_users_within || apply refresh_within || apply stop_each_within ||
    sup_within_step).
Qed.

End SupervisorSteps.

(** ** Properties *)

(** C16 A session is a relay: for every relation that covers the steps of
    the relays and those of the session's environment, and is reflexive and
    transitive, all a session has done to the shared objects is within it.
    Taking the closure of both, a session only adds to counters, sends
    events, runs rounds of limiters, and takes or gives back slots of the
    sets in its tables; it never touches the rules. *)
Theorem session_guarantee `{C : Crypto} `{RE : RegexEngine} (E : Env Await Shared label)
    (R : Shared -> Shared -> Prop) rnd fuel c sh (HP : PreOrder R) (HR : session_rely R)
    (Ha : forall uid loc, conns_by_user (tables c) !! uid = Some loc -> loc ∈ dom (ip_sets sh)) :
  R sh (handle_stream rnd fuel c sh).2.
Proof. by apply (handle_stream_within R). Qed.

(** So is a UDP listener with its pumps; it takes no slots, and it never
    touches the published tables. *)
Theorem listener_guarantee `{C : Crypto} `{RE : RegexEngine} `{HO : HashOrder}
    (E : Env UdpAwait UShared udp_label) (R : UShared -> UShared -> Prop) fuel t sh
    (HP : PreOrder R) (HR : listener_rely R) :
  R sh (shared (UdpRelay.start_listener fuel t sh).2).
Proof. by apply (run_listener_within R HR sh fuel t _ (reflexivity sh)). Qed.

(** A listener that can start: [cipher_kind] does not panic. *)
Definition startable (a : ActiveUser) : Prop :=
  exists k, (forall t, au_tcp a = Some t -> Profile.cipher_kind (la_profile (tcp_args t)) = Ok k) /\
    (forall t, au_udp a = Some t -> Profile.cipher_kind (la_profile (udp_args t)) = Ok k).

Lemma spawn_startable config u p :
  Profile.from_user u (node config) = Ok p -> startable (spawn config u p).
Proof.
  intros Hp. destruct (Profile.new_cipher_kind _ _ _ _ _ Hp) as [k Hk]. exists k. unfold spawn. cbn.
  split; intros t; case_match; by intros [= <-].
Qed.

(** C5 The tasks fit together.  If the supervisor's environment takes steps
    of relays only, and a session's environment takes steps of relays and of
    the supervisor, in any number and order, then what the theorems about
    either assume holds: relays only add to counters that exist and neither
    create nor remove objects, no IP set holds a zero count, and every
    token bucket satisfies its invariant, so that no round of a limiter
    panics.  And what the supervisor does is such steps: at any point of a
    run the shared objects are sound, the published tables name IP sets and
    buckets that exist, and the running listeners have a supported
    cipher. *)
Theorem tasks_compose `{W : Wire} `{C : Crypto} `{RE : RegexEngine} `{HO : HashOrder}
    (E : Env SupAwait SupShared sup_label) (E' : Env Await Shared label) config fuel now
    (Hsup : forall (X : Set) (c : SupAwait X) l sh x sh',
       react c l sh = Some (x, sh') -> rtc relays sh sh')
    (Hses : forall (X : Set) (a : Await X) l sh x sh', react a l sh = Some (x, sh') ->
       exists g g', part g = sh /\ part g' = sh' /\ rtc (fun a b => relays a b \/ sup_step a b) g g') :
  sup_env_ok /\ env_ok /\
  let s := (start config fuel now).2 in
  rtc (fun a b => relays a b \/ sup_step a b) new_shared (shared s) /\
  sound (part (shared s)) /\
  (forall uid loc, conns_by_user (s_published (shared s)) !! uid = Some loc ->
     loc ∈ dom (ip_sets (part (shared s)))) /\
  (forall uid loc, speeds_by_user (s_published (shared s)) !! uid = Some loc ->
     loc ∈ dom (limit_buckets (part (shared s)))) /\
  map_Forall (fun _ => startable) (active_users (local s)).
Proof.
  assert (He : sup_env_ok) by (intros X c l sh x sh' Hr; by eapply relays_only, Hsup).
  split; [exact He|]. split.
  { intros X a l sh x sh' Hr Hp. destruct (Hses _ _ _ _ _ _ Hr) as (g & g' & <- & <- & Hg).
    by eapply program_sound. }
  intros s. assert (Hs : rtc (fun a b => relays a b \/ sup_step a b) new_shared (shared s)).
  { apply (run_within config (rtc (fun a b => relays a b \/ sup_step a b))); [|reflexivity].
    split; [by intros a b Hab; apply rtc_once; right|].
    intros X c l sh x sh' Hr. eapply rtc_subrel; [|by eapply Hsup]. by left. }
  split; [done|]. split.
  { eapply program_sound; [exact Hs|]. split; [|by apply map_Forall_empty].
    intros ?? ?. cbn. by rewrite lookup_empty. }
  destruct (supervisor_inv_reached config fuel now He) as [b Hi]. fold s in Hi. split_and!.
  - intros uid loc Hl. apply elem_of_dom. by eapply (inv_published _ _ _ Hi).
  - intros uid loc Hl. apply elem_of_dom. by eapply (inv_published _ _ _ Hi).
  - intros p a Hp. destruct (inv_rows _ _ _ Hi p a Hp) as (u & pr & -> & Hpr & _).
    by apply spawn_startable.
Qed.

(** ** Witnesses *)

Import Toy.

#[local] Existing Instance key_order.

(** The closure of a relay's steps. *)
Definition relay_steps `{RE : RegexEngine} : Shared -> Shared -> Prop :=
  rtc (fun a b => exists adds, relay_step adds a b).

Lemma relay_steps_rely `{C : Crypto} `{RE : RegexEngine} (E : Env Await Shared label) :
  (forall (X : Set) (a : Await X) l sh x sh', react a l sh = Some (x, sh') -> sh' = sh) ->
  session_rely relay_steps.
Proof.
  intros He. split.
  - intros adds a b Hab. apply rtc_once. by exists adds.
  - intros X a l sh x sh' Hr. by rewrite (He _ _ _ _ _ _ Hr).
  - intros a b. induction 1 as [|a b c [adds Hab] _ IH]; [done|].
    by rewrite <- (relay_step_dom _ _ _ Hab).
Qed.

Definition toy_sets_shared : @Shared ToyRegex.engine :=
  {| counter_cells := {[0 := zero_counters]}; ip_sets := {[3 := ∅]};
     limit_buckets := {[9 := RateLimit.new 0 1000]}; events := []; rules := []; moment := 0 |}.

Definition set_session : res error () * list label * @Shared ToyRegex.engine :=
  handle_stream (Env0:=play (toy_script toy_upstream)) toy_rnd 3 toy_context toy_sets_shared.

(** The session connects, and its bytes are on the counter. *)
Example set_session_run :
  set_session.1.1 = Ok () /\ length (events set_session.2) = 1 /\
  option_map Traffic.upload (counter_cells set_session.2 !! 0) = Some (Z.of_nat (length toy_upstream)).
Proof. by vm_compute. Qed.

Lemma session_guarantee_witness : relay_steps toy_sets_shared set_session.2.
Proof.
  unfold set_session. simple refine (session_guarantee (C:=crypto) (RE:=ToyRegex.engine)
    (play (toy_script toy_upstream)) relay_steps toy_rnd 3 toy_context toy_sets_shared _ _ _).
  - apply relay_steps_rely. intros X a l sh x sh'. by destruct a; intros [= <- <-].
  - intros uid loc. cbn. intros [_ <-]%lookup_singleton_Some. by vm_compute.
Defined.

(** The steps of a UDP listener. *)
Definition udp_steps : @UShared ToyRegex.engine -> @UShared ToyRegex.engine -> Prop :=
  rtc (fun a b => exists adds, relay_step adds (udp_view a) (udp_view b) /\ u_published b = u_published a).

Lemma listener_guarantee_witness :
  udp_steps toy_udp_shared (shared (UdpRelay.start_listener (Env0:=toy_udp_env) 6 toy_udp_task toy_udp_shared).2).
Proof.
  simple refine (listener_guarantee (C:=crypto) (RE:=ToyRegex.engine) toy_udp_env udp_steps 6
    toy_udp_task toy_udp_shared _ _).
  - split.
    + intros adds a b Hab Hp. apply rtc_once. by exists adds.
    + intros X c l sh x sh' Hr. assert (sh' = sh) as ->; [|reflexivity].
      destruct c; by injection Hr as <- <-.
Defined.

Lemma toy_sup_relays (X : Set) (c : @SupAwait toy_wire X) l (sh : @SupShared ToyRegex.engine) x sh' :
  react (Env:=toy_sup_env) c l sh = Some (x, sh') -> rtc relays sh sh'.
Proof.
  assert (Hone : rtc relays sh (toy_relay sh)).
  { apply rtc_once. eapply RelaysStep; [apply (StepCount _ (part sh))|done..]. }
  destruct c; cbn; try (intros [= <- <-]; reflexivity).
  generalize (length l). intros n.
  do 14 (destruct n as [|n]; [intros [= <- <-]; first [exact Hone|reflexivity]|]).
  intros [= <- <-]. reflexivity.
Qed.

Lemma tasks_compose_witness :
  @env_ok ToyRegex.engine (play noise) /\
  rtc (fun a b => relays a b \/ sup_step a b) new_shared (shared toy_start.2) /\
  map_Forall (fun _ => startable) (active_users (local toy_start.2)).
Proof.
  pose proof (tasks_compose (C:=crypto) toy_sup_env (play noise) toy_config 4 0 toy_sup_relays) as Hw.
  destruct Hw as (_ & He & Hs & _ & _ & _ & Ha); [|by split_and!].
  intros X a l sh x sh' Hr. assert (sh' = sh) as -> by by destruct a; injection Hr as <- <-.
  set (g := {| s_cells := counter_cells sh; s_relayed := []; s_ip_sets := ip_sets sh; s_buckets := limit_buckets sh;
               s_queue := events sh; s_rules := rules sh; s_published := default_tables;
               s_moment := moment sh |}).
  assert (Hg : part g = sh) by by destruct sh.
  exists g, g. split; [exact Hg|split; [exact Hg|reflexivity]].
Defined.
