(* ===== verification/Signals.v ===== *)
(** * OS signals and the shutdown branch ([shutdown_signal] and the
      [select!] of [BackendRuntime::run] in
      [src/src/runtime/supervisor.rs])

    The supervisor (Supervisor.v) leaves its loop when the environment picks
    the branch [Shutdown].  This file models how that branch becomes ready:
    [shutdown_signal] as the listeners it creates when it is first polled,
    and the loop, which makes a new [shutdown_signal()] for every [select!]
    and drops it when another branch completes.  tokio's signal driver is a
    parameter ([SignalDriver]) with what tokio documents of it
    ([SignalLaws]): the first listener of a kind replaces the default action
    for good, and a listener is told of the signals of its kind that arrive
    after it was created.  [ToySignals] is an instance. *)

From S2P Require Import Prelude.

Inductive signal_kind : Set := SIGTERM | SIGINT.

#[export] Instance signal_kind_eq_dec : EqDecision signal_kind.
Proof. solve_decision. Defined.

(** The signal driver of the process.  [listen]: [signal(kind)], which may
    fail; [deliver]: the OS delivers a signal, [None] if the default action
    ends the process; [told]: [recv()] of the listener is ready. *)
Class SignalDriver : Type := {
  Driver : Set;
  Listener : Set;
  unhandled : Driver;
  listen : signal_kind -> Driver -> option Listener * Driver;
  deliver : signal_kind -> Driver -> option Driver;
  told : Driver -> Listener -> bool
}.

Definition handled `{SD : SignalDriver} (d : Driver) (k : signal_kind) : Prop := is_Some (deliver k d).

(** [can]: the kinds a handler can be installed for; [live]: a listener of
    this driver. *)
Class SignalLaws `{SD : SignalDriver} (can : signal_kind -> bool) : Type := {
  kind_of : Listener -> signal_kind;
  live : Driver -> Listener -> Prop;
  listen_can k d : is_Some (listen k d).1 <-> can k = true;
  listen_new k d l : (listen k d).1 = Some l ->
    kind_of l = k /\ live (listen k d).2 l /\ told (listen k d).2 l = false;
  listen_live k d l : live d l -> live (listen k d).2 l /\ told (listen k d).2 l = told d l;
  listen_handled k k' d : handled (listen k d).2 k' <-> handled d k' \/ (k' = k /\ can k = true);
  deliver_live k d d' l : deliver k d = Some d' -> live d l ->
    live d' l /\ (told d' l = true <-> told d l = true \/ kind_of l = k);
  deliver_handled k d d' k' : deliver k d = Some d' -> handled d' k' <-> handled d k'
}.

Section Signals.
Context `{SD : SignalDriver}.

(** What [shutdown_signal] awaits once it is polled; [Returned]: [ctrl_c]
    failed, which is ignored. *)
Inductive waiting : Set :=
  | OnBoth (term int : Listener)
  | OnTerm (term : Listener)
  | OnInt (int : Listener)
  | Returned.

(** [shutdown_signal], up to its await. *)
Definition shutdown_signal (d : Driver) : waiting * Driver :=
  let '(t, d) := listen SIGTERM d in
  let '(i, d) := listen SIGINT d in
  match t, i with
  | Some term, Some int => (OnBoth term int, d)
  | Some term, None => (OnTerm term, d)
  | None, _ =>
      let '(i, d) := listen SIGINT d in
      match i with Some int => (OnInt int, d) | None => (Returned, d) end
  end.

(** The future is ready. *)
Definition ready (d : Driver) (w : waiting) : bool :=
  match w with
  | OnBoth term int => told d term || told d int
  | OnTerm term => told d term
  | OnInt int => told d int
  | Returned => true
  end.

(** ** The loop *)

(** [Fresh]: in [select!], the new future not yet polled; [Waiting]: polled;
    [Busy]: in the body of another branch; [Leaving]: behind the loop;
    [Killed]: the default action. *)
Inductive phase : Set := Fresh | Waiting (w : waiting) | Busy | Leaving | Killed.

Inductive event : Set :=
  | Arrives (k : signal_kind)   (* the OS delivers a signal *)
  | Polled                      (* select! polls shutdown_signal() *)
  | Other                       (* another branch completes, the future is dropped *)
  | BodyDone                    (* the branch's body ends, the loop goes on *)
  | Leave.                      (* the shutdown branch completes *)

Definition arrives (k : signal_kind) (s : phase * Driver) : phase * Driver :=
  match deliver k s.2 with
  | Some d => (s.1, d)
  | None => (Killed, s.2)
  end.

(** One event, if it can happen. *)
Definition step (e : event) (s : phase * Driver) : option (phase * Driver) :=
  match e, s.1 with
  | _, Killed | _, Leaving => None
  | Arrives k, _ => Some (arrives k s)
  | Polled, Fresh => let '(w, d) := shutdown_signal s.2 in Some (Waiting w, d)
  | Other, Fresh | Other, Waiting _ => Some (Busy, s.2)
  | BodyDone, Busy => Some (Fresh, s.2)
  | Leave, Waiting w => if ready s.2 w then Some (Leaving, s.2) else None
  | _, _ => None
  end.

Fixpoint steps (es : list event) (s : phase * Driver) : option (phase * Driver) :=
  match es with
  | [] => Some s
  | e :: es => s ← step e s; steps es s
  end.

(** The loop is entered with no handler installed. *)
Definition start : phase * Driver := (Fresh, unhandled).

(** ** Lemmas *)

Context (can : signal_kind -> bool) `{SL : !SignalLaws can}.

Definition is_arrival (e : event) : Prop := match e with Arrives _ => True | _ => False end.

Lemma steps_app es1 es2 s : steps (es1 ++ es2) s = steps es1 s ≫= steps es2.
Proof.
  revert s. induction es1 as [|e es1 IH]; intros s; [done|].
  change (steps (e :: es1 ++ es2) s = steps (e :: es1) s ≫= steps es2). cbn [steps].
  destruct (step e s) as [s'|]; [apply IH|done].
Qed.

(** The listeners a future waits on. *)
Definition hears (w : waiting) : list Listener :=
  match w with
  | OnBoth term int => [term; int]
  | OnTerm term => [term]
  | OnInt int => [int]
  | Returned => []
  end.

Lemma ready_hears d w :
  w <> Returned -> ready d w = true <-> exists l, l ∈ hears w /\ told d l = true.
Proof.
  intros Hw. setoid_rewrite list_elem_of_In. rewrite <- existsb_exists.
  destruct w; cbn [ready hears existsb]; rewrite ?orb_false_r; try done; by destruct Hw.
Qed.

(** A listener that was just created. *)
Definition new_on (d : Driver) (k : signal_kind) (l : Listener) : Prop :=
  kind_of l = k /\ live d l /\ told d l = false.

Lemma listen_spec k d :
  let '(o, d') := listen k d in
  match o with Some l => can k = true /\ new_on d' k l | None => can k = false end /\
  (forall k' l, new_on d k' l -> new_on d' k' l) /\
  (forall k', handled d' k' <-> handled d k' \/ (k' = k /\ can k = true)).
Proof.
  pose proof (listen_can k d) as Hc. pose proof (listen_new k d) as Hn.
  pose proof (listen_live k d) as Hl. pose proof (fun k' => listen_handled k k' d) as Hh.
  destruct (listen k d) as [o d']. cbn [fst snd] in *. split_and!; [|..|exact Hh].
  - destruct o as [l|]; [split; [by apply Hc|by apply Hn]|].
    destruct (can k); [|done]. by destruct (proj2 Hc eq_refl).
  - intros k' l (Hk & Hd & Ht). destruct (Hl l Hd) as [Hd' Ht']. split_and!; [done|done|congruence].
Qed.

Lemma shutdown_signal_spec d :
  let '(w, d') := shutdown_signal d in
  (forall k, handled d' k <-> handled d k \/ can k = true) /\
  (can SIGTERM || can SIGINT = true -> w <> Returned) /\
  Forall (fun l => new_on d' (kind_of l) l) (hears w) /\
  forall k, can k = true <-> k ∈ List.map kind_of (hears w).
Proof.
  unfold shutdown_signal. pose proof (listen_spec SIGTERM d) as H1.
  destruct (listen SIGTERM d) as [t d1]. destruct H1 as (Ht & Hk1 & Hh1).
  pose proof (listen_spec SIGINT d1) as H2.
  destruct (listen SIGINT d1) as [i d2]. destruct H2 as (Hi & Hk2 & Hh2).
  destruct t as [t|].
  - destruct Ht as [Hct Ht]. apply Hk2 in Ht. destruct i as [i|].
    + destruct Hi as [Hci Hi]. split_and!; [|done| |].
      * intros k. rewrite Hh2, Hh1. destruct k; intuition congruence.
      * repeat constructor; [apply Ht|apply Ht|apply Hi|apply Hi].
      * intros k. cbn. rewrite (proj1 Ht), (proj1 Hi), !elem_of_cons. destruct k; intuition congruence.
    + split_and!; [|done| |].
      * intros k. rewrite Hh2, Hh1. destruct k; intuition congruence.
      * repeat constructor; apply Ht.
      * intros k. cbn. rewrite (proj1 Ht), elem_of_cons, elem_of_nil. destruct k; intuition congruence.
  - pose proof (listen_spec SIGINT d2) as H3. destruct (listen SIGINT d2) as [i' d3].
    destruct H3 as (Hi' & _ & Hh3). destruct i' as [i'|].
    + destruct Hi' as [Hci Hi']. split_and!; [|done| |].
      * intros k. rewrite Hh3, Hh2, Hh1. destruct k; intuition congruence.
      * repeat constructor; apply Hi'.
      * intros k. cbn. rewrite (proj1 Hi'), elem_of_cons, elem_of_nil. destruct k; intuition congruence.
    + split_and!; [| |constructor|].
      * intros k. rewrite Hh3, Hh2, Hh1. destruct k; intuition congruence.
      * rewrite Ht, Hi'. done.
      * intros k. cbn. rewrite elem_of_nil. destruct k; intuition congruence.
Qed.

(** Arrivals of handled kinds are told to the live listeners of the kind. *)
Lemma steps_arrivals es ph d :
  Forall is_arrival es -> ph <> Killed -> ph <> Leaving ->
  (forall k, Arrives k ∈ es -> handled d k) ->
  exists d', steps es (ph, d) = Some (ph, d') /\ (forall k, handled d' k <-> handled d k) /\
    forall l, live d l -> told d' l = true <-> told d l = true \/ Arrives (kind_of l) ∈ es.
Proof.
  intros He Hk Hl. revert d. induction He as [|e es Hi He IH]; intros d Hs.
  { exists d. split_and!; [done|done|]. intros l _. rewrite elem_of_nil. intuition congruence. }
  destruct e as [k| | | |]; try done. destruct (Hs k ltac:(by left)) as [d1 Hd1].
  pose proof (deliver_handled k d d1) as Hh. destruct (IH d1) as (d' & Hd & Hd' & Ht).
  { intros k' Hin. apply (Hh k' Hd1), Hs. by right. }
  exists d'. split_and!.
  - cbn [steps]. assert (Hst : step (Arrives k) (ph, d) = Some (ph, d1)).
    { unfold step, arrives. cbn [fst snd]. rewrite Hd1. by destruct ph. }
    rewrite Hst. exact Hd.
  - intros k'. by rewrite Hd', (Hh k' Hd1).
  - intros l Hlive. destruct (deliver_live k d d1 l Hd1 Hlive) as [Hlive1 Ht1].
    rewrite (Ht l Hlive1), Ht1, elem_of_cons. intuition congruence.
Qed.

(** A killed or left loop stays so. *)
Lemma steps_stuck es s s' : s.1 = Killed \/ s.1 = Leaving -> steps es s = Some s' -> es = [] /\ s' = s.
Proof.
  destruct es as [|e es]; [by intros _ [= <-]|]. destruct s as [ph d]. cbn. by intros [-> | ->]; destruct e.
Qed.

(** If nothing killed the process, what arrived had a handler. *)
Lemma arrivals_handled es ph d s' :
  Forall is_arrival es -> steps es (ph, d) = Some s' -> s'.1 <> Killed ->
  forall k, Arrives k ∈ es -> handled d k.
Proof.
  intros He. revert ph d. induction He as [|e es Hi He IH]; intros ph d Hs Hk k Hin; [by apply elem_of_nil in Hin|].
  destruct e as [k1| | | |]; try done. cbn [steps] in Hs.
  destruct (step (Arrives k1) (ph, d)) as [[ph1 d1]|] eqn:Hst; [|done].
  change (steps es (ph1, d1) = Some s') in Hs.
  assert (Hn : deliver k1 d = Some d1).
  { assert (Ha : arrives k1 (ph, d) = (ph1, d1)) by (destruct ph; cbn in Hst; congruence).
    unfold arrives in Ha. cbn [fst snd] in Ha. destruct (deliver k1 d) as [d2|].
    - by injection Ha as <- <-.
    - injection Ha as <- <-. destruct (steps_stuck es (Killed, d) s' (or_introl eq_refl) Hs) as [_ ->]. done. }
  apply elem_of_cons in Hin as [[= ->]|Hin]; [by eexists|].
  by apply (deliver_handled k1 d d1 k Hn), (IH ph1 d1 Hs Hk).
Qed.

(** A waiting loop was polled, and nothing but signals came since. *)
Lemma waiting_since es w d :
  steps es start = Some (Waiting w, d) ->
  exists es1 ds d0, es = es1 ++ Polled :: ds /\ Forall is_arrival ds /\
    steps es1 start = Some (Fresh, d0) /\ w = (shutdown_signal d0).1 /\
    steps ds (Waiting w, (shutdown_signal d0).2) = Some (Waiting w, d).
Proof.
  revert d. induction es as [|e es IH] using rev_ind; intros d Hs; [done|].
  rewrite steps_app in Hs. destruct (steps es start) as [[ph d1]|] eqn:He; [|done].
  cbn [mbind option_bind steps] in Hs. destruct (step e (ph, d1)) as [s2|] eqn:Hst; [|done].
  injection Hs as ->. destruct e as [k| | | |].
  - assert (ph = Waiting w) as ->.
    { unfold step, arrives in Hst. cbn [fst snd] in Hst. by destruct ph, (deliver k d1); simplify_eq. }
    destruct (IH d1 eq_refl) as (es1 & ds & d0 & -> & Hds & H1 & Hw & Hr).
    exists es1, (ds ++ [Arrives k]), d0. split_and!; [by rewrite <- app_assoc| |done|done|].
    + apply Forall_app. split; [done|by repeat constructor].
    + rewrite steps_app, Hr. cbn [mbind option_bind steps]. by rewrite Hst.
  - destruct ph; try done. cbn in Hst. exists es, [], d1.
    destruct (shutdown_signal d1) as [w1 d2] eqn:Hsd. injection Hst as -> ->. by split_and!.
  - by destruct ph.
  - by destruct ph.
  - destruct ph as [|w1| | |]; try done. cbn in Hst. by case_match.
Qed.

(** The state behind the poll and the signals that came since. *)
Lemma waiting_after es w d :
  steps es start = Some (Waiting w, d) ->
  exists es1 ds d0, es = es1 ++ Polled :: ds /\ Forall is_arrival ds /\ w = (shutdown_signal d0).1 /\
    (forall k, handled d k <-> handled d0 k \/ can k = true) /\
    forall l, l ∈ hears w -> told d l = true <-> Arrives (kind_of l) ∈ ds.
Proof.
  intros Hs. destruct (waiting_since es w d Hs) as (es1 & ds & d0 & -> & Hds & _ & -> & Hr).
  exists es1, ds, d0. split_and!; [done|done|done|..];
    pose proof (arrivals_handled ds _ _ _ Hds Hr ltac:(done)) as Hh;
    destruct (steps_arrivals ds (Waiting (shutdown_signal d0).1) (shutdown_signal d0).2 Hds ltac:(done) ltac:(done) Hh)
      as (d' & Hd' & Hk & Ht); rewrite Hr in Hd'; injection Hd' as <-;
    pose proof (shutdown_signal_spec d0) as Hsp; destruct (shutdown_signal d0) as [w d1];
    destruct Hsp as (Hhand & _ & Hnew & _); cbn [fst snd] in *.
  - intros k. by rewrite Hk, Hhand.
  - intros l Hl. rewrite Forall_forall in Hnew. destruct (Hnew l Hl) as (_ & Hlive & Hno).
    rewrite (Ht l Hlive), Hno. intuition congruence.
Qed.

(** Whether the future that waits is ready. *)
Lemma waiting_ready es w d :
  (can SIGTERM || can SIGINT = true) -> steps es start = Some (Waiting w, d) ->
  exists es1 ds, es = es1 ++ Polled :: ds /\ Forall is_arrival ds /\
    (ready d w = true <-> exists k, can k = true /\ Arrives k ∈ ds).
Proof.
  intros Hc Hs. destruct (waiting_after es w d Hs) as (es1 & ds & d0 & -> & Hds & -> & _ & Ht).
  exists es1, ds. split_and!; [done|done|].
  pose proof (shutdown_signal_spec d0) as Hsp. destruct (shutdown_signal d0) as [w d1].
  destruct Hsp as (_ & Hw & _ & Hkinds). cbn [fst] in *. rewrite ready_hears by by apply Hw. split.
  - intros (l & Hl & Htold). exists (kind_of l). split; [|by apply Ht].
    apply Hkinds, list_elem_of_fmap. by exists l.
  - intros (k & Hk & Hin). apply Hkinds, list_elem_of_fmap in Hk as (l & -> & Hl).
    exists l. split; [done|]. by apply Ht.
Qed.

(** Behind the first poll the handlers are installed. *)
Lemma waiting_installed es w d k :
  steps es start = Some (Waiting w, d) -> can k = true -> handled d k.
Proof.
  intros Hs Hk. destruct (waiting_after es w d Hs) as (_ & _ & d0 & _ & _ & _ & Hh & _).
  apply Hh. by right.
Qed.

(** A future that was just polled is not ready. *)
Lemma polled_not_ready d :
  (can SIGTERM || can SIGINT = true) -> ready (shutdown_signal d).2 (shutdown_signal d).1 = false.
Proof.
  intros Hc. pose proof (shutdown_signal_spec d) as Hsp. destruct (shutdown_signal d) as [w d'].
  destruct Hsp as (_ & Hw & Hnew & _). cbn [fst snd]. apply not_true_is_false.
  rewrite ready_hears by by apply Hw. intros (l & Hl & Ht). rewrite Forall_forall in Hnew.
  destruct (Hnew l Hl) as (_ & _ & Hno). congruence.
Qed.

(** From the body of a branch, whatever arrives. *)
Lemma body_deaf ks d :
  (can SIGTERM || can SIGINT = true) -> (forall k, k ∈ ks -> handled d k) ->
  exists w' d', steps (List.map Arrives ks ++ [BodyDone; Polled]) (Busy, d) = Some (Waiting w', d') /\
    ready d' w' = false.
Proof.
  intros Hc Hks.
  destruct (steps_arrivals (List.map Arrives ks) Busy d) as (d1 & Hd1 & _);
    [by apply Forall_map, Forall_true|done|done| |].
  { intros k (k' & [= <-] & Hin)%list_elem_of_fmap. by apply Hks. }
  rewrite steps_app, Hd1. cbn [mbind option_bind steps step fst snd].
  pose proof (polled_not_ready d1 Hc) as Hr. destruct (shutdown_signal d1) as [w' d']. by exists w', d'.
Qed.

End Signals.

(** ** A concrete driver: counts of the signals seen per kind *)
Module ToySignals.

(** [None]: no handler is installed. *)
Record counts : Set := { terms : option nat; ints : option nat }.

Definition seen (d : counts) (k : signal_kind) : option nat :=
  match k with SIGTERM => terms d | SIGINT => ints d end.

Definition set_seen (k : signal_kind) (n : nat) (d : counts) : counts :=
  match k with
  | SIGTERM => {| terms := Some n; ints := ints d |}
  | SIGINT => {| terms := terms d; ints := Some n |}
  end.

Lemma seen_set k n d k' : seen (set_seen k n d) k' = if decide (k' = k) then Some n else seen d k'.
Proof. by destruct k, k'. Qed.

(** A listener knows how many signals there were when it was created. *)
#[export] Instance driver (can : signal_kind -> bool) : SignalDriver := {
  Driver := counts;
  Listener := signal_kind * nat;
  unhandled := {| terms := None; ints := None |};
  listen k d := if can k then let n := default 0 (seen d k) in (Some (k, n), set_seen k n d) else (None, d);
  deliver k d := n ← seen d k; Some (set_seen k (S n) d);
  told d l := bool_decide (l.2 < default 0 (seen d l.1))
}.

Lemma handled_seen can d k : handled (SD:=driver can) d k <-> is_Some (seen d k).
Proof. unfold handled. cbn. destruct (seen d k); cbn; split; intros []; try done; by eexists. Qed.

#[export, refine] Instance driver_laws can : SignalLaws (SD:=driver can) can := {
  kind_of l := l.1;
  live d l := l.2 <= default 0 (seen d l.1)
}.
Proof.
  - intros k d. cbn. destruct (can k); cbn; [by split; [|eexists]|]. by split; [intros []|].
  - intros k d l. cbn. destruct (can k); [|done]. cbn. intros [= <-]. cbn [fst snd].
    rewrite seen_set, decide_True by done. split_and!; [done|done|]. apply bool_decide_eq_false. cbn. lia.
  - intros k d [k' n]. cbn. destruct (can k); [|done]. cbn. rewrite seen_set. by case_decide; subst.
  - intros k k' d. rewrite !handled_seen. cbn. destruct (can k); cbn; [|by intuition congruence].
    rewrite seen_set. case_decide as Hk; [subst; split; [by right|by eexists]|by intuition congruence].
  - intros k d d' [k' n]. cbn. destruct (seen d k) as [m|] eqn:Hm; [|done]. cbn. intros [= <-] Hl.
    rewrite seen_set. case_decide as Hk; [subst k'|by intuition congruence].
    cbn [fst snd] in *. rewrite Hm in *. rewrite !bool_decide_eq_true. cbn in *. split; [lia|]. split; [by right|lia].
  - intros k d d' k' Hd. rewrite !handled_seen. cbn in Hd. destruct (seen d k) as [m|] eqn:Hm; [|done].
    cbn in Hd. injection Hd as <-. rewrite seen_set.
    case_decide as Hk; [subst; rewrite Hm; by split; eexists|done].
Defined.

End ToySignals.

(** ** Properties *)

(** C28 When the program leaves gracefully.  At any point at which the loop
    waits in [select!] with its [shutdown_signal()] polled, the shutdown
    branch can complete exactly if a signal it listens to has arrived since
    that poll.  So signals that arrive while a branch's body runs are lost:
    whatever arrives there, behind the body the loop waits again, and
    without another signal the shutdown branch never completes (nor does
    the default action end the process: its handler is replaced). *)
Theorem shutdown_only_while_waiting `{SD : SignalDriver} can `{SL : !SignalLaws can} es w d
    (Hc : can SIGTERM || can SIGINT = true) (Hs : steps es start = Some (Waiting w, d)) :
  (exists es1 ds, es = es1 ++ Polled :: ds /\ Forall is_arrival ds /\
     (is_Some (steps (es ++ [Leave]) start) <-> exists k, can k = true /\ Arrives k ∈ ds)) /\
  forall ks, Forall (fun k => can k = true) ks ->
    exists w' d', steps (es ++ Other :: List.map Arrives ks ++ [BodyDone; Polled]) start = Some (Waiting w', d') /\
      steps (es ++ Other :: List.map Arrives ks ++ [BodyDone; Polled; Leave]) start = None.
Proof.
  split.
  - destruct (waiting_ready can es w d Hc Hs) as (es1 & ds & Heq & Hds & Hr). exists es1, ds.
    split_and!; [done|done|]. rewrite <- Hr, steps_app, Hs. cbn. destruct (ready d w).
    + split; [done|]. intros _. by eexists.
    + split; [|done]. intros [x Hx]. discriminate Hx.
  - intros ks Hks.
    destruct (body_deaf can ks d Hc) as (w' & d' & Hrun & Hr).
    { intros k Hin. rewrite Forall_forall in Hks. by eapply waiting_installed, Hks. }
    assert (Hw : steps (es ++ Other :: List.map Arrives ks ++ [BodyDone; Polled]) start = Some (Waiting w', d')).
    { rewrite steps_app, Hs. exact Hrun. }
    exists w', d'. split; [done|].
    replace (es ++ Other :: List.map Arrives ks ++ [BodyDone; Polled; Leave])
      with ((es ++ Other :: List.map Arrives ks ++ [BodyDone; Polled]) ++ [Leave])
      by by rewrite <- app_assoc, <- app_comm_cons, <- app_assoc.
    rewrite steps_app, Hw. cbn. by rewrite Hr.
Qed.

(** Both handlers; SIGTERM arrives while a poll of the panel runs. *)
Import ToySignals.

#[local] Instance both : SignalDriver := driver (fun _ => true).

Lemma shutdown_only_while_waiting_witness :
  steps [Polled; Other; Arrives SIGTERM; Arrives SIGTERM; BodyDone; Polled; Leave] start = None /\
  is_Some (steps [Polled; Arrives SIGTERM; Leave] start).
Proof.
  split.
  - destruct (shutdown_only_while_waiting (SD:=both) (SL:=driver_laws _) (fun _ => true) [Polled]
      (OnBoth (SD:=both) (SIGTERM, 0) (SIGINT, 0))
      {| terms := Some 0; ints := Some 0 |} eq_refl eq_refl) as [_ Hl].
    destruct (Hl [SIGTERM; SIGTERM]) as (w & d & _ & Hn); [by repeat constructor|exact Hn].
  - by eexists.
Defined.

(** Before the first poll a signal ends the process. *)
Example killed_before_poll : steps [Arrives SIGINT] start = Some (Killed, unhandled).
Proof. reflexivity. Qed.
