(* ===== verification/Main.v ===== *)
(** * The entry point ([main] in [src/src/main.rs])

    Arguments, configuration, panel client, runtime.  The file system and
    the TOML parser are arguments; tracing and the tokio runtime are not
    modelled.  The supervisor's panel calls go through the client that
    [main] built: [client_env] turns what the network does into the answers
    that [Supervisor.run] awaits. *)

From S2P Require Import Prelude Errors Kdf Str Cipher Protocol Float Net Panel Profile Config PanelClient.
From S2P Require Import Policy Traffic Conn RateLimit TtlMap RelayAudit Task Listeners.
From S2P Require Import Supervisor SupervisorSpec SupervisorInv SupervisorLog SupervisorTheorems.

Section Main.
Context `{W : Wire} `{C : Crypto} `{RE : RegexEngine} `{HO : HashOrder} `{H : Http}.

(** [fs::read_to_string] and [toml::from_str], up to serde's defaults. *)
Context (read_to_string : string -> option string).
Context (from_toml : string -> option (raw_panel * raw_node * raw_limits)).

(** [Config::load]. *)
Definition load (env : string -> option string) (path : string) : res error Config :=
  match read_to_string path with
  | None => Err ConfigUnreadable
  | Some raw =>
      match from_toml raw with
      | None => Err ConfigNotToml
      | Some (p, n, l) => Ok (Config.load env p n l)
      end
  end.

(** [main] up to the runtime; [args] are the arguments behind the program's
    name. *)
Definition boot (env : string -> option string) (args : list string) : res error (Config * PanelClient) :=
  let config_path := config_path_from_args args in
  config ← load env config_path;
  Config.validate config;;
  panel ← PanelClient.new (panel config);
  Ok (config, panel).

(** What the network does with a request, per call. *)
Context (net : list sup_label -> SupShared ->
  option ((HttpClient -> Url -> option body -> option Value) * SupShared)).
Context (E : Env SupAwait SupShared sup_label).

(** The runtime's environment: the panel is reached through [c]. *)
Definition client_env (c : PanelClient) : Env SupAwait SupShared sup_label :=
  fun X a l sh =>
    match a in SupAwait X return option (X * SupShared) with
    | PanelAnswers => match net l sh with Some (exchange, sh') => Some (transport exchange c, sh') | None => None end
    | Now => react Now l sh
    | AwaitStop port => react (AwaitStop port) l sh
    | Meanwhile => react Meanwhile l sh
    | Select => react Select l sh
    end.

Definition main (fuel : nat) (now : Instant) (env : string -> option string) (args : list string)
    : res error () * list sup_label :=
  match boot env args with
  | Ok (config, c) =>
      let '(r, s) := Supervisor.start (Env0:=client_env c) config fuel now in (r, log s)
  | Err e => (Err e, [])
  | Panic => (Panic, [])
  | OutOfFuel => (OutOfFuel, [])
  end.

(** ** Lemmas *)

Lemma client_new_safe config : safe (fun _ => True) (PanelClient.new config).
Proof. unfold PanelClient.new. by repeat case_match. Qed.

Lemma load_safe env path : safe (fun _ => True) (load env path).
Proof. unfold load. repeat case_match; done. Qed.

(** [boot] always returns. *)
Lemma boot_safe env args : safe (fun _ => True) (boot env args).
Proof.
  unfold boot. apply (safe_bind (fun _ => True)); [apply load_safe|intros config _].
  apply (safe_bind (fun _ => True)); [apply validate_safe|intros _ _].
  apply (safe_bind (fun _ => True)); [apply client_new_safe|done].
Qed.

(** What it takes to boot. *)
Lemma boot_ok env args config c :
  boot env args = Ok (config, c) <->
  load env (config_path_from_args args) = Ok config /\ valid config /\
    PanelClient.new (panel config) = Ok c.
Proof.
  unfold boot. destruct (load _ _) as [config'| | |]; rewrite ?bind_Ok; [|split; [done|by intros [? _]]..].
  rewrite <- validate_valid. split.
  - destruct (Config.validate config') as [[]| | |] eqn:Hv; rewrite ?bind_Ok; [|done..].
    destruct (PanelClient.new _) as [c'| | |] eqn:Hn; rewrite ?bind_Ok; [|done..]. intros [= -> ->]. by rewrite Hv.
  - intros ([= ->] & -> & Hn). rewrite bind_Ok, Hn. done.
Qed.

Lemma client_env_ok c :
  sup_env_ok ->
  (forall l sh exchange sh', net l sh = Some (exchange, sh') -> relays_only_did sh sh') ->
  sup_env_ok (Env0:=client_env c).
Proof.
  intros He Hn X a l sh x sh' Hr. destruct a; try by eapply He.
  cbn in Hr. destruct (net l sh) as [[ex sh1]|] eqn:Hl; [|done]. injection Hr as <- <-. by eapply Hn.
Qed.

(** What is sent in a run goes through the client. *)
Lemma client_exchanges c config fuel now :
  let s := (Supervisor.start (Env0:=client_env c) config fuel now).2 in
  forall l1 q a l2, log s = l1 ++ Exchanged q a :: l2 ->
    exists sh exchange sh', net l1 sh = Some (exchange, sh') /\ transport exchange c q = a.
Proof.
  intros s.
  assert (Hs : exchanges_real (Env0:=client_env c) (log s)).
  { apply (run_real (Env0:=client_env c) config fuel
      {| local := new_runtime config now; shared := new_shared; log := [] |}).
    intros k1 q a k2 Hk. by apply (f_equal length) in Hk; rewrite length_app in Hk; cbn in Hk; lia. }
  intros l1 q a l2 (sh & answers & sh' & Hr & Ha)%Hs. cbn in Hr. destruct (net l1 sh) as [[exchange sh1]|] eqn:Hn; [|done]. injection Hr as <- <-.
  by exists sh, exchange, sh1.
Qed.

End Main.

(** ** Properties *)

(** C15 The program as a whole.  [main] gets to the supervisor exactly if the
    file named by the first [--config] (or [config.toml]) can be read and
    parsed, what it says with the environment's overrides is valid, and the
    client can be built; the configuration is then that one, and the client
    has its key and node id.  What [main] then returns and does is exactly
    the run of the supervisor with that configuration against that client:
    every request of it went over the network through the client.  Otherwise
    it returns the error and nothing has started.  In every environment, if
    no ticker's period is zero, [main] does not panic, and when it returns
    no listener is left running. *)
Theorem main_spec `{W : Wire} `{C : Crypto} `{RE : RegexEngine} `{HO : HashOrder} `{H : Http}
    read_to_string from_toml net (E : Env SupAwait SupShared sup_label) fuel now env args
    (He : sup_env_ok)
    (Hn : forall l sh exchange sh', net l sh = Some (exchange, sh') -> relays_only_did sh sh') :
  let path := config_path_from_args args in
  let '(r, l) := main read_to_string from_toml net E fuel now env args in
  match boot read_to_string from_toml env args with
  | Ok (config, c) =>
      (exists raw p n lim, read_to_string path = Some raw /\ from_toml raw = Some (p, n, lim) /\
         config = Config.load env p n lim /\
         pc_key c = default (r_key p) (env "SSPANEL_PANEL_KEY") /\
         pc_node_id c = default (r_node_id p) (env "SSPANEL_NODE_ID" ≫= parse_u64)) /\
      valid config /\ PanelClient.new (panel config) = Ok c /\
      (let '(r', s) := Supervisor.start (Env0:=client_env net E c) config fuel now in
       r = r' /\ l = log s) /\
      (forall l1 q a l2, l = l1 ++ Exchanged q a :: l2 ->
         exists sh exchange sh', net l1 sh = Some (exchange, sh') /\ transport exchange c q = a) /\
      (ticking config -> r <> Panic /\ (r <> OutOfFuel -> running l = ∅))
  | Err e => r = Err e /\ l = [] /\
      (read_to_string path = None -> e = ConfigUnreadable) /\
      (forall raw, read_to_string path = Some raw -> from_toml raw = None -> e = ConfigNotToml) /\
      forall raw p n lim, read_to_string path = Some raw -> from_toml raw = Some (p, n, lim) ->
        ~ (valid (Config.load env p n lim) /\
           exists c, PanelClient.new (panel (Config.load env p n lim)) = Ok c)
  | _ => False
  end.
Proof.
  cbv zeta. unfold main. destruct (boot _ _ env args) as [[config c]|e| |] eqn:Hb.
  - apply boot_ok in Hb as (Hl & Hv & Hc).
    pose proof (run_final (Env0:=client_env net E c) config fuel
      {| local := new_runtime config now; shared := new_shared; log := [] |}) as Hf.
    pose proof (client_exchanges net E c config fuel now) as Hx. cbv zeta in Hx.
    unfold start, wp in *. destruct (run (Env0:=client_env net E c) config fuel _) as [r s].
    split_and!; [|done|done|done|done|exact Hx|].
    + unfold load in Hl. destruct (read_to_string _) as [raw|] eqn:Hr; [|done].
      destruct (from_toml raw) as [[[p n] lim]|] eqn:Ht; [|done]. injection Hl as <-.
      destruct (load_overrides env p n lim) as (_ & Hk & Hi). exists raw, p, n, lim.
      unfold PanelClient.new in Hc. destruct (Url_parse _) as [u|]; [|done].
      destruct (build_client _ _ _) as [h|]; [|done]. injection Hc as <-. by split_and!.
    + intros Ht. apply Hf; [done|by apply client_env_ok|apply new_inv|done].
  - split_and!; [done|done| | |].
    + intros Hr. unfold boot, load in Hb. rewrite Hr in Hb. by injection Hb.
    + intros raw Hr Ht. unfold boot, load in Hb. rewrite Hr, Ht in Hb. by injection Hb.
    + intros raw p n lim Hr Ht [Hv [c Hc]].
      assert (boot read_to_string from_toml env args = Ok (Config.load env p n lim, c)) as Hok; [|congruence].
      apply boot_ok. split_and!; [|done|done]. unfold load. by rewrite Hr, Ht.
  - pose proof (boot_safe read_to_string from_toml env args) as Hs. by rewrite Hb in Hs.
  - pose proof (boot_safe read_to_string from_toml env args) as Hs. by rewrite Hb in Hs.
Qed.

(** ** A start of the program *)

Import Toy ToyHttp.

#[local] Existing Instance key_order.
#[local] Existing Instance toy_wire.

Definition toy_file (path : string) : option string :=
  if String.eqb path "/etc/node.toml" then Some "[panel]" else None.

Definition toy_toml (raw : string) : option (raw_panel * raw_node * raw_limits) :=
  Some (minimal_panel "https://panel.example/" "secret" 7, empty_node, empty_limits).

Definition toy_env (name : string) : option string :=
  if String.eqb name "SSPANEL_NODE_ID" then Some "12" else None.

(** The panel behind the URL; requests without the key get nothing. *)
Definition toy_exchange (_ : option IpAddr) (u : toy_url) (b : option body) : option ToyWire.value :=
  match t_pairs u with
  | ("key", "secret") :: query =>
      toy_panel None {| req_path := String.substring 8 (String.length (t_path u)) (t_path u);
                        req_query := query; req_body := b |}
  | _ => None
  end.

Definition toy_net (l : list (@sup_label toy_wire)) (sh : @SupShared ToyRegex.engine) :
    option ((option IpAddr -> toy_url -> option body -> option ToyWire.value) * @SupShared ToyRegex.engine) :=
  Some (toy_exchange, sh).

Abbreviation toy_main :=
  (main (W:=toy_wire) (C:=crypto) (H:=toy_http) toy_file toy_toml toy_net toy_sup_env 4 0 toy_env).

Example toy_main_runs :
  (toy_main ["--config"; "/etc/node.toml"]).1 = Ok () /\
  List.map label_name (toy_main ["--config"; "/etc/node.toml"]).2 =
    ["func/ping"; "nodes/12/info"; "func/detect_rules"; "func/relay_rules"; "func/detect_rules";
     "users"; "tables"; "spawned"; "forgotten";
     "users"; "tables"; "forgotten"; "func/detect_rules"; "users/traffic"; "stopping"] /\
  toy_main ["--config"] = (Err ConfigUnreadable, []).
Proof. split_and!; by vm_compute. Qed.

Definition toy_args : list string := ["--config"; "/etc/node.toml"].

Lemma toy_main_ok : (toy_main toy_args).1 = Ok ().
Proof. by vm_compute. Qed.

Lemma toy_net_ok l (sh : @SupShared ToyRegex.engine) exchange sh' :
  toy_net l sh = Some (exchange, sh') -> relays_only_did sh sh'.
Proof. intros [= _ <-]. apply relays_only_did_refl. Qed.

Lemma toy_load_ticking :
  ticking (Config.load toy_env (minimal_panel "https://panel.example/" "secret" 7) empty_node empty_limits).
Proof. split_and!; by vm_compute. Qed.

Lemma main_spec_witness :
  running (toy_main toy_args).2 = ∅ /\
  exists config c, boot (H:=toy_http) toy_file toy_toml toy_env toy_args = Ok (config, c) /\
    valid config /\ pc_key c = "secret" /\ pc_node_id c = 12%Z /\
    (toy_main toy_args).2 =
      log (Supervisor.start (W:=toy_wire) (C:=crypto) (Env0:=client_env toy_net toy_sup_env c) config 4 0).2.
Proof.
  pose proof (main_spec (W:=toy_wire) (C:=crypto) (H:=toy_http) toy_file toy_toml toy_net toy_sup_env 4 0 toy_env
    toy_args toy_sup_env_ok toy_net_ok) as Hw.
  pose proof toy_main_ok as Hr. cbv zeta in Hw.
  destruct (main _ _ _ _ 4 0 _ _) as [r l]. cbn [fst snd] in *.
  destruct (boot _ _ _ _) as [[config c]|e| |].
  - destruct Hw as ((raw & p & n & lim & _ & Ht & Hcfg & Hk & Hi) & Hv & _ & Hst & _ & Hrun).
    injection Ht as Hp Hn Hlim. subst p n lim. split.
    + apply Hrun; [rewrite Hcfg; exact toy_load_ticking|rewrite Hr; discriminate].
    + exists config, c. split; [reflexivity|]. split; [exact Hv|]. split; [exact Hk|].
      split; [exact Hi|]. destruct (start config 4 0) as [r' s]. exact (proj2 Hst).
  - destruct Hw as (Hw & _). rewrite Hr in Hw. discriminate Hw.
  - destruct Hw.
  - destruct Hw.
Defined.
