(* ===== verification/Tests.v ===== *)
(** * The unit tests

    Every [#[test]] of the program as a definition, evaluated by the kernel
    with the primitives of Standards.v: the model gives what the code's own
    tests ask of it.  A test returns whether its assertions hold; an
    [unwrap] that fails is an error.  The names are those of the code, one
    module per file; the file and lines are in the comments.  The operating
    system's generator is [os_random]: no test looks at what it returns. *)

From S2P Require Import Prelude Errors Kdf Standards Rc4 Str Cipher Protocol Session Client Net Address.
From S2P Require Import Float Panel Profile Config Policy Traffic Conn RateLimit RelayAudit Supervisor.

Import Standards.

#[local] Existing Instance standard_crypto.

(** [assert_eq!]. *)
Definition same {A} `{EqDecision A} (x y : A) : bool := bool_decide (x = y).

Definition os_random (n : nat) : option bytes := Some (take n (rev all_bytes)).

Definition is_err {E A} (r : res E A) : bool := match r with Err _ => true | _ => false end.

Definition of_octets (l : list nat) : bytes := List.map usize_as_u8 l.

(** [".."].parse::<IpAddr>().unwrap(). *)
Definition ip_of (s : string) : res error IpAddr := expect (parse_ip s).

(** ** [src/src/ssr/kdf.rs] *)
Module KdfTests.

Definition evp_matches_known_vector : bool :=
  String.eqb (hex (evp_bytes_to_key (text "password") 16)) "5f4dcc3b5aa765d61d8327deb882cf99".

Definition evp_extends_past_one_block : bool :=
  let k16 := evp_bytes_to_key (text "hunter2") 16 in
  let k32 := evp_bytes_to_key (text "hunter2") 32 in
  same (take 16 k32) k16 && (length k32 =? 32).

Definition md5_of_empty : bool := String.eqb (hex (Kdf.md5 [])) "d41d8cd98f00b204e9800998ecf8427e".

Example kdf_tests_pass : forallb id [evp_matches_known_vector; evp_extends_past_one_block; md5_of_empty] = true.
Proof. by vm_compute. Qed.

End KdfTests.

(** ** [src/src/ssr/rc4.rs] *)
Module Rc4Tests.

Definition rc4_known_answer : res error bool :=
  c ← Rc4_new (text "Key");
  Ok (String.eqb (hex (rc4_apply c (text "Plaintext")).1) "bbf316e8d940af0ad3").

Definition rc4_wikipedia_vector : res error bool :=
  c ← Rc4_new (text "Wiki");
  Ok (String.eqb (hex (rc4_apply c (text "pedia")).1) "1021bf0420").

Definition rc4md5_roundtrip : res error bool :=
  let master := evp_bytes_to_key (text "secret") KEY_LEN in
  let iv := repeat Byte.x07 IV_LEN in
  enc ← Rc4Md5_new master iv;
  dec ← Rc4Md5_new master iv;
  let original := text "the quick brown fox jumps over the lazy dog" in
  let buf := (Rc4Md5_process enc original).1 in
  Ok (negb (same buf original) && same (Rc4Md5_process dec buf).1 original).

Example rc4_tests_pass : [rc4_known_answer; rc4_wikipedia_vector; rc4md5_roundtrip] = repeat (Ok true) 3.
Proof. by vm_compute. Qed.

End Rc4Tests.

(** ** [src/src/ssr/cipher.rs] *)
Module CipherTests.

Definition method_mapping_and_lengths : res error bool :=
  rc4 ← CipherKind.from_method "rc4-md5";
  cc ← CipherKind.from_method "CHACHA20-IETF";
  Ok (same (CipherKind.key_len rc4, CipherKind.iv_len rc4) (16, 16) &&
      same (CipherKind.key_len cc, CipherKind.iv_len cc) (32, 12) &&
      is_err (CipherKind.from_method "aes-256-gcm")).

Definition chacha20_roundtrip_and_keystream : res error bool :=
  let kind := CipherKind.Chacha20Ietf in
  let key := evp_bytes_to_key (text "secret") (CipherKind.key_len kind) in
  let iv := repeat Byte.x07 12 in
  let original := text "the quick brown fox jumps over the lazy dog" in
  c ← StreamCipher.new_stream kind key iv;
  let buf := (StreamCipher.process c original).1 in
  c ← StreamCipher.new_stream kind key iv;
  Ok (negb (same buf original) && same (StreamCipher.process c buf).1 original).

Example cipher_tests_pass : [method_mapping_and_lengths; chacha20_roundtrip_and_keystream] = repeat (Ok true) 2.
Proof. by vm_compute. Qed.

End CipherTests.

(** ** [src/src/ssr/address.rs] *)
Module AddressTests.

(** [parse(&buf).unwrap().unwrap()], against an address and what follows. *)
Definition parses_to (buf : bytes) (h : string) (p : Z) (rest : bytes) : res error bool :=
  r ← Address.parse buf;
  '(addr, consumed) ← expect r;
  Ok (String.eqb (host addr) h && (port addr =? p)%Z && same (drop consumed buf) rest).

Definition parse_ipv4 : res error bool :=
  parses_to (of_octets [1; 1; 2; 3; 4; 1; 187] ++ text "hi") "1.2.3.4" 443 (text "hi").

Definition parse_domain : res error bool :=
  parses_to (of_octets [3; 11] ++ text "example.com" ++ of_octets [0; 80] ++ text "GET") "example.com" 80 (text "GET").

Definition partial_returns_none : res error bool :=
  r ← Address.parse (of_octets [3; 11] ++ text "ex"); Ok (match r with None => true | Some _ => false end).

Definition bad_atyp_errors : res error bool := Ok (is_err (Address.parse (of_octets [5; 0; 0]))).

Definition parse_ipv4_with_connecttype_flag : res error bool :=
  parses_to (of_octets [9; 1; 2; 3; 4; 1; 187]) "1.2.3.4" 443 [].

Example address_tests_pass :
  [parse_ipv4; parse_domain; partial_returns_none; bad_atyp_errors; parse_ipv4_with_connecttype_flag] =
    repeat (Ok true) 5.
Proof. by vm_compute. Qed.

End AddressTests.

(** ** [src/src/ssr/mod.rs] *)
Module SsrTests.
Import ClientCodec.

(** The first packet carries 93.184.216.34:443 and a payload; then a second
    chunk, and two replies. *)
Definition roundtrip_with (k : CipherKind) (password : string) : res error bool :=
  client ← new_kind password k;
  server ← ServerSession.new os_random password ∅ 0 k;
  let first_payload := of_octets [1; 93; 184; 216; 34; 1; 187] ++ text "hello target" in
  '(wire, client) ← outcome (client_first_send first_payload) client;
  '(decoded, server) ← outcome (ServerSession.decrypt wire) server;
  '(more, client) ← outcome (client_send (text "second chunk")) client;
  '(decoded2, server) ← outcome (ServerSession.decrypt more) server;
  '(reply, server) ← outcome (ServerSession.encrypt (text "response bytes")) server;
  '(got, client) ← outcome (client_recv reply) client;
  '(reply2, server) ← outcome (ServerSession.encrypt (text "more response")) server;
  '(got2, client) ← outcome (client_recv reply2) client;
  Ok (same decoded first_payload && same decoded2 (text "second chunk") &&
      same got (text "response bytes") && same got2 (text "more response")).

(** The server is fed one byte at a time. *)
Definition split_iv_with (k : CipherKind) (password : string) : res error bool :=
  client ← new_kind password k;
  server ← ServerSession.new os_random password ∅ 0 k;
  let payload := of_octets [1; 1; 1; 1; 1; 0; 80] ++ text "data" in
  '(wire, client) ← outcome (client_first_send payload) client;
  '(out, server) ← outcome (ServerSession.feed (List.map (fun b => [b]) wire)) server;
  Ok (same out payload).

Definition multi_user_tcp_with (k : CipherKind) (carrier_password : string) : res error bool :=
  let user_id := 42%Z in
  let user_password := "real-user-password" in
  let users : gmap Z bytes := {[user_id := derive_user_auth_key user_password]} in
  client ← new_multi_kind carrier_password user_id user_password k;
  server ← ServerSession.new os_random carrier_password users 2 k;
  let payload := of_octets [1; 1; 1; 1; 1; 0; 80] ++ text "x" in
  '(wire, client) ← outcome (client_first_send payload) client;
  '(decoded, server) ← outcome (ServerSession.decrypt wire) server;
  Ok (same decoded payload && same (ServerSession.user_id server) (Some user_id)).

(** A client's datagram: address and payload, uid, MAC; behind its IV. *)
Definition client_datagram (k : CipherKind) (cipher_key mac_key iv header_and_payload uid : bytes) : res error bytes :=
  let plain := header_and_payload ++ uid in
  let plain := plain ++ hmac_md5_prefix mac_key plain 4 in
  c ← StreamCipher.new_stream k cipher_key iv;
  Ok (iv ++ (StreamCipher.process c plain).1).

(** The response as the client reads it: decrypted, cut into data and MAC. *)
Definition client_opens (k : CipherKind) (cipher_key pkt : bytes) : res error (bytes * bytes) :=
  let iv_len := CipherKind.iv_len k in
  c ← StreamCipher.new_stream k cipher_key (take iv_len pkt);
  let cbody := (StreamCipher.process c (drop iv_len pkt)).1 in
  let n := length cbody in
  Ok (take (n - 4) cbody, drop (n - 4) cbody).

Definition udp_roundtrip_with (k : CipherKind) (password : string) : res error bool :=
  let mkey := derive_master_key password k in
  wire ← client_datagram k mkey mkey (repeat Byte.x09 (CipherKind.iv_len k))
    (of_octets [1; 8; 8; 8; 8; 0; 53] ++ text "ping") (of_octets [170; 187; 204; 221]);
  '(decoded, uid) ← udp_decrypt_packet mkey ∅ 0 wire k;
  request ← AddressTests.parses_to decoded "8.8.8.8" 53 (text "ping");
  addr ← ip_of "8.8.8.8";
  pkt ← udp_encrypt_packet os_random mkey mkey (pack_socket_addr addr 53 ++ text "pong") k;
  '(data, mac) ← client_opens k mkey pkt;
  reply ← AddressTests.parses_to data "8.8.8.8" 53 (text "pong");
  Ok (same uid None && request && same (hmac_md5_prefix mkey data 4) mac && reply).

Definition handshake_and_relay_roundtrip : res error bool :=
  roundtrip_with CipherKind.Rc4Md5 "correct horse battery staple".
Definition chacha20_handshake_and_relay_roundtrip : res error bool :=
  roundtrip_with CipherKind.Chacha20Ietf "chacha secret password".

Definition decrypt_handles_split_iv : res error bool := split_iv_with CipherKind.Rc4Md5 "splitiv".
Definition chacha20_decrypt_handles_split_iv : res error bool :=
  split_iv_with CipherKind.Chacha20Ietf "chacha-splitiv".

Definition multi_user_tcp_identifies_uid : res error bool := multi_user_tcp_with CipherKind.Rc4Md5 "carrier".
Definition chacha20_multi_user_tcp_identifies_uid : res error bool :=
  multi_user_tcp_with CipherKind.Chacha20Ietf "chacha-carrier".

Definition udp_roundtrip : res error bool := udp_roundtrip_with CipherKind.Rc4Md5 "udp-secret".
Definition chacha20_udp_roundtrip : res error bool := udp_roundtrip_with CipherKind.Chacha20Ietf "chacha-udp".

Definition udp_wrong_password_fails : res error bool :=
  let kind := CipherKind.Rc4Md5 in
  let mkey := derive_master_key "right" kind in
  wire ← client_datagram kind mkey mkey (repeat Byte.x03 (CipherKind.iv_len kind))
    (of_octets [1; 1; 1; 1; 1; 0; 53] ++ text "x") (repeat Byte.x00 4);
  Ok (is_err (udp_decrypt_packet (derive_master_key "wrong" kind) ∅ 0 wire kind)).

Definition wrong_password_fails : res error bool :=
  client ← new_kind "right" CipherKind.Rc4Md5;
  server ← ServerSession.new os_random "wrong" ∅ 0 CipherKind.Rc4Md5;
  '(wire, _) ← outcome (client_first_send (of_octets [1; 1; 1; 1; 1; 0; 80] ++ text "x")) client;
  Ok (is_err (ServerSession.decrypt wire server).1).

Definition multi_user_udp_identifies_uid : res error bool :=
  let kind := CipherKind.Rc4Md5 in
  let carrier_key := derive_master_key "carrier" kind in
  let user_id := 77%Z in
  let user_key := derive_user_auth_key "udp-real-user" in
  let users : gmap Z bytes := {[user_id := user_key]} in
  wire ← client_datagram kind carrier_key user_key (repeat Byte.x05 (CipherKind.iv_len kind))
    (of_octets [1; 8; 8; 4; 4; 0; 53] ++ text "query") (u32_to_le user_id);
  '(decoded, uid) ← udp_decrypt_packet carrier_key users 2 wire kind;
  request ← AddressTests.parses_to decoded "8.8.4.4" 53 (text "query");
  addr ← ip_of "8.8.4.4";
  pkt ← udp_encrypt_packet os_random carrier_key user_key (pack_socket_addr addr 53 ++ text "answer") kind;
  '(data, mac) ← client_opens kind carrier_key pkt;
  reply ← AddressTests.parses_to data "8.8.4.4" 53 (text "answer");
  Ok (same uid (Some user_id) && request && same (hmac_md5_prefix user_key data 4) mac &&
      negb (same (hmac_md5_prefix carrier_key data 4) mac) && reply).

Example ssr_tests_pass :
  [handshake_and_relay_roundtrip; decrypt_handles_split_iv; udp_roundtrip; udp_wrong_password_fails;
   wrong_password_fails; multi_user_tcp_identifies_uid; multi_user_udp_identifies_uid;
   chacha20_handshake_and_relay_roundtrip; chacha20_decrypt_handles_split_iv;
   chacha20_multi_user_tcp_identifies_uid; chacha20_udp_roundtrip] = repeat (Ok true) 11.
Proof. by vm_compute. Qed.

End SsrTests.

(** ** [src/src/policy.rs] *)
Module PolicyTests.

Definition contained (c : Cidr.t) (s : string) : option bool := a ← parse_ip s; Some (Cidr.contains c a).

(** The addresses that a block contains, and those it does not. *)
Definition block_test (block : string) (inside outside : list string) : res error bool :=
  c ← expect (Cidr.parse block);
  Ok (forallb (fun s => same (contained c s) (Some true)) inside &&
      forallb (fun s => same (contained c s) (Some false)) outside).

Definition cidr_v4_contains : res error bool :=
  block_test "127.0.0.0/8" ["127.0.0.1"; "127.255.255.254"] ["126.255.255.255"; "128.0.0.0"].
Definition cidr_bare_host : res error bool := block_test "1.2.3.4" ["1.2.3.4"] ["1.2.3.5"].
Definition cidr_v6_loopback : res error bool := block_test "::1/128" ["::1"] ["::2"].
Definition cidr_v4_mapped_matches_v4_rule : res error bool := block_test "127.0.0.0/8" ["::ffff:127.0.0.1"] [].

Definition port_range : res error bool :=
  r ← expect (PortRange.parse "1000-2000");
  single ← expect (PortRange.parse "25");
  Ok (PortRange.contains r 1000 && PortRange.contains r 2000 && negb (PortRange.contains r 999) &&
      negb (PortRange.contains r 2001) && PortRange.contains single 25 && negb (PortRange.contains single 26)).

Definition row (id port : Z) (enable speed connector : option Z) (ips ports : option string) : PanelUser :=
  {| pu_id := id; pu_user_id := None; pu_port := port; pu_password := "x"; pu_method := None;
     pu_protocol := None; pu_protocol_param := None; pu_obfs := None; pu_obfs_param := None;
     pu_enable := enable; pu_is_multi_user := 0; pu_node_speedlimit := f64_of_Z <$> speed;
     pu_node_connector := connector; pu_forbidden_ip := ips; pu_forbidden_port := ports |}.

Definition policy_from_panel_loopback_block : res error bool :=
  let p := UserPolicy.from_user (row 1477 558 (Some 1%Z) (Some 0%Z) (Some 4%Z)
    (Some "127.0.0.0/8,::1/128") (Some "")) in
  a ← ip_of "127.0.0.1"; b ← ip_of "::1"; c ← ip_of "8.8.8.8";
  Ok ((UserPolicy.conn_limit p =? 4)%Z && (UserPolicy.speed_limit_bps p =? 0)%Z && UserPolicy.ip_forbidden p a &&
      UserPolicy.ip_forbidden p b && negb (UserPolicy.ip_forbidden p c) && negb (UserPolicy.is_unrestricted p)).

Definition base_user_with_speed (mbit : Z) : PanelUser := row 1 1 (Some 1%Z) (Some mbit) (Some 0%Z) None None.

Definition speed_only_needs_no_connection_policy : bool :=
  let p := UserPolicy.from_user (base_user_with_speed 5) in
  let u := row 1 1 (Some 1%Z) (Some 0%Z) (Some 3%Z) None None in
  let u2 := row 1 1 (Some 1%Z) (Some 0%Z) (Some 0%Z) (Some "10.0.0.0/8") None in
  negb (UserPolicy.is_unrestricted p) && negb (UserPolicy.needs_connection_policy p) &&
  UserPolicy.needs_connection_policy (UserPolicy.from_user u) &&
  UserPolicy.needs_connection_policy (UserPolicy.from_user u2).

Definition speed_mbit_to_bytes : bool :=
  (UserPolicy.speed_limit_bps (UserPolicy.from_user (base_user_with_speed 1)) =? 131072)%Z.

Example policy_tests_pass :
  [cidr_v4_contains; cidr_bare_host; cidr_v6_loopback; cidr_v4_mapped_matches_v4_rule; port_range;
   policy_from_panel_loopback_block; Ok speed_only_needs_no_connection_policy; Ok speed_mbit_to_bytes] =
    repeat (Ok true) 8.
Proof. by vm_compute. Qed.

End PolicyTests.

(** ** [src/src/traffic.rs] *)
Module TrafficTests.

(** Instants are those at which the calls return; the clock only moves with
    the sleeps. *)
Definition rate_limiter_unlimited_is_noop : res error bool :=
  '(t, _) ← acquire 1 (fun _ => 0%Z) 0 1000000000 (RateLimit.new 0 0);
  Ok (t <? from_millis 50)%Z.

Definition rate_limiter_throttles_after_burst : res error bool :=
  let mib := 1048576%Z in
  '(t1, rl) ← acquire 1 (fun _ => 0%Z) 0 mib (RateLimit.new 0 1048576);
  '(t2, rl) ← acquire 5 (fun _ => 0%Z) t1 mib rl;
  Ok ((t1 <? from_millis 50) && (from_millis 900 <=? t2))%Z.

Definition set_rate_reclamps_tokens : bool :=
  let rl := RateLimit.set_rate 0 0 (RateLimit.new 0 10485760) in
  let b := RateLimit.set_rate 0 1024 rl in
  same (RateLimit.rate rl) f64_zero && f64_leb (RateLimit.tokens b) (RateLimit.capacity b).

(** Drop the guards of these addresses. *)
Fixpoint drop_guards (l : list string) (set : gmap string nat) : res error (gmap string nat) :=
  match l with
  | [] => Ok set
  | ip :: l => set ← Conn.drop_guard set ip; drop_guards l set
  end.

Definition conn_guard_counts_distinct_ips_not_connections : res error bool :=
  let limit := 2%Z in
  set ← expect (Conn.acquire ∅ "1.1.1.1" limit);
  set ← expect (Conn.acquire set "1.1.1.1" limit);
  set ← expect (Conn.acquire set "1.1.1.1" limit);
  set ← expect (Conn.acquire set "2.2.2.2" limit);
  let two := size set =? 2 in
  let refused := bool_decide (Conn.acquire set "3.3.3.3" limit = None) in
  set ← expect (Conn.acquire set "1.1.1.1" limit);
  set ← drop_guards ["1.1.1.1"; "1.1.1.1"; "1.1.1.1"; "1.1.1.1"] set;
  let one := size set =? 1 in
  set ← expect (Conn.acquire set "3.3.3.3" limit);
  let two_again := size set =? 2 in
  set ← drop_guards ["2.2.2.2"; "3.3.3.3"] set;
  Ok (two && refused && one && two_again && bool_decide (set = ∅)).

Definition conn_guard_zero_limit_is_unlimited : res error bool :=
  set ← expect (Conn.acquire ∅ "1.1.1.1" 0);
  set ← expect (Conn.acquire set "2.2.2.2" 0);
  set ← expect (Conn.acquire set "3.3.3.3" 0);
  let three := size set =? 3 in
  set ← drop_guards ["1.1.1.1"; "2.2.2.2"; "3.3.3.3"] set;
  Ok (three && bool_decide (set = ∅)).

Example traffic_tests_pass :
  [rate_limiter_unlimited_is_noop; rate_limiter_throttles_after_burst; Ok set_rate_reclamps_tokens;
   conn_guard_counts_distinct_ips_not_connections; conn_guard_zero_limit_is_unlimited] = repeat (Ok true) 5.
Proof. by vm_compute. Qed.

End TrafficTests.

(** ** [src/src/user_tables.rs] *)
Module UserTablesTests.

(** The watch channel is the cell [s_published]: [send_replace] writes it,
    [borrow] reads it, and a clone of what was read is a value. *)
Section Watch.
Context `{RE : RegexEngine}.

Definition tables_with_user (user_id : Z) (key : bytes) : UserTables :=
  {| auth_users := {[user_id := key]}; counters_by_user := ∅; conns_by_user := ∅; speeds_by_user := ∅;
     policies := ∅ |}.

Definition key_of (user_id : Z) (rx : SupShared) : option bytes := auth_users (s_published rx) !! user_id.

Definition existing_subscriber_sees_republished_snapshot : bool :=
  let ch := new_shared in
  let ch1 := set_published (tables_with_user 7 (of_octets [1; 2])) ch in
  let ch2 := set_published (tables_with_user 7 (of_octets [170; 187])) ch1 in
  bool_decide (auth_users (s_published ch) = ∅) && same (key_of 7 ch1) (Some (of_octets [1; 2])) &&
  same (key_of 7 ch2) (Some (of_octets [170; 187])).

Definition cloned_snapshot_is_stable_across_republish : bool :=
  let ch := set_published (tables_with_user 1 (text "old")) new_shared in
  let snapshot := s_published ch in
  let ch1 := set_published (tables_with_user 1 (text "new")) ch in
  same (auth_users snapshot !! 1%Z) (Some (text "old")) && same (key_of 1 ch1) (Some (text "new")).

End Watch.

Example user_tables_tests_pass `{RE : RegexEngine} :
  existing_subscriber_sees_republished_snapshot && cloned_snapshot_is_stable_across_republish = true.
Proof. by vm_compute. Qed.

End UserTablesTests.

(** ** [src/src/runtime/supervisor.rs] *)
Module SupervisorTests.

Definition profile : res error Profile.t :=
  Profile.new "rc4-md5" "auth_aes128_md5" "plain" (from_secs 300).

Definition fingerprint (port : Z) (password : string) (is_multi_user : Z) : res error UserFingerprint :=
  p ← profile;
  Ok {| fp_port := port; fp_password := password; fp_profile := p; fp_is_multi_user := is_multi_user |}.

Definition fingerprint_stable_across_user_changes : res error bool :=
  a ← fingerprint 558 "carrier" 2; b ← fingerprint 558 "carrier" 2; Ok (same a b).

Definition fingerprint_changes_on_socket_level_change : res error bool :=
  base ← fingerprint 558 "carrier" 2;
  port ← fingerprint 559 "carrier" 2;
  password ← fingerprint 558 "rotated" 2;
  mode ← fingerprint 558 "carrier" 0;
  Ok (negb (same base port) && negb (same base password) && negb (same base mode)).

Example supervisor_tests_pass :
  [fingerprint_stable_across_user_changes; fingerprint_changes_on_socket_level_change] = repeat (Ok true) 2.
Proof. by vm_compute. Qed.

End SupervisorTests.
